(* ===== verification/_CoqProject ===== *)
-Q . S2P
Prelude.v
GoStrings.v
GoNet.v
GoFloat.v
GoTime.v
GoHeap.v
GoFlag.v
Api.v
Wire.v
Pipeline.v
Ingest.v
Authorize.v
Objects.v
Reconcile.v
Istio.v
Damp.v
Ewma.v
Report.v
Stability.v
Snapshot.v
System.v
Kube.v
PolicyController.v
PeerController.v
Sessions.v
BackendController.v
Interleave.v
InterleaveView.v
Progress.v
Delivery.v
Loop.v
Trust.v
DeepCopy.v
Main.v
Scheme.v
Queue.v
Convergence.v
TestUtils.v
