(* ===== verification/Prelude.v ===== *)
(** * KREG: a verification development of the BGP-driven gateway controller

    ** The program

    KREG is a Kubernetes controller written in Go.  It peers with other clusters
    over BGP, decides which of the routes it hears are legitimate backends, keeps
    them stable under flapping, and turns them into Services, EndpointSlices and
    Istio DestinationRules.  The sources are under [api/v1alpha1], [internal] and
    [cmd]; their data flow, once per polling interval, is

<<
      GoBGP RIB --Ingest--> RIBRoute --Authorize--> RIBRoute --Normalize-->
      BackendCandidate --Damp--> BackendCandidate
           |--Render--> Service, EndpointSlice, DestinationRule   (policy controller)
           |--Report--> AdvertisedBackend --(next tick)--> memory of Damp
>>

    [internal/snapshot] chains the first four stages; three controllers drive the
    rest: the BGPPeerConfig controller converges the BGP sessions, the
    BGPBackendPolicy controller renders and applies a policy's objects, and the
    AdvertisedBackend controller writes the read-only view.  The damper has no
    memory of its own: the AdvertisedBackend records of the last tick are its
    state, so Report and Damp form a loop through the API server.

    ** The files

    Foundations.
    - [Prelude]: Go errors and the error monad, fixed-width integers, the generic
      list, option and map lemmas, the tactics and hint databases, and the class
      [Sorter] for [sort.Slice] and [sort.Strings] (any function that returns a
      sorted permutation, which is all the packages document).
    - [GoStrings], [GoNet], [GoFloat], [GoTime]: what the sources use of [strings],
      [strconv], [fmt], [net], [net/netip], [math] and [time].  Addresses are byte
      lists; a [float64] is a binary64 [spec_float]; a duration or a time is an
      integer number of nanoseconds.  [Platform] has [math.Pow] and the
      out-of-range float-to-integer conversion, which Go leaves to the platform.
    - [GoHeap]: memory with pointers and slices, for the one part of the sources
      whose point is aliasing; [GoFlag]: the command line as [flag] reads it.

    Data and pipeline stages.
    - [Api]: the custom resources of [api/v1alpha1], field by field.
    - [Wire]: the form in which the API server keeps an AdvertisedBackend status:
      JSON by the field tags (omitempty, omitzero), times in whole seconds.
    - [DeepCopy]: zz_generated.deepcopy.go, every method of every type, over
      [GoHeap]; the layout and methods of imported types are the class [Imports].
    - [Scheme]: groupversion_info.go, the [init] functions of the types files and the one
      of main.go.
    - [Ingest]: internal/ingest.  rib.go's [decodeDestination] and below, and
      manager.go's [Reconfigure], [Status] and [Snapshot] over the classes
      [BgpServer] and [BgpServerLaws].
    - [Authorize]: internal/authorize.  [Authorize], [matchBinding] and the
      rejection tracker.
    - [Pipeline]: internal/pipeline.  [RIBRoute], [BackendCandidate], [Normalize].
    - [Damp], [Ewma]: internal/damp.  [PriorStateFromAdvertisedBackends], the
      [Damper] interface (with [DamperLaws], what the pipeline needs of any
      damper) and the EWMA implementation [ewmaEvaluate].
    - [Objects], [Reconcile], [Istio]: internal/reconcile.  The generated objects,
      [Select], [Render] and the naming functions against the [Driver] interface,
      and the Istio driver, an instance of [Driver] and [OwnedDriver].
    - [Report]: internal/report.  [BuildAdvertisedBackends] and [clampToInt32].
    - [Snapshot]: internal/snapshot.  [Source.Snapshot] over the classes
      [KubeReader], [RIB] and [Damper].

    Composition over time.
    - [Stability]: the life of one backend as a transition system, [tick] and [run].
    - [System]: one tick of Damp and Report together, through the stored form of
      the records, and the simulation theorem that connects it with
      [Stability.tick].
    - [Loop]: [snapshot.Source] as the source of the AdvertisedBackend controller,
      and the cluster as a transition system of its passes, with any outcome, and
      of other activity.
    - [Trust]: the trust boundary over such histories, from the cluster bindings that
      were in force to the addresses in the EndpointSlices of a policy.

    Controllers, internal/controller.
    - [Kube]: the API server as the controllers use it ([Client], [ClientLaws]) and
      [MemoryServer], an implementation that satisfies the laws.
    - [PolicyController], [PeerController], [BackendController]: one [Reconcile]
      each, with its helpers, as state passing over the world.
    - [Interleave], [InterleaveView]: a pass of the policy controller, and one of the
      view, while others write, between any two of its calls.
    - [Progress]: when a pass succeeds, given servers that answer and take what their
      validation accepts ([ReliableClient], [ReliableBgp], [ReliableBackends]).
    - [Delivery]: the policy controller with the Istio driver.
    - [Sessions]: the life of the ingest [Manager] ([NewManager], [Serve], [Stop],
      [Reconfigure]) as a transition system with a log of the calls it makes.
    - [Main]: cmd/main.go and the [SetupWithManager] methods: flags, options, the
      objects of the process and who shares them, and the calls to
      controller-runtime in order, each of which may fail.
    - [Queue]: a controller over time, as a timeline of events, passes that end at some
      time, and other changes, over any [Reconcile]; what controller-runtime's queue does
      is the hypothesis [Dispatched].  The policy and view controllers are instances.
    - [Convergence]: the timelines of [Queue] with the passes of [PolicyController], one
      policy among any number of others.

    Tests.
    - [TestUtils]: test/utils/utils.go, the helpers of the end-to-end tests.

    ** What the theorems show

    - Trust boundary ([Authorize], [Snapshot]).  The two index-based loops of
      [Authorize] refine a per-route specification; the base address of an unrejected route
      lies in an allowed prefix and the route carries the operator's cluster, not the
      peer's claims; caps hold; the verdicts on a cluster's routes are those it would get
      alone; arrival order is irrelevant; the exact error conditions; the byte-level match
      is the arithmetic one on IPv4.  [Snapshot_provenance] carries the guarantee, caps
      included, through the whole pipeline.
    - Trust over time ([Trust]).  Whatever passes, failures and changes a cluster has been
      through, as long as lists are current, the base address of a served candidate, and
      every address in an EndpointSlice of a policy's Service, is allowed by a binding in
      force, or by an earlier one while the backend is held down for less than the grace.
    - Decoding ([Ingest], [Pipeline]).  RIB decoding as a function of each
      destination, community patterns as numeric matching, and [Normalize] as "the
      last matching rule sets the field", with its exact failure condition.
    - Stability ([Ewma], [Stability], [System]).  Shape and well-formedness of every
      verdict; scores and counts decay within bounds in floating point; settling,
      hold-down and suppression last exactly, or at most, what the configuration
      says, over arbitrary runs; Report followed by Damp is exactly the transition
      system those runs are of.
    - The whole loop ([Loop]).  A successful pass of the controller against the API
      server is one step of that transition system for every backend; whatever
      passes fail or stop half way, what the stored records remember is a verdict
      the transition system reaches; [lastChange] moves exactly at its transitions, and at
      every tick for a route with an empty communities attribute.
    - Rendering and reporting ([Reconcile], [Istio], [Report]).  [Select] as a
      filter, [Render] as a function of each candidate, ownership of every object,
      injective names, agreement of the reported resources with the rendered ones (but for
      policies that fail to render), and the round trips of a record through JSON and back
      into memory.
    - Controllers.  No pass touches another policy's objects, also with stale reads, as
      long as no slice it lists for pruning has changed hands; with others writing between
      its calls it still never overwrites what another policy owns, and deletes such a
      slice only if its own list for pruning showed it; a pass of the view stamps each
      status against the record that is stored when it is written.  With servers that
      answer and accept what they are given, a policy's pass with the Istio driver leaves
      exactly what the selected candidates call for, unless another policy owns one of
      the objects and it fails; a pass over a peer configuration succeeds exactly when
      its passwords resolve, and otherwise does not touch the BGP server; a pass of
      the view succeeds, writes every record with its stamps moved exactly when its status
      changed, and removes exactly the controller's own stale ones.  The BGP server is
      started once, before any peer call.
    - Polling ([Queue], [Convergence]).  While a policy exists it never goes without a
      pass for longer than the latency of the queue and of a pass and the longer of the
      polling interval and the longest back-off; while it renders to the same objects, the
      cluster holds them by then and keeps them, whatever the passes over other policies
      do; the view shows exactly the backends of a steady snapshot by then, and is polled
      for good once for every request it ever had.
    - Process ([Main], [Scheme]).  Printing and parsing the flags is the identity; start-up
      is fail-fast; the components share one manager, one tracker and one source; HTTP/2
      stays off unless asked for; the scheme knows every object that is rendered.
    - Memory ([DeepCopy]).  Every generated copy is equal to its original and shares no
      memory with it; elsewhere values are immutable, and this is what justifies it for the
      objects the clients hand out.
    - Tests ([TestUtils]).  [UncommentCode] returns on every input, and restores what was
      commented out.

    ** Modelling choices

    - A Go [error] is a value of [error] that keeps the format string and the
      arguments of the call that made it; [(value, error)] is [res].
    - Integers keep their width: a conversion that can wrap is written with the
      wrap ([Prelude]), and a length or an index is a [nat].
    - A pointer is an [option].  A string enum is an inductive type with the
      declared constants and a constructor for any other text, so that no theorem
      depends on validation by the API server.
    - The iteration order of a Go map is not determined: where it is visible (the
      prior states in [ewmaEvaluate]) the order is an argument and the theorems
      hold for every order.
    - Stateful calls thread the state explicitly.  The rejection tracker is
      returned also when a later stage fails, as in the code.
    - Loops follow the code's order with early returns; recursion is structural on
      the list a loop ranges over, so every function is total.  Only
      [GoFlag.ParseLoop] and [TestUtils.uncommentLoop] take fuel: one unit more than
      there are arguments, or bytes to scan, which is shown to be enough.  Hypotheses
      such as fewer than 2^31 routes, or distinct prefixes, are stated where they matter:
      Go's counters are machine integers, and a routing table has one destination for each
      prefix.

    ** Parameters

    GoBGP, controller-runtime, the API server, [math.Pow] and the sort are not part
    of the sources.  They are the classes named above; their laws say what those
    components document and every class with laws has an instance in an [Examples]
    module (or [Kube.MemoryServer]), where each theorem with hypotheses is also
    applied to a concrete input.  [PowLaws], used only by the bounds on decay,
    asks of [math.Pow] that the decay factors computed with it are between 0 and 1.
    [AtomicClient] says that a write happens or does not, whatever the caller is told, and
    [Evolution] that the resource version of a record names one content for good.  What
    validation by a server accepts is a predicate of its class.  [Dispatched] says of
    controller-runtime that a request is reconciled after an event, after [RequeueAfter]
    and, after an error, after a back-off, and bounds by a latency how long a request that
    is due waits for a worker and is worked on.  Whether lists from the cache are current
    ([currentLists], [currentBackends]) is a hypothesis of the theorems that need it.

    ** Not modelled

    Logging, except by the test helpers.  The client of the reconcilers in [Main] is
    left out: all of them use the manager's.  A Go compiler may fuse a product and a sum
    of floats into one rounding on some architectures; the model rounds each operation.
    Within one pass the world changes only by the pass's own calls, except that reads
    may be stale, and except in [Interleave] and [InterleaveView]; between passes it may
    change in any way that keeps the records' own memory.  The work queue of
    controller-runtime is not modelled, only assumed ([Dispatched]).

    Every function and type of the sources is modelled.  The lines no definition
    translates are imports, comments, the text of log messages and the markers that
    code generators read. *)

From Stdlib Require Export ZArith Lia Bool Ascii.
From stdpp Require Export base list gmap strings pretty sorting.

(** ** Errors and the error monad *)

(** A Go [error].  [Errorf] and [Wrapf] keep the format string of the
    [fmt.Errorf] call and its arguments instead of the formatted text, so an
    error value names the exact call site that produced it; [Wrapf] also keeps
    the cause that [%w] wraps.  [NotFound] is what [apierrors.IsNotFound]
    recognises; [Opaque] is any error a library returns. *)
Inductive error : Type :=
| Errorf (fmt : string) (args : list string)
| Wrapf (fmt : string) (args : list string) (cause : error)
| NotFound
| Opaque (what : string).

(** The pair [(value, error)] a fallible Go function returns, of which the
    callers only ever use one half. *)
Inductive res (A : Type) : Type :=
| Ok (a : A)
| Err (e : error).
Arguments Ok {A} _.
Arguments Err {A} _.

Declare Scope go_scope.
Delimit Scope go_scope with go.

Notation "'let*' x ':=' e 'in' k" :=
  (match e with Ok x => k | Err err => Err err end)
  (at level 200, x pattern, e at level 100, k at level 200,
   format "'[v' 'let*'  x  ':='  e  'in' '/' k ']'") : go_scope.

(** [if err != nil { return ..., fmt.Errorf(fmt, args..., err) }] *)
Definition wrapErr {A} (fmt : string) (args : list string) (r : res A) : res A :=
  match r with
  | Ok a => Ok a
  | Err e => Err (Wrapf fmt args e)
  end.

Definition is_ok {A} (r : res A) : bool :=
  match r with Ok _ => true | Err _ => false end.

Open Scope go_scope.

(** A loop [for _, x := range l { y, err := f(x); if err != nil { return err };
    out = append(out, y) }]. *)
Fixpoint mapRes {A B} (f : A → res B) (l : list A) : res (list B) :=
  match l with
  | [] => Ok []
  | x :: l' =>
      let* y := f x in
      let* ys := mapRes f l' in
      Ok (y :: ys)
  end.

(** ** Machine integers *)

Definition int32_min : Z := (-2147483648)%Z.
Definition int32_max : Z := 2147483647%Z.
Definition uint32_max : Z := 4294967295%Z.
Definition int64_min : Z := (-9223372036854775808)%Z.
Definition int64_max : Z := 9223372036854775807%Z.

(** Conversion to a [w]-bit unsigned or signed integer keeps the low bits. *)
Definition wrapu (w : Z) (z : Z) : Z := (z mod 2 ^ w)%Z.
Definition wraps (w : Z) (z : Z) : Z :=
  ((z + 2 ^ (w - 1)) mod 2 ^ w - 2 ^ (w - 1))%Z.
Definition int32 : Z → Z := wraps 32.
Definition int64 : Z → Z := wraps 64.
Definition uint32 : Z → Z := wrapu 32.
Definition uint64 : Z → Z := wrapu 64.

Definition in_int32 (z : Z) : Prop := (int32_min ≤ z ≤ int32_max)%Z.
Definition in_uint32 (z : Z) : Prop := (0 ≤ z ≤ uint32_max)%Z.
Definition in_int64 (z : Z) : Prop := (int64_min ≤ z ≤ int64_max)%Z.

Ltac unfold_ints :=
  unfold in_int32, in_uint32, in_int64, int32, int64, uint32, uint64, wraps, wrapu,
    int32_min, int32_max, uint32_max, int64_min, int64_max in *;
  change (2 ^ (32 - 1))%Z with 2147483648%Z in *;
  change (2 ^ 32)%Z with 4294967296%Z in *;
  change (2 ^ (64 - 1))%Z with 9223372036854775808%Z in *;
  change (2 ^ 64)%Z with 18446744073709551616%Z in *.

Lemma int32_id z : in_int32 z → int32 z = z.
Proof. unfold_ints. intros. rewrite Z.mod_small; lia. Qed.

Lemma int64_id z : in_int64 z → int64 z = z.
Proof. unfold_ints. intros. rewrite Z.mod_small; lia. Qed.

Lemma uint32_id z : in_uint32 z → uint32 z = z.
Proof. unfold_ints. intros. apply Z.mod_small; lia. Qed.

Lemma int32_range z : in_int32 (int32 z).
Proof.
  unfold_ints. pose proof (Z.mod_pos_bound (z + 2147483648) 4294967296). lia.
Qed.

Lemma uint32_range z : in_uint32 (uint32 z).
Proof. unfold_ints. pose proof (Z.mod_pos_bound z 4294967296). lia. Qed.

(** ** Slices *)

(** A Go slice where the code or [reflect.DeepEqual] tells a nil slice from an
    empty one: [None] is nil. Elsewhere a slice is a [list]. *)
Definition slice (A : Type) : Type := option (list A).
Definition elems {A} (s : slice A) : list A := default [] s.

(** ** Proof automation *)

Create HintDb kreg.
#[export] Hint Resolve int32_range uint32_range : kreg.
#[export] Hint Rewrite @length_app @length_fmap @length_insert : kreg.

(** Splits every [match] of the goal or of a hypothesis on its scrutinee. *)
Ltac split_match :=
  repeat (case_match; simplify_eq/=; try done).

Lemma wrapErr_Ok {A} fmt args (r : res A) a : wrapErr fmt args r = Ok a ↔ r = Ok a.
Proof. destruct r; simpl; naive_solver. Qed.

(** Settles a decidable closed proposition by evaluation. *)
Ltac by_compute := apply (bool_decide_unpack _); vm_compute; exact I.

(** Inverts a successful [let*] chain. *)
Ltac inv_ok :=
  repeat match goal with
  | H : match ?e with Ok _ => _ | Err _ => Err _ end = Ok _ |- _ =>
      let E := fresh "E" in destruct e eqn:E; [|discriminate H]
  | H : Ok _ = Ok _ |- _ => injection H as H
  | H : Err _ = Ok _ |- _ => discriminate H
  | H : Ok _ = Err _ |- _ => discriminate H
  | H : wrapErr _ _ _ = Ok _ |- _ => apply wrapErr_Ok in H
  end; simplify_eq/=.

(** ** Lists *)

Lemma mapRes_Ok {A B} (f : A → res B) l k :
  mapRes f l = Ok k ↔ Forall2 (λ x y, f x = Ok y) l k.
Proof.
  revert k. induction l as [|x l IH]; intros k; simpl.
  - split; [intros [= <-]; constructor | by inversion 1].
  - split.
    + intros H. inv_ok. constructor; [done|]. by apply IH.
    + inversion 1 as [|? y ? ys Hy Hys]; simplify_eq.
      rewrite Hy. apply IH in Hys. by rewrite Hys.
Qed.

Lemma mapRes_length {A B} (f : A → res B) l k :
  mapRes f l = Ok k → length k = length l.
Proof. intros H%mapRes_Ok. by symmetry; eapply Forall2_length. Qed.

Lemma mapRes_Err_iff {A B} (f : A → res B) l :
  (∃ e, mapRes f l = Err e) ↔ ∃ x, x ∈ l ∧ ∃ e, f x = Err e.
Proof.
  induction l as [|x l IH]; simpl.
  - split; [by intros [??] | intros (x & Hx & _); by apply not_elem_of_nil in Hx].
  - split.
    + intros [e He]. destruct (f x) as [y|e'] eqn:Hf.
      * destruct (mapRes f l) as [ys|e''] eqn:Hl; [done|].
        destruct (proj1 IH) as (z & Hz & Hfz); [by eauto|].
        exists z. split; [by apply elem_of_cons; right | done].
      * exists x. split; [apply elem_of_cons; by left | eauto].
    + intros (z & [->|Hz]%elem_of_cons & e & He); [rewrite He; eauto|].
      destruct (f x); [|eauto]. destruct (proj2 IH) as [e' ->]; eauto.
Qed.

(** A total [mapRes] is a [map]. *)
Lemma mapRes_total {A B} (f : A → res B) (g : A → B) l :
  (∀ x, x ∈ l → f x = Ok (g x)) → mapRes f l = Ok (g <$> l).
Proof.
  intros Hf. apply mapRes_Ok. apply Forall2_fmap_r, Forall_Forall2_diag.
  by apply Forall_forall.
Qed.

Lemma filter_none {A} (P : A → Prop) `{∀ x, Decision (P x)} l :
  (∀ x, x ∈ l → ¬ P x) → filter P l = [].
Proof.
  intros HP. induction l as [|x l IH]; [done|].
  rewrite filter_cons_False by (apply HP; set_solver). apply IH. set_solver.
Qed.

(** What a call returns, and the state it leaves. *)
Lemma result_of {A B} (p : A * B) a : p.1 = a → p = (a, p.2).
Proof. by intros <-; destruct p. Qed.

(** A loop that updates the elements at the listed positions. *)
Lemma foldl_alter_lookup {A} (f : A → A) (idxs : list nat) (l : list A) i :
  (∀ x, f (f x) = f x) →
  foldl (λ l i, alter f i l) l idxs !! i = (if decide (i ∈ idxs) then f <$> l !! i else l !! i).
Proof.
  intros Hf. revert l. induction idxs as [|j idxs IH]; intros l; cbn [foldl].
  { case_decide; [set_solver|done]. }
  rewrite IH. destruct (decide (i = j)) as [->|Hne].
  - rewrite list_lookup_alter_eq. destruct (decide (j ∈ idxs)), (decide (j ∈ j :: idxs));
      [|set_solver|done|set_solver]. destruct (l !! j); simpl; by rewrite ?Hf.
  - rewrite list_lookup_alter_ne by done.
    destruct (decide (i ∈ idxs)), (decide (i ∈ j :: idxs)); set_solver.
Qed.

Lemma length_foldl_alter {A} (f : A → A) (idxs : list nat) (l : list A) :
  length (foldl (λ l i, alter f i l) l idxs) = length l.
Proof. revert l. induction idxs as [|j idxs IH]; intros l; simpl; [done|]. by rewrite IH, length_alter. Qed.

(** ** Sorting *)

(** [slices.SortFunc] as documented: it orders the slice by [cmp], which must be a
    strict weak ordering, and need not be stable. *)
Record weak_order {A} (cmp : A → A → comparison) : Prop := {
  wo_antisym a b : cmp b a = CompOpp (cmp a b);
  wo_trans a b c : cmp a b ≠ Gt → cmp b c ≠ Gt → cmp a c ≠ Gt;
}.

Class Sorter := {
  SortFunc : ∀ {A : Type}, (A → A → comparison) → list A → list A;
  SortFunc_perm A (cmp : A → A → comparison) l : SortFunc cmp l ≡ₚ l;
  SortFunc_sorted A (cmp : A → A → comparison) l :
    weak_order cmp → Sorted (λ a b, cmp a b ≠ Gt) (SortFunc cmp l);
}.

(** Merge sort is one implementation. *)
#[export] Program Instance merge_sorter : Sorter := {|
  SortFunc A cmp := merge_sort (λ a b, cmp a b ≠ Gt);
|}.
Next Obligation. intros. apply merge_sort_Permutation. Qed.
Next Obligation.
  intros A cmp l Hwo. apply Sorted_merge_sort. intros a b.
  rewrite (wo_antisym _ Hwo a b). destruct (cmp a b); simpl; naive_solver.
Qed.

(** [cmp.Compare] on strings. *)
Lemma compare_string_weak {A} (key : A → string) :
  weak_order (λ a b, String.compare (key a) (key b)).
Proof.
  split.
  - intros a b. apply String.compare_antisym.
  - intros a b c H1 H2.
    assert (∀ s t, String.compare s t ≠ Gt ↔ (s ≤ t)%string) as Hle.
    { intros s t. unfold String.le, String.leb. by destruct (String.compare s t); simpl; split. }
    rewrite Hle in *. by etrans.
Qed.

(** Sorting by a string key leaves the keys in order. *)
Lemma SortFunc_by_key `{!Sorter} {A} (key : A → string) (l : list A) :
  StronglySorted (λ a b, (key a ≤ key b)%string)
    (SortFunc (λ a b, String.compare (key a) (key b)) l).
Proof.
  apply Sorted.Sorted_StronglySorted; [intros ???; by etrans|].
  pose proof (SortFunc_sorted A _ l (compare_string_weak key)) as Hs.
  induction Hs as [|a k Hk IH Ha]; constructor; [done|].
  destruct Ha as [|b k Hab]; constructor.
  unfold String.le, String.leb. by destruct (String.compare (key a) (key b)).
Qed.

(** In a list sorted by distinct keys, the tail after [m] elements holds the
    elements preceded by at least [m] smaller keys. *)
Lemma drop_sorted_rank {A} (key : A → string) (l : list A) m x :
  NoDup (key <$> l) → StronglySorted (λ a b, (key a ≤ key b)%string) l →
  x ∈ drop m l ↔
  x ∈ l ∧ m ≤ length (filter (λ y, (key y ≤ key x)%string ∧ key y ≠ key x) l).
Proof.
  revert m. induction l as [|a l IH]; intros m Hnd Hs.
  { rewrite drop_nil. set_solver. }
  inversion Hnd as [|?? Ha Hnd']; inversion Hs as [|?? Hs' Hall]; simplify_eq/=.
  rewrite Forall_forall in Hall. destruct m as [|m]; simpl.
  { split; [naive_solver lia|naive_solver]. }
  rewrite IH by done. rewrite filter_cons. split.
  - intros [Hx Hm]. split; [set_solver|].
    rewrite decide_True; [simpl; lia|]. split; [by apply Hall|].
    intros Heq. apply Ha. rewrite Heq. by apply list_elem_of_fmap_2.
  - intros [[->|Hx]%elem_of_cons Hm].
    + rewrite decide_False in Hm by naive_solver.
      rewrite filter_none in Hm; [simpl in Hm; lia|].
      intros y Hy [Hle Hne]. apply Hne, (anti_symm String.le); [done|]. by apply Hall.
    + split; [done|]. case_decide; simpl in Hm; lia.
Qed.

Lemma filter_fmap {A B} (f : A → B) (P : B → Prop) `{∀ x, Decision (P x)} (l : list A) :
  filter P (f <$> l) = f <$> filter (λ x, P (f x)) l.
Proof.
  induction l as [|x l IH]; [done|]. rewrite fmap_cons, !filter_cons, IH.
  by destruct (decide (P (f x))).
Qed.

Lemma length_filter_perm {A} (P : A → Prop) `{∀ x, Decision (P x)} (l k : list A) :
  l ≡ₚ k → length (filter P l) = length (filter P k).
Proof. intros E. by rewrite E. Qed.

(** At most [m] elements have fewer than [m] smaller ones. *)
Lemma length_filter_rank_lt {A} (key : A → string) (l : list A) m :
  NoDup (key <$> l) →
  (length (filter (λ x, length (filter (λ y, (key y ≤ key x)%string ∧ key y ≠ key x) l) < m) l)
   ≤ m)%nat.
Proof.
  intros Hnd. set (s := SortFunc (λ a b, String.compare (key a) (key b)) l).
  assert (s ≡ₚ l) as Hs by apply SortFunc_perm.
  etrans; [apply (submseteq_length _ (take m s))|rewrite length_take; lia].
  apply NoDup_submseteq; [by apply NoDup_filter, (NoDup_fmap_1 key)|].
  intros x [Hlt Hx]%list_elem_of_filter. rewrite <- Hs in Hx.
  assert (x ∉ drop m s) as Hnot.
  { rewrite (drop_sorted_rank key); [|by rewrite Hs|apply SortFunc_by_key].
    rewrite (length_filter_perm _ _ _ Hs). lia. }
  rewrite <- (take_drop m s) in Hx. apply elem_of_app in Hx. tauto.
Qed.

Lemma length_filter_impl {A} (P Q : A → Prop) `{∀ x, Decision (P x), ∀ x, Decision (Q x)}
    (l : list A) :
  (∀ x, x ∈ l → P x → Q x) → (length (filter P l) ≤ length (filter Q l))%nat.
Proof.
  induction l as [|x l IH]; intros HPQ; [done|]. rewrite !filter_cons.
  assert (length (filter P l) ≤ length (filter Q l))%nat by (apply IH; set_solver).
  destruct (decide (P x)), (decide (Q x)); simpl; try lia. exfalso. set_solver.
Qed.
