(* ===== verification/GoStrings.v ===== *)
(** * The parts of Go's [strings], [strconv] and [fmt] the sources use

    Go strings are byte strings, so they are Rocq [string]s (an [ascii] is a
    byte).  Each function follows the standard library's algorithm, error
    branches included. *)

From S2P Require Import Prelude.
Local Open Scope Z_scope.

(** ** [strings] *)

(** The number of bytes before the first [c], with what follows it. *)
Fixpoint cut (c : ascii) (s : string) : option (string * string) :=
  match s with
  | "" => None
  | String a s' =>
      if Ascii.eqb a c then Some ("", s')
      else match cut c s' with
           | Some (l, r) => Some (String a l, r)
           | None => None
           end
  end.

(** [strings.SplitN(s, c, n)] for [n >= 0] and a one-byte separator. *)
Fixpoint SplitN (s : string) (c : ascii) (n : nat) : list string :=
  match n with
  | O => []
  | S O => [s]
  | S n' => match cut c s with
            | Some (l, r) => l :: SplitN r c n'
            | None => [s]
            end
  end.

(** [strings.NewReplacer] of one-byte pairs, as the byte map it builds. *)
Fixpoint mapBytes (f : ascii → ascii) (s : string) : string :=
  match s with
  | "" => ""
  | String a s' => String (f a) (mapBytes f s')
  end.

Fixpoint containsByte (c : ascii) (s : string) : bool :=
  match s with
  | "" => false
  | String a s' => Ascii.eqb a c || containsByte c s'
  end.

Fixpoint join (sep : string) (l : list string) : string :=
  match l with
  | [] => ""
  | [s] => s
  | s :: l' => s +:+ sep +:+ join sep l'
  end.

(** [%v] of a [[]string]. *)
Definition fmtStrings (l : list string) : string := "[" +:+ join " " l +:+ "]".

(** ** [strconv] *)

(** The value of a decimal digit. *)
Definition digitVal (a : ascii) : option Z :=
  let n := Z.of_N (N_of_ascii a) in
  if (48 <=? n) && (n <=? 57) then Some (n - 48) else None.

Definition ErrSyntax : error := Opaque "strconv: invalid syntax".
Definition ErrRange : error := Opaque "strconv: value out of range".

(** The digit loop of [strconv.ParseUint(s, 10, bitSize)]; [maxVal] is
    [1<<bitSize - 1].  The first digit that takes the value past [maxVal] ends
    the loop, before the rest of the text is looked at. *)
Fixpoint parseUintLoop (maxVal : Z) (n : Z) (s : string) : res Z :=
  match s with
  | "" => Ok n
  | String a s' =>
      match digitVal a with
      | None => Err ErrSyntax
      | Some d =>
          let n1 := n * 10 + d in
          if maxVal <? n1 then Err ErrRange else parseUintLoop maxVal n1 s'
      end
  end.

Definition ParseUint (s : string) (bitSize : Z) : res Z :=
  match s with
  | "" => Err ErrSyntax
  | _ => parseUintLoop (2 ^ bitSize - 1) 0 s
  end.

(** [strconv.ParseInt(s, 10, bitSize)]: an optional sign, then [ParseUint], then
    the signed range.  A range error of [ParseUint] is a range error here. *)
Definition ParseInt (s : string) (bitSize : Z) : res Z :=
  match s with
  | "" => Err ErrSyntax
  | String a s' =>
      let neg := Ascii.eqb a "-"%char in
      let body := if Ascii.eqb a "+"%char || neg then s' else s in
      let* un := ParseUint body bitSize in
      let cutoff := 2 ^ (bitSize - 1) in
      if negb neg && (cutoff <=? un) then Err ErrRange
      else if neg && (cutoff <? un) then Err ErrRange
      else Ok (if neg then - un else un)
  end.

(** [strconv.Atoi], on a 64-bit platform. *)
Definition Atoi (s : string) : res Z := ParseInt s 64.

Definition ParseBool (s : string) : res bool :=
  if decide (s ∈ ["1"; "t"; "T"; "TRUE"; "true"; "True"]) then Ok true
  else if decide (s ∈ ["0"; "f"; "F"; "FALSE"; "false"; "False"]) then Ok false
  else Err ErrSyntax.

(** [%d]. *)
Definition itoa (z : Z) : string := pretty z.

(** ** Lemmas *)

Lemma app_String a s t : String a s +:+ t = String a (s +:+ t).
Proof. done. Qed.
Lemma app_empty_l t : "" +:+ t = t.
Proof. done. Qed.
Lemma app_empty_r s : s +:+ "" = s.
Proof. induction s as [|a s IH]; [done|]. rewrite app_String. by f_equal. Qed.
Lemma str_app_assoc (s t u : string) : (s +:+ t) +:+ u = s +:+ t +:+ u.
Proof. induction s as [|a s IH]; [done|]. rewrite !app_String. by f_equal. Qed.
Lemma str_app_inj_l (s t u : string) : s +:+ t = s +:+ u → t = u.
Proof. induction s as [|a s IH]; [done|]. rewrite !app_String. intros [= H]. by apply IH. Qed.
#[export] Hint Rewrite app_String app_empty_l app_empty_r str_app_assoc : kreg.

Lemma containsByte_app c s t :
  containsByte c (s +:+ t) = containsByte c s || containsByte c t.
Proof.
  induction s as [|a s IH]; [done|]. rewrite app_String. simpl. rewrite IH.
  by rewrite orb_assoc.
Qed.

Lemma cut_None c s : cut c s = None ↔ containsByte c s = false.
Proof.
  induction s as [|a s IH]; simpl; [done|]. destruct (Ascii.eqb a c); simpl; [done|].
  rewrite <- IH. by destruct (cut c s) as [[]|].
Qed.

Lemma cut_app c s t : containsByte c s = false → cut c (s +:+ String c t) = Some (s, t).
Proof.
  induction s as [|a s IH]; simpl.
  - intros _. by rewrite Ascii.eqb_refl.
  - intros [-> ?]%orb_false_iff. by rewrite IH.
Qed.

(** Cutting at the separator loses nothing and finds its first occurrence. *)
Lemma cut_Some c s l r :
  cut c s = Some (l, r) ↔ s = l +:+ String c r ∧ containsByte c l = false.
Proof.
  split; [|intros [-> ?]; by apply cut_app].
  revert l r. induction s as [|a s IH]; intros l r; simpl; [done|].
  destruct (Ascii.eqb a c) eqn:Ha.
  - apply Ascii.eqb_eq in Ha as ->. by intros [= <- <-].
  - destruct (cut c s) as [[l' r']|] eqn:Hc; [|done]. intros [= <- <-].
    destruct (IH l' r') as [-> Hl]; [done|]. split; [done|]. simpl. by rewrite Ha.
Qed.

Lemma SplitN_3 c a b v :
  containsByte c a = false → containsByte c b = false →
  SplitN (a +:+ String c (b +:+ String c v)) c 3 = [a; b; v].
Proof. intros. simpl. rewrite cut_app by done. simpl. by rewrite cut_app. Qed.

(** Three parts are exactly the text split at its first two separators. *)
Lemma SplitN_3_inv c s p : SplitN s c 3 = p → length p = 3%nat →
  ∃ a b v, p = [a; b; v] ∧ s = a +:+ String c (b +:+ String c v) ∧
    containsByte c a = false ∧ containsByte c b = false.
Proof.
  intros <-. simpl. destruct (cut c s) as [[l r]|] eqn:H1; simpl; [|done].
  destruct (cut c r) as [[l' r']|] eqn:H2; simpl; [|done]. intros _.
  apply cut_Some in H1 as [-> ?], H2 as [-> ?]. naive_solver.
Qed.

Lemma mapBytes_app f s t : mapBytes f (s +:+ t) = mapBytes f s +:+ mapBytes f t.
Proof. induction s as [|a s IH]; [done|]. rewrite !app_String. simpl. by rewrite IH. Qed.

Lemma containsByte_mapBytes c f s :
  containsByte c s = false → (∀ a, a ≠ c → f a ≠ c) → containsByte c (mapBytes f s) = false.
Proof.
  intros Hs Hf. induction s as [|a s IH]; simpl in *; [done|].
  apply orb_false_iff in Hs as [Ha%Ascii.eqb_neq Hs].
  rewrite IH by done. rewrite orb_false_r. by apply Ascii.eqb_neq, Hf.
Qed.

(** Decimal text. *)

Fixpoint digits (s : string) : bool :=
  match s with
  | "" => true
  | String a s' => match digitVal a with Some _ => digits s' | None => false end
  end.

Lemma digits_no c s : digits s = true → digitVal c = None → containsByte c s = false.
Proof.
  induction s as [|a s IH]; simpl; [done|]. intros Hs Hc.
  destruct (digitVal a) eqn:Ha; [|done]. rewrite IH by done. rewrite orb_false_r.
  apply Ascii.eqb_neq. congruence.
Qed.

Lemma digits_app s t : digits (s +:+ t) = digits s && digits t.
Proof.
  induction s as [|a s IH]; [done|]. rewrite app_String. simpl.
  by destruct (digitVal a).
Qed.

Lemma digitVal_pretty_N_char x : (x < 10)%N → digitVal (pretty_N_char x) = Some (Z.of_N x).
Proof.
  intros Hx. destruct x as [|p]; [done|].
  do 4 (destruct p as [p|p|]; try done); simpl in Hx; lia.
Qed.

Lemma mod10_lt x : (x `mod` 10 < 10)%N.
Proof. by apply N.mod_lt. Qed.

Lemma pretty_N_go_app x s : pretty_N_go x s = pretty_N_go x "" +:+ s.
Proof.
  revert s. induction (N.lt_wf_0 x) as [x _ IH]; intros s.
  assert (x = 0 ∨ 0 < x)%N as [->|Hx] by lia; [by rewrite !pretty_N_go_0|].
  rewrite !(pretty_N_go_step x) by done.
  rewrite IH by (apply N.div_lt; lia).
  rewrite (IH (x `div` 10)%N ltac:(apply N.div_lt; lia) (String _ "")).
  by rewrite str_app_assoc.
Qed.

Lemma digits_pretty_N_go x : digits (pretty_N_go x "") = true.
Proof.
  induction (N.lt_wf_0 x) as [x _ IH].
  assert (x = 0 ∨ 0 < x)%N as [->|Hx] by lia; [done|].
  rewrite pretty_N_go_step, pretty_N_go_app, digits_app by done.
  rewrite IH by (apply N.div_lt; lia). simpl.
  by rewrite digitVal_pretty_N_char by apply mod10_lt.
Qed.

Lemma digits_pretty_N (x : N) : digits (pretty x) = true.
Proof.
  unfold pretty, pretty_N. case_decide; [done|]. apply digits_pretty_N_go.
Qed.

Lemma itoa_nonneg z : 0 ≤ z → itoa z = pretty (Z.to_N z).
Proof. destruct z as [|p|p]; [done|done|lia]. Qed.

Lemma digits_itoa z : 0 ≤ z → digits (itoa z) = true.
Proof. intros. rewrite itoa_nonneg by done. apply digits_pretty_N. Qed.

Lemma parseUintLoop_app maxVal n s t :
  parseUintLoop maxVal n (s +:+ t) =
  (let* m := parseUintLoop maxVal n s in parseUintLoop maxVal m t).
Proof.
  revert n. induction s as [|a s IH]; intros n; [done|].
  rewrite app_String. simpl. destruct (digitVal a); [|done].
  destruct (_ <? _); [done|apply IH].
Qed.

(** Reading back the digits of [x] yields [x]. *)
Lemma parseUintLoop_pretty_go maxVal x :
  0 ≤ maxVal → Z.of_N x ≤ maxVal → parseUintLoop maxVal 0 (pretty_N_go x "") = Ok (Z.of_N x).
Proof.
  intros Hm. induction (N.lt_wf_0 x) as [x _ IH]; intros Hx.
  assert (x = 0 ∨ 0 < x)%N as [->|Hpos] by lia; [done|].
  rewrite pretty_N_go_step, pretty_N_go_app, parseUintLoop_app by done.
  assert (Z.of_N (x `div` 10) * 10 + Z.of_N (x `mod` 10) = Z.of_N x) as Hdm.
  { rewrite (N.div_mod x 10) at 3 by done. by rewrite N2Z.inj_add, N2Z.inj_mul, Z.mul_comm. }
  pose proof (N2Z.is_nonneg (x `div` 10)). pose proof (N2Z.is_nonneg (x `mod` 10)).
  rewrite IH; [|apply N.div_lt; lia|lia]. simpl.
  rewrite digitVal_pretty_N_char by apply mod10_lt. rewrite Hdm.
  destruct (Z.ltb_spec maxVal (Z.of_N x)); [lia|done].
Qed.

Lemma ParseUint_pretty bitSize (x : N) :
  0 ≤ bitSize → Z.of_N x < 2 ^ bitSize → ParseUint (pretty x) bitSize = Ok (Z.of_N x).
Proof.
  intros Hb Hx. pose proof (Z.pow_pos_nonneg 2 bitSize).
  unfold pretty, pretty_N, ParseUint. case_decide as Hd.
  - subst. change (parseUintLoop _ 0 "0") with
      (if 2 ^ bitSize - 1 <? 0 then Err ErrRange else Ok 0).
    destruct (Z.ltb_spec (2 ^ bitSize - 1) 0); [lia|done].
  - pose proof (parseUintLoop_pretty_go (2 ^ bitSize - 1) x ltac:(lia) ltac:(lia)) as Hp.
    destruct (pretty_N_go x "") eqn:E; [|done]. simpl in Hp. injection Hp. lia.
Qed.

Lemma pretty_N_cons (x : N) : ∃ a s, pretty x = String a s ∧ is_Some (digitVal a).
Proof.
  pose proof (digits_pretty_N x) as Hd.
  destruct (pretty x) as [|a s] eqn:E.
  - pose proof (ParseUint_pretty (Z.of_N (N.succ x)) x ltac:(lia)) as Hp.
    rewrite E in Hp. discriminate Hp.
    pose proof (Z.pow_gt_lin_r 2 (Z.of_N (N.succ x)) ltac:(lia) ltac:(lia)). lia.
  - exists a, s. split; [done|]. simpl in Hd. by destruct (digitVal a).
Qed.

(** [strconv.ParseInt] inverts [%d]. *)
Lemma ParseInt_itoa bitSize z :
  0 < bitSize → - 2 ^ (bitSize - 1) ≤ z < 2 ^ (bitSize - 1) →
  ParseInt (itoa z) bitSize = Ok z.
Proof.
  intros Hb Hz. assert (2 ^ bitSize = 2 * 2 ^ (bitSize - 1)) as Hp.
  { replace bitSize with (Z.succ (bitSize - 1)) at 1 by lia. apply Z.pow_succ_r. lia. }
  assert (0 ≤ z ∨ z < 0) as [Hs|Hs] by lia.
  - rewrite itoa_nonneg by done.
    pose proof (ParseUint_pretty bitSize (Z.to_N z) ltac:(lia) ltac:(lia)) as Hu.
    destruct (pretty_N_cons (Z.to_N z)) as (a & s & Ep & [d Hd]).
    rewrite Ep in Hu |- *. unfold ParseInt.
    assert (Ascii.eqb a "+" = false ∧ Ascii.eqb a "-" = false) as [-> ->].
    { split; apply Ascii.eqb_neq; intros ->; discriminate Hd. }
    simpl orb. cbv iota. rewrite Hu. simpl.
    destruct (Z.leb_spec (2 ^ (bitSize - 1)) (Z.of_N (Z.to_N z))); [lia|].
    f_equal. lia.
  - destruct z as [|p|p]; [lia..|]. unfold itoa, pretty, pretty_Z.
    rewrite app_String, app_empty_l. unfold ParseInt. cbn [Ascii.eqb].
    pose proof (ParseUint_pretty bitSize (Npos p) ltac:(lia) ltac:(lia)) as Hu.
    simpl orb. cbv iota. unfold pretty at 1, pretty_positive. rewrite Hu. simpl.
    destruct (Z.ltb_spec (2 ^ (bitSize - 1)) (Z.pos p)); [lia|done].
Qed.

(** A number past the signed range but within the unsigned one is a range error. *)
Lemma ParseInt_itoa_high bitSize z :
  0 < bitSize → 2 ^ (bitSize - 1) ≤ z < 2 ^ bitSize → ParseInt (itoa z) bitSize = Err ErrRange.
Proof.
  intros Hb Hz. assert (0 < 2 ^ (bitSize - 1)) by (apply Z.pow_pos_nonneg; lia).
  rewrite itoa_nonneg by lia.
  pose proof (ParseUint_pretty bitSize (Z.to_N z) ltac:(lia) ltac:(lia)) as Hu.
  destruct (pretty_N_cons (Z.to_N z)) as (a & s & Ep & [d Hd]).
  rewrite Ep in Hu |- *. unfold ParseInt.
  assert (Ascii.eqb a "+" = false ∧ Ascii.eqb a "-" = false) as [-> ->].
  { split; apply Ascii.eqb_neq; intros ->; discriminate Hd. }
  simpl orb. cbv iota. rewrite Hu. simpl.
  by destruct (Z.leb_spec (2 ^ (bitSize - 1)) (Z.of_N (Z.to_N z))); [|lia].
Qed.

(** What [ParseInt] accepts lies in the signed range. *)
Lemma ParseInt_range s bitSize z :
  0 < bitSize → ParseInt s bitSize = Ok z → - 2 ^ (bitSize - 1) ≤ z < 2 ^ (bitSize - 1).
Proof.
  intros Hb H. assert (∀ m n t v, 0 ≤ n → parseUintLoop m n t = Ok v → 0 ≤ v) as Hpos.
  { intros m n t. revert n. induction t as [|a t IH]; simpl; intros n v Hn ?; simplify_eq; [done|].
    destruct (digitVal a) as [d|] eqn:Hd; [|done]. destruct (_ <? _); [done|].
    eapply IH; [|done]. unfold digitVal in Hd. case_match; simplify_eq.
    match goal with H : _ && _ = true |- _ => apply andb_true_iff in H end. lia. }
  unfold ParseInt in H. destruct s as [|a s]; [done|].
  destruct (ParseUint _ _) as [un|] eqn:E; [|done].
  assert (0 ≤ un) as H0.
  { unfold ParseUint in E. destruct (if _ || _ then _ else _); [done|].
    eapply (Hpos _ 0); [lia|apply E]. }
  destruct (Ascii.eqb a "-"); simpl in H; case_match; simplify_eq;
    match goal with H : (_ <=? _) = false |- _ => apply Z.leb_gt in H
                  | H : (_ <? _) = false |- _ => apply Z.ltb_ge in H end; lia.
Qed.
