(* ===== verification/GoNet.v ===== *)
(** * The parts of Go's [net] and [net/netip] the sources use

    Addresses are lists of bytes, as in Go: [net.IP] values have 4 or 16 bytes
    and [net.ParseCIDR] returns 16-byte ones.  The parsers follow
    [netip.ParseAddr], [net.ParseCIDR] and [net.SplitHostPort] branch by branch;
    [net.ParseCIDR] and [net.SplitHostPort] report one error whatever went wrong
    in the address, so the address parsers return an [option]. *)

From S2P Require Import Prelude GoStrings.
Local Open Scope Z_scope.

Abbreviation IP := (list Z).

(** ** [netip.ParseAddr] *)

(** [parseIPv4Fields]: [val] and [digLen] describe the octet being read, [fields]
    the ones already read. *)
Fixpoint parseIPv4Fields (s : string) (val digLen : Z) (fields : list Z) : option (list Z) :=
  match s with
  | "" => if (length fields <? 3)%nat then None else Some (fields ++ [val])
  | String c s' =>
      match digitVal c with
      | Some d =>
          if (digLen =? 1) && (val =? 0) then None
          else let val' := val * 10 + d in
               if 255 <? val' then None
               else parseIPv4Fields s' val' (digLen + 1) fields
      | None =>
          if Ascii.eqb c "." then
            if (digLen =? 0) || String.eqb s' "" then None
            else if (length fields =? 3)%nat then None
            else parseIPv4Fields s' 0 0 (fields ++ [val])
          else None
      end
  end.

Definition parseIPv4 (s : string) : option (list Z) := parseIPv4Fields s 0 0 [].

Definition hexVal (a : ascii) : option Z :=
  let n := Z.of_N (N_of_ascii a) in
  if (48 <=? n) && (n <=? 57) then Some (n - 48)
  else if (97 <=? n) && (n <=? 102) then Some (n - 87)
  else if (65 <=? n) && (n <=? 70) then Some (n - 55)
  else None.

(** The hex digits at the head of [s]: their value, their number and the rest;
    [None] for a fifth digit. *)
Fixpoint hexGroup (s : string) (off : nat) (acc : Z) : option (Z * nat * string) :=
  match s with
  | "" => Some (acc, off, "")
  | String c s' =>
      match hexVal c with
      | None => Some (acc, off, s)
      | Some d =>
          let acc' := acc * 16 + d in
          if (3 <? off)%nat then None
          else if 65535 <? acc' then None
          else hexGroup s' (S off) acc'
      end
  end.

(** The group loop of [parseIPv6]; [slots] 16-bit groups are still free, so the
    loop counter of the source is [16 - 2 * slots], and [ell] is the position of
    the ellipsis.  Returns the unread text, the ellipsis and the bytes read. *)
Fixpoint parseIPv6Loop (slots : nat) (s : string) (ell : option nat) (ip : list Z)
    : option (string * option nat * list Z) :=
  match slots with
  | O => Some (s, ell, ip)
  | S slots' =>
      match hexGroup s 0 0 with
      | None => None
      | Some (acc, off, rest) =>
          if (off =? 0)%nat then None else
          let ip' := ip ++ [acc / 256; acc mod 256] in
          match rest with
          | "" => Some ("", ell, ip')
          | String c rest' =>
              if Ascii.eqb c "." then
                if bool_decide (ell = None) && negb (length ip =? 12)%nat then None
                else if (16 <? length ip + 4)%nat then None
                else match parseIPv4Fields s 0 0 [] with
                     | Some f => Some ("", ell, ip ++ f)
                     | None => None
                     end
              else if Ascii.eqb c ":" then
                match rest' with
                | "" => None
                | String c' rest'' =>
                    if Ascii.eqb c' ":" then
                      match ell with
                      | Some _ => None
                      | None =>
                          match rest'' with
                          | "" => Some ("", Some (length ip'), ip')
                          | _ => parseIPv6Loop slots' rest'' (Some (length ip')) ip'
                          end
                      end
                    else parseIPv6Loop slots' rest' ell ip'
                end
              else None
          end
      end
  end.

(** [parseIPv6], with the zone. *)
Definition parseIPv6 (input : string) : option (list Z * string) :=
  let '(s, zone, zoned) := match cut "%" input with
                           | Some (l, r) => (l, r, true)
                           | None => (input, "", false)
                           end in
  if zoned && String.eqb zone "" then None else
  let '(s, ell) := match s with
                   | String ":" (String ":" s') => (s', Some 0%nat)
                   | _ => (s, None)
                   end in
  if bool_decide (ell ≠ None) && String.eqb s "" then Some (replicate 16 0, zone) else
  match parseIPv6Loop 8 s ell [] with
  | Some ("", ell', ip) =>
      let i := length ip in
      if (i <? 16)%nat then
        match ell' with
        | None => None
        | Some e => Some (take e ip ++ replicate (16 - i) 0 ++ drop e ip, zone)
        end
      else if bool_decide (ell' ≠ None) then None else Some (ip, zone)
  | _ => None
  end.

(** [netip.ParseAddr] dispatches on the first of [.], [:] and [%]. *)
Fixpoint addrKind (s : string) : option ascii :=
  match s with
  | "" => None
  | String c s' =>
      if Ascii.eqb c "." || Ascii.eqb c ":" || Ascii.eqb c "%" then Some c else addrKind s'
  end.

Definition ParseAddr (s : string) : option (list Z * string) :=
  match addrKind s with
  | Some "."%char => (λ b, (b, "")) <$> parseIPv4 s
  | Some ":"%char => parseIPv6 s
  | _ => None
  end.

(** ** [net] *)

Definition v4InV6Prefix : list Z := replicate 10 0 ++ [255; 255].

(** [ip.To4()]. *)
Definition To4 (ip : IP) : option IP :=
  if (length ip =? 4)%nat then Some ip
  else if (length ip =? 16)%nat && bool_decide (take 12 ip = v4InV6Prefix)
       then Some (drop 12 ip) else None.

(** [net.CIDRMask(ones, 8 * bytes)]. *)
Fixpoint CIDRMask (ones : Z) (bytes : nat) : list Z :=
  match bytes with
  | O => []
  | S b => if 8 <=? ones then 255 :: CIDRMask (ones - 8) b
           else (255 - Z.shiftr 255 ones) :: CIDRMask 0 b
  end.

Record IPNet := mkIPNet { net_IP : IP; net_Mask : list Z }.

(** [ip.Mask(mask)]; the sources only call it on a 16-byte [ip]. *)
Definition Mask (ip : IP) (mask : list Z) : IP :=
  let ip := if (length mask =? 4)%nat && (length ip =? 16)%nat
               && bool_decide (take 12 ip = v4InV6Prefix)
            then drop 12 ip else ip in
  if (length ip =? length mask)%nat then zip_with Z.land ip mask else [].

(** [dtoi]: the number at the head of [s], its length and whether it is one. *)
Fixpoint dtoi (s : string) (n : Z) (i : nat) : Z * nat * bool :=
  match s with
  | String c s' =>
      match digitVal c with
      | Some d => let n' := n * 10 + d in
                  if 16777215 <=? n' then (16777215, i, false) else dtoi s' n' (S i)
      | None => (n, i, negb (i =? 0)%nat)
      end
  | "" => (n, i, negb (i =? 0)%nat)
  end.

Definition errCIDR (s : string) : error := Errorf "invalid CIDR address: %s" [s].

Definition ParseCIDR (s : string) : res (IP * IPNet) :=
  match cut "/" s with
  | None => Err (errCIDR s)
  | Some (addr, mask) =>
      match ParseAddr addr with
      | Some (b, "") =>
          let '(n, i, ok) := dtoi mask 0 0 in
          if negb ok || negb (i =? String.length mask)%nat || (n <? 0)
             || (8 * Z.of_nat (length b) <? n) then Err (errCIDR s)
          else
            let m := CIDRMask n (length b) in
            let addr16 := if (length b =? 4)%nat then v4InV6Prefix ++ b else b in
            Ok (addr16, mkIPNet (Mask addr16 m) m)
      | _ => Err (errCIDR s)
      end
  end.

(** [networkNumberAndMask]. *)
Definition networkNumberAndMask (n : IPNet) : option (IP * list Z) :=
  let '(ip, ok) := match To4 (net_IP n) with
                   | Some x => (x, true)
                   | None => (net_IP n, (length (net_IP n) =? 16)%nat)
                   end in
  if negb ok then None
  else if (length (net_Mask n) =? 4)%nat then
    if (length ip =? 4)%nat then Some (ip, net_Mask n) else None
  else if (length (net_Mask n) =? 16)%nat then
    Some (ip, if (length ip =? 4)%nat then drop 12 (net_Mask n) else net_Mask n)
  else None.

(** [n.Contains(ip)]. *)
Definition Contains (n : IPNet) (ip : IP) : bool :=
  let '(nn, m) := default ([], []) (networkNumberAndMask n) in
  let ip := default ip (To4 ip) in
  (length ip =? length nn)%nat
  && bool_decide (zip_with Z.land nn m = zip_with Z.land ip m).

(** [ip.String()] of a 4-byte or 16-byte address. *)
Definition hexDigit (d : Z) : ascii :=
  ascii_of_N (Z.to_N (if d <? 10 then 48 + d else 87 + d)).

Definition appendHex (x : Z) : string :=
  let d k := String (hexDigit (x / 16 ^ k mod 16)) "" in
  (if 4096 <=? x then d 3 else "") +:+ (if 256 <=? x then d 2 else "")
  +:+ (if 16 <=? x then d 1 else "") +:+ d 0.

Fixpoint groups16 (b : list Z) : list Z :=
  match b with
  | hi :: lo :: b' => hi * 256 + lo :: groups16 b'
  | _ => []
  end.

Fixpoint zeroRun (g : list Z) : nat :=
  match g with
  | 0 :: g' => S (zeroRun g')
  | _ => O
  end.

(** The first longest run of at least two zero groups: start and end. *)
Fixpoint longestZeros (g : list Z) (i : nat) (best : nat * nat) : nat * nat :=
  match g with
  | [] => best
  | _ :: g' =>
      let l := zeroRun g in
      longestZeros g' (S i)
        (if (2 <=? l)%nat && (best.2 - best.1 <? l)%nat then (i, (i + l)%nat) else best)
  end.

Definition appendTo6 (b : list Z) : string :=
  let g := groups16 b in
  let '(zs, ze) := longestZeros g 0 (255%nat, 255%nat) in
  if (zs =? 255)%nat then join ":" (appendHex <$> g)
  else join ":" (appendHex <$> take zs g) +:+ "::" +:+ join ":" (appendHex <$> drop ze g).

Definition IPString (ip : IP) : string :=
  match To4 ip with
  | Some b => join "." (itoa <$> b)
  | None => appendTo6 ip
  end.

(** ** [net.SplitHostPort] *)

(** The text before and after the last [c]. *)
Fixpoint cutLast (c : ascii) (s : string) : option (string * string) :=
  match s with
  | "" => None
  | String a s' =>
      match cutLast c s' with
      | Some (l, r) => Some (String a l, r)
      | None => if Ascii.eqb a c then Some ("", s') else None
      end
  end.

Definition errAddr : error := Opaque "net: bad host:port address".

(** [[host]:port] needs the first []] right before the last [:]; outside the
    brackets no bracket may appear, and [host:port] has one colon only. *)
Definition SplitHostPort (hostport : string) : res (string * string) :=
  match cutLast ":" hostport with
  | None => Err errAddr
  | Some (before, port) =>
      match hostport with
      | String "[" rest =>
          match cut "]" rest with
          | None => Err errAddr
          | Some (host, after) =>
              if String.eqb before ("[" +:+ host +:+ "]") then
                if containsByte "[" rest || containsByte "]" after then Err errAddr
                else Ok (host, port)
              else Err errAddr
          end
      | _ =>
          if containsByte ":" before then Err errAddr
          else if containsByte "[" hostport || containsByte "]" hostport then Err errAddr
          else Ok (before, port)
      end
  end.

Example parse_v4 : ParseCIDR "198.51.100.10/26" =
  Ok (v4InV6Prefix ++ [198; 51; 100; 10], mkIPNet [198; 51; 100; 0] [255; 255; 255; 192]).
Proof. reflexivity. Qed.
Example parse_v6 : (let* r := ParseCIDR "2001:db8::1:0:0:1/48" in Ok (IPString r.1)) = Ok "2001:db8::1:0:0:1".
Proof. reflexivity. Qed.
Example parse_v6_zeros : (let* r := ParseCIDR "::/0" in Ok (IPString r.1)) = Ok "::".
Proof. reflexivity. Qed.
Example parse_leading_zero : ParseCIDR "198.051.100.10/26" = Err (errCIDR "198.051.100.10/26").
Proof. reflexivity. Qed.
Example split_v6 : SplitHostPort "[fe80::1]:1790" = Ok ("fe80::1", "1790").
Proof. reflexivity. Qed.
Example split_bare : SplitHostPort "10.0.10.1" = Err errAddr.
Proof. reflexivity. Qed.
Example parse_mapped : (let* r := ParseCIDR "::ffff:1.2.3.4/128" in Ok (IPString r.1)) = Ok "1.2.3.4".
Proof. reflexivity. Qed.

(** ** Prefix containment as arithmetic *)

Definition is_byte (b : Z) : Prop := 0 ≤ b < 256.

(** The big-endian value of an address. *)
Fixpoint ipval (b : list Z) : Z :=
  match b with
  | [] => 0
  | x :: b' => x * 256 ^ Z.of_nat (length b') + ipval b'
  end.

(** The first [n] bits of an address of [8 * length b] bits. *)
Definition netbits (n : Z) (b : list Z) : Z :=
  ipval b / 2 ^ (8 * Z.of_nat (length b) - n).

Lemma ipval_range b : Forall is_byte b → 0 ≤ ipval b < 256 ^ Z.of_nat (length b).
Proof.
  induction 1 as [|x b [Hx Hx'] _ IH]; [done|]. cbn [ipval length].
  rewrite Nat2Z.inj_succ, Z.pow_succ_r by lia. nia.
Qed.

Lemma land_mask_byte x n : is_byte x → 0 ≤ n < 8 →
  Z.land x (255 - Z.shiftr 255 n) = x / 2 ^ (8 - n) * 2 ^ (8 - n).
Proof.
  intros Hx Hn.
  assert (Forall (λ x, Forall (λ n, Z.land x (255 - Z.shiftr 255 n)
    = x / 2 ^ (8 - n) * 2 ^ (8 - n)) (seqZ 0 8)) (seqZ 0 256)) as Hall.
  { by apply (bool_decide_unpack _); vm_compute. }
  rewrite Forall_forall in Hall. specialize (Hall x).
  rewrite elem_of_seqZ, Forall_forall in Hall. unfold is_byte in Hx.
  apply Hall; [lia|]. apply elem_of_seqZ. lia.
Qed.

Lemma land_mask_eq x y n : is_byte x → is_byte y → 0 ≤ n < 8 →
  Z.land x (255 - Z.shiftr 255 n) = Z.land y (255 - Z.shiftr 255 n)
  ↔ x / 2 ^ (8 - n) = y / 2 ^ (8 - n).
Proof.
  intros. rewrite !land_mask_byte by done.
  pose proof (Z.pow_pos_nonneg 2 (8 - n)). nia.
Qed.

Lemma land_255 x : is_byte x → Z.land x 255 = x.
Proof.
  intros. change 255 with (Z.ones 8). rewrite Z.land_ones by done. by apply Z.mod_small.
Qed.

Lemma zip_land_zeros a b : length a = length b →
  zip_with Z.land a (CIDRMask 0 (length a)) = zip_with Z.land b (CIDRMask 0 (length a)).
Proof.
  revert b. induction a as [|x a IH]; intros [|y b] Hl; simplify_eq/=; [done|].
  rewrite !Z.land_0_r. f_equal. by apply IH.
Qed.

(** The byte-wise masked comparison of [net.IPNet.Contains] holds exactly when
    the two addresses agree on their first [n] bits. *)
Lemma masked_eq_netbits a b n :
  Forall is_byte a → Forall is_byte b → length a = length b →
  0 ≤ n ≤ 8 * Z.of_nat (length a) →
  zip_with Z.land a (CIDRMask n (length a)) = zip_with Z.land b (CIDRMask n (length a))
  ↔ netbits n a = netbits n b.
Proof.
  intros Ha. revert b n. induction Ha as [|x a Hx Ha IH]; intros b n Hb Hl Hn;
    destruct Hb as [|y b Hy Hb]; simplify_eq/=; [done|].
  pose proof (ipval_range a Ha) as Ra. pose proof (ipval_range b Hb) as Rb.
  unfold netbits. cbn [length ipval]. rewrite <- Hl in *.
  set (L := Z.of_nat (length a)) in *.
  assert (256 ^ L = 2 ^ (8 * L)) as H256 by (rewrite Z.pow_mul_r by lia; done).
  rewrite H256 in *. rewrite Nat2Z.inj_succ in *. fold L in Hn |- *.
  destruct (Z.leb_spec 8 n) as [H8|H8].
  - specialize (IH b (n - 8) Hb Hl ltac:(lia)). unfold netbits in IH.
    rewrite <- Hl in IH. fold L in IH. replace (8 * L - (n - 8)) with (8 * Z.succ L - n) in IH by lia.
    set (k := 8 * Z.succ L - n) in *.
    assert (2 ^ (8 * L) = 2 ^ (n - 8) * 2 ^ k) as Hs.
    { rewrite <- Z.pow_add_r by lia. f_equal. lia. }
    pose proof (Z.pow_pos_nonneg 2 k). pose proof (Z.pow_pos_nonneg 2 (n - 8)).
    rewrite Hs, !Z.mul_assoc, !Z.div_add_l by lia.
    assert (0 ≤ ipval a / 2 ^ k < 2 ^ (n - 8)) by
      (split; [apply Z.div_pos; lia | apply Z.div_lt_upper_bound; lia]).
    assert (0 ≤ ipval b / 2 ^ k < 2 ^ (n - 8)) by
      (split; [apply Z.div_pos; lia | apply Z.div_lt_upper_bound; lia]).
    rewrite !land_255 by done.
    split.
    + intros [= -> Hz]. f_equal. by apply IH.
    + intros Heq. assert (x = y) as -> by nia. f_equal. apply IH. lia.
  - rewrite zip_land_zeros with (b := b) by done.
    assert (∀ z c, 0 ≤ c < 2 ^ (8 * L) →
      (z * 2 ^ (8 * L) + c) / 2 ^ (8 * Z.succ L - n) = z / 2 ^ (8 - n)) as Hdiv.
    { intros z c Hc. replace (8 * Z.succ L - n) with (8 * L + (8 - n)) by lia.
      rewrite Z.pow_add_r by lia. rewrite <- Z.div_div by
        (apply Z.pow_nonzero || apply Z.pow_pos_nonneg; lia).
      rewrite Z.div_add_l by (apply Z.pow_nonzero; lia).
      by rewrite (Z.div_small c), Z.add_0_r. }
    rewrite !Hdiv by lia. rewrite <- land_mask_eq by (done || lia).
    split; [by intros [= ->] | by intros ->].
Qed.

(** ** Canonical IPv4 prefixes *)

(** [a.b.c.d/n], as routers and operators write an IPv4 prefix. *)
Definition cidr4 (b : list Z) (n : Z) : string :=
  join "." (itoa <$> b) +:+ "/" +:+ itoa n.

(** An IPv4 prefix: four bytes and a length. *)
Definition is_v4 (b : list Z) (n : Z) : Prop :=
  length b = 4%nat ∧ Forall is_byte b ∧ 0 ≤ n ≤ 32.

Lemma seqZ_cases (P : Z → Prop) m n :
  Forall P (seqZ m n) → ∀ x, m ≤ x < m + n → P x.
Proof. intros HP x Hx. eapply Forall_forall; [done|]. by apply elem_of_seqZ. Qed.

Lemma parseIPv4Fields_itoa x s f : is_byte x →
  parseIPv4Fields (itoa x +:+ s) 0 0 f
  = parseIPv4Fields s x (Z.of_nat (String.length (itoa x))) f.
Proof.
  intros Hx. revert x Hx. unfold is_byte. change 256 with (0 + 256).
  apply seqZ_cases. let l := eval vm_compute in (seqZ 0 256) in change (seqZ 0 256) with l.
  repeat (constructor; [reflexivity|]). constructor.
Qed.

Lemma dtoi_itoa n : 0 ≤ n < 129 →
  dtoi (itoa n) 0 0 = (n, String.length (itoa n), true).
Proof.
  revert n. change 129 with (0 + 129). apply seqZ_cases.
  by apply (bool_decide_unpack _); vm_compute.
Qed.

Lemma itoa_length_pos x : 0 ≤ x → (Z.of_nat (String.length (itoa x)) =? 0) = false.
Proof.
  intros. rewrite itoa_nonneg by done. destruct (pretty_N_cons (Z.to_N x)) as (a & s & -> & _).
  by apply Z.eqb_neq.
Qed.

Lemma parseIPv4_join b : length b = 4%nat → Forall is_byte b →
  parseIPv4 (join "." (itoa <$> b)) = Some b.
Proof.
  intros Hl Hb. destruct b as [|x [|y [|z [|w [|]]]]]; simplify_eq/=.
  repeat match goal with H : Forall _ (_ :: _) |- _ => inversion_clear H end.
  unfold parseIPv4. rewrite <- (app_empty_r (itoa w)).
  assert (∀ v s f, is_byte v → s ≠ "" → (length f < 3)%nat →
    parseIPv4Fields ("." +:+ s) v (Z.of_nat (String.length (itoa v))) f
    = parseIPv4Fields s 0 0 (f ++ [v])) as Hdot.
  { intros v s f Hv Hs Hf. rewrite app_String, app_empty_l. cbn [parseIPv4Fields].
    change (digitVal ".") with (@None Z). cbv iota. simpl Ascii.eqb. cbv iota.
    unfold is_byte in Hv. rewrite itoa_length_pos by lia.
    apply String.eqb_neq in Hs as ->. simpl.
    destruct (Nat.eqb_spec (length f) 3); [lia|done]. }
  assert (∀ v s, is_byte v → itoa v +:+ s ≠ "") as Hne.
  { intros v s [Hv _]. rewrite itoa_nonneg by done.
    by destruct (pretty_N_cons (Z.to_N v)) as (c & t & -> & _). }
  rewrite parseIPv4Fields_itoa, Hdot by (auto; simpl; lia).
  rewrite parseIPv4Fields_itoa, Hdot by (auto; simpl; lia).
  rewrite parseIPv4Fields_itoa, Hdot by (auto; simpl; lia).
  by rewrite parseIPv4Fields_itoa.
Qed.

Lemma addrKind_digits s t : digits s = true → addrKind (s +:+ t) = addrKind t.
Proof.
  induction s as [|a s IH]; [done|]. simpl. intros Hs.
  destruct (digitVal a) eqn:Ha; [|done].
  assert (Ascii.eqb a "." || Ascii.eqb a ":" || Ascii.eqb a "%" = false) as ->; [|auto].
  rewrite !orb_false_iff, !Ascii.eqb_neq. repeat split; intros ->; discriminate Ha.
Qed.

Lemma containsByte_join c b : Forall is_byte b → digitVal c = None → c ≠ "."%char →
  containsByte c (join "." (itoa <$> b)) = false.
Proof.
  intros Hb Hc Hdot. induction Hb as [|x b [Hx _] _ IH]; [done|].
  assert (containsByte c (itoa x) = false) as Hi by (apply digits_no; auto using digits_itoa).
  destruct b as [|y b]; [done|]. cbn [fmap list_fmap join] in *.
  rewrite containsByte_app, Hi, app_String, app_empty_l. cbn [containsByte orb].
  apply Ascii.eqb_neq in Hdot. rewrite Ascii.eqb_sym, Hdot. exact IH.
Qed.

Lemma ParseAddr_join b : length b = 4%nat → Forall is_byte b →
  ParseAddr (join "." (itoa <$> b)) = Some (b, "").
Proof.
  intros Hl Hb. unfold ParseAddr. rewrite parseIPv4_join by done.
  destruct b as [|x [|y b]]; [done..|]. inversion_clear Hb.
  cbn [fmap list_fmap join]. rewrite addrKind_digits; [done|].
  apply digits_itoa. unfold is_byte in *. lia.
Qed.

(** Parsing a canonical IPv4 prefix recovers its bytes and its length. *)
Lemma ParseCIDR_cidr4 b n : is_v4 b n →
  ParseCIDR (cidr4 b n)
  = Ok (v4InV6Prefix ++ b, mkIPNet (zip_with Z.land b (CIDRMask n 4)) (CIDRMask n 4)).
Proof.
  intros (Hl & Hb & Hn). unfold ParseCIDR, cidr4.
  rewrite app_String, app_empty_l.
  rewrite cut_app by (apply containsByte_join; done).
  rewrite ParseAddr_join by done. rewrite dtoi_itoa by lia.
  rewrite Nat.eqb_refl, Hl. simpl negb. simpl orb.
  assert (n <? 0 = false) as -> by (apply Z.ltb_ge; lia).
  assert (8 * Z.of_nat 4 <? n = false) as -> by (apply Z.ltb_ge; lia). simpl orb.
  destruct b as [|x [|y [|z [|w [|]]]]]; simplify_eq/=. by repeat case_match.
Qed.

Lemma To4_mapped b : length b = 4%nat → To4 (v4InV6Prefix ++ b) = Some b.
Proof. destruct b as [|x [|y [|z [|w [|]]]]]; by intros [=]. Qed.

Lemma length_CIDRMask n k : length (CIDRMask n k) = k.
Proof. revert n. induction k as [|k IH]; intros n; simpl; [done|]. by case_match; simpl; rewrite IH. Qed.

Lemma zip_land_idem a m : length a = length m →
  zip_with Z.land (zip_with Z.land a m) m = zip_with Z.land a m.
Proof.
  revert m. induction a as [|x a IH]; intros [|y m] Hl; simplify_eq/=; [done|].
  rewrite IH by done. by rewrite <- Z.land_assoc, Z.land_diag.
Qed.

(** Containment of one canonical IPv4 address in another's network: equality of
    the network bits. *)
Lemma Contains_cidr4 b n b' n' : is_v4 b n → is_v4 b' n' →
  Contains (mkIPNet (zip_with Z.land b (CIDRMask n 4)) (CIDRMask n 4)) (v4InV6Prefix ++ b')
  = bool_decide (netbits n b = netbits n b').
Proof.
  intros (Hl & Hb & Hn) (Hl' & Hb' & Hn').
  pose proof (masked_eq_netbits b b' n Hb Hb' ltac:(congruence) ltac:(lia)) as Heq.
  rewrite Hl in Heq. pose proof (length_CIDRMask n 4) as Hm.
  revert Hm Heq. generalize (CIDRMask n 4) as m. intros m Hm Heq.
  assert (length (zip_with Z.land b m) = 4%nat) as Hz by (by rewrite length_zip_with, Hl, Hm).
  unfold Contains. rewrite To4_mapped by done.
  unfold networkNumberAndMask, To4. cbn [net_IP net_Mask]. rewrite Hz, Hm. cbn.
  rewrite Hz. cbn. rewrite Hl', Hz, zip_land_idem by congruence. cbn.
  by apply bool_decide_ext.
Qed.
