(* ===== verification/GoFloat.v ===== *)
(** * IEEE-754 binary64 as Go's [float64]

    A [float64] is a [spec_float] of the prover's own library, whose operations
    at precision 53 and maximal exponent 1024 are binary64 with rounding to
    nearest even, computed on integers.  The file adds the operations of Go's
    [math] and [fmt] the sources use and the order and rounding facts the
    components rely on. *)

From S2P Require Import Prelude GoStrings.
From Corelib Require Export SpecFloat.
Local Open Scope Z_scope.

Definition float64 : Type := spec_float.

(** ** Operations *)

Definition fmul : float64 → float64 → float64 := SFmul 53 1024.
Definition fadd : float64 → float64 → float64 := SFadd 53 1024.
Definition fdiv : float64 → float64 → float64 := SFdiv 53 1024.
Definition flt : float64 → float64 → bool := SFltb.
Definition fle : float64 → float64 → bool := SFleb.

(** [float64(z)] of an integer [z]. *)
Definition float64_of_Z (z : Z) : float64 := binary_normalize 53 1024 z 0 false.

Definition fzero : float64 := S754_zero false.
Definition fhalf : float64 := S754_finite false 4503599627370496 (-53).
Definition fone : float64 := S754_finite false 4503599627370496 (-52).

Definition IsNaN (x : float64) : bool :=
  match x with S754_nan => true | _ => false end.

(** The integer nearest to [m * 2^e], halves away from zero, for [e < 0]. *)
Definition roundHalfUp (m e : Z) : Z := (2 * m + 2 ^ (- e)) / 2 ^ (1 - e).

(** [math.Round]: halves away from zero; zeros, infinities, NaN and large values
    (already integers) are returned unchanged. *)
Definition Round (x : float64) : float64 :=
  match x with
  | S754_finite s m e =>
      if 0 <=? e then x
      else match roundHalfUp (Zpos m) e with
           | Zpos n => binary_round 53 1024 s n 0
           | _ => S754_zero s
           end
  | _ => x
  end.

(** The integer part of a finite number. *)
Definition truncZ (x : float64) : option Z :=
  match x with
  | S754_zero _ => Some 0
  | S754_finite s m e =>
      let n := if 0 <=? e then Zpos m * 2 ^ e else Zpos m / 2 ^ (- e) in
      Some (if s then - n else n)
  | _ => None
  end.

(** What the language and the library leave to the platform: the value of
    [math.Pow] (implemented in assembly on some architectures) and the result of
    converting a floating-point number to an integer type it does not fit. *)
Class Platform := {
  math_Pow : float64 → float64 → float64;
  conv_undefined : float64 → Z;
}.

(** [T(f)] for an integer type [T] with bounds [lo] and [hi]: the fraction is
    discarded. *)
Definition convInt `{Platform} (lo hi : Z) (x : float64) : Z :=
  match truncZ x with
  | Some z => if (lo <=? z) && (z <=? hi) then z else conv_undefined x
  | None => conv_undefined x
  end.

(** [%.0f]: the nearest integer, halves to even, with the sign of a negative
    zero. *)
Definition roundHalfEven (m e : Z) : Z :=
  if 0 <=? e then m * 2 ^ e
  else let d := 2 ^ (- e) in
       let q := m / d in
       let r := 2 * (m mod d) in
       if r <? d then q else if d <? r then q + 1 else if Z.even q then q else q + 1.

Definition fmtFloat0 (x : float64) : string :=
  match x with
  | S754_nan => "NaN"
  | S754_infinity s => (if s then "-" else "+") +:+ "Inf"
  | S754_zero s => (if s then "-" else "") +:+ "0"
  | S754_finite s m e => (if s then "-" else "") +:+ itoa (roundHalfEven (Zpos m) e)
  end.

Example round_340 : fmtFloat0 (fdiv (float64_of_Z 3405) (float64_of_Z 10)) = "340".
Proof. reflexivity. Qed.
Example round_half : Round (fdiv (float64_of_Z 3405) (float64_of_Z 10)) = float64_of_Z 341.
Proof. reflexivity. Qed.

(** ** Values *)

Definition valid (x : float64) : bool := valid_binary 53 1024 x.

Definition finite (x : float64) : bool :=
  match x with S754_zero _ | S754_finite _ _ _ => true | _ => false end.

(** Every finite binary64 number is an integer multiple of [2^-1074]: [sval] is
    that integer, so the order of finite numbers is the order of integers. *)
Definition mag (m : Z) (e : Z) : Z := m * 2 ^ (e + 1074).
Definition sval (x : float64) : Z :=
  match x with
  | S754_finite s m e => if s then - mag (Zpos m) e else mag (Zpos m) e
  | _ => 0
  end.

Lemma digits2_bounds p : 2 ^ (Zpos (digits2_pos p) - 1) ≤ Zpos p < 2 ^ Zpos (digits2_pos p).
Proof.
  induction p as [p IH|p IH|]; cbn [digits2_pos]; [..|by vm_compute];
    rewrite Pos2Z.inj_succ; replace (Z.succ (Zpos (digits2_pos p)) - 1)
      with (Z.succ (Zpos (digits2_pos p) - 1)) by lia;
    rewrite !Z.pow_succ_r by lia; lia.
Qed.

Lemma digits2_unique p d : 0 ≤ d → 2 ^ d ≤ Zpos p < 2 ^ (d + 1) → Zpos (digits2_pos p) = d + 1.
Proof.
  intros Hd Hp. pose proof (digits2_bounds p) as Hb.
  destruct (Z.lt_trichotomy (Zpos (digits2_pos p)) (d + 1)) as [Hlt|[?|Hlt]]; [|done|].
  - pose proof (Z.pow_le_mono_r 2 (Zpos (digits2_pos p)) d). lia.
  - pose proof (Z.pow_le_mono_r 2 (d + 1) (Zpos (digits2_pos p) - 1)). lia.
Qed.

(** A canonical mantissa: 53 digits, or fewer at the smallest exponent. *)
Lemma canonical_iff m e : canonical_mantissa 53 1024 m e = true ↔
  (e = -1074 ∧ Zpos (digits2_pos m) ≤ 53) ∨ (-1074 < e ∧ Zpos (digits2_pos m) = 53).
Proof. unfold canonical_mantissa, fexp, emin. rewrite Z.eqb_eq. lia. Qed.

Lemma valid_finite s m e : valid (S754_finite s m e) = true ↔
  ((e = -1074 ∧ Zpos (digits2_pos m) ≤ 53) ∨ (-1074 < e ∧ Zpos (digits2_pos m) = 53)) ∧ e ≤ 971.
Proof.
  unfold valid, valid_binary, bounded. rewrite andb_true_iff, canonical_iff, Z.leb_le.
  by change (1024 - 53) with 971.
Qed.

Lemma mag_pos m e : -1074 ≤ e → 0 < mag (Zpos m) e.
Proof. intros. unfold mag. pose proof (Z.pow_pos_nonneg 2 (e + 1074)). nia. Qed.

(** Lexicographic order of (exponent, mantissa) is the order of values. *)
Lemma mag_compare m1 e1 m2 e2 :
  canonical_mantissa 53 1024 m1 e1 = true → canonical_mantissa 53 1024 m2 e2 = true →
  match Z.compare e1 e2 with Lt => Lt | Gt => Gt | Eq => Pos.compare m1 m2 end
  = Z.compare (mag (Zpos m1) e1) (mag (Zpos m2) e2).
Proof.
  rewrite !canonical_iff. intros H1 H2.
  assert (∀ m e m' e', (e = -1074 ∧ Zpos (digits2_pos m) ≤ 53
      ∨ -1074 < e ∧ Zpos (digits2_pos m) = 53) →
    -1074 < e' ∧ Zpos (digits2_pos m') = 53 → e < e' → mag (Zpos m) e < mag (Zpos m') e') as Hlt.
  { intros m e m' e' Hm [He' Hm'] Hlt. unfold mag.
    pose proof (digits2_bounds m). pose proof (digits2_bounds m') as Hb. rewrite Hm' in Hb.
    assert (2 ^ Zpos (digits2_pos m) ≤ 2 ^ 53) by (apply Z.pow_le_mono_r; lia).
    assert (2 ^ (e' + 1074) = 2 ^ (e' - e - 1) * (2 * 2 ^ (e + 1074))) as ->.
    { rewrite <- Z.pow_succ_r, <- Z.pow_add_r by lia. f_equal. lia. }
    assert (0 < 2 ^ (e' - e - 1)) by (apply Z.pow_pos_nonneg; lia).
    assert (0 < 2 ^ (e + 1074)) by (apply Z.pow_pos_nonneg; lia).
    change (2 ^ (53 - 1)) with 4503599627370496 in *.
    change (2 ^ 53) with 9007199254740992 in *.
    apply Z.lt_le_trans with (2 * Zpos m' * 2 ^ (e + 1074)); [nia|].
    replace (_ * (_ * _)) with (2 * Zpos m' * 2 ^ (e + 1074) * 2 ^ (e' - e - 1)) by ring.
    rewrite <- (Z.mul_1_r (2 * _ * _)) at 1. apply Z.mul_le_mono_nonneg_l; nia. }
  symmetry. destruct (Z.compare_spec e1 e2) as [->|He|He].
  - unfold mag. symmetry. apply (Zmult_compare_compat_r (Zpos m1) (Zpos m2)).
    apply Z.lt_gt, Z.pow_pos_nonneg; lia.
  - apply Z.compare_lt_iff, Hlt; lia.
  - apply Z.compare_gt_iff, Hlt; lia.
Qed.

Lemma SFcompare_sval x y :
  valid x = true → valid y = true → finite x = true → finite y = true →
  SFcompare x y = Some (Z.compare (sval x) (sval y)).
Proof.
  intros Hx Hy Fx Fy.
  assert (∀ s m e, valid (S754_finite s m e) = true → 0 < mag (Zpos m) e) as Hpos.
  { intros s m e Hv%valid_finite. apply mag_pos. lia. }
  destruct x as [?| | |s1 m1 e1], y as [?| | |s2 m2 e2]; try done; cbn [SFcompare sval].
  - pose proof (Hpos _ _ _ Hy). destruct s2; f_equal; symmetry;
      [apply Z.compare_gt_iff | apply Z.compare_lt_iff]; lia.
  - pose proof (Hpos _ _ _ Hx). destruct s1; f_equal; symmetry;
      [apply Z.compare_lt_iff | apply Z.compare_gt_iff]; lia.
  - pose proof (Hpos _ _ _ Hx). pose proof (Hpos _ _ _ Hy).
    unfold valid, valid_binary, bounded in Hx, Hy.
    apply andb_true_iff in Hx as [Hx _], Hy as [Hy _].
    pose proof (mag_compare m1 e1 m2 e2 Hx Hy) as Hc. unfold Pos.compare in Hc.
    f_equal. destruct s1, s2.
    + rewrite Z.compare_opp, (Z.compare_antisym (mag (Zpos m1) e1)), <- Hc.
      by destruct (Z.compare e1 e2).
    + symmetry. apply Z.compare_lt_iff. lia.
    + symmetry. apply Z.compare_gt_iff. lia.
    + exact Hc.
Qed.

Lemma fle_sval x y :
  valid x = true → valid y = true → finite x = true → finite y = true →
  fle x y = (sval x <=? sval y).
Proof. intros. unfold fle, SFleb, Z.leb. rewrite SFcompare_sval by done. by case_match. Qed.

Lemma flt_sval x y :
  valid x = true → valid y = true → finite x = true → finite y = true →
  flt x y = (sval x <? sval y).
Proof. intros. unfold flt, SFltb, Z.ltb. rewrite SFcompare_sval by done. by case_match. Qed.

(** ** Rounding *)

(** [loc_ok M n r]: the record [r] is [M] shifted right by [n], its two flag bits
    telling how the bits shifted out compare with a half. *)
Definition loc_ok (M n : Z) (r : shr_record) : Prop :=
  0 ≤ M ∧ 0 ≤ n ∧ shr_m r = M / 2 ^ n ∧
  shr_r r = (2 ^ n <=? 2 * (M mod 2 ^ n)) ∧
  shr_s r = negb (M mod 2 ^ n =? 0) && negb (2 * (M mod 2 ^ n) =? 2 ^ n).

Lemma shr_1_ok M n r : loc_ok M n r → loc_ok M (n + 1) (shr_1 r).
Proof.
  intros (HM & Hn & Hm & Hr & Hs).
  assert (2 ^ (n + 1) = 2 ^ n * 2) as Hp by (rewrite Z.pow_add_r by lia; done).
  assert (0 < 2 ^ n) as H2 by (apply Z.pow_pos_nonneg; lia).
  assert (M / 2 ^ (n + 1) = M / 2 ^ n / 2) as Hq by (rewrite Hp, Z.div_div; lia).
  assert (M mod 2 ^ (n + 1) = M mod 2 ^ n + 2 ^ n * ((M / 2 ^ n) mod 2)) as Hmod.
  { rewrite Hp. apply Z.rem_mul_r; lia. }
  pose proof (Z.mod_pos_bound M (2 ^ n) H2) as Hb.
  pose proof (Z.div_pos M (2 ^ n) HM H2) as Hd.
  destruct r as [m rb sb]; cbn [shr_m shr_r shr_s] in *.
  assert (orb rb sb = negb (M mod 2 ^ n =? 0)) as Hsticky.
  { rewrite Hr, Hs. destruct (Z.leb_spec (2 ^ n) (2 * (M mod 2 ^ n))),
      (Z.eqb_spec (M mod 2 ^ n) 0), (Z.eqb_spec (2 * (M mod 2 ^ n)) (2 ^ n)); simpl; lia. }
  assert (shr_1 {| shr_m := m; shr_r := rb; shr_s := sb |}
    = {| shr_m := m / 2; shr_r := Z.odd m; shr_s := rb || sb |}) as ->.
  { subst m. destruct (M / 2 ^ n) as [|[p|p|]|p]; try done.
    - cbn [shr_1 Z.odd]. f_equal. symmetry. rewrite Pos2Z.inj_xI.
      rewrite Z.mul_comm, Z.div_add_l by done. by rewrite Z.add_0_r.
    - cbn [shr_1 Z.odd]. f_equal. symmetry. rewrite Pos2Z.inj_xO, Z.mul_comm. by apply Z.div_mul. }
  unfold loc_ok. cbn [shr_m shr_r shr_s]. rewrite Hsticky, Hm, Hq, Hmod, Hp.
  pose proof (Zmod_odd (M / 2 ^ n)) as Hodd. rewrite Hodd. clear Hsticky Hr Hs.
  split_and!; [done|lia|done|..];
    destruct (Z.odd (M / 2 ^ n)), (Z.eqb_spec (M mod 2 ^ n) 0); simpl;
    rewrite ?Z.mul_1_r, ?Z.mul_0_r, ?Z.add_0_r;
    repeat match goal with
      | |- context [?a <=? ?b] => destruct (Z.leb_spec a b)
      | |- context [?a =? ?b] => destruct (Z.eqb_spec a b)
      end; simpl; lia.
Qed.

Lemma iter_shr_ok p M n r : loc_ok M n r → loc_ok M (n + Zpos p) (iter_pos shr_1 p r).
Proof.
  revert n r. induction p as [p IH|p IH|]; intros n r H; cbn [iter_pos].
  - replace (n + Zpos p~1) with (n + 1 + Zpos p + Zpos p) by lia. auto using shr_1_ok.
  - replace (n + Zpos p~0) with (n + Zpos p + Zpos p) by lia. auto.
  - by apply shr_1_ok.
Qed.

(** Shifting an exact [M] right by [n >= 0]. *)
Lemma shr_exact_ok M e n : 0 ≤ M → 0 ≤ n →
  ∃ r, shr (shr_record_of_loc M loc_Exact) e n = (r, e + n) ∧ loc_ok M n r.
Proof.
  intros HM Hn. assert (loc_ok M 0 (shr_record_of_loc M loc_Exact)) as H0.
  { unfold loc_ok. simpl. rewrite Z.div_1_r, Z.mod_1_r. naive_solver lia. }
  destruct n as [|p|p]; [|..|lia].
  - eexists. split; [simpl; f_equal; lia | done].
  - eexists. split; [done|]. by apply (iter_shr_ok p M 0).
Qed.

(** Round to nearest even of [M / 2^n]. *)
Definition rne (M n : Z) : Z :=
  let q := M / 2 ^ n in
  let r := 2 * (M mod 2 ^ n) in
  if r <? 2 ^ n then q else if 2 ^ n <? r then q + 1 else if Z.even q then q else q + 1.

Lemma round_loc_ok M n r : loc_ok M n r →
  round_nearest_even (shr_m r) (loc_of_shr_record r) = rne M n.
Proof.
  intros (HM & Hn & Hm & Hr & Hs). destruct r as [m rb sb]; cbn [shr_m shr_r shr_s] in *.
  assert (0 < 2 ^ n) as H2 by (apply Z.pow_pos_nonneg; lia).
  pose proof (Z.mod_pos_bound M (2 ^ n) H2) as Hb.
  unfold rne. subst m. set (q := M / 2 ^ n). subst rb sb.
  destruct (Z.leb_spec (2 ^ n) (2 * (M mod 2 ^ n))), (Z.eqb_spec (M mod 2 ^ n) 0),
    (Z.eqb_spec (2 * (M mod 2 ^ n)) (2 ^ n)), (Z.ltb_spec (2 * (M mod 2 ^ n)) (2 ^ n)),
    (Z.ltb_spec (2 ^ n) (2 * (M mod 2 ^ n))); simpl; lia || done.
Qed.

(** Rounding moves to one of the two neighbours, and an exact quotient does not
    move. *)
Lemma rne_bounds M n : 0 ≤ M → 0 ≤ n →
  M / 2 ^ n ≤ rne M n ∧ (rne M n = M / 2 ^ n ∨ rne M n = M / 2 ^ n + 1 ∧ 0 < M mod 2 ^ n).
Proof.
  intros HM Hn. assert (0 < 2 ^ n) as H2 by (apply Z.pow_pos_nonneg; lia).
  pose proof (Z.mod_pos_bound M (2 ^ n) H2) as Hb. unfold rne.
  destruct (Z.ltb_spec (2 * (M mod 2 ^ n)) (2 ^ n)); [lia|].
  destruct (Z.ltb_spec (2 ^ n) (2 * (M mod 2 ^ n))); [lia|].
  destruct (Z.even _); lia.
Qed.

Lemma shr_nonpos r e n : n ≤ 0 → shr r e n = (r, e).
Proof. by destruct n. Qed.

Definition exponent (M e : Z) : Z := fexp 53 1024 (Zdigits2 M + e).

Lemma exponent_alt M e : exponent M e = Z.max (Zdigits2 M + e - 53) (-1074).
Proof. done. Qed.

Lemma rne_le_2p53 M e : 0 < M → e ≤ exponent M e → rne M (exponent M e - e) ≤ 2 ^ 53.
Proof.
  intros HM He. destruct M as [|p|]; [lia| |lia]. pose proof (digits2_bounds p) as Hb.
  rewrite exponent_alt in *. cbn [Zdigits2] in *.
  set (d := Zpos (digits2_pos p)) in *. set (n := Z.max (d + e - 53) (-1074) - e).
  pose proof (rne_bounds (Zpos p) n ltac:(lia) ltac:(lia)) as [_ Hr].
  assert (Zpos p / 2 ^ n < 2 ^ 53); [|lia].
  apply Z.div_lt_upper_bound; [apply Z.pow_pos_nonneg; lia|].
  rewrite <- Z.pow_add_r by lia. apply Z.lt_le_trans with (2 ^ d); [lia|].
  apply Z.pow_le_mono_r; lia.
Qed.

(** A normal result has all 53 digits. *)
Lemma rne_ge_2p52 M e : 0 < M → e ≤ exponent M e → -1074 < exponent M e →
  2 ^ 52 ≤ rne M (exponent M e - e).
Proof.
  intros HM He Hn. destruct M as [|p|]; [lia| |lia]. pose proof (digits2_bounds p) as Hb.
  rewrite exponent_alt in *. cbn [Zdigits2] in *.
  set (d := Zpos (digits2_pos p)) in *. replace (Z.max (d + e - 53) (-1074) - e) with (d - 53) by lia.
  pose proof (rne_bounds (Zpos p) (d - 53) ltac:(lia) ltac:(lia)) as [Hr _].
  etrans; [|exact Hr]. apply Z.div_le_lower_bound; [apply Z.pow_pos_nonneg; lia|].
  rewrite <- Z.pow_add_r by lia. replace (d - 53 + 52) with (d - 1) by lia. lia.
Qed.

Definition overflow_check (s : bool) (m : positive) (e : Z) : float64 :=
  if e <=? 971 then S754_finite s m e else S754_infinity s.

(** The result of rounding [M * 2^e]: the multiple [rne] picks, renormalised. *)
Lemma round_aux_spec s M e : 0 < M → e ≤ exponent M e →
  let E := exponent M e in
  let r := rne M (E - e) in
  (r = 0 ∧ binary_round_aux 53 1024 s M e loc_Exact = S754_zero s) ∨
  (0 < r ∧ ∃ m' e', binary_round_aux 53 1024 s M e loc_Exact = overflow_check s m' e' ∧
     canonical_mantissa 53 1024 m' e' = true ∧ mag (Zpos m') e' = mag r E ∧ E ≤ e').
Proof.
  intros HM He E r.
  destruct (shr_exact_ok M e (E - e) ltac:(lia) ltac:(lia)) as (rec & Hrec & Hloc).
  replace (e + (E - e)) with E in Hrec by lia.
  pose proof (round_loc_ok _ _ _ Hloc) as Hround. fold r in Hround.
  assert (binary_round_aux 53 1024 s M e loc_Exact =
    let '(mrs, e'') := shr (shr_record_of_loc r loc_Exact) E (exponent r E - E) in
    match shr_m mrs with
    | Z0 => S754_zero s
    | Zpos m => overflow_check s m e''
    | _ => S754_nan
    end) as ->.
  { unfold binary_round_aux, shr_fexp at 1.
    change (fexp 53 1024 (Zdigits2 M + e)) with E. rewrite Hrec, Hround. done. }
  assert (0 ≤ r ≤ 2 ^ 53) as Hr.
  { pose proof (rne_bounds M (E - e) ltac:(lia) ltac:(lia)) as [Hlow _].
    pose proof (rne_le_2p53 M e HM He). fold E in H. fold r in H, Hlow.
    assert (0 ≤ M / 2 ^ (E - e)) by (apply Z.div_pos; [lia|apply Z.pow_pos_nonneg; lia]). lia. }
  assert (-1074 ≤ E) as HE by (unfold E; rewrite exponent_alt; lia).
  destruct r as [|m|] eqn:Er; [left|right|lia].
  { split; [done|]. rewrite exponent_alt. simpl Zdigits2. by rewrite shr_nonpos by lia. }
  split; [done|]. pose proof (digits2_bounds m) as Hb.
  destruct (decide (Zpos m = 2 ^ 53)) as [Hm|Hm].
  - assert (m = 9007199254740992%positive) as -> by (revert Hm; vm_compute; by intros [=]).
    assert (exponent 9007199254740992 E - E = 1) as ->.
    { rewrite exponent_alt. simpl. lia. }
    exists 4503599627370496%positive, (E + 1). split_and!; [done| | |lia].
    + apply canonical_iff. right. simpl. lia.
    + unfold mag. replace (E + 1 + 1074) with (Z.succ (E + 1074)) by lia.
      rewrite Z.pow_succ_r by lia. lia.
  - assert (Zpos (digits2_pos m) ≤ 53) as Hd.
    { destruct (Z.le_gt_cases (Zpos (digits2_pos m)) 53); [done|].
      pose proof (Z.pow_le_mono_r 2 53 (Zpos (digits2_pos m) - 1)). lia. }
    rewrite shr_nonpos by (rewrite exponent_alt; cbn [Zdigits2]; lia).
    exists m, E. split_and!; [done| |done|lia]. apply canonical_iff.
    destruct (decide (E = -1074)) as [|HE']; [by left|right]. split; [lia|].
    pose proof (rne_ge_2p52 M e HM He ltac:(fold E; lia)) as Hge. fold E in Hge.
    change (E - e) with (E - e) in Hge. unfold r in Er. rewrite Er in Hge.
    apply (digits2_unique m 52); [done|]. change (52 + 1) with 53. lia.
Qed.

(** Rounding never passes a representable number: if [M * 2^e] is at most the
    finite number [mx * 2^ex], so is the rounded value. *)
Lemma round_aux_le s M e mx ex :
  0 < M → e ≤ exponent M e → valid (S754_finite s mx ex) = true →
  e ≤ ex → M ≤ Zpos mx * 2 ^ (ex - e) →
  let y := binary_round_aux 53 1024 s M e loc_Exact in
  valid y = true ∧ finite y = true ∧ 0 ≤ (if s then - sval y else sval y) ≤ mag (Zpos mx) ex.
Proof.
  intros HM He Hv Hle HMX y. apply valid_finite in Hv as [Hc Hex].
  pose proof (mag_pos mx ex ltac:(lia)) as Hmx. pose proof (digits2_bounds mx) as Hbx.
  set (E := exponent M e) in *. assert (-1074 ≤ E) as HE by (unfold E; rewrite exponent_alt; lia).
  assert (E ≤ ex) as HEex.
  { destruct M as [|p|]; [lia| |lia]. pose proof (digits2_bounds p) as Hbp.
    unfold E. rewrite exponent_alt. cbn [Zdigits2]. set (d := Zpos (digits2_pos p)) in *.
    assert (2 ^ (d - 1) < 2 ^ (53 + (ex - e))) as Hlt%Z.pow_lt_mono_r_iff; [|lia..].
    rewrite Z.pow_add_r by lia. assert (Zpos mx < 2 ^ 53).
    { apply Z.lt_le_trans with (2 ^ Zpos (digits2_pos mx)); [lia|]. apply Z.pow_le_mono_r; lia. }
    assert (0 < 2 ^ (ex - e)) by (apply Z.pow_pos_nonneg; lia). nia. }
  assert (rne M (E - e) ≤ Zpos mx * 2 ^ (ex - E)) as Hr.
  { pose proof (rne_bounds M (E - e) ltac:(lia) ltac:(lia)) as [_ Hb].
    assert (0 < 2 ^ (E - e)) as H2 by (apply Z.pow_pos_nonneg; lia).
    assert (M ≤ Zpos mx * 2 ^ (ex - E) * 2 ^ (E - e)) as HM'.
    { rewrite <- Z.mul_assoc, <- Z.pow_add_r by lia. by replace (ex - E + (E - e)) with (ex - e) by lia. }
    pose proof (Z.div_mod M (2 ^ (E - e)) ltac:(lia)) as Hdm.
    pose proof (Z.mod_pos_bound M (2 ^ (E - e)) H2). nia. }
  assert (mag (rne M (E - e)) E ≤ mag (Zpos mx) ex) as Hmag.
  { unfold mag. replace (ex + 1074) with (ex - E + (E + 1074)) by lia.
    rewrite (Z.pow_add_r 2 (ex - E)), Z.mul_assoc by lia.
    apply Z.mul_le_mono_nonneg_r; [apply Z.pow_nonneg; lia|done]. }
  destruct (round_aux_spec s M e HM He) as [[_ Hy]|(Hpos & m' & e' & Hy & Hc' & Hval & _)];
    fold y E in Hy; [rewrite Hy; split_and!; [done|done|destruct s; simpl; lia..]|].
  fold E in Hval. rewrite <- Hval in Hmag.
  assert (e' ≤ ex) as Hee.
  { pose proof (mag_compare m' e' mx ex Hc' ltac:(by apply canonical_iff)) as Hcmp.
    destruct (Z.compare_spec e' ex); [lia|lia|]. symmetry in Hcmp.
    apply Z.compare_gt_iff in Hcmp. lia. }
  rewrite Hy. unfold overflow_check. destruct (Z.leb_spec e' 971); [|lia].
  apply canonical_iff in Hc'. pose proof (mag_pos m' e' ltac:(lia)).
  split_and!; [by apply valid_finite|done|..]; simpl; destruct s; lia.
Qed.

Definition in_unit (p : float64) : Prop :=
  valid p = true ∧ finite p = true ∧ 0 ≤ sval p ≤ sval fone.

(** Scaling a non-negative finite number by a factor between 0 and 1 keeps it
    finite, non-negative and no larger, whatever the rounding does. *)
Lemma fmul_shrinks x p :
  valid x = true → finite x = true → 0 ≤ sval x → in_unit p →
  valid (fmul x p) = true ∧ finite (fmul x p) = true ∧ 0 ≤ sval (fmul x p) ≤ sval x.
Proof.
  intros Hx Fx Sx (Hp & Fp & Sp).
  destruct x as [sx| | |sx mx ex], p as [sp| | |sp mp ep]; try done; cbn [sval] in *;
    try (destruct sx, sp; simpl in *; lia).
  pose proof Hx as Hx'. pose proof Hp as Hp'.
  apply valid_finite in Hx' as [Cx Ex], Hp' as [Cp Ep].
  pose proof (mag_pos mx ex ltac:(lia)). pose proof (mag_pos mp ep ltac:(lia)).
  destruct sx; [lia|]. destruct sp; [lia|]. cbn [fmul SFmul xorb].
  pose proof (digits2_bounds mp) as Bp. pose proof (digits2_bounds mx) as Bx.
  assert (ep ≤ -52 ∧ Zpos mp ≤ 2 ^ (- ep)) as [He Hmp].
  { destruct Sp as [_ Sp]. unfold mag in Sp.
    change (sval fone) with (2 ^ 1074) in Sp.
    assert (ep ≤ -52) as He.
    { destruct (decide (ep = -1074)); [lia|]. destruct Cp as [|[Cp' Cp]]; [lia|]. rewrite Cp in Bp.
      assert (2 ^ (52 + (ep + 1074)) ≤ 2 ^ 1074) as Hpow%Z.pow_le_mono_r_iff; [|lia..].
      rewrite Z.pow_add_r by lia. change (2 ^ (53 - 1)) with (2 ^ 52) in Bp.
      assert (0 < 2 ^ (ep + 1074)) by (apply Z.pow_pos_nonneg; lia). nia. }
    split; [done|]. assert (0 < 2 ^ (ep + 1074)) by (apply Z.pow_pos_nonneg; lia).
    replace 1074 with (- ep + (ep + 1074)) in Sp at 2 by lia.
    rewrite (Z.pow_add_r 2 (- ep)) in Sp by lia. nia. }
  destruct (round_aux_le false (Zpos (mx * mp)) (ex + ep) mx ex) as (Vy & Fy & Sy).
  - done.
  - rewrite exponent_alt. cbn [Zdigits2]. destruct (decide (ex = -1074)); [lia|].
    assert (Zpos (digits2_pos mx) = 53) as Dx by lia. rewrite Dx in Bx.
    pose proof (digits2_bounds (mx * mp)) as Bm.
    assert (2 ^ 52 < 2 ^ Zpos (digits2_pos (mx * mp))) as Hd%Z.pow_lt_mono_r_iff; [|lia..].
    change (2 ^ (53 - 1)) with (2 ^ 52) in Bx. nia.
  - done.
  - lia.
  - rewrite Pos2Z.inj_mul. replace (ex - (ex + ep)) with (- ep) by lia.
    apply Z.mul_le_mono_nonneg_l; lia.
  - done.
Qed.

(** ** Integers as floats *)

Lemma iter_xO_mul p k : Zpos (Pos.iter xO p k) = Zpos p * 2 ^ Zpos k.
Proof.
  induction k as [|k IH] using Pos.peano_ind.
  - simpl. lia.
  - rewrite Pos.iter_succ, Pos2Z.inj_xO, IH, Pos2Z.inj_succ, Z.pow_succ_r by lia. ring.
Qed.

(** An integer below [2^53] is exactly a float. *)
Lemma binary_round_int s p : Zpos p < 2 ^ 53 →
  let y := binary_round 53 1024 s p 0 in
  valid y = true ∧ finite y = true ∧ sval y = (if s then - Zpos p else Zpos p) * 2 ^ 1074.
Proof.
  intros Hp y. pose proof (digits2_bounds p) as Hb. set (d := Zpos (digits2_pos p)) in *.
  assert (d ≤ 53) as Hd.
  { assert (2 ^ (d - 1) < 2 ^ 53) as Hlt%Z.pow_lt_mono_r_iff; lia. }
  assert (∃ q, shl_align p 0 (d - 53) = (q, d - 53) ∧ Zpos q = Zpos p * 2 ^ (53 - d)) as (q & Hq & Vq).
  { unfold shl_align. destruct (d - 53 - 0) as [|k|k] eqn:Ek; [|lia|].
    - exists p. replace (d - 53) with 0 by lia. replace (53 - d) with 0 by lia. split; [done|lia].
    - exists (Pos.iter xO p k). split; [done|]. rewrite iter_xO_mul. do 2 f_equal. lia. }
  assert (Zpos (digits2_pos q) = 53) as Dq.
  { apply (digits2_unique q 52); [done|]. change (52 + 1) with 53. rewrite Vq.
    assert (2 ^ 52 = 2 ^ (d - 1) * 2 ^ (53 - d)) as ->
      by (rewrite <- Z.pow_add_r by lia; f_equal; lia).
    assert (2 ^ 53 = 2 ^ d * 2 ^ (53 - d)) as ->
      by (rewrite <- Z.pow_add_r by lia; f_equal; lia).
    assert (0 < 2 ^ (53 - d)) by (apply Z.pow_pos_nonneg; lia). nia. }
  assert (exponent (Zpos q) (d - 53) = d - 53) as Eq.
  { rewrite exponent_alt. cbn [Zdigits2]. rewrite Dq. lia. }
  assert (y = binary_round_aux 53 1024 s (Zpos q) (d - 53) loc_Exact) as Hy.
  { unfold y, binary_round. change (fexp 53 1024 (Zpos (digits2_pos p) + 0)) with
      (Z.max (Zpos (digits2_pos p) + 0 - 53) (-1074)). fold d.
    replace (Z.max (d + 0 - 53) (-1074)) with (d - 53) by lia. by rewrite Hq. }
  pose proof (round_aux_spec s (Zpos q) (d - 53) ltac:(lia) ltac:(lia)) as Hspec.
  cbv zeta in Hspec. rewrite <- Hy, Eq in Hspec.
  replace (rne (Zpos q) (d - 53 - (d - 53))) with (Zpos q) in Hspec.
  2:{ replace (d - 53 - (d - 53)) with 0 by lia. unfold rne. change (2 ^ 0) with 1.
      rewrite Z.mod_1_r, Z.div_1_r. done. }
  destruct Hspec as [[? _]|(_ & m' & e' & Hy' & Hc & Hval & _)]; [done|].
  assert (mag (Zpos m') e' = Zpos p * 2 ^ 1074) as Hm.
  { rewrite Hval. unfold mag. rewrite Vq, <- Z.mul_assoc, <- Z.pow_add_r by lia. do 2 f_equal. lia. }
  assert (e' ≤ 971) as He'.
  { destruct (Z.le_gt_cases e' 971); [done|]. exfalso.
    apply canonical_iff in Hc. pose proof (digits2_bounds m') as Bm.
    assert (2 ^ 1074 * 2 ^ 971 ≤ 2 ^ (e' + 1074)) as Hbig.
    { rewrite <- Z.pow_add_r by lia. apply Z.pow_le_mono_r; lia. }
    unfold mag in Hm. assert (2 ^ 53 < 2 ^ 971) by (by vm_compute). nia. }
  rewrite Hy'. unfold overflow_check. destruct (Z.leb_spec e' 971); [|lia].
  split_and!; [|done|]. { apply valid_finite. by rewrite <- canonical_iff. }
  cbn [sval]. rewrite Hm. by destruct s.
Qed.

Lemma float64_of_Z_exact z : Z.abs z < 2 ^ 53 →
  valid (float64_of_Z z) = true ∧ finite (float64_of_Z z) = true
  ∧ sval (float64_of_Z z) = z * 2 ^ 1074.
Proof.
  intros Hz. destruct z as [|p|p]; [done|..].
  - apply (binary_round_int false p). lia.
  - apply (binary_round_int true p). lia.
Qed.

Lemma split_1074 e : -1074 ≤ e ≤ 0 → 2 ^ 1074 = 2 ^ (- e) * 2 ^ (e + 1074).
Proof. intros. rewrite <- Z.pow_add_r by lia. f_equal. lia. Qed.

Lemma truncZ_sval x : valid x = true → finite x = true →
  truncZ x = Some (Z.quot (sval x) (2 ^ 1074)).
Proof.
  intros Hv Hf. destruct x as [| | |s m e]; try done. apply valid_finite in Hv as [Hc He].
  unfold truncZ. f_equal. cbn [sval]. pose proof (mag_pos m e ltac:(lia)) as Hpos.
  assert ((if 0 <=? e then Zpos m * 2 ^ e else Zpos m / 2 ^ (- e))
    = mag (Zpos m) e / 2 ^ 1074) as ->.
  { unfold mag. destruct (Z.leb_spec 0 e).
    - rewrite Z.pow_add_r, Z.mul_assoc by lia. symmetry. apply Z.div_mul. by vm_compute.
    - rewrite (split_1074 e) by lia. symmetry. apply Z.div_mul_cancel_r; apply Z.pow_nonzero; lia. }
  assert (0 < 2 ^ 1074) by (by vm_compute).
  destruct s; [rewrite Z.quot_opp_l by lia; f_equal|]; symmetry; apply Z.quot_div_nonneg; lia.
Qed.

(** The integer [math.Round] picks. *)
Definition roundZ (x : float64) : Z :=
  match x with
  | S754_finite s m e =>
      let n := if 0 <=? e then Zpos m * 2 ^ e else roundHalfUp (Zpos m) e in
      if s then - n else n
  | _ => 0
  end.

Lemma Round_spec x : valid x = true → finite x = true →
  valid (Round x) = true ∧ finite (Round x) = true ∧ sval (Round x) = roundZ x * 2 ^ 1074.
Proof.
  intros Hv Hf. destruct x as [| | |s m e]; try done.
  unfold Round, roundZ. destruct (Z.leb_spec 0 e) as [He|He].
  - split_and!; [done|done|]. cbn [sval]. unfold mag. rewrite Z.pow_add_r by lia.
    destruct s; ring.
  - apply valid_finite in Hv as [Hc He']. pose proof (digits2_bounds m) as Hb.
    assert (0 ≤ roundHalfUp (Zpos m) e < 2 ^ 53) as Hn.
    { unfold roundHalfUp. replace (1 - e) with (Z.succ (- e)) by lia. rewrite Z.pow_succ_r by lia.
      assert (2 ≤ 2 ^ (- e)) by (change 2 with (2 ^ 1) at 1; apply Z.pow_le_mono_r; lia).
      assert (2 ^ Zpos (digits2_pos m) ≤ 2 ^ 53) by (apply Z.pow_le_mono_r; lia).
      split; [apply Z.div_pos; lia|]. apply Z.div_lt_upper_bound; [lia|].
      change (2 ^ 53) with 9007199254740992 in *. nia. }
    destruct (roundHalfUp (Zpos m) e) as [|p|p]; [|apply binary_round_int; lia|lia].
    split_and!; [done|done|]. by destruct s.
Qed.

(** Rounding a whole number leaves it. *)
Lemma roundZ_int z : Z.abs z < 2 ^ 53 → roundZ (float64_of_Z z) = z.
Proof.
  intros Hz. destruct (float64_of_Z_exact z Hz) as (Hv & Hf & Hs).
  destruct (float64_of_Z z) as [| | |s m e]; try done; cbn [sval roundZ] in *.
  { assert (0 < 2 ^ 1074) by (by vm_compute). nia. }
  apply valid_finite in Hv as [Hc He]. unfold mag in Hs.
  assert (0 < 2 ^ 1074) as H2 by (by vm_compute).
  destruct (Z.leb_spec 0 e).
  - rewrite Z.pow_add_r in Hs by lia. destruct s; nia.
  - rewrite (split_1074 e) in Hs by lia.
    assert (0 < 2 ^ (e + 1074)) by (apply Z.pow_pos_nonneg; lia).
    assert (0 < 2 ^ (- e)) by (apply Z.pow_pos_nonneg; lia).
    assert (Zpos m = Z.abs z * 2 ^ (- e)) as Hm by (destruct s; nia).
    assert (roundHalfUp (Zpos m) e = Z.abs z) as ->; [|destruct s; nia].
    unfold roundHalfUp. rewrite Hm. replace (1 - e) with (Z.succ (- e)) by lia.
    rewrite Z.pow_succ_r by lia.
    replace (2 * (Z.abs z * 2 ^ (- e)) + 2 ^ (- e)) with (Z.abs z * (2 * 2 ^ (- e)) + 2 ^ (- e)) by ring.
    rewrite Z.div_add_l by lia. rewrite Z.div_small by lia. lia.
Qed.
