(* ===== verification/GoTime.v ===== *)
(** * The parts of Go's [time] the sources use

    A [time.Duration] is a 64-bit number of nanoseconds.  A [time.Time] is its
    number of nanoseconds since January 1, year 1, 00:00:00 UTC, the zero value
    of the type, on an unbounded scale; [metav1.Time] and [metav1.Duration] wrap
    the two and are modelled by the same numbers. *)

From S2P Require Import Prelude GoStrings GoFloat.
Local Open Scope Z_scope.

Definition Duration : Type := Z.
Definition Time : Type := Z.

Definition Microsecond : Duration := 1000.
Definition Millisecond : Duration := 1000000.
Definition Second : Duration := 1000000000.
Definition Minute : Duration := 60 * Second.
Definition Hour : Duration := 60 * Minute.

Definition IsZero (t : Time) : bool := t =? 0.

(** [t.Sub(u)] saturates at the bounds of [Duration]. *)
Definition Sub (t u : Time) : Duration := Z.max int64_min (Z.min int64_max (t - u)).

(** [d.Seconds()]: whole seconds and the rest, added in floating point. *)
Definition Seconds (d : Duration) : float64 :=
  fadd (float64_of_Z (Z.quot d Second))
       (fdiv (float64_of_Z (Z.rem d Second)) (float64_of_Z 1000000000)).

(** [d.Round(m)]: to a multiple of [m], halves away from zero; saturates when the
    rounded value wraps around. *)
Definition RoundDuration (d m : Duration) : Duration :=
  if m <=? 0 then d else
  let r := Z.rem d m in
  if d <? 0 then
    let r := - r in
    if 2 * r <? m then d + r
    else let d1 := int64 (d - m + r) in if d1 <? d then d1 else int64_min
  else
    if 2 * r <? m then d - r
    else let d1 := int64 (d + m - r) in if d <? d1 then d1 else int64_max.

(** [fmtFrac]: the fraction [v / 10^prec] without trailing zeros, as the digits
    after the point (with it), and the integer part. *)
Fixpoint fmtFrac (v : Z) (prec : nat) (printed : bool) (acc : string) : string * Z :=
  match prec with
  | O => (if printed then "." +:+ acc else acc, v)
  | S p =>
      let digit := v mod 10 in
      let printed := printed || negb (digit =? 0) in
      fmtFrac (v / 10) p printed (if printed then itoa digit +:+ acc else acc)
  end.

(** [d.String()]. The micro sign is the two bytes C2 B5 of its UTF-8 form. *)
Definition DurationString (d : Duration) : string :=
  let u := Z.abs d in
  let body :=
    if u <? Second then
      if u =? 0 then "0s"
      else
        let '(prec, unit) :=
          if u <? Microsecond then (0%nat, "ns")
          else if u <? Millisecond then (3%nat, String "194"%char (String "181"%char "s"))
          else (6%nat, "ms") in
        let '(frac, v) := fmtFrac u prec false "" in
        itoa v +:+ frac +:+ unit
    else
      let '(frac, v) := fmtFrac u 9 false "" in
      let secs := itoa (v mod 60) +:+ frac +:+ "s" in
      let mins := v / 60 in
      if 0 <? mins then
        let hours := mins / 60 in
        (if 0 <? hours then itoa hours +:+ "h" else "")
        +:+ itoa (mins mod 60) +:+ "m" +:+ secs
      else secs in
  if d <? 0 then "-" +:+ body else body.

Example dstring_1 : DurationString (90 * Second) = "1m30s".
Proof. reflexivity. Qed.
Example dstring_2 : DurationString (1500 * Millisecond) = "1.5s".
Proof. reflexivity. Qed.
Example dstring_3 : DurationString Hour = "1h0m0s".
Proof. reflexivity. Qed.
Example dstring_4 : DurationString (-1200000) = "-1.2ms".
Proof. reflexivity. Qed.
Example dround : RoundDuration (4500 * Millisecond) Second = 5 * Second.
Proof. reflexivity. Qed.

Lemma Sub_self t : Sub t t = 0.
Proof. unfold Sub. unfold_ints. lia. Qed.

Lemma Sub_ge t u d : int64_min < d ≤ int64_max → d ≤ Sub t u ↔ d ≤ t - u.
Proof. unfold Sub. unfold_ints. lia. Qed.

(** Later instants are further from an earlier one. *)
Lemma Sub_mono t t' u : t ≤ t' → Sub t u ≤ Sub t' u.
Proof. unfold Sub. lia. Qed.

Lemma Sub_nonneg t u : u ≤ t → 0 ≤ Sub t u.
Proof. unfold Sub. unfold_ints. lia. Qed.
