(* ===== verification/GoHeap.v ===== *)
(** * GoHeap: Go values in memory, and the shape of a generated deep copy

    Everywhere else in this development a Go value is a Rocq value, which cannot
    be shared or mutated.  What entitles the model to that is the deep copy the
    clients and the controllers take of an object before they change it, so the
    code controller-gen generates for api/v1alpha1 is modelled at the level where
    it matters: a heap of blocks, addresses that point into them, pointers, slices
    with an offset and a length, and nil.

    A statement of generated code is a computation in the monad [M], which fails
    where Go panics (a nil dereference, an index out of range).  [denote] reads
    the value of a given Go type back from a heap as a [tree]; [Copies] is the
    contract of a [DeepCopyInto] and [Clones] that of a [DeepCopy], and there is
    one lemma for each statement form that controller-gen emits. *)
From S2P Require Import Prelude.

(** ** Values, types and the heap *)

Inductive step := Field (f : string) | Index (i : nat).
#[export] Instance step_eq_dec : EqDecision step.
Proof. solve_decision. Defined.

(** A block and the way to a part of it: [&out.Status] is an address. *)
Definition addr : Type := positive * list step.
Definition sub (a : addr) (k : step) : addr := (a.1, a.2 ++ [k]).
Notation "a .> k" := (sub a k) (at level 2, left associativity) : go_scope.

Inductive base := BString (s : string) | BInt (z : Z) | BBool (b : bool).

(** [VAgg] is a struct (keyed by [Field]), a backing array (keyed by [Index]) or
    the entries of a map (keyed by [Field]). *)
Inductive val :=
| VBase (b : base)
| VNil
| VPtr (a : addr)
| VSlice (a : addr) (off len : nat)
| VMap (a : addr)
| VAgg (kids : list (step * val)).

Inductive typ :=
| TyString | TyBool
| TyInt (width : Z)
| TyPtr (T : typ)
| TySlice (T : typ)
| TyMap (T : typ)
| TyStruct (fields : list (string * typ)).

Notation heap := (gmap positive val).

Fixpoint getKid (k : step) (kids : list (step * val)) : option val :=
  match kids with
  | [] => None
  | (k', v) :: kids => if decide (k = k') then Some v else getKid k kids
  end.
Fixpoint setKid (k : step) (w : val) (kids : list (step * val)) : list (step * val) :=
  match kids with
  | [] => []
  | (k', v) :: kids => if decide (k = k') then (k', w) :: kids else (k', v) :: setKid k w kids
  end.

Fixpoint getPath (v : val) (p : list step) : option val :=
  match p, v with
  | [], _ => Some v
  | k :: p, VAgg kids => u ← getKid k kids; getPath u p
  | _ :: _, _ => None
  end.
Fixpoint setPath (v : val) (p : list step) (w : val) : option val :=
  match p, v with
  | [], _ => Some w
  | k :: p, VAgg kids =>
      u ← getKid k kids; u' ← setPath u p w; Some (VAgg (setKid k u' kids))
  | _ :: _, _ => None
  end.

Definition load (h : heap) (a : addr) : option val := root ← h !! a.1; getPath root a.2.
Definition store (h : heap) (a : addr) (w : val) : option heap :=
  root ← h !! a.1; root' ← setPath root a.2 w; Some (<[a.1 := root']> h).

(** The zero value [new] and [make] start from. *)
Fixpoint zero (T : typ) : val :=
  match T with
  | TyString => VBase (BString "")
  | TyBool => VBase (BBool false)
  | TyInt _ => VBase (BInt 0)
  | TyPtr _ | TySlice _ | TyMap _ => VNil
  | TyStruct fs => VAgg ((λ '(f, T), (Field f, zero T)) <$> fs)
  end.

(** ** What a value means *)

(** The value without addresses; a nil slice is not an empty one. *)
Inductive tree :=
| TBase (b : base)
| TNil
| TRef (t : tree)
| TList (ts : list tree)
| TDict (ts : list (string * tree))
| TRec (ts : list (string * tree)).

Definition inWidth (w z : Z) : bool := ((- 2 ^ (w - 1) <=? z) && (z <? 2 ^ (w - 1)))%Z.

(** The tree of a value of type [T]; [None] when the heap does not hold a value
    of that type there (a dangling address, or a shape [T] does not have). *)
Fixpoint denote (h : heap) (T : typ) (v : val) {struct T} : option tree :=
  match T, v with
  | TyString, VBase (BString s) => Some (TBase (BString s))
  | TyBool, VBase (BBool b) => Some (TBase (BBool b))
  | TyInt w, VBase (BInt z) => if inWidth w z then Some (TBase (BInt z)) else None
  | TyPtr _, VNil | TySlice _, VNil | TyMap _, VNil => Some TNil
  | TyPtr T, VPtr a => u ← load h a; t ← denote h T u; Some (TRef t)
  | TySlice T, VSlice a off len =>
      us ← mapM (λ i, load h (a.>(Index (off + i)))) (seq 0 len);
      ts ← mapM (denote h T) us; Some (TList ts)
  | TyMap T, VMap a =>
      u ← load h a;
      match u with
      | VAgg kids =>
          ts ← mapM (λ kv : step * val,
                       match kv.1 with Field k => t ← denote h T kv.2; Some (k, t) | Index _ => None end) kids;
          Some (TDict ts)
      | _ => None
      end
  | TyStruct fs, VAgg kids =>
      ts ← (fix go (fs : list (string * typ)) (kids : list (step * val)) : option (list (string * tree)) :=
              match fs, kids with
              | [], [] => Some []
              | (f, T) :: fs, (k, v) :: kids =>
                  if decide (k = Field f) then
                    t ← denote h T v; ts ← go fs kids; Some ((f, t) :: ts)
                  else None
              | _, _ => None
              end) fs kids;
      Some (TRec ts)
  | _, _ => None
  end.

(** A type without references: assignment copies all of it. *)
Fixpoint plain (T : typ) : bool :=
  match T with
  | TyString | TyBool | TyInt _ => true
  | TyPtr _ | TySlice _ | TyMap _ => false
  | TyStruct fs => forallb (λ fT, plain fT.2) fs
  end.

(** ** Statements *)

Definition M (A : Type) : Type := heap → option (A * heap).
#[export] Instance M_ret : MRet M := λ A a h, Some (a, h).
#[export] Instance M_bind : MBind M := λ A B f m h,
  match m h with Some (a, h') => f a h' | None => None end.

Definition loadM (a : addr) : M val := λ h, v ← load h a; Some (v, h).
Definition storeM (a : addr) (v : val) : M unit := λ h, h' ← store h a v; Some (tt, h').
Definition alloc (v : val) : M positive := λ h,
  let b := fresh (dom h) in Some (b, <[b := v]> h).
Definition panic {A} : M A := λ _, None.

Definition isNil (v : val) : bool := match v with VNil => true | _ => false end.
Definition pointee (v : val) : M addr := match v with VPtr a => mret a | _ => panic end.
(** The address and the length of a slice; a nil slice has none. *)
Definition sliceOf (v : val) : M (addr * nat * nat) :=
  match v with VSlice a off len => mret (a, off, len) | _ => panic end.

(** [new(T)] and [make([]T, n)] *)
Definition new (T : typ) : M addr := b ← alloc (zero T); mret (b, []).
Definition makeSlice (T : typ) (n : nat) : M addr :=
  b ← alloc (VAgg ((λ i, (Index i, zero T)) <$> seq 0 n)); mret (b, []).

(** A function [func (in *T) DeepCopyInto(out *T)], or a statement on the fields
    [&in.F] and [&out.F]. *)
Definition copier : Type := addr → addr → M unit.

(** [*out = *in] *)
Definition assign : copier := λ i o, v ← loadM i; storeM o v.

(** Runs each copier on its part of [in] and of [out], in order. *)
Fixpoint each (parts : list (step * step * copier)) (i o : addr) : M unit :=
  match parts with
  | [] => mret tt
  | (ki, ko, f) :: parts => _ ← f (i.>ki) (o.>ko); each parts i o
  end.

(** [if in.F != nil { in, out := &in.F, &out.F; *out = new(T); into( *in, *out) }],
    where [into] is [( *in).DeepCopyInto( *out)] or, for [assign], [**out = **in]. *)
Definition ifPtr (T : typ) (into : copier) : copier := λ i o,
  p ← loadM i;
  if isNil p then mret tt else
  q ← new T;
  _ ← storeM o (VPtr q);
  from ← loadM i ≫= pointee;
  to ← loadM o ≫= pointee;
  into from to.

(** [if in.F != nil { in, out := &in.F, &out.F; *out = ( *in).DeepCopy() }] *)
Definition ifCall (DeepCopy : val → M val) : copier := λ i o,
  p ← loadM i;
  if isNil p then mret tt else
  from ← loadM i;
  q ← DeepCopy from;
  storeM o q.

(** [if in.F != nil { in, out := &in.F, &out.F; *out = make([]T, len( *in));
     for i := range *in { ( *in)[i].DeepCopyInto(&( *out)[i]) } }]
    and, for [assign], the same with [copy( *out, *in)]. *)
Definition ifSlice (T : typ) (into : copier) : copier := λ i o,
  p ← loadM i;
  if isNil p then mret tt else
  s ← loadM i ≫= sliceOf;
  let '(a, off, n) := s in
  q ← makeSlice T n;
  _ ← storeM o (VSlice q 0 n);
  each ((λ j, (Index (off + j), Index j, into)) <$> seq 0 n) a q.

(** The body of a [DeepCopyInto]: [*out = *in] and one statement for a field. *)
Definition on (f : string) (s : copier) : step * step * copier := (Field f, Field f, s).
Definition body (stmts : list (step * step * copier)) : copier := λ i o,
  _ ← assign i o; each stmts i o.

(** [func (in *T) DeepCopy() *T], in terms of [DeepCopyInto]. *)
Definition cloneWith (T : typ) (into : copier) (inp : val) : M val :=
  if isNil inp then mret VNil else
  out ← new T;
  from ← pointee inp;
  _ ← into from out;
  mret (VPtr out).

(** [func (in *T) DeepCopyObject() runtime.Object]: an interface value is nil or a
    dynamic type with a value, so a nil pointer must not be wrapped. *)
Definition objectWith (T : string) (DeepCopy : val → M val) (inp : val) : M (option (string * val)) :=
  c ← DeepCopy inp;
  if isNil c then mret None else mret (Some (T, c)).

(** ** Paths, loads and stores *)

Lemma getKid_setKid k w kids : is_Some (getKid k kids) → getKid k (setKid k w kids) = Some w.
Proof.
  induction kids as [|[k' v] kids IH]; simpl; [by intros [? [=]]|].
  intros Hk. repeat (case_decide; simplify_eq/=); auto.
Qed.

Lemma setKid_setKid k w w' kids : setKid k w' (setKid k w kids) = setKid k w' kids.
Proof. induction kids as [|[k' v] kids IH]; simpl; [done|]. repeat (case_decide; simplify_eq/=); congruence. Qed.

Lemma getKid_app_ne k pre kids : k ∉ pre.*1 → getKid k (pre ++ kids) = getKid k kids.
Proof.
  induction pre as [|[k' v] pre IH]; simpl; [done|]. intros Hk. case_decide; simplify_eq; set_solver.
Qed.
Lemma setKid_app_ne k w pre kids : k ∉ pre.*1 → setKid k w (pre ++ kids) = pre ++ setKid k w kids.
Proof.
  induction pre as [|[k' v] pre IH]; simpl; [done|]. intros Hk. case_decide; simplify_eq; [set_solver|].
  f_equal. apply IH. set_solver.
Qed.

Lemma getPath_app v p q : getPath v (p ++ q) = getPath v p ≫= λ u, getPath u q.
Proof.
  revert v. induction p as [|k p IH]; intros v; simpl; [done|].
  destruct v; simpl; try done. destruct (getKid k kids); simpl; auto.
Qed.

Lemma setPath_is_Some v p w : is_Some (getPath v p) → is_Some (setPath v p w).
Proof.
  revert v. induction p as [|k p IH]; intros v; simpl; [eauto|].
  destruct v; simpl; try by intros [? [=]].
  destruct (getKid k kids) as [u|]; simpl; [|by intros [? [=]]].
  intros [u' ->]%IH. simpl. eauto.
Qed.

Lemma setPath_inv v p w v' : setPath v p w = Some v' → is_Some (getPath v p).
Proof.
  revert v v'. induction p as [|k p IH]; intros v v'; simpl; [eauto|].
  destruct v; simpl; try done. destruct (getKid k kids) as [u|]; simpl; [|done].
  destruct (setPath u p w) eqn:E; simpl; [|done]. intros _. eauto.
Qed.

Lemma getPath_setPath v p w v' : setPath v p w = Some v' → getPath v' p = Some w.
Proof.
  revert v v'. induction p as [|k p IH]; intros v v'; simpl; [by intros [= ->]|].
  destruct v; simpl; try done. destruct (getKid k kids) as [u|] eqn:Ek; simpl; [|done].
  destruct (setPath u p w) as [u'|] eqn:Eu; simpl; [|done]. intros [= <-].
  rewrite getKid_setKid by eauto. simpl. eauto.
Qed.

Lemma setPath_setPath v p w v' w' : setPath v p w = Some v' → setPath v' p w' = setPath v p w'.
Proof.
  revert v v'. induction p as [|k p IH]; intros v v'; simpl; [done|].
  destruct v; simpl; try done. destruct (getKid k kids) as [u|] eqn:Ek; simpl; [|done].
  destruct (setPath u p w) as [u'|] eqn:Eu; simpl; [|done]. intros [= <-].
  rewrite getKid_setKid by eauto. simpl. rewrite (IH _ _ Eu).
  destruct (setPath u p w'); simpl; [|done]. by rewrite setKid_setKid.
Qed.

Lemma setPath_app v p q w u u' :
  getPath v p = Some u → setPath u q w = Some u' → setPath v (p ++ q) w = setPath v p u'.
Proof.
  revert v. induction p as [|k p IH]; intros v; simpl; [by intros [= ->] ->|].
  destruct v; simpl; try done. destruct (getKid k kids) as [x|]; simpl; [|done].
  intros H1 H2. by rewrite (IH _ H1 H2).
Qed.

Lemma load_sub h a k : load h (a.>k) = load h a ≫= λ u, getPath u [k].
Proof. unfold load. simpl. destruct (h !! a.1); simpl; [|done]. apply getPath_app. Qed.

Lemma load_mono h h' a v : h ⊆ h' → load h a = Some v → load h' a = Some v.
Proof.
  unfold load. intros Hh. destruct (h !! a.1) as [r|] eqn:E; simpl; [|done].
  by rewrite (lookup_weaken _ _ _ _ E Hh).
Qed.

(** Induction on types, with the fields of a struct. *)
Lemma typ_induction (P : typ → Prop) :
  P TyString → P TyBool → (∀ w, P (TyInt w)) →
  (∀ T, P T → P (TyPtr T)) → (∀ T, P T → P (TySlice T)) → (∀ T, P T → P (TyMap T)) →
  (∀ fs, Forall (λ fT, P fT.2) fs → P (TyStruct fs)) → ∀ T, P T.
Proof.
  intros Hstr Hb Hi HP HS HM Hs. fix IH 1. intros [| |w|T|T|T|fs];
    [exact Hstr|exact Hb|apply Hi|apply HP, IH|apply HS, IH|apply HM, IH|].
  apply Hs. induction fs as [|[f T] fs IHfs]; constructor; [apply IH|apply IHfs].
Qed.

(** The struct case of [denote], field by field. *)
Lemma denote_struct h fs v t :
  denote h (TyStruct fs) v = Some t ↔
  ∃ kids ts, v = VAgg kids ∧ t = TRec ts ∧
    Forall2 (λ fT kv, kv.1 = Field fT.1) fs kids ∧
    Forall2 (λ fT ft, ft.1 = fT.1) fs ts ∧
    Forall3 (λ fT kv ft, denote h fT.2 kv.2 = Some ft.2) fs kids ts.
Proof.
  split.
  - destruct v; simpl; try done. intros (ts & Hts & [= <-])%bind_Some.
    exists kids, ts. split; [done|]. split; [done|].
    revert kids ts Hts. induction fs as [|[f T] fs IH]; intros [|[k v] kids] ts; simpl; try done.
    { intros [= <-]. repeat constructor. }
    case_decide; [|done]. intros (t & Ht & (ts' & Hts & [= <-])%bind_Some)%bind_Some.
    destruct (IH _ _ Hts) as (? & ? & ?). repeat constructor; auto.
  - intros (kids & ts & -> & -> & H1 & H2 & H3). simpl. apply bind_Some. exists ts. split; [|done].
    induction H3 as [|[f T] [k v] [f' t] fs kids ts Ht H3 IH]; [done|].
    inversion H1; inversion H2; simplify_eq/=. rewrite decide_True by done.
    rewrite Ht. simpl. rewrite IH by done. done.
Qed.

Lemma denote_mono h h' T v t : h ⊆ h' → denote h T v = Some t → denote h' T v = Some t.
Proof.
  intros Hh. revert v t. induction T as [| |w|T IH|T IH|T IH|fs IH] using typ_induction; intros v t.
  1-3: by destruct v.
  - destruct v; simpl; try done. intros (u & Hu & (t' & Ht & [= <-])%bind_Some)%bind_Some.
    rewrite (load_mono _ _ _ _ Hh Hu). simpl. by rewrite (IH _ _ Ht).
  - destruct v; simpl; try done.
    intros (us & Hus%mapM_Some & (ts & Hts%mapM_Some & [= <-])%bind_Some)%bind_Some.
    apply bind_Some. exists us. split.
    { apply mapM_Some. eapply Forall2_impl; [exact Hus|]. intros. by eapply load_mono. }
    apply bind_Some. exists ts. split; [|done]. apply mapM_Some. eapply Forall2_impl; eauto.
  - destruct v; simpl; try done. intros (u & Hu & Hk)%bind_Some.
    rewrite (load_mono _ _ _ _ Hh Hu). simpl. destruct u; try done.
    apply bind_Some in Hk as (ts & Hts%mapM_Some & [= <-]).
    apply bind_Some. exists ts. split; [|done]. apply mapM_Some. eapply Forall2_impl; [exact Hts|].
    intros [[k|] u] [k' t]; simpl; [|done]. intros (t' & Ht & [= -> <-])%bind_Some. by rewrite (IH _ _ Ht).
  - rewrite !denote_struct. intros (kids & ts & ? & ? & ? & ? & H3). exists kids, ts. repeat split; try done.
    clear -IH H3. induction H3; constructor; inversion IH; simplify_eq; eauto.
Qed.

Lemma denote_plain h h' T v : plain T = true → denote h T v = denote h' T v.
Proof.
  revert v. induction T as [| |w|T IH|T IH|T IH|fs IH] using typ_induction; intros v; try done.
  intros Hp. destruct v; try done. simpl in *. f_equal. revert kids.
  induction fs as [|[f T] fs IHfs]; intros kids; [done|]. simpl in *.
  apply andb_prop in Hp as [Hp1 Hp2]. inversion IH; simplify_eq/=.
  destruct kids as [|[k v] kids]; [done|]. case_decide; [|done].
  match goal with HT : ∀ v, _ → denote h T v = denote h' T v |- _ => rewrite HT by done end.
  destruct (denote h' T v); simpl; [|done]. by rewrite IHfs.
Qed.

(** ** Frames *)

(** [h'] is [h] with [v] stored at [o], and perhaps new blocks. *)
Definition frame (h h' : heap) (o : addr) (v : val) : Prop :=
  ∃ h1, store h o v = Some h1 ∧ h1 ⊆ h'.

Lemma store_Some h o v h1 :
  store h o v = Some h1 ↔
  ∃ r r', h !! o.1 = Some r ∧ setPath r o.2 v = Some r' ∧ h1 = <[o.1 := r']> h.
Proof.
  unfold store. split.
  - intros (r & ? & (r' & ? & [= <-])%bind_Some)%bind_Some. eauto.
  - intros (r & r' & -> & E & ->). simpl. by rewrite E.
Qed.

Lemma store_is_Some h o w v : load h o = Some w → is_Some (store h o v).
Proof.
  unfold load. intros (r & Hr & Hw)%bind_Some.
  destruct (setPath_is_Some r o.2 v) as [r' Hr']; [eauto|]. eexists. apply store_Some. eauto.
Qed.

Lemma frame_refl h o v : load h o = Some v → frame h h o v.
Proof.
  intros Hv. destruct (store_is_Some h o v v Hv) as [h1 H1]. exists h1. split; [done|].
  apply store_Some in H1 as (r & r' & Hr & Hr' & ->). unfold load in Hv. rewrite Hr in Hv. simpl in Hv.
  assert (r' = r) as ->; [|by rewrite insert_id].
  clear Hr. revert r r' Hv Hr'. induction o.2 as [|k p IH]; intros r r'; simpl; [congruence|].
  destruct r; simpl; try done. destruct (getKid k kids) as [u|] eqn:Eu; simpl; [|done].
  intros Hu. destruct (setPath u p v) as [u'|] eqn:Eu'; simpl; [|done]. intros [= <-].
  rewrite (IH _ _ Hu Eu'). f_equal. clear -Eu. induction kids as [|[k' w] kids IH]; simpl in *; [done|].
  case_decide; simplify_eq/=; [done|]. by rewrite IH.
Qed.

Lemma frame_dom h h' o v : frame h h' o v → dom h ⊆ dom h'.
Proof.
  intros (h1 & (r & r' & Hr & _ & ->)%store_Some & Hs).
  apply subseteq_dom in Hs. rewrite dom_insert in Hs. set_solver.
Qed.

Lemma frame_load h h' o v : frame h h' o v → load h' o = Some v.
Proof.
  intros (h1 & (r & r' & Hr & Hr' & ->)%store_Some & Hs). apply (load_mono _ _ _ _ Hs).
  unfold load. rewrite lookup_insert_eq. simpl. by eapply getPath_setPath.
Qed.

Lemma frame_other h h' o v b : frame h h' o v → b ≠ o.1 → b ∈ dom h → h' !! b = h !! b.
Proof.
  intros (h1 & (r & r' & Hr & Hr' & ->)%store_Some & Hs) Hb [x Hx]%elem_of_dom.
  rewrite Hx. eapply lookup_weaken; [|exact Hs]. by rewrite lookup_insert_ne.
Qed.

Lemma frame_delete h h' o v : frame h h' o v → delete o.1 h ⊆ delete o.1 h'.
Proof.
  intros Hf. apply map_subseteq_spec. intros b x [Hb Hx]%lookup_delete_Some.
  apply lookup_delete_Some. split; [done|]. rewrite (frame_other _ _ _ _ _ Hf); [done..|]. by apply elem_of_dom.
Qed.

Lemma frame_block h h' o v : frame h h' o v → o.1 ∈ dom h.
Proof. intros (h1 & (r & r' & Hr & _)%store_Some & _). by apply elem_of_dom. Qed.

(** The new blocks of a step are new for the whole, and stay. *)
Lemma fresh_later (h0 h h' : heap) : dom h0 ⊆ dom h → h' ∖ h ⊆ h' ∖ h0.
Proof.
  intros Hd. apply map_subseteq_spec. intros b x [Hx Hb]%lookup_difference_Some.
  apply lookup_difference_Some. split; [done|]. apply not_elem_of_dom. apply not_elem_of_dom in Hb. set_solver.
Qed.
Lemma fresh_kept (h0 h h' : heap) o v : frame h h' o v → o.1 ∈ dom h0 → h ∖ h0 ⊆ h' ∖ h0.
Proof.
  intros Hf Ho. apply map_subseteq_spec. intros b x [Hx Hb]%lookup_difference_Some.
  apply lookup_difference_Some. split; [|done]. rewrite <-Hx. apply (frame_other _ _ _ _ _ Hf).
  - intros ->. by apply not_elem_of_dom in Hb.
  - by apply elem_of_dom.
Qed.

(** Storing into a part of [o] after storing all of it. *)
Lemma frame_part h0 h h' o kids k w v :
  frame h0 h o (VAgg kids) → getKid k kids = Some w → frame h h' (o.>k) v →
  frame h0 h' o (VAgg (setKid k v kids)).
Proof.
  intros (h1 & (r & r1 & Hr & Hr1 & ->)%store_Some & Hs) Hk (h2 & (x & r2 & Hx & Hr2 & ->)%store_Some & Hs2).
  simpl in *. assert (h !! o.1 = Some r1) as Hx'; [|simplify_eq].
  { eapply lookup_weaken; [|exact Hs]. by rewrite lookup_insert_eq. }
  assert (setPath r o.2 (VAgg (setKid k v kids)) = Some r2) as Hset.
  { rewrite <-Hr2, (setPath_app _ _ _ _ (VAgg kids) (VAgg (setKid k v kids))).
    - symmetry. by eapply setPath_setPath.
    - by eapply getPath_setPath.
    - simpl. by rewrite Hk. }
  exists (<[o.1:=r2]> h0). split; [apply store_Some; eauto|].
  etrans; [|exact Hs2]. apply map_subseteq_spec. intros b y.
  destruct (decide (b = o.1)) as [->|Hb]; [by rewrite !lookup_insert_eq|].
  rewrite !lookup_insert_ne by done. intros Hy. eapply lookup_weaken; [|exact Hs].
  by rewrite lookup_insert_ne.
Qed.

(** ** Contracts *)

(** [f], run on a value [v] that neither lies in nor refers to the block of [out],
    with [w] in [out], writes a value with the same tree to [out]; it changes
    nothing else, and what the new value refers to is all newly allocated. *)
Definition CopiesAt (T : typ) (f : copier) (v w : val) : Prop := ∀ h i o t,
  load (delete o.1 h) i = Some v → denote (delete o.1 h) T v = Some t → load h o = Some w →
  ∃ h' v', f i o h = Some (tt, h') ∧ frame h h' o v' ∧ denote (h' ∖ h) T v' = Some t.

(** The contract of [DeepCopyInto]: whatever is in [out]. *)
Class Copies (T : typ) (f : copier) : Prop := copies v w : CopiesAt T f v w.
(** The contract of a statement for a field, after [*out = *in]. *)
Class CopiesField (T : typ) (f : copier) : Prop := copiesField v : CopiesAt T f v v.
(** The contract of [DeepCopy]. *)
Class Clones (T : typ) (g : val → M val) : Prop := clones h p t :
  denote h (TyPtr T) p = Some t →
  ∃ h' p', g p h = Some (p', h') ∧ h ⊆ h' ∧ denote (h' ∖ h) (TyPtr T) p' = Some t.

#[export] Instance copies_field T f : Copies T f → CopiesField T f.
Proof. intros Hf v. apply Hf. Qed.

Lemma storeM_run h o w v :
  load h o = Some w → ∃ h', storeM o v h = Some (tt, h') ∧ store h o v = Some h' ∧ frame h h' o v.
Proof.
  intros Hw. destruct (store_is_Some h o w v Hw) as [h1 H1].
  exists h1. unfold storeM, frame. rewrite H1. simpl. eauto.
Qed.

Lemma load_undelete h b a v : load (delete b h) a = Some v → load h a = Some v.
Proof. apply load_mono, delete_subseteq. Qed.

Lemma loadM_run h a v : load h a = Some v → loadM a h = Some (v, h).
Proof. unfold loadM. by intros ->. Qed.

Class Plain (T : typ) : Prop := is_plain : plain T = true.
#[export] Hint Extern 0 (Plain _) => exact (eq_refl true) : typeclass_instances.

(** Assignment, for a type without references. *)
#[export] Instance assign_copies T : Plain T → Copies T assign.
Proof.
  intros Hp v w h i o t Hi Ht Ho.
  destruct (storeM_run h o w v Ho) as (h' & Hrun & _ & Hf). exists h', v.
  unfold assign, mbind, M_bind. rewrite (loadM_run _ _ _ (load_undelete _ _ _ _ Hi)).
  split; [done|]. split; [done|]. by rewrite (denote_plain _ (delete o.1 h)).
Qed.

Lemma skip_copies T v h i o t :
  plain T = true → load (delete o.1 h) i = Some v → denote (delete o.1 h) T v = Some t → load h o = Some v →
  frame h h o v ∧ denote (h ∖ h) T v = Some t.
Proof.
  intros Hp Hi Ht Ho. split; [by apply frame_refl|]. by rewrite (denote_plain _ (delete o.1 h)).
Qed.

(** ** The parts of a value *)

(** A part of an aggregate: where it is read and written, what runs on it, what it
    was ([pt_from], of tree [pt_tree]) and what its place in [out] holds before. *)
Record part := Part {
  pt_in : step; pt_out : step; pt_run : copier; pt_typ : typ;
  pt_from : val; pt_to : val; pt_tree : tree;
}.
Definition stmtOf (x : part) : step * step * copier := (pt_in x, pt_out x, pt_run x).
Definition before (x : part) : step * val := (pt_out x, pt_to x).

Record partOk (h : heap) (i : addr) (b : positive) (x : part) : Prop := {
  ok_copies : CopiesAt (pt_typ x) (pt_run x) (pt_from x) (pt_to x);
  ok_load : load (delete b h) (i.>(pt_in x)) = Some (pt_from x);
  ok_tree : denote (delete b h) (pt_typ x) (pt_from x) = Some (pt_tree x);
}.

Lemma each_copies h0 i o parts pre h :
  frame h0 h o (VAgg (pre ++ (before <$> parts))) →
  Forall (partOk h0 i o.1) parts → NoDup (pre.*1 ++ (pt_out <$> parts)) →
  ∃ h' kids, each (stmtOf <$> parts) i o h = Some (tt, h') ∧
    frame h0 h' o (VAgg (pre ++ kids)) ∧ h ∖ h0 ⊆ h' ∖ h0 ∧
    Forall2 (λ x kv, kv.1 = pt_out x ∧ denote (h' ∖ h0) (pt_typ x) kv.2 = Some (pt_tree x)) parts kids.
Proof.
  revert pre h. induction parts as [|x parts IH]; intros pre h Hf Hok Hnd.
  { exists h, []. rewrite app_nil_r in *. repeat split; [done..|constructor]. }
  inversion Hok as [|?? [Hc Hl Ht] Hok']; simplify_eq.
  assert (pt_out x ∉ pre.*1) as Hx by (apply NoDup_app in Hnd; set_solver).
  assert (getKid (pt_out x) (pre ++ (before <$> x :: parts)) = Some (pt_to x)) as Hg.
  { rewrite getKid_app_ne by done. simpl. by rewrite decide_True. }
  pose proof (frame_delete _ _ _ _ Hf) as Hd.
  destruct (Hc h (i.>(pt_in x)) (o.>(pt_out x)) (pt_tree x)) as (h1 & v1 & Hrun & Hf1 & Ht1).
  { by eapply load_mono. }
  { by eapply denote_mono. }
  { rewrite load_sub, (frame_load _ _ _ _ Hf). simpl in *. by rewrite Hg. }
  pose proof (frame_part _ _ _ _ _ _ _ _ Hf Hg Hf1) as Hf2.
  rewrite setKid_app_ne in Hf2 by done. simpl in Hf2. rewrite decide_True in Hf2 by done.
  destruct (IH (pre ++ [(pt_out x, v1)]) h1) as (h2 & kids & Hrun2 & Hf3 & Hsub & Hall).
  { by rewrite <-app_assoc. }
  { done. }
  { rewrite fmap_app, <-app_assoc. done. }
  exists h2, ((pt_out x, v1) :: kids). split.
  { simpl. unfold mbind, M_bind. by rewrite Hrun. }
  rewrite <-app_assoc in Hf3. split; [done|]. split.
  { etrans; [|exact Hsub]. apply (fresh_kept _ _ _ _ _ Hf1). simpl. by eapply frame_block. }
  constructor; [|done]. split; [done|]. simpl. eapply denote_mono; [|exact Ht1].
  etrans; [|exact Hsub]. apply fresh_later. by eapply frame_dom.
Qed.

(** Each field of a struct has a statement that copies it, or needs none; the
    statements come in the order of the fields. *)
Inductive Covers : list (string * typ) → list (step * step * copier) → Prop :=
| covers_nil : Covers [] []
| covers_skip f T fs stmts : Plain T → Covers fs stmts → Covers ((f, T) :: fs) stmts
| covers_on f T s fs stmts : CopiesField T s → Covers fs stmts → Covers ((f, T) :: fs) (on f s :: stmts).

Lemma Covers_parts h i b fs stmts kids ts :
  Covers fs stmts →
  Forall2 (λ (fT : string * typ) kv, kv.1 = Field fT.1) fs kids →
  Forall3 (λ (fT : string * typ) kv (ft : string * tree), denote (delete b h) fT.2 kv.2 = Some ft.2) fs kids ts →
  (∀ kv, kv ∈ kids → load (delete b h) (i.>kv.1) = Some kv.2) →
  ∃ parts, (∀ o, each (stmtOf <$> parts) i o = each stmts i o) ∧
    (before <$> parts = kids) ∧ Forall (partOk h i b) parts ∧
    Forall3 (λ (fT : string * typ) x (ft : string * tree),
      pt_typ x = fT.2 ∧ pt_tree x = ft.2 ∧ pt_out x = Field fT.1) fs parts ts.
Proof.
  intros Hc. revert kids ts. induction Hc as [|f T fs stmts Hp Hc IH|f T s fs stmts Hs Hc IH];
    intros kids ts H1 H2 Hl.
  { inversion H2; simplify_eq. exists []. repeat split; constructor. }
  all: inversion H2 as [|? [k v] [f' t] ? kids' ts' Ht H2']; simplify_eq/=;
    inversion H1 as [|???? Hk H1']; simplify_eq/=;
    destruct (IH kids' ts') as (parts & He & Hb & Hok & H3); [done..|set_solver|];
    pose proof (Hl (Field f, v) ltac:(set_solver)) as Hv; simpl in Hv.
  - exists (Part (Field f) (Field f) (λ _ _, mret tt) T v v t :: parts). repeat split.
    + intros o. simpl. by rewrite <-(He o).
    + csimpl. by rewrite Hb.
    + constructor; [|done]. split; simpl; [|done..].
      intros h' i' o t' ???. destruct (skip_copies T v h' i' o t') as [??]; [done..|]. by exists h', v.
    + by constructor.
  - exists (Part (Field f) (Field f) s T v v t :: parts). repeat split.
    + intros o. simpl. by rewrite <-(He o).
    + csimpl. by rewrite Hb.
    + constructor; [|done]. split; simpl; [|done..]. apply Hs.
    + by constructor.
Qed.

Lemma getKid_elem kids kv : NoDup kids.*1 → kv ∈ kids → getKid kv.1 kids = Some kv.2.
Proof.
  intros Hnd. induction kids as [|[k v] kids IH]; [by intros ?%not_elem_of_nil|].
  inversion Hnd as [|?? Hk Hnd']; simplify_eq/=. intros [->|Hin]%elem_of_cons; simpl.
  - by rewrite decide_True.
  - rewrite decide_False; [by apply IH|]. intros <-. apply Hk. by apply list_elem_of_fmap_2.
Qed.

Definition distinct (fs : list (string * typ)) : bool := bool_decide (NoDup fs.*1).

(** The body of a generated [DeepCopyInto]. *)
Lemma body_copies fs stmts : distinct fs = true → Covers fs stmts → Copies (TyStruct fs) (body stmts).
Proof.
  intros Hd%bool_decide_eq_true Hc v w h i o t Hi Ht Ho.
  apply denote_struct in Ht as (kids & ts & -> & -> & H1 & H2 & H3).
  assert (kids.*1 = Field <$> fs.*1) as Hkeys.
  { clear -H1. induction H1 as [|???? E ? IH]; [done|]. csimpl. by rewrite E, IH. }
  assert (NoDup kids.*1) as Hnd by (rewrite Hkeys; apply NoDup_fmap_2; [by intros ?? [=]|done]).
  destruct (Covers_parts h i o.1 fs stmts kids ts) as (parts & He & Hb & Hok & H4); [done..| |].
  { intros kv Hkv. rewrite load_sub, Hi. simpl. by rewrite getKid_elem. }
  destruct (storeM_run h o w (VAgg kids) Ho) as (h1 & Hrun & _ & Hf).
  destruct (each_copies h i o parts [] h1) as (h2 & kids' & Hrun2 & Hf2 & _ & H5).
  { simpl. by rewrite Hb. }
  { done. }
  { simpl. subst kids. by rewrite <-list_fmap_compose in Hnd. }
  exists h2, (VAgg kids'). split.
  { unfold body, assign, mbind, M_bind. rewrite (loadM_run _ _ _ (load_undelete _ _ _ _ Hi)), Hrun.
    by rewrite <-(He o). }
  split; [done|]. apply denote_struct. exists kids', ts. repeat split; [|done|].
  - clear -H4 H5. revert kids' H5. induction H4 as [|????? ? (?&?&?) ? IH]; intros kids' H5;
      inversion H5 as [|???? [??]]; simplify_eq; constructor; [congruence|auto].
  - clear -H4 H5. revert kids' H5. induction H4 as [|????? ? (?&?&?) ? IH]; intros kids' H5;
      inversion H5 as [|???? [??]]; simplify_eq; constructor; [congruence|auto].
Qed.

(** ** The statement forms *)

Lemma frame_weaken h h1 h2 o v w : frame h1 h2 o v → h ⊆ h1 → load h o = Some w → frame h h2 o v.
Proof.
  intros (x & (r & r' & Hr & Hr' & ->)%store_Some & Hs) Hsub Hl.
  apply bind_Some in Hl as (r0 & Hr0 & _).
  assert (r0 = r) as -> by (pose proof (lookup_weaken _ _ _ _ Hr0 Hsub); congruence).
  exists (<[o.1:=r']> h). split; [apply store_Some; eauto|].
  etrans; [|exact Hs]. by apply insert_mono.
Qed.

(** A later step that only writes to a new block. *)
Lemma frame_new h h2 h3 o v q w : frame h h2 o v → frame h2 h3 q w → q.1 ∉ dom h → frame h h3 o v.
Proof.
  intros (x & Hx & Hs) Hf Hq. exists x. split; [done|].
  apply store_Some in Hx as (r & r' & Hr & Hr' & ->).
  apply map_subseteq_spec. intros b y Hy. pose proof (lookup_weaken _ _ _ _ Hy Hs) as Hb.
  rewrite <-Hb. apply (frame_other _ _ _ _ _ Hf).
  - intros ->. apply Hq. apply lookup_insert_Some in Hy as [[<- _]|[_ Hy]]; apply elem_of_dom; eauto.
  - by apply elem_of_dom.
Qed.

Lemma frame_load_new h h2 h3 q v : frame h2 h3 (q, []) v → q ∉ dom h → load (h3 ∖ h) (q, []) = Some v.
Proof.
  intros Hl%frame_load Hq. unfold load in *. simpl in *. apply bind_Some in Hl as (r & Hr & [= ->]).
  replace ((h3 ∖ h) !! q) with (Some v); [done|]. symmetry. apply lookup_difference_Some.
  split; [done|]. by apply not_elem_of_dom.
Qed.

Lemma fresh_block (h : heap) : fresh (dom h) ∉ dom h.
Proof. apply is_fresh. Qed.

Lemma insert_fresh_sub (h : heap) z : h ⊆ <[fresh (dom h) := z]> h.
Proof. apply insert_subseteq, not_elem_of_dom, fresh_block. Qed.

#[local] Hint Resolve fresh_block insert_fresh_sub : kreg.

(** [*out = q] for a new block [q] holding [z]: what the statement sees next. *)
Lemma store_new h o i v w z q (P := fresh (dom h)) :
  load (delete o.1 h) i = Some v → load h o = Some w →
  ∃ h2, storeM o q (<[P := z]> h) = Some (tt, h2) ∧ frame h h2 o q ∧
    delete o.1 h ⊆ delete P h2 ∧ load h2 (P, []) = Some z ∧ loadM i h2 = Some (v, h2) ∧ loadM o h2 = Some (q, h2).
Proof.
  intros Hi Ho.
  assert (load (<[P:=z]> h) o = Some w) as Ho' by (eapply load_mono; [apply insert_fresh_sub|done]).
  destruct (storeM_run _ _ _ q Ho') as (h2 & Hrun & Hst & Hf).
  pose proof (frame_weaken _ _ _ _ _ _ Hf (insert_fresh_sub h z) Ho) as Hf'.
  assert (o.1 ∈ dom h) as Hd by by eapply frame_block.
  assert (o.1 ≠ P) as Hne by (intros E; apply (fresh_block h); by rewrite E in Hd).
  assert (delete o.1 h ⊆ delete P h2) as Hsub.
  { apply map_subseteq_spec. intros b x [Hb Hx]%lookup_delete_Some. apply lookup_delete_Some. split.
    - intros <-. apply (fresh_block h). by apply elem_of_dom.
    - rewrite (frame_other _ _ _ _ _ Hf'); [done..|]. by apply elem_of_dom. }
  exists h2. repeat split; try done.
  - apply store_Some in Hst as (r & r' & _ & _ & ->). unfold load. simpl.
    by rewrite lookup_insert_ne, lookup_insert_eq by done.
  - apply loadM_run. eapply load_undelete, load_mono; eauto.
  - apply loadM_run. by eapply frame_load.
Qed.

Ltac run_stmt := unfold mbind, M_bind, mret, M_ret.

#[export] Instance ifPtr_copies T into : Copies T into → CopiesField (TyPtr T) (ifPtr T into).
Proof.
  intros Hc v h i o t Hi Ht Ho. pose proof (loadM_run _ _ _ (load_undelete _ _ _ _ Hi)) as Hli.
  unfold ifPtr. destruct v as [| |a| | |]; try done.
  { exists h, VNil. run_stmt. rewrite Hli. repeat split; [by apply frame_refl|]. by simpl in *. }
  simpl in Ht. apply bind_Some in Ht as (u & Hu & (t' & Ht & [= <-])%bind_Some).
  destruct (store_new h o i _ _ (zero T) (VPtr (fresh (dom h), [])) Hi Ho)
    as (h2 & Hrun & Hf & Hsub & Hz & Hi2 & Ho2).
  destruct (Hc u (zero T) h2 a (fresh (dom h), []) t') as (h3 & v3 & Hrun3 & Hf3 & Ht3);
    [by eapply load_mono|by eapply denote_mono|done|].
  exists h3, (VPtr (fresh (dom h), [])). split.
  { run_stmt. rewrite Hli. simpl. run_stmt. rewrite Hrun, Hi2. simpl. rewrite Ho2. done. }
  split; [by eapply frame_new; eauto with kreg|]. simpl.
  rewrite (frame_load_new _ _ _ _ _ Hf3) by eauto with kreg. simpl.
  erewrite denote_mono; [done| |exact Ht3]. apply fresh_later. by eapply frame_dom.
Qed.

#[export] Instance ifCall_copies T g : Clones T g → CopiesField (TyPtr T) (ifCall g).
Proof.
  intros Hc v h i o t Hi Ht Ho. pose proof (loadM_run _ _ _ (load_undelete _ _ _ _ Hi)) as Hli.
  unfold ifCall. destruct (isNil v) eqn:En.
  { destruct v; try done. exists h, VNil. run_stmt. rewrite Hli. repeat split; [by apply frame_refl|]. by simpl in *. }
  destruct (Hc h v t) as (h1 & p & Hrun & Hsub & Hp).
  { eapply denote_mono; [|exact Ht]. apply delete_subseteq. }
  destruct (storeM_run h1 o v p) as (h2 & Hrun2 & _ & Hf2); [by eapply load_mono|].
  pose proof (frame_weaken _ _ _ _ _ _ Hf2 Hsub Ho) as Hf.
  exists h2, p. split; [run_stmt; by rewrite Hli, En, Hli, Hrun|]. split; [done|].
  eapply denote_mono; [|exact Hp]. apply (fresh_kept _ _ _ _ _ Hf2). by eapply frame_block.
Qed.

Lemma slice_parts T into h a b off js us ts :
  Copies T into →
  Forall2 (λ j u, load (delete b h) (a.>(Index (off + j))) = Some u) js us →
  Forall2 (λ u t, denote (delete b h) T u = Some t) us ts →
  ∃ parts, stmtOf <$> parts = (λ j, (Index (off + j), Index j, into)) <$> js ∧
    before <$> parts = (λ j, (Index j, zero T)) <$> js ∧ Forall (partOk h a b) parts ∧
    (pt_out <$> parts = Index <$> js) ∧ Forall2 (λ x t, pt_typ x = T ∧ pt_tree x = t) parts ts.
Proof.
  intros Hc H1. revert ts. induction H1 as [|j u js us Hu H1 IH]; intros ts H2; inversion H2; simplify_eq.
  { exists []. repeat split; constructor. }
  destruct (IH _ ltac:(eassumption)) as (parts & E1 & E2 & Hok & E3 & Hall).
  eexists (Part (Index (off + j)) (Index j) into T u (zero T) _ :: parts). csimpl.
  rewrite E1, E2, E3. repeat split; [constructor; [|done]..].
  - split; simpl; [apply Hc|done|eassumption].
  - done.
Qed.

Lemma load_kids h a kids js :
  load h a = Some (VAgg kids) → kids.*1 = Index <$> js → NoDup js →
  Forall2 (λ j (kv : step * val), load h (a.>(Index j)) = Some kv.2) js kids.
Proof.
  intros Hl Hk Hnd.
  assert (NoDup kids.*1) as Hnd' by (rewrite Hk; apply NoDup_fmap_2; [by intros ?? [=]|done]).
  assert (Forall (λ kv : step * val, load h (a.>(kv.1)) = Some kv.2) kids) as Hall.
  { apply Forall_forall. intros kv Hkv. rewrite load_sub, Hl. simpl. by rewrite getKid_elem. }
  clear Hl Hnd Hnd'. revert js Hk. induction Hall as [|kv kids Hkv Hall IH]; intros [|j js]; try done.
  csimpl. intros [= Hj Hk]. constructor; [by rewrite <-Hj|]. by apply IH.
Qed.

#[export] Instance ifSlice_copies T into : Copies T into → CopiesField (TySlice T) (ifSlice T into).
Proof.
  intros Hc v h i o t Hi Ht Ho. pose proof (loadM_run _ _ _ (load_undelete _ _ _ _ Hi)) as Hli.
  unfold ifSlice. destruct v as [| | |a off n| |]; try done.
  { exists h, VNil. run_stmt. rewrite Hli. repeat split; [by apply frame_refl|]. by simpl in *. }
  simpl in Ht. apply bind_Some in Ht as (us & Hus%mapM_Some & (ts & Hts%mapM_Some & [= <-])%bind_Some).
  set (zs := (λ j, (Index j, zero T)) <$> seq 0 n). set (q := fresh (dom h)).
  destruct (store_new h o i _ _ (VAgg zs) (VSlice (q, []) 0 n) Hi Ho) as (h2 & Hrun & Hf & Hsub & Hz & Hi2 & Ho2).
  fold q in Hrun, Hf, Hsub, Hz.
  destruct (slice_parts T into h2 a q off (seq 0 n) us ts) as (parts & E1 & E2 & Hok & E3 & Hall); [done|..].
  { eapply Forall2_impl; [exact Hus|]. intros. by eapply load_mono. }
  { eapply Forall2_impl; [exact Hts|]. intros. by eapply denote_mono. }
  destruct (each_copies h2 a (q, []) parts [] h2) as (h3 & kids & Hrun3 & Hf3 & _ & Hkids).
  { simpl. rewrite E2. by apply frame_refl. }
  { done. }
  { simpl. rewrite E3. apply NoDup_fmap_2; [by intros ?? [=]|apply NoDup_seq]. }
  exists h3, (VSlice (q, []) 0 n). split.
  { run_stmt. rewrite Hli. simpl. run_stmt. rewrite Hli. simpl. run_stmt. unfold q, zs in *. rewrite Hrun.
    by rewrite <-E1. }
  split; [eapply frame_new; [done..|]; apply fresh_block|]. simpl.
  assert (q ∉ dom h) as Hq by apply fresh_block.
  pose proof (frame_load_new _ _ _ _ _ Hf3 Hq) as Hl.
  assert (kids.*1 = Index <$> seq 0 n) as Hkeys.
  { rewrite <-E3. clear -Hkids. induction Hkids as [|???? [E _] ? IH]; [done|]. csimpl. by rewrite E, IH. }
  apply bind_Some. exists (snd <$> kids). split.
  { apply mapM_Some, Forall2_fmap_r, load_kids; [done..|apply NoDup_seq]. }
  apply bind_Some. exists ts. split; [|done]. apply mapM_Some, Forall2_fmap_l.
  assert (h3 ∖ h2 ⊆ h3 ∖ h) as Hm by (apply fresh_later; by eapply frame_dom).
  clear -Hkids Hall Hm. revert kids Hkids. induction Hall as [|x t parts ts [??] Hall IH];
    intros kids Hkids; inversion Hkids as [|???? [_ Hd]]; simplify_eq; constructor; auto.
  by eapply denote_mono.
Qed.

(** ** The methods *)

#[export] Instance cloneWith_clones T into : Copies T into → Clones T (cloneWith T into).
Proof.
  intros Hc h p t Ht. unfold cloneWith. destruct p as [| |a| | |]; try done.
  { exists h, VNil. repeat split; [done|]. by simpl in *. }
  simpl in Ht. apply bind_Some in Ht as (u & Hu & (t' & Ht & [= <-])%bind_Some).
  set (q := fresh (dom h)). set (h1 := <[q := zero T]> h).
  assert (q ∉ dom h) as Hq by apply fresh_block.
  assert (h ⊆ delete q h1) as Hsub.
  { unfold h1. by rewrite delete_insert_eq, delete_id by by apply not_elem_of_dom. }
  destruct (Hc u (zero T) h1 a (q, []) t') as (h2 & v & Hrun & Hf & Hv).
  { by eapply load_mono. }
  { by eapply denote_mono. }
  { unfold load, h1. simpl. by rewrite lookup_insert_eq. }
  exists h2, (VPtr (q, [])). split; [run_stmt; simpl; subst h1 q; by rewrite Hrun|]. split.
  - transitivity (delete q h2); [|apply delete_subseteq]. etrans; [exact Hsub|]. by apply (frame_delete _ _ _ _ Hf).
  - simpl. rewrite (frame_load_new _ _ _ _ _ Hf Hq). simpl.
    erewrite denote_mono; [done| |exact Hv]. apply fresh_later. unfold h1. set_solver.
Qed.

(** A deep copy and its original cannot disturb each other: the original keeps its
    tree whatever is written to the new blocks, the copy whatever is written to the
    old ones. *)
Lemma old_kept (h h' later : heap) T p t :
  h ⊆ h' → denote h T p = Some t → (∀ b, b ∈ dom h → later !! b = h' !! b) → denote later T p = Some t.
Proof.
  intros Hsub Ht Hl. eapply denote_mono; [|exact Ht]. apply map_subseteq_spec. intros b x Hx.
  rewrite Hl; [by eapply lookup_weaken|]. by apply elem_of_dom.
Qed.
Lemma new_kept (h h' later : heap) T p t :
  denote (h' ∖ h) T p = Some t → (∀ b, b ∈ dom h' → b ∉ dom h → later !! b = h' !! b) →
  denote later T p = Some t.
Proof.
  intros Ht Hl. eapply denote_mono; [|exact Ht].
  apply map_subseteq_spec. intros b x [Hx Hb]%lookup_difference_Some.
  rewrite Hl; [done|by apply elem_of_dom|by apply not_elem_of_dom].
Qed.

(** [DeepCopyObject] gives the nil interface exactly for a nil pointer. *)
Lemma objectWith_run T g name h p t :
  Clones T g → denote h (TyPtr T) p = Some t →
  ∃ h' r, objectWith name g p h = Some (r, h') ∧ h ⊆ h' ∧
    (r = None ↔ p = VNil) ∧
    (∀ n p', r = Some (n, p') → n = name ∧ denote (h' ∖ h) (TyPtr T) p' = Some t).
Proof.
  intros Hc Ht. destruct (Hc h p t Ht) as (h' & p' & Hrun & Hsub & Hp).
  exists h', (if isNil p' then None else Some (name, p')).
  unfold objectWith. run_stmt. rewrite Hrun. split; [by destruct (isNil p')|]. split; [done|].
  assert (p' = VNil ↔ p = VNil) as Hnil.
  { split; intros ->; simpl in *; simplify_eq; [destruct p|destruct p']; simpl in *; try done;
      match goal with H : _ = Some TNil |- _ => apply bind_Some in H as (? & _ & (? & _ & [=])%bind_Some) end. }
  split; [|by intros n q; destruct p'; simpl; intros [= <- <-]].
  rewrite <-Hnil. by destruct p'.
Qed.

(** Solves [Copies] for a generated body: the fields in order, each covered by its
    statement. *)
Ltac generated :=
  apply body_copies;
  [vm_compute; reflexivity
  |repeat first [apply covers_nil | apply covers_on; [apply _|] | apply covers_skip; [apply _|]]].
