(* ===== verification/GoFlag.v ===== *)
(** * GoFlag: the command line, as package [flag] reads it

    [FlagSet.parseOne] and the loop of [FlagSet.Parse], for flags that write to a
    state [S].  The loop is not structural: a flag consumes one argument, or two when
    its value is the next one.  It runs on fuel, and [ParseLoop_enough] shows that one
    unit more than the number of arguments is always enough. *)
From S2P Require Import Prelude GoStrings.

(** A registered flag: its name, whether it is boolean (and so takes no separate
    argument), and [Value.Set]. *)
Record Flag (S : Type) := mkFlag {
  flag_name : string; flag_isBool : bool; flag_set : string → S → res S;
}.
Arguments mkFlag {S} _ _ _.
Arguments flag_name {S} _.
Arguments flag_isBool {S} _.
Arguments flag_set {S} _ _ _.

(** [FlagSet.formal]; a name is registered once. *)
Definition FlagSet (S : Type) : Type := list (Flag S).
Fixpoint lookupFlag {S} (name : string) (fs : FlagSet S) : option (Flag S) :=
  match fs with
  | [] => None
  | f :: fs => if String.eqb (flag_name f) name then Some f else lookupFlag name fs
  end.

Definition ErrHelp : error := Opaque "flag: help requested".

(** The [flag.Value]s of [flag.StringVar] and [flag.BoolVar], given the assignment
    to the variable. *)
Definition StringVar {S} (name : string) (assign : string → S → S) : Flag S :=
  mkFlag name false (λ v st, Ok (assign v st)).
Definition BoolVar {S} (name : string) (assign : bool → S → S) : Flag S :=
  mkFlag name true (λ v st, let* b := ParseBool v in Ok (assign b st)).

(** What [parseOne] reports: a flag was read, there are no more flags, or an error. *)
Inductive seen (S : Type) :=
| Seen (args : list string) (st : S)
| Stop (args : list string) (st : S)
| Bad (e : error).
Arguments Seen {S} _ _.
Arguments Stop {S} _ _.
Arguments Bad {S} _.

Section parse.
Context {S : Type} (formal : FlagSet S).

(** [name[0:i]] and [name[i+1:]] for the first [=] after the first byte. *)
Definition splitValue (name : string) : string * option string :=
  match name with
  | String c rest =>
      match cut "="%char rest with
      | Some (l, value) => (String c l, Some value)
      | None => (name, None)
      end
  | EmptyString => (name, None)
  end.

Definition setFlag (f : Flag S) (name : string) (value : option string) (args : list string) (st : S) : seen S :=
  if flag_isBool f then
    match value with
    | Some v =>
        match flag_set f v st with
        | Ok st => Seen args st
        | Err e => Bad (Wrapf "invalid boolean value %q for -%s: %v" [v; name] e)
        end
    | None =>
        match flag_set f "true" st with
        | Ok st => Seen args st
        | Err e => Bad (Wrapf "invalid boolean flag %s: %v" [name] e)
        end
    end
  else
    let '(value, args) :=
      match value, args with
      | None, next :: args => (Some next, args)
      | _, _ => (value, args)
      end in
    match value with
    | None => Bad (Errorf "flag needs an argument: -%s" [name])
    | Some v =>
        match flag_set f v st with
        | Ok st => Seen args st
        | Err e => Bad (Wrapf "invalid value %q for flag -%s: %v" [v; name] e)
        end
    end.

Definition parseNamed (s name : string) (args : list string) (st : S) : seen S :=
  match name with
  | EmptyString => Bad (Errorf "bad flag syntax: %s" [s])
  | String c _ =>
      if Ascii.eqb c "-"%char || Ascii.eqb c "="%char then Bad (Errorf "bad flag syntax: %s" [s])
      else
        let '(name, value) := splitValue name in
        match lookupFlag name formal with
        | None =>
            if String.eqb name "help" || String.eqb name "h" then Bad ErrHelp
            else Bad (Errorf "flag provided but not defined: -%s" [name])
        | Some f => setFlag f name value args st
        end
  end.

Definition parseOne (args : list string) (st : S) : seen S :=
  match args with
  | [] => Stop args st
  | s :: rest =>
      match s with
      | String c1 (String c2 s') =>
          if negb (Ascii.eqb c1 "-"%char) then Stop args st
          else if Ascii.eqb c2 "-"%char then
            if String.eqb s' "" then Stop rest st else parseNamed s s' rest st
          else parseNamed s (String c2 s') rest st
      | _ => Stop args st
      end
  end.

(** The loop of [Parse]: the arguments left over and the state, or the error. *)
Fixpoint ParseLoop (fuel : nat) (args : list string) (st : S) : option (res (list string * S)) :=
  match fuel with
  | O => None
  | Datatypes.S fuel =>
      match parseOne args st with
      | Seen args st => ParseLoop fuel args st
      | Stop args st => Some (Ok (args, st))
      | Bad e => Some (Err e)
      end
  end.

Definition Parse (args : list string) (st : S) : option (res (list string * S)) :=
  ParseLoop (Datatypes.S (length args)) args st.

Lemma setFlag_shorter f name value args st args' st' :
  setFlag f name value args st = Seen args' st' → length args' ≤ length args.
Proof. unfold setFlag. intros H. split_match; lia. Qed.

Lemma parseOne_shorter args st args' st' : parseOne args st = Seen args' st' → length args' < length args.
Proof.
  unfold parseOne, parseNamed. intros H.
  repeat (case_match; simplify_eq/=; try done);
    match goal with H : setFlag _ _ _ _ _ = _ |- _ => apply setFlag_shorter in H end; simpl; lia.
Qed.

(** More fuel than arguments never runs out, and makes no difference. *)
Lemma ParseLoop_enough fuel args st :
  length args < fuel → is_Some (ParseLoop fuel args st) ∧ ParseLoop fuel args st = Parse args st.
Proof.
  unfold Parse. intros Hf. assert (∀ n m args st, length args < n → length args < m →
    is_Some (ParseLoop n args st) ∧ ParseLoop n args st = ParseLoop m args st) as Hall; [|apply Hall; lia].
  clear. induction n as [|n IH]; intros m args st Hn Hm; [lia|]. destruct m as [|m]; [lia|]. simpl.
  destruct (parseOne args st) as [args' st'|args' st'|e] eqn:E; [|by eauto..].
  apply parseOne_shorter in E. apply IH; lia.
Qed.

(** One argument of the form [--name=value]. *)
Definition flagArg (name value : string) : string := "--" +:+ name +:+ "=" +:+ value.

Definition validName (name : string) : bool :=
  match name with
  | EmptyString => false
  | String c rest => negb (Ascii.eqb c "-"%char || Ascii.eqb c "="%char) && negb (containsByte "="%char rest)
  end.

Lemma parseOne_flagArg name value f args st st' :
  validName name = true → lookupFlag name formal = Some f → flag_set f value st = Ok st' →
  parseOne (flagArg name value :: args) st = Seen args st'.
Proof.
  destruct name as [|c name]; [done|]. intros [Hc%negb_true_iff Hn%negb_true_iff]%andb_prop Hl Hs.
  change (flagArg (String c name) value)
    with (String "-"%char (String "-"%char (String c (name +:+ String "="%char value)))).
  pose proof (cut_app "="%char name value Hn) as Hcut. revert Hcut.
  generalize (name +:+ String "="%char value). intros rest Hcut.
  unfold parseOne. simpl. unfold parseNamed. rewrite Hc. simpl. rewrite Hcut. rewrite Hl. unfold setFlag. rewrite Hs. by destruct (flag_isBool f).
Qed.

End parse.
