(* ===== verification/Api.v ===== *)
(** * The custom resources of [api/v1alpha1]

    Every record has the fields of the Go struct, in order.  A Go pointer is an
    [option]; a string enum is an inductive type with the declared constants and
    one more constructor for any other text (the empty string of an unset field
    included); [metav1.Duration] and [metav1.Time] are the numbers of [GoTime].
    Of the Kubernetes types only the fields the controller reads or writes are
    kept. *)

From S2P Require Import Prelude GoTime.

(** ** Kubernetes metadata (k8s.io/apimachinery, k8s.io/api) *)

Record TypeMeta := mkTypeMeta { tm_APIVersion : string; tm_Kind : string }.

Record ObjectMeta := mkObjectMeta {
  om_Name : string;
  om_Namespace : string;
  om_Labels : gmap string string;
  om_ResourceVersion : string;
}.

Record Condition := mkCondition { cond_Type : string; cond_Status : string }.
Record LocalObjectReference := mkLocalObjectReference { lor_Name : string }.
Record SecretKeySelector := mkSecretKeySelector {
  sks_Name : string;
  sks_Key : string;
  sks_Optional : option bool;
}.
Record LocalPolicyTargetReference := mkLocalPolicyTargetReference {
  ltr_Group : string;
  ltr_Kind : string;
  ltr_Name : string;
}.

(** ** communitymap_types.go *)

Inductive CommunityField :=
| CommunityFieldWeight | CommunityFieldTier | CommunityFieldDrain | CommunityFieldServiceTag
| CommunityFieldOther (s : string).

Inductive UnmappedCommunityPolicy :=
| UnmappedCommunityIgnore | UnmappedCommunityReject | UnmappedCommunityWarn
| UnmappedCommunityOther (s : string).

Record CommunityMatch := mkCommunityMatch { cm_LargeCommunity : string }.

Record CommunityFieldSet := mkCommunityFieldSet {
  cfs_Field : CommunityField;
  cfs_Value : option string;
  cfs_FromCommunityValue : bool;
}.

Record CommunityRule := mkCommunityRule {
  cr_Match : CommunityMatch;
  cr_Set : CommunityFieldSet;
}.

Inductive WeightFallbackSource :=
| WeightFallbackFromMED | WeightFallbackOther (s : string).

Inductive PreferenceFallbackSource :=
| PreferenceFallbackFromASPathLength | PreferenceFallbackOther (s : string).

Record CommunityFallbacks := mkCommunityFallbacks {
  cf_WeightFrom : WeightFallbackSource;
  cf_PreferenceFrom : PreferenceFallbackSource;
  cf_DefaultWeight : Z;
}.

Record CommunityMapSpec := mkCommunityMapSpec {
  cms_Rules : list CommunityRule;
  cms_Fallbacks : option CommunityFallbacks;
  cms_OnUnmappedCommunity : UnmappedCommunityPolicy;
}.

Record CommunityMapStatus := mkCommunityMapStatus { cmst_Conditions : list Condition }.

Record CommunityMap := mkCommunityMap {
  cmap_ObjectMeta : ObjectMeta;
  cmap_Spec : CommunityMapSpec;
  cmap_Status : CommunityMapStatus;
}.

(** ** bgppeerconfig_types.go *)

Inductive BGPPeerConfigMode :=
| BGPPeerConfigModeRouteReflectorClient | BGPPeerConfigModePassive
| BGPPeerConfigModeBMPCollector | BGPPeerConfigModeOther (s : string).

Record BGPPeerAuth := mkBGPPeerAuth { auth_TCPMD5SecretRef : option SecretKeySelector }.

Record GracefulRestartConfig := mkGracefulRestartConfig {
  gr_Enabled : bool;
  gr_StaleRoutesTime : option Duration;
}.

Record BGPTimers := mkBGPTimers {
  tim_Hold : option Duration;
  tim_Keepalive : option Duration;
}.

Record BGPPeer := mkBGPPeer {
  peer_Name : string;
  peer_Address : string;
  peer_RemoteASN : Z;
  peer_Auth : option BGPPeerAuth;
  peer_GracefulRestart : option GracefulRestartConfig;
  peer_Timers : option BGPTimers;
}.

Record ApiLocality := mkApiLocality { aloc_Region : string; aloc_Zone : string }.

Record ClusterBinding := mkClusterBinding {
  cb_ClusterID : string;
  cb_AllowedPrefixes : list string;
  cb_MaxPrefixes : option Z;
  cb_Locality : ApiLocality;
}.

Record BGPPeerConfigSpec := mkBGPPeerConfigSpec {
  pcs_LocalASN : Z;
  pcs_RouterID : string;
  pcs_ListenPort : option Z;
  pcs_Mode : BGPPeerConfigMode;
  pcs_Peers : list BGPPeer;
  pcs_ClusterBindings : list ClusterBinding;
}.

Inductive PeerSessionState :=
| PeerSessionStateIdle | PeerSessionStateConnect | PeerSessionStateActive
| PeerSessionStateOpenSent | PeerSessionStateOpenConfirm | PeerSessionStateEstablished
| PeerSessionStateOther (s : string).

Record PeerStatus := mkPeerStatus {
  ps_Name : string;
  ps_SessionState : PeerSessionState;
  ps_Uptime : option Duration;
  ps_PrefixesReceived : Z;
  ps_PrefixesAccepted : Z;
  ps_PrefixesRejected : Z;
}.

Record BGPPeerConfigStatus := mkBGPPeerConfigStatus {
  pcst_Peers : list PeerStatus;
  pcst_Conditions : list Condition;
}.

Record BGPPeerConfig := mkBGPPeerConfig {
  pc_ObjectMeta : ObjectMeta;
  pc_Spec : BGPPeerConfigSpec;
  pc_Status : BGPPeerConfigStatus;
}.

(** ** advertisedbackend_types.go *)

Record BackendAttributes := mkBackendAttributes {
  ba_Weight : Z;
  ba_Tier : string;
  ba_Drain : bool;
  ba_ServiceTag : option Z;
  ba_MED : Z;
  ba_ASPath : slice Z;
  ba_LargeCommunities : slice string;
}.

Inductive BackendState :=
| BackendStateActive | BackendStateHoldDown | BackendStateDraining
| BackendStateDampened | BackendStatePending | BackendStateRejected
| BackendStateOther (s : string).

Record StabilityStatus := mkStabilityStatus {
  ss_FlapCount24h : Z;
  ss_DampeningPenalty : Z;
  ss_LastObservedAt : option Time;
  ss_WithdrawnAt : option Time;
  ss_SuppressedSince : option Time;
  ss_PendingSince : option Time;
}.

(** The zero value of the struct. *)
Definition zeroStability : StabilityStatus := mkStabilityStatus 0 0 None None None None.

Record AdvertisedBackendStatus := mkAdvertisedBackendStatus {
  abs_Prefix : string;
  abs_ClusterID : string;
  abs_Peer : string;
  abs_Locality : ApiLocality;
  abs_Attributes : BackendAttributes;
  abs_State : BackendState;
  abs_Reason : string;
  abs_FirstSeen : option Time;
  abs_LastChange : option Time;
  abs_Stability : StabilityStatus;
  abs_BoundPolicies : list string;
  abs_GeneratedResources : list string;
}.

Record AdvertisedBackend := mkAdvertisedBackend {
  ab_ObjectMeta : ObjectMeta;
  ab_Status : AdvertisedBackendStatus;
}.

(** ** bgpbackendpolicy_types.go *)

Record BackendSelector := mkBackendSelector {
  sel_Prefixes : list string;
  sel_ServiceTag : option Z;
  sel_ClusterIDs : list string;
}.

Inductive BackendTLSMode :=
| BackendTLSModeSimple | BackendTLSModePassthrough | BackendTLSModeMutual
| BackendTLSModeOther (s : string).

Record BackendTLSConfig := mkBackendTLSConfig {
  tls_Mode : BackendTLSMode;
  tls_SNI : string;
  tls_CredentialRef : option LocalObjectReference;
}.

Record BackendConfig := mkBackendConfig {
  be_Port : Z;
  be_AppProtocol : option string;
  be_TLS : BackendTLSConfig;
}.

Inductive LoadBalancingStrategy :=
| LoadBalancingStrategyLocality | LoadBalancingStrategyWeighted
| LoadBalancingStrategyUniform | LoadBalancingStrategyOther (s : string).

Record LocalityLoadBalancingConfig := mkLocalityLoadBalancingConfig {
  llb_Preference : list string;
  llb_FailoverThreshold : option Z;
}.

Record LoadBalancingConfig := mkLoadBalancingConfig {
  lb_Strategy : LoadBalancingStrategy;
  lb_Locality : option LocalityLoadBalancingConfig;
}.

Record ActiveHealthConfig := mkActiveHealthConfig {
  ah_Path : string;
  ah_Interval : option Duration;
  ah_Timeout : option Duration;
  ah_UnhealthyThreshold : option Z;
  ah_HealthyThreshold : option Z;
}.

Record OutlierDetectionConfig := mkOutlierDetectionConfig {
  od_Consecutive5xx : option Z;
  od_BaseEjectionTime : option Duration;
  od_MaxEjectionPercent : option Z;
}.

Record BGPBackendPolicySpec := mkBGPBackendPolicySpec {
  bps_TargetRef : LocalPolicyTargetReference;
  bps_Selector : BackendSelector;
  bps_Backend : BackendConfig;
  bps_LoadBalancing : LoadBalancingConfig;
  bps_ActiveHealth : option ActiveHealthConfig;
  bps_OutlierDetection : option OutlierDetectionConfig;
}.

Record BGPBackendPolicyStatus := mkBGPBackendPolicyStatus {
  bpst_Conditions : list Condition;
  bpst_ActiveBackends : Z;
  bpst_SuppressedBackends : Z;
  bpst_Generated : list string;
}.

Record BGPBackendPolicy := mkBGPBackendPolicy {
  bp_ObjectMeta : ObjectMeta;
  bp_Spec : BGPBackendPolicySpec;
  bp_Status : BGPBackendPolicyStatus;
}.

(** ** bgpstabilityconfig_types.go *)

Record DampeningConfig := mkDampeningConfig {
  dc_Enabled : bool;
  dc_HalfLife : option Duration;
  dc_SuppressThreshold : option Z;
  dc_ReuseThreshold : option Z;
  dc_MaxSuppress : option Duration;
}.

Record BGPStabilityConfigSpec := mkBGPStabilityConfigSpec {
  scs_WithdrawalGrace : option Duration;
  scs_AdditionDelay : option Duration;
  scs_Dampening : option DampeningConfig;
}.

(** The spec of a [BGPStabilityConfig] variable no object was read into. *)
Definition zeroStabilitySpec : BGPStabilityConfigSpec :=
  mkBGPStabilityConfigSpec None None None.

Record BGPStabilityConfigStatus := mkBGPStabilityConfigStatus {
  scst_Conditions : list Condition;
}.

Record BGPStabilityConfig := mkBGPStabilityConfig {
  sc_ObjectMeta : ObjectMeta;
  sc_Spec : BGPStabilityConfigSpec;
  sc_Status : BGPStabilityConfigStatus;
}.

(** ** Decidable equality *)

#[export] Instance CommunityField_eq_dec : EqDecision CommunityField.
Proof. solve_decision. Defined.
#[export] Instance WeightFallbackSource_eq_dec : EqDecision WeightFallbackSource.
Proof. solve_decision. Defined.
#[export] Instance BackendState_eq_dec : EqDecision BackendState.
Proof. solve_decision. Defined.
#[export] Instance ApiLocality_eq_dec : EqDecision ApiLocality.
Proof. solve_decision. Defined.
#[export] Instance slice_eq_dec `{EqDecision A} : EqDecision (slice A).
Proof. unfold slice. apply _. Defined.
#[export] Instance Time_eq_dec : EqDecision Time.
Proof. unfold Time. apply _. Defined.
#[export] Instance BackendAttributes_eq_dec : EqDecision BackendAttributes.
Proof. solve_decision. Defined.
#[export] Instance StabilityStatus_eq_dec : EqDecision StabilityStatus.
Proof. solve_decision. Defined.
#[export] Instance AdvertisedBackendStatus_eq_dec : EqDecision AdvertisedBackendStatus.
Proof. solve_decision. Defined.
