(* ===== verification/Wire.v ===== *)
(** * AdvertisedBackend records on the wire

    The controller's memory between two ticks is the AdvertisedBackend records it
    stores, so what the JSON form of a record keeps is what the next tick can know.
    [encodeStatus] and [decodeStatus] follow the [json] tags of
    api/v1alpha1/advertisedbackend_types.go ([omitempty] and [omitzero] included) and
    the rules of encoding/json; the text of a [metav1.Time] is a parameter that keeps
    whole seconds.  The theorem shows that reading back gives [wireStatus]: the same
    record with its times rounded down and empty slices read as nil. *)

From S2P Require Import Prelude GoStrings GoTime Api.
Local Open Scope Z_scope.

Inductive json :=
| JNull
| JBool (b : bool)
| JNum (n : Z)
| JStr (s : string)
| JArr (l : list json)
| JObj (fields : list (string * json)).

(** [metav1.Time] as JSON text, seconds only (RFC 3339); the years 1 to 9999 have one. *)
Definition wireTime (t : Time) : Time := t / Second * Second.
Definition maxTime : Time := 315537897600 * Second.

Class TimeFormat := {
  formatTime : Time → string;
  parseTime : string → res Time;
  parse_format t : 0 <= t < maxTime → parseTime (formatTime t) = Ok (wireTime t);
}.

(** ** Fields *)

Definition errUnmarshal : error := Opaque "json: cannot unmarshal".

(** The value of each field of a struct that is written; [None] is an omitted field. *)
Definition omitEmpty {A} (empty : bool) (enc : A → json) (a : A) : option json :=
  if empty then None else Some (enc a).

Definition struct (fields : list (string * option json)) : json :=
  JObj (omap (λ f, (λ v, (f.1, v)) <$> f.2) fields).

(** The last occurrence of a key counts. *)
Definition lookupField (name : string) (fields : list (string * json)) : option json :=
  foldl (λ acc f, if String.eqb f.1 name then Some f.2 else acc) None fields.

(** A key that is absent, or null, leaves the zero value. *)
Definition decField {A} (zero : A) (dec : json → res A) (j : option json) : res A :=
  match j with
  | None | Some JNull => Ok zero
  | Some v => dec v
  end.

Definition decString (j : json) : res string :=
  match j with JStr s => Ok s | _ => Err errUnmarshal end.
Definition decBool (j : json) : res bool :=
  match j with JBool b => Ok b | _ => Err errUnmarshal end.
Definition decInt (lo hi : Z) (j : json) : res Z :=
  match j with
  | JNum n => if (lo <=? n) && (n <=? hi) then Ok n else Err errUnmarshal
  | _ => Err errUnmarshal
  end.
Definition decInt32 : json → res Z := decInt int32_min int32_max.
Definition decInt64 : json → res Z := decInt int64_min int64_max.
Definition decPtr {A} (dec : json → res A) (j : json) : res (option A) :=
  let* a := dec j in Ok (Some a).
Definition decSlice {A} (dec : json → res A) (j : json) : res (list A) :=
  match j with JArr l => mapRes dec l | _ => Err errUnmarshal end.
Definition decStruct {A} (k : (string → option json) → res A) (j : json) : res A :=
  match j with
  | JObj fields => k (λ name, lookupField name fields)
  | _ => Err errUnmarshal
  end.

Definition encString (s : string) : option json := omitEmpty (String.eqb s "") JStr s.
Definition encInt (z : Z) : option json := omitEmpty (z =? 0) JNum z.
Definition encBool (b : bool) : option json := omitEmpty (negb b) JBool b.
Definition encPtr {A} (enc : A → json) (p : option A) : option json := enc <$> p.
Definition encSlice {A} (enc : A → json) (l : list A) : option json :=
  match l with [] => None | _ => Some (JArr (enc <$> l)) end.

(** ** The record *)

Definition stateText (s : BackendState) : string :=
  match s with
  | BackendStateActive => "Active"
  | BackendStateHoldDown => "HoldDown"
  | BackendStateDraining => "Draining"
  | BackendStateDampened => "Dampened"
  | BackendStatePending => "Pending"
  | BackendStateRejected => "Rejected"
  | BackendStateOther s => s
  end.
Definition stateOfText (s : string) : BackendState :=
  if String.eqb s "Active" then BackendStateActive
  else if String.eqb s "HoldDown" then BackendStateHoldDown
  else if String.eqb s "Draining" then BackendStateDraining
  else if String.eqb s "Dampened" then BackendStateDampened
  else if String.eqb s "Pending" then BackendStatePending
  else if String.eqb s "Rejected" then BackendStateRejected
  else BackendStateOther s.

Definition zeroLocality : ApiLocality := mkApiLocality "" "".
Definition zeroAttributes : BackendAttributes := mkBackendAttributes 0 "" false None 0 None None.
Definition zeroStatus : AdvertisedBackendStatus :=
  mkAdvertisedBackendStatus "" "" "" zeroLocality zeroAttributes (BackendStateOther "") ""
    None None zeroStability [] [].

Section codec.
Context `{TimeFormat}.

(** A zero time is written as null. *)
Definition encTime (t : Time) : json := if IsZero t then JNull else JStr (formatTime t).
Definition decTime (j : json) : res Time :=
  match j with JStr s => parseTime s | _ => Err errUnmarshal end.

Definition encodeLocality (l : ApiLocality) : json :=
  struct [("region", Some (JStr (aloc_Region l))); ("zone", Some (JStr (aloc_Zone l)))].
Definition decodeLocality (j : json) : res ApiLocality :=
  decStruct (λ get,
    let* region := decField "" decString (get "region") in
    let* zone := decField "" decString (get "zone") in
    Ok (mkApiLocality region zone)) j.

Definition encodeAttributes (a : BackendAttributes) : json :=
  struct [("weight", encInt (ba_Weight a)); ("tier", encString (ba_Tier a));
          ("drain", encBool (ba_Drain a)); ("serviceTag", encPtr JNum (ba_ServiceTag a));
          ("med", encInt (ba_MED a)); ("asPath", encSlice JNum (elems (ba_ASPath a)));
          ("largeCommunities", encSlice JStr (elems (ba_LargeCommunities a)))].
Definition decodeAttributes (j : json) : res BackendAttributes :=
  decStruct (λ get,
    let* weight := decField 0 decInt32 (get "weight") in
    let* tier := decField "" decString (get "tier") in
    let* drain := decField false decBool (get "drain") in
    let* serviceTag := decField None (decPtr decInt32) (get "serviceTag") in
    let* med := decField 0 decInt64 (get "med") in
    let* asPath := decField None (decPtr (decSlice decInt64)) (get "asPath") in
    let* largeCommunities := decField None (decPtr (decSlice decString)) (get "largeCommunities") in
    Ok (mkBackendAttributes weight tier drain serviceTag med asPath largeCommunities)) j.

Definition encodeStability (s : StabilityStatus) : json :=
  struct [("flapCount24h", encInt (ss_FlapCount24h s));
          ("dampeningPenalty", encInt (ss_DampeningPenalty s));
          ("lastObservedAt", encPtr encTime (ss_LastObservedAt s));
          ("withdrawnAt", encPtr encTime (ss_WithdrawnAt s));
          ("suppressedSince", encPtr encTime (ss_SuppressedSince s));
          ("pendingSince", encPtr encTime (ss_PendingSince s))].
Definition decodeStability (j : json) : res StabilityStatus :=
  decStruct (λ get,
    let* flapCount24h := decField 0 decInt32 (get "flapCount24h") in
    let* dampeningPenalty := decField 0 decInt32 (get "dampeningPenalty") in
    let* lastObservedAt := decField None (decPtr decTime) (get "lastObservedAt") in
    let* withdrawnAt := decField None (decPtr decTime) (get "withdrawnAt") in
    let* suppressedSince := decField None (decPtr decTime) (get "suppressedSince") in
    let* pendingSince := decField None (decPtr decTime) (get "pendingSince") in
    Ok (mkStabilityStatus flapCount24h dampeningPenalty lastObservedAt withdrawnAt
          suppressedSince pendingSince)) j.

Definition encodeStatus (s : AdvertisedBackendStatus) : json :=
  struct [("prefix", encString (abs_Prefix s)); ("clusterID", encString (abs_ClusterID s));
          ("peer", encString (abs_Peer s));
          ("locality", omitEmpty (bool_decide (abs_Locality s = zeroLocality))
                         encodeLocality (abs_Locality s));
          ("attributes", omitEmpty (bool_decide (abs_Attributes s = zeroAttributes))
                           encodeAttributes (abs_Attributes s));
          ("state", encString (stateText (abs_State s))); ("reason", encString (abs_Reason s));
          ("firstSeen", encPtr encTime (abs_FirstSeen s));
          ("lastChange", encPtr encTime (abs_LastChange s));
          ("stability", omitEmpty (bool_decide (abs_Stability s = zeroStability))
                          encodeStability (abs_Stability s));
          ("boundPolicies", encSlice JStr (abs_BoundPolicies s));
          ("generatedResources", encSlice JStr (abs_GeneratedResources s))].
Definition decodeStatus (j : json) : res AdvertisedBackendStatus :=
  decStruct (λ get,
    let* prefix := decField "" decString (get "prefix") in
    let* clusterID := decField "" decString (get "clusterID") in
    let* peer := decField "" decString (get "peer") in
    let* locality := decField zeroLocality decodeLocality (get "locality") in
    let* attributes := decField zeroAttributes decodeAttributes (get "attributes") in
    let* state := decField "" decString (get "state") in
    let* reason := decField "" decString (get "reason") in
    let* firstSeen := decField None (decPtr decTime) (get "firstSeen") in
    let* lastChange := decField None (decPtr decTime) (get "lastChange") in
    let* stability := decField zeroStability decodeStability (get "stability") in
    let* boundPolicies := decField [] (decSlice decString) (get "boundPolicies") in
    let* generatedResources := decField [] (decSlice decString) (get "generatedResources") in
    Ok (mkAdvertisedBackendStatus prefix clusterID peer locality attributes (stateOfText state)
          reason firstSeen lastChange stability boundPolicies generatedResources)) j.
End codec.

(** ** What storing keeps *)

Definition wireTimePtr (t : option Time) : option Time :=
  t ≫= λ t, if IsZero t then None else Some (wireTime t).
Definition wireSlice {A} (s : slice A) : slice A :=
  match s with Some [] => None | _ => s end.

Definition wireStability (s : StabilityStatus) : StabilityStatus :=
  mkStabilityStatus (ss_FlapCount24h s) (ss_DampeningPenalty s) (wireTimePtr (ss_LastObservedAt s))
    (wireTimePtr (ss_WithdrawnAt s)) (wireTimePtr (ss_SuppressedSince s))
    (wireTimePtr (ss_PendingSince s)).
Definition wireAttributes (a : BackendAttributes) : BackendAttributes :=
  mkBackendAttributes (ba_Weight a) (ba_Tier a) (ba_Drain a) (ba_ServiceTag a) (ba_MED a)
    (wireSlice (ba_ASPath a)) (wireSlice (ba_LargeCommunities a)).
Definition wireStatus (s : AdvertisedBackendStatus) : AdvertisedBackendStatus :=
  mkAdvertisedBackendStatus (abs_Prefix s) (abs_ClusterID s) (abs_Peer s) (abs_Locality s)
    (wireAttributes (abs_Attributes s)) (stateOfText (stateText (abs_State s))) (abs_Reason s)
    (wireTimePtr (abs_FirstSeen s)) (wireTimePtr (abs_LastChange s))
    (wireStability (abs_Stability s)) (abs_BoundPolicies s) (abs_GeneratedResources s).

(** A record as the API server keeps it. *)
Definition wireBackend (b : AdvertisedBackend) : AdvertisedBackend :=
  mkAdvertisedBackend (ab_ObjectMeta b) (wireStatus (ab_Status b)).

(** ** Reading back *)

Fixpoint assoc (name : string) (fields : list (string * option json)) : option json :=
  match fields with
  | [] => None
  | (n, v) :: rest => if String.eqb n name then v else assoc name rest
  end.

Lemma lookupField_snoc name fields f :
  lookupField name (fields ++ [f])
  = if String.eqb f.1 name then Some f.2 else lookupField name fields.
Proof. unfold lookupField. by rewrite foldl_app. Qed.

Lemma lookupField_absent name fields :
  name ∉ fields.*1 → lookupField name fields = None.
Proof.
  induction fields as [|f fields IH] using rev_ind; [done|].
  rewrite fmap_app, lookupField_snoc, elem_of_app. intros Hn.
  destruct (String.eqb_spec f.1 name); [set_solver|]. apply IH. set_solver.
Qed.

Lemma lookupField_cons name f fields :
  name ∉ fields.*1 →
  lookupField name (f :: fields) = if String.eqb f.1 name then Some f.2 else lookupField name fields.
Proof.
  intros Hn. rewrite (lookupField_absent name fields) by done.
  induction fields as [|f' fields IH] using rev_ind; [done|].
  rewrite fmap_app, elem_of_app in Hn. rewrite app_comm_cons, lookupField_snoc.
  destruct (String.eqb_spec f'.1 name); [set_solver|]. apply IH. set_solver.
Qed.

Lemma struct_names fields :
  (omap (λ f : string * option json, (λ v, (f.1, v)) <$> f.2) fields).*1 ⊆ fields.*1.
Proof.
  intros n (p & -> & (f & Hf & (v & _ & ->)%fmap_Some)%list_elem_of_omap)%list_elem_of_fmap.
  change (f.1 ∈ fields.*1). by apply list_elem_of_fmap_2.
Qed.

(** With distinct names, a field is read back as it was written. *)
Lemma lookupField_struct name fields :
  NoDup fields.*1 →
  lookupField name (omap (λ f : string * option json, (λ v, (f.1, v)) <$> f.2) fields)
  = assoc name fields.
Proof.
  induction fields as [|[n v] fields IH]; [done|]. rewrite fmap_cons, NoDup_cons. intros [Hn Hnd].
  simpl in *. destruct v as [v|]; simpl.
  - destruct (String.eqb_spec n name) as [->|Hne].
    + rewrite lookupField_cons; [simpl; by rewrite String.eqb_refl|].
      intros H%struct_names. done.
    + assert (∀ l : list (string * json), lookupField name ((n, v) :: l) = lookupField name l) as ->.
      { intros l. induction l as [|f l IHl] using rev_ind.
        - unfold lookupField. simpl. by destruct (String.eqb_spec n name).
        - rewrite app_comm_cons, !lookupField_snoc. by rewrite IHl. }
      by apply IH.
  - destruct (String.eqb_spec n name) as [->|Hne]; [|by apply IH].
    apply lookupField_absent. intros H%struct_names. done.
Qed.

(** Reads every field of a struct that was just written. *)
Ltac read_struct :=
  unfold struct, decStruct; cbn [lookupField];
  repeat (rewrite lookupField_struct; [|by_compute]);
  cbn [assoc String.eqb Ascii.eqb Bool.eqb].

Lemma decString_enc s : decField "" decString (encString s) = Ok s.
Proof. unfold encString, omitEmpty. by destruct (String.eqb_spec s "") as [->|]. Qed.
Lemma decBool_enc b : decField false decBool (encBool b) = Ok b.
Proof. by destruct b. Qed.
Lemma decInt_num lo hi z : lo <= z <= hi → decInt lo hi (JNum z) = Ok z.
Proof.
  intros [Hl Hh]. unfold decInt. apply Z.leb_le in Hl, Hh. by rewrite Hl, Hh.
Qed.
Lemma decInt_enc lo hi z : lo <= z <= hi → decField 0 (decInt lo hi) (encInt z) = Ok z.
Proof.
  intros Hz. unfold encInt, omitEmpty. destruct (Z.eqb_spec z 0) as [->|]; [done|].
  by apply decInt_num.
Qed.
Lemma decPtr_enc {A} (enc : A → json) dec p :
  (∀ a, p = Some a → enc a ≠ JNull ∧ dec (enc a) = Ok a) →
  decField None (decPtr dec) (encPtr enc p) = Ok p.
Proof.
  destruct p as [a|]; [|done]. intros Ha. destruct (Ha a eq_refl) as [Hn Hd]. simpl.
  destruct (enc a); try done; unfold decPtr; by rewrite Hd.
Qed.
Lemma decSlice_enc {A} (enc : A → json) dec l :
  (∀ a, a ∈ l → dec (enc a) = Ok a) → mapRes dec (enc <$> l) = Ok l.
Proof.
  induction l as [|a l IH]; intros Ha; [done|]. rewrite fmap_cons. cbn [mapRes].
  rewrite Ha by set_solver. rewrite IH by set_solver. done.
Qed.
Lemma decList_enc {A} (enc : A → json) dec l :
  (∀ a, a ∈ l → dec (enc a) = Ok a) → decField [] (decSlice dec) (encSlice enc l) = Ok l.
Proof. intros Ha. destruct l; [done|]. by apply (decSlice_enc enc dec). Qed.
Lemma decNilSlice_enc {A} (enc : A → json) dec (s : slice A) :
  (∀ a, a ∈ elems s → dec (enc a) = Ok a) →
  decField None (decPtr (decSlice dec)) (encSlice enc (elems s)) = Ok (wireSlice s).
Proof.
  intros Ha. destruct s as [[|a l]|]; try done. simpl in Ha. simpl. unfold decPtr.
  pose proof (decSlice_enc enc dec (a :: l) Ha) as E. simpl in E. simpl. by rewrite E.
Qed.

Definition inTime (t : option Time) : Prop := ∀ t', t = Some t' → 0 <= t' < maxTime.

Lemma decTime_enc `{TimeFormat} t :
  inTime t → decField None (decPtr decTime) (encPtr encTime t) = Ok (wireTimePtr t).
Proof.
  destruct t as [t|]; [|done]. intros Ht. simpl. unfold encTime. destruct (IsZero t); [done|].
  simpl. unfold decPtr. simpl. by rewrite parse_format by by apply Ht.
Qed.

(** The numbers of a record at their Go widths, its times in the years 1 to 9999. *)
Record wfStatus (s : AdvertisedBackendStatus) : Prop := {
  wf_weight : in_int32 (ba_Weight (abs_Attributes s));
  wf_tag : ∀ z, ba_ServiceTag (abs_Attributes s) = Some z → in_int32 z;
  wf_med : in_int64 (ba_MED (abs_Attributes s));
  wf_path : Forall in_int64 (elems (ba_ASPath (abs_Attributes s)));
  wf_flaps : in_int32 (ss_FlapCount24h (abs_Stability s));
  wf_penalty : in_int32 (ss_DampeningPenalty (abs_Stability s));
  wf_first : inTime (abs_FirstSeen s);
  wf_change : inTime (abs_LastChange s);
  wf_observed : inTime (ss_LastObservedAt (abs_Stability s));
  wf_withdrawn : inTime (ss_WithdrawnAt (abs_Stability s));
  wf_suppressed : inTime (ss_SuppressedSince (abs_Stability s));
  wf_pending : inTime (ss_PendingSince (abs_Stability s));
}.

Lemma decodeLocality_enc l : decodeLocality (encodeLocality l) = Ok l.
Proof. unfold decodeLocality, encodeLocality. read_struct. by destruct l. Qed.

Lemma decodeAttributes_enc s :
  wfStatus s → decodeAttributes (encodeAttributes (abs_Attributes s)) = Ok (wireAttributes (abs_Attributes s)).
Proof.
  intros []. unfold decodeAttributes, encodeAttributes. read_struct.
  unfold decInt32, decInt64. rewrite !decInt_enc, decString_enc, decBool_enc by done.
  rewrite decPtr_enc by (intros z Hz; split; [done|by apply decInt_num, wf_tag0]).
  rewrite Forall_forall in wf_path0.
  rewrite decNilSlice_enc by (intros z Hz; by apply decInt_num, wf_path0).
  by rewrite decNilSlice_enc by done.
Qed.

Lemma decodeStability_enc `{TimeFormat} s :
  wfStatus s → decodeStability (encodeStability (abs_Stability s)) = Ok (wireStability (abs_Stability s)).
Proof.
  intros []. unfold decodeStability, encodeStability. read_struct.
  unfold decInt32. rewrite !decInt_enc by done. by rewrite !decTime_enc by done.
Qed.

(** A nested struct that is left out when it is the zero value. *)
Lemma decZero_enc {A} `{EqDecision A} (zero a b : A) (enc : A → json) dec :
  enc a ≠ JNull → dec (enc a) = Ok b → (a = zero → b = zero) →
  decField zero dec (omitEmpty (bool_decide (a = zero)) enc a) = Ok b.
Proof.
  intros Hn Hd Hz. unfold omitEmpty. case_bool_decide; simpl; [by rewrite Hz|].
  by destruct (enc a).
Qed.

(** C30 (A stored record reads back).  Writing the status of an AdvertisedBackend as JSON
    by the tags of its types and reading it back succeeds and loses nothing but the
    fraction of a second of its times; slices that are empty but not nil come back nil. *)
Theorem decodeStatus_encodeStatus `{TimeFormat} s :
  wfStatus s → decodeStatus (encodeStatus s) = Ok (wireStatus s).
Proof.
  intros Hwf. unfold decodeStatus, encodeStatus. read_struct.
  rewrite !decString_enc.
  rewrite (decZero_enc _ _ (abs_Locality s)) by (done || apply decodeLocality_enc).
  rewrite (decZero_enc _ _ (wireAttributes (abs_Attributes s)))
    by (done || (by apply decodeAttributes_enc) || by intros ->).
  rewrite (decZero_enc _ _ (wireStability (abs_Stability s)))
    by (done || (by apply decodeStability_enc) || by intros ->).
  destruct Hwf. rewrite !decTime_enc by done. by rewrite !decList_enc by done.
Qed.

(** ** Rounding *)

Lemma wireTime_le t : wireTime t <= t < wireTime t + Second.
Proof. unfold wireTime, Second. pose proof (Z.div_mod t 1000000000). pose proof (Z.mod_pos_bound t 1000000000). lia. Qed.

Lemma wireTime_idem t : wireTime (wireTime t) = wireTime t.
Proof. unfold wireTime. by rewrite Z.div_mul. Qed.

Lemma wireTime_mono t u : t <= u → wireTime t <= wireTime u.
Proof.
  intros. unfold wireTime. apply Z.mul_le_mono_nonneg_r; [done|]. by apply Z.div_le_mono.
Qed.

(** The states a report can have are written as themselves. *)
Lemma stateOfText_known s :
  (∀ t, s ≠ BackendStateOther t) → stateOfText (stateText s) = s.
Proof. by destruct s; try naive_solver. Qed.

(** ** Concrete instances *)

Module WireExamples.

(** Times as whole seconds since year 1, in decimal. *)
#[export] Program Instance decimalSeconds : TimeFormat := {|
  formatTime t := itoa (t / Second);
  parseTime s := let* n := ParseInt s 64 in Ok (n * Second);
|}.
Next Obligation.
  intros t Ht. cbn beta. rewrite ParseInt_itoa; [done|done|].
  assert (0 <= t / Second <= 315537897600); [|split; simpl; lia].
  split; [apply Z.div_pos; [lia|done]|].
  apply Z.div_le_upper_bound; [done|]. unfold maxTime in Ht. lia.
Qed.

Definition sample : AdvertisedBackendStatus :=
  mkAdvertisedBackendStatus "198.51.100.10/32" "atl-1" "192.0.2.1" (mkApiLocality "us-east" "atl")
    (mkBackendAttributes 100 "" false (Some 7) 50 (Some [64512]) (Some []))
    BackendStateHoldDown "withdrawn 5s ago, grace 45s" (Some (1500 * Millisecond)) None
    (mkStabilityStatus 1 1000 (Some (2500 * Millisecond)) (Some (2 * Second)) None None)
    ["web/shop"] [].

Lemma decodeStatus_encodeStatus_witness : decodeStatus (encodeStatus sample) = Ok (wireStatus sample).
Proof.
  apply (decodeStatus_encodeStatus sample).
  split; unfold inTime; simpl; intros; simplify_eq; (done || (by repeat constructor) || (by_compute)).
Defined.
End WireExamples.
