(* ===== verification/Pipeline.v ===== *)
(** * [internal/pipeline]: routes, candidates and the Normalize stage

    [RIBRoute], [BackendCandidate] and [DampingInfo] are the structs of types.go;
    [Normalize] is normalize.go.  The theorems give [Normalize] a declarative
    reading (each field is set by the last matching rule), say exactly when it
    fails, and bound the derived weights. *)

From S2P Require Import Prelude GoStrings GoFloat GoTime Api.
Local Open Scope Z_scope.

(** ** types.go *)

Record Locality := mkLocality { loc_Region : string; loc_Zone : string }.

Record RIBRoute := mkRIBRoute {
  rr_Prefix : string;
  rr_ClusterID : string;
  rr_Peer : string;
  rr_Locality : Locality;
  rr_MED : Z;
  rr_ASPath : slice Z;
  rr_LargeCommunities : slice string;
  rr_Rejected : bool;
  rr_Reason : string;
}.

Record DampingInfo := mkDampingInfo {
  di_State : BackendState;
  di_Reason : string;
  di_Score : float64;
  di_FlapCount24h : Z;
  di_LastObservedAt : Time;
  di_WithdrawnAt : option Time;
  di_SuppressedSince : option Time;
  di_PendingSince : option Time;
}.

Record BackendCandidate := mkBackendCandidate {
  bc_Prefix : string;
  bc_ClusterID : string;
  bc_Peer : string;
  bc_Locality : Locality;
  bc_MED : Z;
  bc_ASPath : slice Z;
  bc_LargeCommunities : slice string;
  bc_Weight : Z;
  bc_Tier : string;
  bc_Drain : bool;
  bc_ServiceTag : option Z;
  bc_Rejected : bool;
  bc_Reason : string;
  bc_Damping : option DampingInfo;
}.

#[export] Instance Locality_eq_dec : EqDecision Locality.
Proof. solve_decision. Defined.
#[export] Instance RIBRoute_eq_dec : EqDecision RIBRoute.
Proof. solve_decision. Defined.

(** Field assignments on a candidate. *)
Definition setWeight (w : Z) (c : BackendCandidate) : BackendCandidate :=
  mkBackendCandidate (bc_Prefix c) (bc_ClusterID c) (bc_Peer c) (bc_Locality c) (bc_MED c)
    (bc_ASPath c) (bc_LargeCommunities c) w (bc_Tier c) (bc_Drain c) (bc_ServiceTag c)
    (bc_Rejected c) (bc_Reason c) (bc_Damping c).
Definition setTier (t : string) (c : BackendCandidate) : BackendCandidate :=
  mkBackendCandidate (bc_Prefix c) (bc_ClusterID c) (bc_Peer c) (bc_Locality c) (bc_MED c)
    (bc_ASPath c) (bc_LargeCommunities c) (bc_Weight c) t (bc_Drain c) (bc_ServiceTag c)
    (bc_Rejected c) (bc_Reason c) (bc_Damping c).
Definition setDrain (d : bool) (c : BackendCandidate) : BackendCandidate :=
  mkBackendCandidate (bc_Prefix c) (bc_ClusterID c) (bc_Peer c) (bc_Locality c) (bc_MED c)
    (bc_ASPath c) (bc_LargeCommunities c) (bc_Weight c) (bc_Tier c) d (bc_ServiceTag c)
    (bc_Rejected c) (bc_Reason c) (bc_Damping c).
Definition setServiceTag (t : option Z) (c : BackendCandidate) : BackendCandidate :=
  mkBackendCandidate (bc_Prefix c) (bc_ClusterID c) (bc_Peer c) (bc_Locality c) (bc_MED c)
    (bc_ASPath c) (bc_LargeCommunities c) (bc_Weight c) (bc_Tier c) (bc_Drain c) t
    (bc_Rejected c) (bc_Reason c) (bc_Damping c).
Definition setRejected (r : bool) (c : BackendCandidate) : BackendCandidate :=
  mkBackendCandidate (bc_Prefix c) (bc_ClusterID c) (bc_Peer c) (bc_Locality c) (bc_MED c)
    (bc_ASPath c) (bc_LargeCommunities c) (bc_Weight c) (bc_Tier c) (bc_Drain c)
    (bc_ServiceTag c) r (bc_Reason c) (bc_Damping c).
Definition setReason (r : string) (c : BackendCandidate) : BackendCandidate :=
  mkBackendCandidate (bc_Prefix c) (bc_ClusterID c) (bc_Peer c) (bc_Locality c) (bc_MED c)
    (bc_ASPath c) (bc_LargeCommunities c) (bc_Weight c) (bc_Tier c) (bc_Drain c)
    (bc_ServiceTag c) (bc_Rejected c) r (bc_Damping c).
Definition setDamping (d : option DampingInfo) (c : BackendCandidate) : BackendCandidate :=
  mkBackendCandidate (bc_Prefix c) (bc_ClusterID c) (bc_Peer c) (bc_Locality c) (bc_MED c)
    (bc_ASPath c) (bc_LargeCommunities c) (bc_Weight c) (bc_Tier c) (bc_Drain c)
    (bc_ServiceTag c) (bc_Rejected c) (bc_Reason c) d.

(** ** normalize.go *)

(** The first community that agrees with the pattern on its first two segments
    and, unless the pattern ends in a star, on the third; returns its third
    segment. *)
Fixpoint matchCommunities (p0 p1 p2 : string) (communities : list string) : option string :=
  match communities with
  | [] => None
  | community :: rest =>
      match SplitN community ":" 3 with
      | [c0; c1; c2] =>
          if negb (String.eqb c0 p0) || negb (String.eqb c1 p1) then
            matchCommunities p0 p1 p2 rest
          else if negb (String.eqb p2 "*") && negb (String.eqb c2 p2) then
            matchCommunities p0 p1 p2 rest
          else Some c2
      | _ => matchCommunities p0 p1 p2 rest
      end
  end.

Definition matchLargeCommunity (pattern : string) (communities : list string) : option string :=
  match SplitN pattern ":" 3 with
  | [p0; p1; p2] => matchCommunities p0 p1 p2 communities
  | _ => None
  end.

Definition applyFieldSet (candidate : BackendCandidate) (set : CommunityFieldSet)
    (communityValue : string) : res BackendCandidate :=
  let value := if negb (cfs_FromCommunityValue set)
               then default communityValue (cfs_Value set) else communityValue in
  match cfs_Field set with
  | CommunityFieldWeight =>
      let* weight := wrapErr "set weight from %q: %w" [value] (ParseInt value 32) in
      Ok (setWeight (int32 weight) candidate)
  | CommunityFieldTier => Ok (setTier value candidate)
  | CommunityFieldDrain =>
      let* drain := wrapErr "set drain from %q: %w" [value] (ParseBool value) in
      Ok (setDrain drain candidate)
  | CommunityFieldServiceTag =>
      let* tag := wrapErr "set serviceTag from %q: %w" [value] (ParseInt value 32) in
      Ok (setServiceTag (Some (int32 tag)) candidate)
  | CommunityFieldOther s => Err (Errorf "unknown CommunityMap field %q" [s])
  end.

(** [med] is a [uint32], as is [ceiling - med]. *)
Definition invertMED (med : Z) : Z :=
  let ceiling := 1000 in
  if ceiling <=? med then 1 else int32 (uint32 (ceiling - med)).

Definition fallbackWeight (med : Z) (cm : option CommunityMapSpec) : Z :=
  match cm with
  | Some cm' =>
      match cms_Fallbacks cm' with
      | Some f =>
          match cf_WeightFrom f with
          | WeightFallbackFromMED => invertMED med
          | WeightFallbackOther _ =>
              if negb (cf_DefaultWeight f =? 0) then cf_DefaultWeight f else 100
          end
      | None => 100
      end
  | None => 100
  end.

(** The rule loop of [normalizeRoute]: the candidate, [anyRuleMatched] and
    [weightSet] are its state. *)
Fixpoint applyRules (rules : list CommunityRule) (communities : list string)
    (candidate : BackendCandidate) (anyRuleMatched weightSet : bool)
    : res (BackendCandidate * bool * bool) :=
  match rules with
  | [] => Ok (candidate, anyRuleMatched, weightSet)
  | rule :: rest =>
      match matchLargeCommunity (cm_LargeCommunity (cr_Match rule)) communities with
      | None => applyRules rest communities candidate anyRuleMatched weightSet
      | Some value =>
          let weightSet' :=
            if bool_decide (cfs_Field (cr_Set rule) = CommunityFieldWeight)
            then true else weightSet in
          let* candidate' := applyFieldSet candidate (cr_Set rule) value in
          applyRules rest communities candidate' true weightSet'
      end
  end.

(** The candidate with the route's fields and every decoded field zero. *)
Definition candidateOfRoute (route : RIBRoute) : BackendCandidate :=
  mkBackendCandidate (rr_Prefix route) (rr_ClusterID route) (rr_Peer route)
    (rr_Locality route) (rr_MED route) (rr_ASPath route) (rr_LargeCommunities route)
    0 "" false None false "" None.

Definition normalizeRoute (route : RIBRoute) (cm : option CommunityMapSpec)
    : res BackendCandidate :=
  let candidate := candidateOfRoute route in
  if rr_Rejected route then Ok (setReason (rr_Reason route) (setRejected true candidate))
  else
    let* (candidate, anyRuleMatched, weightSet) :=
      match cm with
      | Some cm' => applyRules (cms_Rules cm') (elems (rr_LargeCommunities route))
                      candidate false false
      | None => Ok (candidate, false, false)
      end in
    let candidate :=
      if negb weightSet then setWeight (fallbackWeight (bc_MED candidate) cm) candidate
      else candidate in
    match cm with
    | Some cm' =>
        if negb anyRuleMatched then
          let reason := "no CommunityMap rule matched large communities "
                        +:+ fmtStrings (elems (rr_LargeCommunities route)) in
          match cms_OnUnmappedCommunity cm' with
          | UnmappedCommunityReject => Ok (setReason reason (setRejected true candidate))
          | UnmappedCommunityWarn => Ok (setReason reason candidate)
          | _ => Ok candidate
          end
        else Ok candidate
    | None => Ok candidate
    end.

Definition Normalize (routes : list RIBRoute) (cm : option CommunityMapSpec)
    : res (list BackendCandidate) :=
  mapRes (λ route, wrapErr "normalize %s: %w" [rr_Prefix route] (normalizeRoute route cm)) routes.

(** ** The declarative reading of Normalize *)

(** The field a matching rule sets and the text it sets it from. *)
Definition assignment (set : CommunityFieldSet) (communityValue : string)
    : CommunityField * string :=
  (cfs_Field set,
   match cfs_FromCommunityValue set, cfs_Value set with
   | false, Some v => v
   | _, _ => communityValue
   end).

(** The assignments of the rules that match the route, in rule order. *)
Definition assignments (rules : list CommunityRule) (communities : list string)
    : list (CommunityField * string) :=
  omap (λ rule, assignment (cr_Set rule)
                  <$> matchLargeCommunity (cm_LargeCommunity (cr_Match rule)) communities) rules.

Definition lastValue (f : CommunityField) (l : list (CommunityField * string)) : option string :=
  last (snd <$> filter (λ p, p.1 = f) l).

Definition value_ok (p : CommunityField * string) : bool :=
  match p.1 with
  | CommunityFieldWeight | CommunityFieldServiceTag => is_ok (ParseInt p.2 32)
  | CommunityFieldTier => true
  | CommunityFieldDrain => is_ok (ParseBool p.2)
  | CommunityFieldOther _ => false
  end.

Definition intOf (v : string) : Z := match ParseInt v 32 with Ok z => z | Err _ => 0 end.
Definition boolOf (v : string) : bool := match ParseBool v with Ok b => b | Err _ => false end.

Definition routeAssignments (cm : option CommunityMapSpec) (route : RIBRoute)
    : list (CommunityField * string) :=
  match cm with
  | Some cm' => assignments (cms_Rules cm') (elems (rr_LargeCommunities route))
  | None => []
  end.

Definition routeOk (cm : option CommunityMapSpec) (route : RIBRoute) : bool :=
  rr_Rejected route || forallb value_ok (routeAssignments cm route).

(** Whether an unmapped route is rejected, and the reason it is given. *)
Definition unmapped (cm : option CommunityMapSpec) (route : RIBRoute) : bool * string :=
  let reason := "no CommunityMap rule matched large communities "
                +:+ fmtStrings (elems (rr_LargeCommunities route)) in
  match cm, routeAssignments cm route with
  | Some cm', [] =>
      match cms_OnUnmappedCommunity cm' with
      | UnmappedCommunityReject => (true, reason)
      | UnmappedCommunityWarn => (false, reason)
      | _ => (false, "")
      end
  | _, _ => (false, "")
  end.

(** What [Normalize] makes of one route: every field is that of the last rule
    that assigns it. *)
Definition normalizeSpec (cm : option CommunityMapSpec) (route : RIBRoute) : BackendCandidate :=
  let l := if rr_Rejected route then [] else routeAssignments cm route in
  {| bc_Prefix := rr_Prefix route;
     bc_ClusterID := rr_ClusterID route;
     bc_Peer := rr_Peer route;
     bc_Locality := rr_Locality route;
     bc_MED := rr_MED route;
     bc_ASPath := rr_ASPath route;
     bc_LargeCommunities := rr_LargeCommunities route;
     bc_Weight := if rr_Rejected route then 0
                  else match lastValue CommunityFieldWeight l with
                       | Some v => intOf v
                       | None => fallbackWeight (rr_MED route) cm
                       end;
     bc_Tier := default "" (lastValue CommunityFieldTier l);
     bc_Drain := match lastValue CommunityFieldDrain l with
                 | Some v => boolOf v | None => false end;
     bc_ServiceTag := intOf <$> lastValue CommunityFieldServiceTag l;
     bc_Rejected := rr_Rejected route || (unmapped cm route).1;
     bc_Reason := if rr_Rejected route then rr_Reason route else (unmapped cm route).2;
     bc_Damping := None |}.

(** ** Lemmas *)

Lemma ParseInt32_int32 v z : ParseInt v 32 = Ok z → int32 z = z.
Proof. intros H%ParseInt_range; [|done]. apply int32_id. unfold_ints. lia. Qed.

Lemma lastValue_snoc f l p :
  lastValue f (l ++ [p]) = if decide (p.1 = f) then Some p.2 else lastValue f l.
Proof.
  unfold lastValue. rewrite filter_app, fmap_app. cbn [filter list_filter].
  case_decide; simpl; [by rewrite last_snoc | by rewrite app_nil_r].
Qed.

(** The candidate after the assignments [l], which all have a readable value. *)
Definition assign (c : BackendCandidate) (l : list (CommunityField * string))
    : BackendCandidate :=
  setWeight (from_option intOf (bc_Weight c) (lastValue CommunityFieldWeight l))
  (setTier (default (bc_Tier c) (lastValue CommunityFieldTier l))
  (setDrain (from_option boolOf (bc_Drain c) (lastValue CommunityFieldDrain l))
  (setServiceTag (from_option (λ v, Some (intOf v)) (bc_ServiceTag c)
                    (lastValue CommunityFieldServiceTag l)) c))).

Lemma assign_nil c : assign c [] = c.
Proof. by destruct c. Qed.

Lemma assign_snoc c l p : assign c (l ++ [p]) =
  match p.1 with
  | CommunityFieldWeight => setWeight (intOf p.2) (assign c l)
  | CommunityFieldTier => setTier p.2 (assign c l)
  | CommunityFieldDrain => setDrain (boolOf p.2) (assign c l)
  | CommunityFieldServiceTag => setServiceTag (Some (intOf p.2)) (assign c l)
  | CommunityFieldOther _ => assign c l
  end.
Proof.
  unfold assign. rewrite !lastValue_snoc. destruct p as [f v]; cbn [fst snd].
  by destruct f; repeat (case_decide; [|try done]); simplify_eq.
Qed.

Lemma applyFieldSet_spec c l set v :
  let p := assignment set v in
  (value_ok p = true ∧ applyFieldSet (assign c l) set v = Ok (assign c (l ++ [p]))) ∨
  (value_ok p = false ∧ ∃ e, applyFieldSet (assign c l) set v = Err e).
Proof.
  intros p. unfold applyFieldSet.
  replace (if negb (cfs_FromCommunityValue set) then default v (cfs_Value set) else v)
    with p.2 by (unfold p, assignment; simpl; by repeat case_match).
  rewrite assign_snoc. unfold value_ok. change (cfs_Field set) with p.1.
  destruct p as [f w]; cbn [fst snd]. destruct f; simpl; [..|eauto].
  - destruct (ParseInt w 32) as [z|e] eqn:E; simpl; [left|eauto].
    rewrite (ParseInt32_int32 w z) by done. unfold intOf. by rewrite E.
  - by left.
  - destruct (ParseBool w) as [z|e] eqn:E; simpl; [left|eauto]. unfold boolOf. by rewrite E.
  - destruct (ParseInt w 32) as [z|e] eqn:E; simpl; [left|eauto].
    rewrite (ParseInt32_int32 w z) by done. unfold intOf. by rewrite E.
Qed.

Definition hasWeight (l : list (CommunityField * string)) : bool :=
  match lastValue CommunityFieldWeight l with Some _ => true | None => false end.
Definition nonempty {A} (l : list A) : bool := match l with [] => false | _ => true end.

Lemma nonempty_snoc {A} (l : list A) x : nonempty (l ++ [x]) = true.
Proof. by destruct l. Qed.

Lemma applyRules_spec rules communities c l :
  let k := assignments rules communities in
  forallb value_ok l = true →
  (forallb value_ok k = true ∧
     applyRules rules communities (assign c l) (nonempty l) (hasWeight l)
     = Ok (assign c (l ++ k), nonempty (l ++ k), hasWeight (l ++ k))) ∨
  (forallb value_ok k = false ∧
     ∃ e, applyRules rules communities (assign c l) (nonempty l) (hasWeight l) = Err e).
Proof.
  revert l. induction rules as [|rule rules IH]; intros l k Hl; simpl in *.
  { left. by rewrite app_nil_r. }
  unfold k. destruct (matchLargeCommunity _ _) as [v|]; simpl; [|by apply IH].
  destruct (applyFieldSet_spec c l (cr_Set rule) v) as [[Hok Happ]|[Hbad [e Happ]]];
    rewrite Happ.
  - rewrite Hok. simpl.
    specialize (IH (l ++ [assignment (cr_Set rule) v])). simpl in IH.
    rewrite forallb_app in IH. simpl in IH. rewrite Hl, Hok in IH. specialize (IH eq_refl).
    rewrite nonempty_snoc, <- app_assoc in IH. simpl in IH.
    replace (hasWeight (l ++ [assignment (cr_Set rule) v])) with
      (if bool_decide (cfs_Field (cr_Set rule) = CommunityFieldWeight) then true
       else hasWeight l) in IH; [exact IH|].
    unfold hasWeight. rewrite lastValue_snoc. cbn [assignment fst snd].
    case_bool_decide; case_decide; done.
  - right. rewrite Hbad. simpl. eauto.
Qed.

Lemma normalizeRoute_spec route cm :
  (routeOk cm route = true ∧ normalizeRoute route cm = Ok (normalizeSpec cm route)) ∨
  (routeOk cm route = false ∧ ∃ e, normalizeRoute route cm = Err e).
Proof.
  unfold normalizeRoute, routeOk, normalizeSpec.
  destruct (rr_Rejected route) eqn:Hrej; simpl; [by left|].
  destruct cm as [cm|]; simpl; [|by left].
  unfold unmapped. cbn [routeAssignments].
  pose proof (applyRules_spec (cms_Rules cm) (elems (rr_LargeCommunities route))
    (candidateOfRoute route) [] eq_refl) as H.
  rewrite assign_nil in H. change (nonempty []) with false in H.
  change (hasWeight []) with false in H. cbn [app] in H.
  set (l := assignments _ _) in *.
  destruct H as [[Hok ->]|[Hbad [e ->]]]; [left; split; [done|]|right; eauto].
  unfold assign, hasWeight. destruct l as [|p l]; cbn [nonempty negb].
  - by destruct (cms_OnUnmappedCommunity cm).
  - by destruct (lastValue CommunityFieldWeight (p :: l)).
Qed.

Lemma Normalize_iff routes cm cs :
  Normalize routes cm = Ok cs ↔
  Forall (λ route, routeOk cm route = true) routes ∧ cs = normalizeSpec cm <$> routes.
Proof.
  unfold Normalize. rewrite mapRes_Ok. split.
  - induction 1 as [|route c routes cs Hr%wrapErr_Ok _ [IHok ->]]; [done|].
    destruct (normalizeRoute_spec route cm) as [[Hok Heq]|[_ [e Heq]]]; [|congruence].
    rewrite Hr in Heq. injection Heq as ->. split; [by constructor|done].
  - intros [Hok ->]. induction Hok as [|route routes Hr _ IH]; [constructor|].
    constructor; [|done]. apply wrapErr_Ok.
    destruct (normalizeRoute_spec route cm) as [[_ Heq]|[Hbad _]]; congruence.
Qed.

(** ** Properties *)

(** C24 (Normalize as a specification).  Normalize succeeds exactly when every value a
    matching rule would decode is well formed, and then each candidate is the declarative
    decoding of its route: identity fields copied, every decoded field taken from the last
    matching rule that sets it, the weight falling back when none of them sets it (whether
    or not rules that set other fields match), unmapped routes flagged by policy, and
    routes Authorize rejected carried through undecoded. *)
Theorem Normalize_refines_spec routes cm cs :
  Normalize routes cm = Ok cs ↔
  Forall (λ route, routeOk cm route = true) routes ∧ cs = normalizeSpec cm <$> routes.
Proof. apply Normalize_iff. Qed.

(** The weight derived from a MED. *)
Lemma invertMED_range med : 0 ≤ med → 1 ≤ invertMED med ≤ 1000.
Proof.
  intros. unfold invertMED. destruct (Z.leb_spec 1000 med); [lia|].
  rewrite uint32_id, int32_id by (unfold_ints; lia). lia.
Qed.

(** The fallback weight inverts the MED: it stays within 1 and 1000 and a route
    with a lower MED never gets a lower weight. *)
Theorem invertMED_bounded_antitone med med' :
  0 ≤ med ≤ med' → 1 ≤ invertMED med' ≤ invertMED med ∧ invertMED med ≤ 1000.
Proof.
  intros. pose proof (invertMED_range med ltac:(lia)).
  pose proof (invertMED_range med' ltac:(lia)). split; [|lia]. split; [lia|].
  unfold invertMED in *. destruct (Z.leb_spec 1000 med), (Z.leb_spec 1000 med'); try lia.
  rewrite !uint32_id, !int32_id by (unfold_ints; lia). lia.
Qed.

Lemma invertMED_bounded_antitone_witness :
  1 ≤ invertMED 900 ≤ invertMED 100 ∧ invertMED 100 ≤ 1000.
Proof. apply (invertMED_bounded_antitone 100 900). lia. Defined.

(** The fallback weight applies although a rule matches, as long as none sets the weight. *)
Theorem fallback_despite_match (route : RIBRoute) rule fallbacks policy v :
  rr_Rejected route = false → cfs_Field (cr_Set rule) ≠ CommunityFieldWeight →
  let cm := mkCommunityMapSpec [rule] fallbacks policy in
  routeAssignments (Some cm) route = [(cfs_Field (cr_Set rule), v)] →
  bc_Weight (normalizeSpec (Some cm) route) = fallbackWeight (rr_MED route) (Some cm).
Proof.
  intros Hrej Hf cm Ha. unfold normalizeSpec. cbn [bc_Weight]. rewrite Hrej, Ha.
  unfold lastValue. by destruct (cfs_Field (cr_Set rule)).
Qed.
