(* ===== verification/Ingest.v ===== *)
(** * [internal/ingest]: the BGP session set and its routing table

    rib.go decodes GoBGP's paths into routes; manager.go converges the peers of an
    embedded GoBGP server to a BGPPeerConfig.  GoBGP itself is a parameter: the class
    [BgpServer] has the calls the manager makes, [BgpServerLaws] what their success
    means for the set of configured peers, and [UnmarshalAttribute] is its attribute
    decoder. *)

From S2P Require Import Prelude GoStrings GoNet GoFloat GoTime Api Pipeline.
Local Open Scope Z_scope.

(** ** GoBGP's data *)

Inductive AsPathSegment :=
| As4PathParam (AS : list Z)
| AsPathParam (AS : list Z)
| OtherPathParam.

Record LargeCommunity := mkLargeCommunity { lc_ASN : Z; lc_LocalData1 : Z; lc_LocalData2 : Z }.

(** The decoded path attributes [decodePath] distinguishes. *)
Inductive PathAttribute :=
| PathAttributeMultiExitDisc (Value : Z)
| PathAttributeAsPath (Value : list AsPathSegment)
| PathAttributeLargeCommunities (Values : list LargeCommunity)
| PathAttributeOther.

(** [Attr] is the type of an encoded attribute. *)
Record Path (Attr : Type) := mkPath {
  path_Best : bool;
  path_NeighborIp : string;
  path_Pattrs : list Attr;
}.
Arguments mkPath {Attr} _ _ _.
Arguments path_Best {Attr} _.
Arguments path_NeighborIp {Attr} _.
Arguments path_Pattrs {Attr} _.

Record Destination (Attr : Type) := mkDestination {
  dest_Prefix : string;
  dest_Paths : list (Path Attr);
}.
Arguments mkDestination {Attr} _ _.
Arguments dest_Prefix {Attr} _.
Arguments dest_Paths {Attr} _.

(** ** rib.go *)

Definition decodeASPath (value : list AsPathSegment) : slice Z :=
  foldl (λ asns param,
           match param with
           | As4PathParam AS => match AS with [] => asns | _ => Some (elems asns ++ AS) end
           | AsPathParam AS => match AS with [] => asns | _ => Some (elems asns ++ (uint32 <$> AS)) end
           | OtherPathParam => asns
           end) None value.

Definition formatLargeCommunity (c : LargeCommunity) : string :=
  itoa (lc_ASN c) +:+ ":" +:+ itoa (lc_LocalData1 c) +:+ ":" +:+ itoa (lc_LocalData2 c).

Definition decodeLargeCommunities (values : list LargeCommunity) : slice string :=
  Some (formatLargeCommunity <$> values).

Definition bestPath {Attr} (paths : list (Path Attr)) : option (Path Attr) :=
  match head (filter (λ p, path_Best p = true) paths) with
  | Some p => Some p
  | None => head paths
  end.

Section decode.
Context {Attr : Type} (UnmarshalAttribute : Attr → res PathAttribute).

(** One iteration of the attribute loop of [decodePath]. *)
Definition applyAttribute (route : RIBRoute) (a : PathAttribute) : RIBRoute :=
  match a with
  | PathAttributeMultiExitDisc v =>
      mkRIBRoute (rr_Prefix route) (rr_ClusterID route) (rr_Peer route) (rr_Locality route) v
        (rr_ASPath route) (rr_LargeCommunities route) (rr_Rejected route) (rr_Reason route)
  | PathAttributeAsPath v =>
      mkRIBRoute (rr_Prefix route) (rr_ClusterID route) (rr_Peer route) (rr_Locality route)
        (rr_MED route) (decodeASPath v) (rr_LargeCommunities route) (rr_Rejected route)
        (rr_Reason route)
  | PathAttributeLargeCommunities v =>
      mkRIBRoute (rr_Prefix route) (rr_ClusterID route) (rr_Peer route) (rr_Locality route)
        (rr_MED route) (rr_ASPath route) (decodeLargeCommunities v) (rr_Rejected route)
        (rr_Reason route)
  | PathAttributeOther => route
  end.

Fixpoint decodeAttributes (attrs : list Attr) (route : RIBRoute) : res RIBRoute :=
  match attrs with
  | [] => Ok route
  | attr :: rest =>
      let* native := wrapErr "unmarshal attribute: %w" [] (UnmarshalAttribute attr) in
      decodeAttributes rest (applyAttribute route native)
  end.

Definition decodePath (path : Path Attr) : res RIBRoute :=
  decodeAttributes (path_Pattrs path)
    (mkRIBRoute "" "" (path_NeighborIp path) (mkLocality "" "") 0 None None false "").

Definition setPrefix (prefix : string) (route : RIBRoute) : RIBRoute :=
  mkRIBRoute prefix (rr_ClusterID route) (rr_Peer route) (rr_Locality route) (rr_MED route)
    (rr_ASPath route) (rr_LargeCommunities route) (rr_Rejected route) (rr_Reason route).

Definition decodeDestination (dest : Destination Attr) : res (option RIBRoute) :=
  match bestPath (dest_Paths dest) with
  | None => Ok None
  | Some path =>
      let* route := wrapErr "decode %s: %w" [dest_Prefix dest] (decodePath path) in
      Ok (Some (setPrefix (dest_Prefix dest) route))
  end.

(** The callback of [Manager.Snapshot]: the routes so far and [decodeErr]. *)
Definition snapshotStep (st : list RIBRoute * option error) (d : Destination Attr)
    : list RIBRoute * option error :=
  match st with
  | (routes, Some _) => st
  | (routes, None) =>
      match decodeDestination d with
      | Err e => (routes, Some e)
      | Ok None => (routes, None)
      | Ok (Some route) => (routes ++ [route], None)
      end
  end.

(** [Manager.Snapshot] on what [ListPath] enumerates or fails with. *)
Definition ManagerSnapshot (listPath : res (list (Destination Attr))) : res (list RIBRoute) :=
  match listPath with
  | Err e => Err (Wrapf "list path: %w" [] e)
  | Ok dests =>
      match foldl snapshotStep ([], None) dests with
      | (_, Some e) => Err e
      | (routes, None) => Ok routes
      end
  end.
End decode.

(** ** manager.go *)

Record TimersConfig := mkTimersConfig { tc_HoldTime : Z; tc_KeepaliveInterval : Z }.
Record GracefulRestart := mkGracefulRestart { agr_Enabled : bool; agr_StaleRoutesTime : Z }.

(** The configuration of an [api.Peer]; the one address family is constant. *)
Record PeerSettings := mkPeerSettings {
  pe_NeighborAddress : string;
  pe_PeerAsn : Z;
  pe_AuthPassword : string;
  pe_RemotePort : Z;
  pe_Timers : option TimersConfig;
  pe_GracefulRestart : option GracefulRestart;
}.

(** What [ListPeer] reports of one peer. *)
Inductive SessionState :=
| PeerState_UNKNOWN | PeerState_IDLE | PeerState_CONNECT | PeerState_ACTIVE
| PeerState_OPENSENT | PeerState_OPENCONFIRM | PeerState_ESTABLISHED.
Record AfiSafiState := mkAfiSafiState { afs_Received : Z; afs_Accepted : Z }.
Record PeerInfo := mkPeerInfo {
  pi_NeighborAddress : string;
  pi_State : option SessionState;
  pi_Uptime : option Time;
  pi_AfiSafis : list (option AfiSafiState);
}.

Record Global := mkGlobal { gl_Asn : Z; gl_RouterId : string; gl_ListenPort : Z }.

Definition splitHostPort (address : string) : string * Z :=
  match SplitHostPort address with
  | Err _ => (address, 179)
  | Ok (host, portStr) =>
      match Atoi portStr with
      | Err _ => (address, 179)
      | Ok port => (host, int32 port)
      end
  end.

Definition uint64_max : Z := 18446744073709551615.

Definition toAPIPeer `{Platform} (peer : BGPPeer) (password : string) : PeerSettings :=
  let '(address, remotePort) := splitHostPort (peer_Address peer) in
  mkPeerSettings address (uint32 (peer_RemoteASN peer)) password (uint32 remotePort)
    ((λ t, mkTimersConfig (from_option (λ d, convInt 0 uint64_max (Seconds d)) 0 (tim_Hold t))
             (from_option (λ d, convInt 0 uint64_max (Seconds d)) 0 (tim_Keepalive t)))
       <$> peer_Timers peer)
    ((λ g, mkGracefulRestart (gr_Enabled g)
             (from_option (λ d, convInt 0 uint32_max (Seconds d)) 0 (gr_StaleRoutesTime g)))
       <$> peer_GracefulRestart peer).

Definition sessionState (s : SessionState) : PeerSessionState :=
  match s with
  | PeerState_CONNECT => PeerSessionStateConnect
  | PeerState_ACTIVE => PeerSessionStateActive
  | PeerState_OPENSENT => PeerSessionStateOpenSent
  | PeerState_OPENCONFIRM => PeerSessionStateOpenConfirm
  | PeerState_ESTABLISHED => PeerSessionStateEstablished
  | _ => PeerSessionStateIdle
  end.

Definition toPeerStatus (now : Time) (p : PeerInfo) : PeerStatus :=
  let '(received, accepted) :=
    foldl (λ ra afiSafi,
             match afiSafi with
             | None => ra
             | Some st => (int32 (ra.1 + int32 (afs_Received st)), int32 (ra.2 + int32 (afs_Accepted st)))
             end) (0, 0) (pi_AfiSafis p) in
  mkPeerStatus (pi_NeighborAddress p)
    (from_option sessionState (PeerSessionStateOther "") (pi_State p))
    (Sub now <$> pi_Uptime p) received accepted 0.

(** The server's calls; [S] is its state. *)
Class BgpServer (S : Type) := {
  StartBgp : Global → S → res unit * S;
  ListPeer : S → res (list PeerInfo);
  AddPeer : PeerSettings → S → res unit * S;
  UpdatePeer : PeerSettings → S → res unit * S;
  DeletePeer : string → S → res unit * S;
}.

Record Manager (S : Type) := mkManager { mgr_server : S; mgr_started : bool }.
Arguments mkManager {S} _ _.
Arguments mgr_server {S} _.
Arguments mgr_started {S} _.

Section manager.
Context `{Platform} {S : Type} `{BgpServer S}.

(** The first part of [Reconfigure]. *)
Definition ensureStarted (m : Manager S) (spec : BGPPeerConfigSpec) : res unit * Manager S :=
  if mgr_started m then (Ok tt, m) else
  let listenPort := default 179 (pcs_ListenPort spec) in
  match StartBgp (mkGlobal (uint32 (pcs_LocalASN spec)) (pcs_RouterID spec) listenPort)
          (mgr_server m) with
  | (Err e, s) => (Err (Wrapf "start bgp: %w" [] e), mkManager s false)
  | (Ok _, s) => (Ok tt, mkManager s true)
  end.

(** The loop over [spec.Peers]; [desired] collects their hosts. *)
Fixpoint applyPeers (existing : gset string) (passwords : gmap string string)
    (peers : list BGPPeer) (desired : gset string) (s : S) : res (gset string) * S :=
  match peers with
  | [] => (Ok desired, s)
  | peer :: rest =>
      let '(host, _) := splitHostPort (peer_Address peer) in
      let desired := {[ host ]} ∪ desired in
      let apiPeer := toAPIPeer peer (default "" (passwords !! peer_Name peer)) in
      if decide (host ∈ existing) then
        match UpdatePeer apiPeer s with
        | (Err e, s) => (Err (Wrapf "update peer %s: %w" [peer_Name peer] e), s)
        | (Ok _, s) => applyPeers existing passwords rest desired s
        end
      else
        match AddPeer apiPeer s with
        | (Err e, s) => (Err (Wrapf "add peer %s: %w" [peer_Name peer] e), s)
        | (Ok _, s) => applyPeers existing passwords rest desired s
        end
  end.

(** The loop over the map [existing], which visits its addresses in the order
    [addrs]. *)
Fixpoint removePeers (desired : gset string) (addrs : list string) (s : S) : res unit * S :=
  match addrs with
  | [] => (Ok tt, s)
  | addr :: rest =>
      if decide (addr ∈ desired) then removePeers desired rest s
      else match DeletePeer addr s with
           | (Err e, s) => (Err (Wrapf "delete peer %s: %w" [addr] e), s)
           | (Ok _, s) => removePeers desired rest s
           end
  end.

Definition Reconfigure (order : gset string → list string) (m : Manager S)
    (spec : BGPPeerConfigSpec) (passwords : gmap string string) : res unit * Manager S :=
  match ensureStarted m spec with
  | (Err e, m) => (Err e, m)
  | (Ok _, m) =>
      match ListPeer (mgr_server m) with
      | Err e => (Err (Wrapf "list peers: %w" [] e), m)
      | Ok infos =>
          let existing := list_to_set (pi_NeighborAddress <$> infos) in
          match applyPeers existing passwords (pcs_Peers spec) ∅ (mgr_server m) with
          | (Err e, s) => (Err e, mkManager s (mgr_started m))
          | (Ok desired, s) =>
              let '(r, s) := removePeers desired (order existing) s in
              (r, mkManager s (mgr_started m))
          end
      end
  end.

Definition ManagerStatus (now : Time) (m : Manager S) : res (list PeerStatus) :=
  match ListPeer (mgr_server m) with
  | Err e => Err (Wrapf "list peers: %w" [] e)
  | Ok infos => Ok (toPeerStatus now <$> infos)
  end.
End manager.

(** ** Decoding *)

Section decode_lemmas.
Context {Attr : Type} (UnmarshalAttribute : Attr → res PathAttribute).

Lemma snapshotStep_spec dests routes :
  foldl (snapshotStep UnmarshalAttribute) (routes, None) dests =
  match mapRes (decodeDestination UnmarshalAttribute) dests with
  | Ok opts => (routes ++ omap id opts, None)
  | Err e => ((foldl (snapshotStep UnmarshalAttribute) (routes, None) dests).1, Some e)
  end.
Proof.
  revert routes. induction dests as [|d dests IH]; intros routes; simpl; [by rewrite app_nil_r|].
  destruct (decodeDestination _ d) as [[route|]|e]; simpl.
  - rewrite IH. destruct (mapRes _ dests); simpl; [by rewrite <- app_assoc|].
    by rewrite <- surjective_pairing || done.
  - rewrite IH. by destruct (mapRes _ dests).
  - assert (∀ l, foldl (snapshotStep UnmarshalAttribute) (routes, Some e) l = (routes, Some e)) as Hst.
    { induction l as [|x l IHl]; [done|]. simpl. apply IHl. }
    by rewrite !Hst.
Qed.

Lemma ManagerSnapshot_Ok dests routes :
  ManagerSnapshot UnmarshalAttribute (Ok dests) = Ok routes ↔
  ∃ opts, mapRes (decodeDestination UnmarshalAttribute) dests = Ok opts ∧ routes = omap id opts.
Proof.
  unfold ManagerSnapshot. rewrite snapshotStep_spec.
  destruct (mapRes _ dests) as [opts|e]; simpl; naive_solver.
Qed.

Definition unattributed (r : RIBRoute) : Prop :=
  rr_ClusterID r = "" ∧ rr_Locality r = mkLocality "" "" ∧ rr_Rejected r = false.

Lemma decodeAttributes_unattributed attrs r r' :
  decodeAttributes UnmarshalAttribute attrs r = Ok r' → unattributed r → unattributed r'.
Proof.
  revert r. induction attrs as [|a attrs IH]; intros r; simpl; [by intros [= ->]|].
  destruct (UnmarshalAttribute a) as [n|]; simpl; [|done]. intros Hd Hr.
  apply (IH _ Hd). by destruct n.
Qed.

(** (The table is decoded whole or not at all).  The RIB snapshot succeeds exactly
    when every destination decodes; it then has one route per destination that has a
    path, in order, with that destination's prefix, and none of them claims a cluster,
    a locality or a verdict. *)
Theorem ManagerSnapshot_spec dests routes :
  ManagerSnapshot UnmarshalAttribute (Ok dests) = Ok routes ↔
  (∃ opts, mapRes (decodeDestination UnmarshalAttribute) dests = Ok opts ∧ routes = omap id opts) ∧
  rr_Prefix <$> routes = dest_Prefix <$> filter (λ d, dest_Paths d ≠ []) dests ∧
  Forall unattributed routes.
Proof.
  rewrite ManagerSnapshot_Ok. split; [|tauto]. intros Hr. split; [done|].
  destruct Hr as (opts & Hm & ->). apply mapRes_Ok in Hm.
  induction Hm as [|d o dests opts Hd _ [IHp IHf]]; [done|].
  rewrite filter_cons. unfold decodeDestination in Hd.
  destruct (bestPath (dest_Paths d)) as [path|] eqn:Hb.
  - destruct (decodePath _ path) as [r|] eqn:Hp; simpl in Hd; [|done]. simplify_eq/=.
    rewrite decide_True by (intros E; by rewrite E in Hb). simpl. split; [by f_equal|].
    constructor; [|done]. apply decodeAttributes_unattributed in Hp; [|done].
    destruct Hp as (? & ? & ?). done.
  - simplify_eq/=. rewrite decide_False; [done|].
    unfold bestPath in Hb. destruct (dest_Paths d); [tauto|]. by destruct (head (filter _ _)).
Qed.
End decode_lemmas.

(** ** Communities *)

Definition wfCommunity (c : LargeCommunity) : Prop :=
  0 <= lc_ASN c ∧ 0 <= lc_LocalData1 c ∧ 0 <= lc_LocalData2 c.

Lemma itoa_inj_eqb a b : String.eqb (itoa a) (itoa b) = (a =? b).
Proof.
  destruct (Z.eqb_spec a b) as [->|Hne]; [by apply String.eqb_refl|].
  apply String.eqb_neq. intros E. by apply Hne, (inj pretty).
Qed.

Lemma SplitN_community c : wfCommunity c →
  SplitN (formatLargeCommunity c) ":" 3
  = [itoa (lc_ASN c); itoa (lc_LocalData1 c); itoa (lc_LocalData2 c)].
Proof.
  intros (Ha & Hb & Hc). unfold formatLargeCommunity.
  apply SplitN_3; apply digits_no; done || by apply digits_itoa.
Qed.

Lemma matchLargeCommunity_number a b values :
  0 <= a → 0 <= b → Forall wfCommunity values →
  matchLargeCommunity (itoa a +:+ ":" +:+ itoa b +:+ ":" +:+ "*")
    (elems (decodeLargeCommunities values))
  = (λ c, itoa (lc_LocalData2 c))
      <$> head (filter (λ c, lc_ASN c = a ∧ lc_LocalData1 c = b) values).
Proof.
  intros Ha Hb Hv. unfold matchLargeCommunity.
  assert (SplitN (itoa a +:+ ":" +:+ itoa b +:+ ":" +:+ "*") ":" 3 = [itoa a; itoa b; "*"]) as ->.
  { apply SplitN_3; apply digits_no; done || by apply digits_itoa. }
  simpl elems. induction Hv as [|c values Hc _ IH]; [done|].
  rewrite fmap_cons. cbn [matchCommunities]. rewrite SplitN_community by done.
  rewrite filter_cons, !itoa_inj_eqb.
  destruct (Z.eqb_spec (lc_ASN c) a), (Z.eqb_spec (lc_LocalData1 c) b); simpl;
    rewrite ?decide_True by done; rewrite ?decide_False by tauto; done.
Qed.

(** (Community rules match by number).  A wildcard pattern "a:b:*" over the
    decoded communities yields the third number of the first community whose first
    two are a and b, and nothing when there is none: formatting, splitting and
    comparing text never confuse two communities. *)
Theorem matchLargeCommunity_decoded a b values :
  0 <= a → 0 <= b → Forall wfCommunity values →
  matchLargeCommunity (itoa a +:+ ":" +:+ itoa b +:+ ":" +:+ "*")
    (elems (decodeLargeCommunities values))
  = (λ c, itoa (lc_LocalData2 c))
      <$> head (filter (λ c, lc_ASN c = a ∧ lc_LocalData1 c = b) values).
Proof. apply matchLargeCommunity_number. Qed.

(** The rule "the weight is the third number of a:b:*". *)
Definition weightRule (a b : Z) : CommunityRule :=
  mkCommunityRule (mkCommunityMatch (itoa a +:+ ":" +:+ itoa b +:+ ":" +:+ "*"))
    (mkCommunityFieldSet CommunityFieldWeight None true).

(** (One community stops every cluster).  A large community may carry any 32-bit
    number, but a weight is a signed one: one authorized route whose weight community is
    2^31 or more makes [Normalize] fail for the whole snapshot, and so for every other
    route in it. *)
Theorem Normalize_fails_for_all routes route cm a b n :
  weightRule a b ∈ cms_Rules cm → 0 <= a → 0 <= b → 2 ^ 31 <= n < 2 ^ 32 →
  route ∈ routes → rr_Rejected route = false →
  rr_LargeCommunities route = decodeLargeCommunities [mkLargeCommunity a b n] →
  ∃ e, Normalize routes (Some cm) = Err e.
Proof.
  intros Hrule Ha Hb Hn Hr Hrej Hlc.
  destruct (Normalize routes (Some cm)) as [cs|e] eqn:HN; [|by exists e].
  apply Normalize_iff in HN as [Hok _]. rewrite Forall_forall in Hok. specialize (Hok _ Hr).
  unfold routeOk in Hok. rewrite Hrej in Hok. simpl in Hok.
  rewrite forallb_forall in Hok.
  assert ((CommunityFieldWeight, itoa n) ∈ assignments (cms_Rules cm) (elems (rr_LargeCommunities route)))
    as Hin.
  { apply list_elem_of_omap. exists (weightRule a b). split; [done|].
    cbn [weightRule cr_Match cr_Set cm_LargeCommunity]. rewrite Hlc, matchLargeCommunity_number by
      (done || (constructor; [split_and!; simpl; lia|done])).
    rewrite filter_cons_True by done. done. }
  apply list_elem_of_In, Hok in Hin. unfold value_ok in Hin. simpl in Hin.
  by rewrite ParseInt_itoa_high in Hin by lia.
Qed.

(** ** Convergence of the peer set *)

(** What a successful call means for the configured peers. *)
Class BgpServerLaws (S : Type) `{BgpServer S} := {
  configured : S → gmap string PeerSettings;
  StartBgp_configured g s s' : StartBgp g s = (Ok tt, s') → configured s' = configured s;
  ListPeer_configured s infos :
    ListPeer s = Ok infos → list_to_set (pi_NeighborAddress <$> infos) = dom (configured s);
  AddPeer_configured p s s' :
    AddPeer p s = (Ok tt, s') → configured s' = <[pe_NeighborAddress p := p]> (configured s);
  UpdatePeer_configured p s s' :
    UpdatePeer p s = (Ok tt, s') → configured s' = <[pe_NeighborAddress p := p]> (configured s);
  DeletePeer_configured a s s' :
    DeletePeer a s = (Ok tt, s') → configured s' = delete a (configured s);
}.

Definition peerHost (peer : BGPPeer) : string := (splitHostPort (peer_Address peer)).1.

Section convergence.
Context `{Platform} {S : Type} `{HS : BgpServer S} `{!BgpServerLaws S}.
Implicit Types (s : S) (peer : BGPPeer).

Definition settingsOf (passwords : gmap string string) peer : PeerSettings :=
  toAPIPeer peer (default "" (passwords !! peer_Name peer)).

(** The peers a spec asks for, by host. *)
Definition wanted (passwords : gmap string string) (peers : list BGPPeer) : gmap string PeerSettings :=
  list_to_map ((λ peer, (peerHost peer, settingsOf passwords peer)) <$> peers).

Lemma settings_address passwords peer : pe_NeighborAddress (settingsOf passwords peer) = peerHost peer.
Proof. unfold settingsOf, toAPIPeer, peerHost. by destruct (splitHostPort _). Qed.

Lemma fst_peers passwords peers :
  ((λ peer, (peerHost peer, settingsOf passwords peer)) <$> peers).*1 = peerHost <$> peers.
Proof. by rewrite <- list_fmap_compose. Qed.

Lemma applyPeers_spec existing passwords peers desired s desired' s' :
  NoDup (peerHost <$> peers) →
  applyPeers existing passwords peers desired s = (Ok desired', s') →
  desired' = list_to_set (peerHost <$> peers) ∪ desired ∧
  configured s' = wanted passwords peers ∪ configured s.
Proof.
  revert desired s. induction peers as [|peer peers IH]; intros desired s Hnd Hrun; simpl in Hrun.
  { simplify_eq. split; [set_solver|]. unfold wanted. simpl. by rewrite (left_id_L ∅ (∪)). }
  apply NoDup_cons in Hnd as [Hnot Hnd].
  assert (∃ s1, configured s1 = <[peerHost peer := settingsOf passwords peer]> (configured s) ∧
    applyPeers existing passwords peers ({[ peerHost peer ]} ∪ desired) s1 = (Ok desired', s'))
    as (s1 & Hs1 & Hrun1).
  { pose proof (settings_address passwords peer) as Haddr. unfold settingsOf, peerHost in *.
    destruct (splitHostPort (peer_Address peer)) as [host port] eqn:Hh. cbn [fst] in *. case_decide.
    - destruct (UpdatePeer _ s) as [[[]|e] s1] eqn:Hu; [|done]. exists s1. split; [|done].
      apply UpdatePeer_configured in Hu. by rewrite Haddr in Hu.
    - destruct (AddPeer _ s) as [[[]|e] s1] eqn:Hu; [|done]. exists s1. split; [|done].
      apply AddPeer_configured in Hu. by rewrite Haddr in Hu. }
  apply IH in Hrun1 as [-> ->]; [|done]. split; [set_solver|]. rewrite Hs1.
  unfold wanted. rewrite fmap_cons. cbn [list_to_map foldr uncurry fst snd].
  rewrite <- insert_union_l, insert_union_r; [done|].
  apply not_elem_of_list_to_map_1. by rewrite fst_peers.
Qed.

Lemma removePeers_spec desired addrs s s' :
  removePeers desired addrs s = (Ok tt, s') →
  configured s' = filter (λ kv, kv.1 ∈ addrs → kv.1 ∈ desired) (configured s).
Proof.
  revert s. induction addrs as [|a addrs IH]; intros s Hrun; simpl in Hrun.
  { simplify_eq. symmetry. apply map_filter_id. set_solver. }
  assert (∃ s1, removePeers desired addrs s1 = (Ok tt, s') ∧
    configured s1 = if decide (a ∈ desired) then configured s else delete a (configured s))
    as (s1 & Hrun1 & Hs1).
  { case_decide; [by exists s|]. destruct (DeletePeer a s) as [[[]|e] s1] eqn:Hd; [|done].
    exists s1. split; [done|]. by apply DeletePeer_configured in Hd. }
  apply IH in Hrun1 as ->. rewrite Hs1. apply map_eq. intros k. apply option_eq. intros v.
  rewrite !map_lookup_filter_Some. cbn [fst].
  case_decide; [set_solver|]. rewrite lookup_delete_Some. set_solver.
Qed.

Lemma Reconfigure_Ok order m spec passwords m' :
  (∀ X, order X ≡ₚ elements X) → NoDup (peerHost <$> pcs_Peers spec) →
  Reconfigure order m spec passwords = (Ok tt, m') →
  configured (mgr_server m') = wanted passwords (pcs_Peers spec) ∧ mgr_started m' = true.
Proof.
  intros Horder Hnd Hrun. unfold Reconfigure in Hrun.
  destruct (ensureStarted m spec) as [[[]|e] m1] eqn:Hstart; [|done].
  assert (mgr_started m1 = true ∧ configured (mgr_server m1) = configured (mgr_server m)) as [Hst _].
  { unfold ensureStarted in Hstart. destruct (mgr_started m) eqn:Hm; [by simplify_eq|].
    destruct (StartBgp _ _) as [[[]|e] s1] eqn:Hb; simplify_eq. split; [done|].
    by apply StartBgp_configured in Hb. }
  destruct (ListPeer (mgr_server m1)) as [infos|e] eqn:Hlist; [|done].
  apply ListPeer_configured in Hlist. rewrite Hlist in Hrun.
  destruct (applyPeers _ _ _ _ _) as [[desired|e] s2] eqn:Happ; [|done].
  destruct (removePeers _ _ _) as [r s3] eqn:Hrem. simplify_eq/=. split; [|done].
  apply applyPeers_spec in Happ as [-> Hs2]; [|done]. apply removePeers_spec in Hrem. rewrite Hrem, Hs2.
  apply map_eq. intros k. apply option_eq. intros v.
  rewrite map_lookup_filter_Some, lookup_union_Some_raw. cbn [fst]. rewrite Horder.
  assert (wanted passwords (pcs_Peers spec) !! k = None ↔ k ∉ peerHost <$> pcs_Peers spec) as Hk.
  { unfold wanted. rewrite <- not_elem_of_list_to_map, fst_peers. done. }
  rewrite elem_of_elements, elem_of_dom. split.
  - intros [[?|[Hn Hv]] Hin]; [done|]. apply Hk in Hn. exfalso. apply Hn.
    specialize (Hin (ex_intro _ v Hv)). set_solver.
  - intros Hv. split; [by left|]. intros _.
    destruct (decide (k ∈ peerHost <$> pcs_Peers spec)) as [Hin|Hin]; [set_solver|].
    apply Hk in Hin. congruence.
Qed.

(** (Reconfigure converges).  When it returns without error, the server has exactly
    the peers of the spec, each with the settings built from its spec entry and its own
    password: whatever was configured before is updated, added or removed accordingly,
    in whatever order the existing peers are visited. *)
Theorem Reconfigure_converges order m spec passwords m' :
  (∀ X, order X ≡ₚ elements X) → NoDup (peerHost <$> pcs_Peers spec) →
  Reconfigure order m spec passwords = (Ok tt, m') →
  configured (mgr_server m') = wanted passwords (pcs_Peers spec) ∧ mgr_started m' = true.
Proof. apply Reconfigure_Ok. Qed.
End convergence.

(** ** Concrete instances *)

Module IngestExamples.
Lemma matchLargeCommunity_decoded_witness :
  matchLargeCommunity "65000:1:*" ["65000:2:7"; "65000:1:42"] = Some "42".
Proof.
  apply (matchLargeCommunity_decoded 65000 1 [mkLargeCommunity 65000 2 7; mkLargeCommunity 65000 1 42]);
    [lia|lia|]. repeat constructor; simpl; lia.
Defined.

Definition poisoned : RIBRoute :=
  mkRIBRoute "198.51.100.10/32" "atl-1" "10.0.0.1" (mkLocality "r1" "z1") 0 None
    (Some ["65000:1:2147483648"]) false "".
Definition healthy : RIBRoute :=
  mkRIBRoute "198.51.100.11/32" "atl-2" "10.0.0.1" (mkLocality "r1" "z1") 0 None
    (Some ["65000:1:200"]) false "".
Definition weights : CommunityMapSpec :=
  mkCommunityMapSpec [weightRule 65000 1] None UnmappedCommunityIgnore.

Lemma Normalize_fails_for_all_witness : ∃ e, Normalize [healthy; poisoned] (Some weights) = Err e.
Proof.
  apply (Normalize_fails_for_all [healthy; poisoned] poisoned weights 65000 1 2147483648);
    [set_solver|lia|lia|lia|set_solver|done|reflexivity].
Defined.

(** A server that keeps its peers in a map and never fails. *)
Definition mapServer : BgpServer (gmap string PeerSettings) := {|
  StartBgp _ s := (Ok tt, s);
  ListPeer s := Ok ((λ a, mkPeerInfo a None None []) <$> elements (dom s));
  AddPeer p s := (Ok tt, <[pe_NeighborAddress p := p]> s);
  UpdatePeer p s := (Ok tt, <[pe_NeighborAddress p := p]> s);
  DeletePeer a s := (Ok tt, delete a s);
|}.
#[program] Definition mapServer_laws : @BgpServerLaws _ mapServer := {| configured s := s |}.
Next Obligation. intros g s s' [= <-]. done. Qed.
Next Obligation.
  intros s infos [= <-]. rewrite <- list_fmap_compose. apply set_eq. intros a.
  rewrite elem_of_list_to_set, list_elem_of_fmap. unfold compose. simpl.
  setoid_rewrite elem_of_elements. naive_solver.
Qed.
Next Obligation. intros p s s' [= <-]. done. Qed.
Next Obligation. intros p s s' [= <-]. done. Qed.
Next Obligation. intros a s s' [= <-]. done. Qed.

Definition somePlatform : Platform := {| math_Pow _ _ := fone; conv_undefined _ := 0 |}.
Definition reflector : BGPPeer :=
  mkBGPPeer "rr" "10.0.0.1:1790" 65000 None None (Some (mkBGPTimers (Some (90 * Second)) None)).
Definition spec : BGPPeerConfigSpec :=
  mkBGPPeerConfigSpec 65000 "10.0.0.2" None BGPPeerConfigModeRouteReflectorClient [reflector] [].
Definition stale : PeerSettings := mkPeerSettings "10.9.9.9" 65000 "" 179 None None.
Definition initial : Manager (gmap string PeerSettings) := mkManager {[ "10.9.9.9" := stale ]} false.
Definition reconfigured : Manager (gmap string PeerSettings) :=
  (@Reconfigure somePlatform _ mapServer elements initial spec {[ "rr" := "secret" ]}).2.

Lemma Reconfigure_converges_witness :
  mgr_server reconfigured
  = {[ "10.0.0.1" := mkPeerSettings "10.0.0.1" 65000 "secret" 1790 (Some (mkTimersConfig 90 0)) None ]}.
Proof.
  destruct (@Reconfigure_converges somePlatform _ mapServer mapServer_laws elements initial spec
    {[ "rr" := "secret" ]} reconfigured) as [E _]; [done|by_compute|by vm_compute|].
  etrans; [exact E|]. by vm_compute.
Defined.
End IngestExamples.
