(* ===== verification/Authorize.v ===== *)
(** * [internal/authorize]: the trust boundary

    [Authorize] and [matchBinding] are authorize.go; [RejectedCountsByPeer] and
    [RejectionTracker] are tracker.go.  The abstract specification
    [authorizeSpec] judges each route on its own, by the binding its address
    falls into and its rank among the routes of the same cluster; the refinement
    theorem shows that the two index-based loops implement it, and the security
    properties follow from it. *)

From S2P Require Import Prelude GoStrings GoNet Api Pipeline.
Local Open Scope Z_scope.

(** ** authorize.go *)

(** The inner loop of [matchBinding]. *)
Fixpoint allowedContains (ip : IP) (clusterID : string) (allowed : list string) : res bool :=
  match allowed with
  | [] => Ok false
  | a :: rest =>
      let* (_, network) := wrapErr "parse allowedPrefixes %q for cluster %q: %w" [a; clusterID]
                              (ParseCIDR a) in
      if Contains network ip then Ok true else allowedContains ip clusterID rest
  end.

Fixpoint matchBindings (ip : IP) (bindings : list ClusterBinding) : res (option ClusterBinding) :=
  match bindings with
  | [] => Ok None
  | b :: rest =>
      let* found := allowedContains ip (cb_ClusterID b) (cb_AllowedPrefixes b) in
      if (found : bool) then Ok (Some b) else matchBindings ip rest
  end.

Definition matchBinding (prefix : string) (bindings : list ClusterBinding)
    : res (option ClusterBinding) :=
  let* (ip, _) := wrapErr "parse route prefix %q: %w" [prefix] (ParseCIDR prefix) in
  matchBindings ip bindings.

(** The two assignments of the first loop. *)
Definition rejectUnbound (route : RIBRoute) : RIBRoute :=
  mkRIBRoute (rr_Prefix route) "" (rr_Peer route) (mkLocality "" "") (rr_MED route)
    (rr_ASPath route) (rr_LargeCommunities route) true
    ("prefix " +:+ rr_Prefix route +:+ " not in allowedPrefixes for any cluster").

Definition attribute (b : ClusterBinding) (route : RIBRoute) : RIBRoute :=
  mkRIBRoute (rr_Prefix route) (cb_ClusterID b) (rr_Peer route)
    (mkLocality (aloc_Region (cb_Locality b)) (aloc_Zone (cb_Locality b))) (rr_MED route)
    (rr_ASPath route) (rr_LargeCommunities route) (rr_Rejected route) (rr_Reason route).

(** The first loop; [matched] maps a cluster to indices into [authorized]. *)
Fixpoint authorizeRoutes (bindings : list ClusterBinding) (routes : list RIBRoute)
    (authorized : list RIBRoute) (matched : gmap string (list nat))
    : res (list RIBRoute * gmap string (list nat)) :=
  match routes with
  | [] => Ok (authorized, matched)
  | route :: rest =>
      let* binding := wrapErr "authorize %s: %w" [rr_Prefix route]
                        (matchBinding (rr_Prefix route) bindings) in
      match binding with
      | None => authorizeRoutes bindings rest (authorized ++ [rejectUnbound route]) matched
      | Some b =>
          let authorized' := authorized ++ [attribute b route] in
          authorizeRoutes bindings rest authorized'
            (<[cb_ClusterID b := default [] (matched !! cb_ClusterID b)
                                 ++ [(length authorized' - 1)%nat]]> matched)
      end
  end.

Definition rejectExcess (b : ClusterBinding) (max : Z) (route : RIBRoute) : RIBRoute :=
  mkRIBRoute (rr_Prefix route) (rr_ClusterID route) (rr_Peer route) (rr_Locality route)
    (rr_MED route) (rr_ASPath route) (rr_LargeCommunities route) true
    ("cluster " +:+ cb_ClusterID b +:+ " exceeds maxPrefixes " +:+ itoa max).

Definition prefixAt (authorized : list RIBRoute) (i : nat) : string :=
  from_option rr_Prefix "" (authorized !! i).

Section authorize.
Context `{!Sorter}.

(** One iteration of the second loop.  The sort is in place, so the indices
    stay sorted in [matched]. *)
Definition capBinding (b : ClusterBinding)
    (st : list RIBRoute * gmap string (list nat)) : list RIBRoute * gmap string (list nat) :=
  let '(authorized, matched) := st in
  match cb_MaxPrefixes b with
  | None => st
  | Some max =>
      if max <? 0 then st else
      let indices := default [] (matched !! cb_ClusterID b) in
      if int32 (Z.of_nat (length indices)) <=? max then st else
      let sorted := SortFunc (λ i j, String.compare (prefixAt authorized i)
                                                    (prefixAt authorized j)) indices in
      (foldl (λ a i, alter (rejectExcess b max) i a) authorized (drop (Z.to_nat max) sorted),
       <[cb_ClusterID b := sorted]> matched)
  end.

Definition Authorize (routes : list RIBRoute) (bindings : list ClusterBinding)
    : res (list RIBRoute) :=
  let* st := authorizeRoutes bindings routes [] ∅ in
  Ok (foldl (λ st b, capBinding b st) st bindings).1.
End authorize.

(** ** tracker.go *)

Definition RejectedCountsByPeer (routes : list RIBRoute) : gmap string Z :=
  foldl (λ counts route,
           if rr_Rejected route
           then <[rr_Peer route := int32 (default 0 (counts !! rr_Peer route) + 1)]> counts
           else counts) ∅ routes.

(** The counts a [RejectionTracker] holds; its mutex makes [Set] and [Get] atomic. *)
Record RejectionTracker := mkRejectionTracker { rt_counts : gmap string Z }.
Definition newRejectionTracker : RejectionTracker := mkRejectionTracker ∅.
Definition trackerSet (t : RejectionTracker) (counts : gmap string Z) : RejectionTracker :=
  mkRejectionTracker counts.
Definition trackerGet (t : RejectionTracker) (peer : string) : Z :=
  default 0 (rt_counts t !! peer).

(** ** The abstract specification *)

(** The cluster the bindings attribute a prefix to. *)
Definition clusterOf (bindings : list ClusterBinding) (route : RIBRoute) : option string :=
  match matchBinding (rr_Prefix route) bindings with
  | Ok (Some b) => Some (cb_ClusterID b)
  | _ => None
  end.

(** How many routes of cluster [cid] come before prefix [p]. *)
Definition rank (bindings : list ClusterBinding) (routes : list RIBRoute) (cid p : string) : nat :=
  length (filter (λ r, clusterOf bindings r = Some cid ∧ (rr_Prefix r ≤ p)%string
                       ∧ rr_Prefix r ≠ p) routes).

(** Binding [b] caps the cluster of [route] below the route's rank. *)
Definition exceeds (bindings : list ClusterBinding) (routes : list RIBRoute) (route : RIBRoute)
    (b : ClusterBinding) : bool :=
  match cb_MaxPrefixes b with
  | Some max => (0 <=? max)
      && bool_decide (clusterOf bindings route = Some (cb_ClusterID b))
      && (max <=? Z.of_nat (rank bindings routes (cb_ClusterID b) (rr_Prefix route)))
  | None => false
  end.

(** The verdict on one route, with the caps of [bs] enforced: unattributed and
    rejected when no binding's prefixes contain it; otherwise attributed to the
    first that does, and rejected by the last cap it is beyond, if any. *)
Definition verdict (bindings : list ClusterBinding) (routes : list RIBRoute)
    (bs : list ClusterBinding) (route : RIBRoute) : RIBRoute :=
  match matchBinding (rr_Prefix route) bindings with
  | Ok (Some b) =>
      match last (filter (λ b', exceeds bindings routes route b' = true) bs) with
      | Some b' => rejectExcess b' (default 0 (cb_MaxPrefixes b')) (attribute b route)
      | None => attribute b route
      end
  | _ => rejectUnbound route
  end.

Definition authorizeSpec (bindings : list ClusterBinding) (routes : list RIBRoute)
    : RIBRoute → RIBRoute :=
  verdict bindings routes bindings.

Definition matchable (bindings : list ClusterBinding) (route : RIBRoute) : bool :=
  is_ok (matchBinding (rr_Prefix route) bindings).

(** ** Lemmas on the first loop *)

(** The indices the first loop collects for a cluster, from index [n] on. *)
Fixpoint members (bindings : list ClusterBinding) (cid : string) (n : nat)
    (routes : list RIBRoute) : list nat :=
  match routes with
  | [] => []
  | r :: rs => if decide (clusterOf bindings r = Some cid)
               then n :: members bindings cid (S n) rs else members bindings cid (S n) rs
  end.

Lemma members_keys bindings cid n routes (key : nat → string) :
  (∀ i r, routes !! i = Some r → key (n + i)%nat = rr_Prefix r) →
  key <$> members bindings cid n routes
  = rr_Prefix <$> filter (λ r, clusterOf bindings r = Some cid) routes.
Proof.
  revert n. induction routes as [|r routes IH]; intros n Hkey; [done|].
  cbn [members]. rewrite filter_cons.
  assert (key <$> members bindings cid (S n) routes
    = rr_Prefix <$> filter (λ r, clusterOf bindings r = Some cid) routes) as IH'.
  { apply IH. intros i r' Hi. rewrite <- (Hkey (S i) r') by done. f_equal. lia. }
  case_decide; [|done]. rewrite !fmap_cons, IH'. f_equal.
  rewrite <- (Hkey 0%nat r) by done. f_equal. lia.
Qed.

Lemma elem_of_members bindings cid n routes i :
  i ∈ members bindings cid n routes ↔
  ∃ r, (n ≤ i)%nat ∧ routes !! (i - n)%nat = Some r ∧ clusterOf bindings r = Some cid.
Proof.
  revert n. induction routes as [|r routes IH]; intros n; cbn [members].
  { set_solver. }
  assert (i ∈ members bindings cid (S n) routes ↔ ∃ r', (n < i)%nat ∧
    (r :: routes) !! (i - n)%nat = Some r' ∧ clusterOf bindings r' = Some cid) as IH'.
  { rewrite IH. split; intros (r' & Hle & Hr' & Hc); exists r'.
    - split; [lia|]. by replace (i - n)%nat with (S (i - S n)) by lia.
    - split; [lia|]. by replace (i - n)%nat with (S (i - S n)) in Hr' by lia. }
  destruct (decide (i = n)) as [->|Hne].
  - case_decide as Hc.
    + split; [|set_solver]. intros _. exists r. rewrite Nat.sub_diag. done.
    + rewrite IH'. split; [intros (r' & ? & _); lia|].
      intros (r' & _ & Hr' & Hc'). rewrite Nat.sub_diag in Hr'. simplify_eq/=.
  - case_decide; rewrite ?elem_of_cons, IH'; split.
    + intros [?|(r' & ? & ?)]; [done|]. exists r'. split; [lia|done].
    + intros (r' & ? & ?). right. exists r'. split; [lia|done].
    + intros (r' & ? & ?). exists r'. split; [lia|done].
    + intros (r' & ? & ?). exists r'. split; [lia|done].
Qed.

Lemma authorizeRoutes_spec bindings all routes auth M :
  (Forall (λ r, matchable bindings r = true) routes ∧
     ∃ M', authorizeRoutes bindings routes auth M
           = Ok (auth ++ (verdict bindings all [] <$> routes), M') ∧
       ∀ cid, default [] (M' !! cid)
              = default [] (M !! cid) ++ members bindings cid (length auth) routes) ∨
  (¬ Forall (λ r, matchable bindings r = true) routes ∧
     ∃ e, authorizeRoutes bindings routes auth M = Err e).
Proof.
  revert auth M. induction routes as [|r routes IH]; intros auth M; cbn [authorizeRoutes].
  { left. split; [done|]. exists M. rewrite app_nil_r. split; [done|].
    intros cid. by rewrite app_nil_r. }
  rewrite Forall_cons, fmap_cons. cbn [members].
  unfold matchable at 1 3, verdict at 1, clusterOf.
  destruct (matchBinding (rr_Prefix r) bindings) as [[b|]|e] eqn:Hm; simpl.
  - destruct (IH (auth ++ [attribute b r]) (<[cb_ClusterID b := default [] (M !! cb_ClusterID b)
      ++ [(length (auth ++ [attribute b r]) - 1)%nat]]> M))
      as [(Hok & M' & Hrun & HM)|(Hbad & e & Hrun)]; [left|right; naive_solver].
    split; [done|]. exists M'. rewrite Hrun, <- app_assoc. split; [done|].
    intros cid. rewrite HM, length_app. simpl.
    replace (length auth + 1 - 1)%nat with (length auth) by lia.
    replace (length auth + 1)%nat with (S (length auth)) by lia.
    rewrite lookup_insert. destruct (decide (cb_ClusterID b = cid)) as [->|Hne].
    + rewrite decide_True by done. simpl. by rewrite <- app_assoc.
    + by rewrite decide_False by congruence.
  - destruct (IH (auth ++ [rejectUnbound r]) M)
      as [(Hok & M' & Hrun & HM)|(Hbad & e & Hrun)]; [left|right; naive_solver].
    split; [done|]. exists M'. rewrite Hrun, <- app_assoc. split; [done|].
    intros cid. rewrite HM, length_app. simpl.
    by replace (length auth + 1)%nat with (S (length auth)) by lia.
  - right. naive_solver.
Qed.

(** ** Lemmas on the cap loop *)

Lemma rr_Prefix_verdict bindings all bs r : rr_Prefix (verdict bindings all bs r) = rr_Prefix r.
Proof. unfold verdict. by repeat case_match. Qed.

Lemma verdict_snoc bindings all bs b r :
  verdict bindings all (bs ++ [b]) r =
  if exceeds bindings all r b
  then rejectExcess b (default 0 (cb_MaxPrefixes b)) (verdict bindings all bs r)
  else verdict bindings all bs r.
Proof.
  unfold verdict. rewrite filter_app, filter_cons, filter_nil.
  destruct (exceeds bindings all r b) eqn:He.
  - rewrite decide_True by done. rewrite last_snoc.
    unfold exceeds, clusterOf in He. destruct (cb_MaxPrefixes b) as [max|]; [|done].
    apply andb_true_iff in He as [[_ Hc]%andb_true_iff _]. apply bool_decide_eq_true in Hc.
    destruct (matchBinding (rr_Prefix r) bindings) as [[b0|]|e]; [|done..].
    by destruct (last _).
  - by rewrite decide_False, app_nil_r.
Qed.

Lemma rank_lt_members bindings routes cid r :
  r ∈ routes → clusterOf bindings r = Some cid →
  (rank bindings routes cid (rr_Prefix r)
   < length (filter (λ r, clusterOf bindings r = Some cid) routes))%nat.
Proof.
  intros Hr Hc. unfold rank.
  rewrite (list_filter_iff _ (λ x, ((rr_Prefix x ≤ rr_Prefix r)%string ∧ rr_Prefix x ≠ rr_Prefix r)
    ∧ clusterOf bindings x = Some cid)) by naive_solver.
  rewrite <- list_filter_filter. apply length_filter_lt with r; [|naive_solver].
  by apply list_elem_of_filter.
Qed.

Section caps.
Context `{!Sorter} (bindings : list ClusterBinding) (routes : list RIBRoute).
Hypothesis Hnodup : NoDup (rr_Prefix <$> routes).
Hypothesis Hlen : Z.of_nat (length routes) < 2 ^ 31.

Definition capState (bs : list ClusterBinding) (st : list RIBRoute * gmap string (list nat)) : Prop :=
  st.1 = verdict bindings routes bs <$> routes ∧
  ∀ cid, default [] (st.2 !! cid) ≡ₚ members bindings cid 0 routes.

Lemma prefixAt_verdict bs i r :
  routes !! i = Some r → prefixAt (verdict bindings routes bs <$> routes) i = rr_Prefix r.
Proof.
  intros Hi. unfold prefixAt. rewrite list_lookup_fmap, Hi. simpl. apply rr_Prefix_verdict.
Qed.

Lemma members_length cid :
  length (members bindings cid 0 routes)
  = length (filter (λ r, clusterOf bindings r = Some cid) routes).
Proof.
  pose proof (members_keys bindings cid 0 routes (prefixAt (verdict bindings routes [] <$> routes)))
    as Hk.
  rewrite <- (length_fmap rr_Prefix), <- Hk, length_fmap; [done|].
  intros i r Hi. by apply prefixAt_verdict.
Qed.

(** The positions past the cap in the sorted slice are those of the routes of
    the cluster whose rank reaches the cap. *)
Lemma elem_of_excess bs cid idxs m i r :
  idxs ≡ₚ members bindings cid 0 routes → routes !! i = Some r →
  let key := prefixAt (verdict bindings routes bs <$> routes) in
  i ∈ drop m (SortFunc (λ i j, String.compare (key i) (key j)) idxs) ↔
  clusterOf bindings r = Some cid ∧ (m ≤ rank bindings routes cid (rr_Prefix r))%nat.
Proof.
  intros Hp Hi key. set (sorted := SortFunc _ idxs).
  assert (sorted ≡ₚ members bindings cid 0 routes) as Hsp by (etrans; [apply SortFunc_perm|done]).
  assert (key <$> members bindings cid 0 routes
          = rr_Prefix <$> filter (λ r, clusterOf bindings r = Some cid) routes) as Hkeys.
  { apply members_keys. intros j r' Hj. by apply prefixAt_verdict. }
  assert (key i = rr_Prefix r) as Hkey by by apply prefixAt_verdict.
  rewrite (drop_sorted_rank key); first last.
  - apply SortFunc_by_key.
  - rewrite Hsp, Hkeys. eapply sublist_NoDup; [done|].
    apply fmap_sublist, sublist_filter.
  - rewrite (length_filter_perm _ _ _ Hsp), Hkey.
    assert (length (filter (λ y, (key y ≤ rr_Prefix r)%string ∧ key y ≠ rr_Prefix r)
              (members bindings cid 0 routes)) = rank bindings routes cid (rr_Prefix r)) as ->.
    { rewrite <- (length_fmap key).
      pose proof (filter_fmap key (λ s, (s ≤ rr_Prefix r)%string ∧ s ≠ rr_Prefix r)
        (members bindings cid 0 routes)) as Hf. simpl in Hf. etrans; [by rewrite <- Hf|].
      rewrite Hkeys, filter_fmap, length_fmap, list_filter_filter. unfold rank.
      f_equal. apply list_filter_iff. naive_solver. }
    rewrite Hsp, elem_of_members, Nat.sub_0_r.
    rewrite Hi. split; [intros ((r' & _ & [= <-] & Hc) & Hm); done|].
    intros [Hc Hm]. split; [|done]. exists r. split; [lia|done].
Qed.

(** Below the cap no route is in excess. *)
Lemma exceeds_below b max :
  cb_MaxPrefixes b = Some max →
  int32 (Z.of_nat (length (members bindings (cb_ClusterID b) 0 routes))) <= max →
  ∀ r, r ∈ routes → exceeds bindings routes r b = false.
Proof.
  intros Hmax Hle r Hr. unfold exceeds. rewrite Hmax.
  destruct (decide (clusterOf bindings r = Some (cb_ClusterID b))) as [Hc|Hc].
  - pose proof (rank_lt_members _ _ _ _ Hr Hc) as Hlt. rewrite <- members_length in Hlt.
    assert (length (members bindings (cb_ClusterID b) 0 routes) ≤ length routes)%nat as Hl.
    { rewrite members_length. apply length_filter. }
    rewrite int32_id in Hle by (unfold_ints; lia).
    apply andb_false_iff. right. apply Z.leb_gt. lia.
  - apply andb_false_iff. left. apply andb_false_iff. right. by apply bool_decide_eq_false.
Qed.

Lemma capBinding_spec bs b st : capState bs st → capState (bs ++ [b]) (capBinding b st).
Proof.
  destruct st as [A M]. intros [HA HM]. simpl in HA, HM. subst A. unfold capBinding.
  assert ((∀ r, r ∈ routes → exceeds bindings routes r b = false) →
    capState (bs ++ [b]) (verdict bindings routes bs <$> routes, M)) as Hskip.
  { intros Hno. split; [|done]. simpl. apply list_fmap_ext. intros i r Hr.
    rewrite verdict_snoc, Hno; [done|]. by eapply list_elem_of_lookup_2. }
  destruct (cb_MaxPrefixes b) as [max|] eqn:Hmax.
  2:{ apply Hskip. intros r _. unfold exceeds. by rewrite Hmax. }
  destruct (Z.ltb_spec max 0) as [Hneg|Hpos].
  { apply Hskip. intros r _. unfold exceeds. rewrite Hmax.
    by replace (0 <=? max) with false by lia. }
  destruct (Z.leb_spec (int32 (Z.of_nat (length (default [] (M !! cb_ClusterID b))))) max) as [Hle|Hgt].
  { apply Hskip, (exceeds_below _ _ Hmax). by rewrite <- (HM (cb_ClusterID b)). }
  split; simpl.
  - apply list_eq. intros i.
    rewrite foldl_alter_lookup by done. rewrite !list_lookup_fmap.
    destruct (routes !! i) as [r|] eqn:Hi; [|by case_decide]. simpl.
    rewrite verdict_snoc. unfold exceeds. rewrite Hmax. simpl.
    pose proof (elem_of_excess bs (cb_ClusterID b) _ (Z.to_nat max) i r (HM _) Hi) as Hin.
    simpl in Hin. case_decide as Hd.
    + apply Hin in Hd as [Hc Hm]. rewrite bool_decide_eq_true_2 by done.
      replace (0 <=? max) with true by lia.
      by replace (max <=? Z.of_nat (rank bindings routes (cb_ClusterID b) (rr_Prefix r))) with true by lia.
    + destruct (bool_decide _) eqn:Hc; [|by rewrite andb_false_r].
      apply bool_decide_eq_true in Hc.
      replace (max <=? Z.of_nat (rank bindings routes (cb_ClusterID b) (rr_Prefix r))) with false.
      { by rewrite andb_false_r. }
      symmetry. apply Z.leb_gt. destruct (Z.lt_ge_cases (Z.of_nat (rank bindings routes (cb_ClusterID b) (rr_Prefix r))) max); [done|].
      exfalso. apply Hd, Hin. split; [done|lia].
  - intros cid. rewrite lookup_insert. case_decide as Hc; [|apply HM]. simpl. subst cid.
    etrans; [apply SortFunc_perm|]. apply HM.
Qed.

Lemma capLoop_spec bs bs' st :
  capState bs st → capState (bs ++ bs') (foldl (λ st b, capBinding b st) st bs').
Proof.
  revert bs st. induction bs' as [|b bs' IH]; intros bs st Hst; simpl.
  { by rewrite app_nil_r. }
  rewrite cons_middle, app_assoc. by apply IH, capBinding_spec.
Qed.

Lemma Authorize_cases :
  (Forall (λ r, matchable bindings r = true) routes ∧
     Authorize routes bindings = Ok (authorizeSpec bindings routes <$> routes)) ∨
  (¬ Forall (λ r, matchable bindings r = true) routes ∧
     ∃ e, Authorize routes bindings = Err e).
Proof.
  unfold Authorize.
  destruct (authorizeRoutes_spec bindings routes routes [] ∅) as [(Hok & M & -> & HM)|(Hbad & e & ->)];
    [left|right; eauto].
  split; [done|]. f_equal. simpl.
  assert (capState [] (verdict bindings routes [] <$> routes, M)) as H0.
  { split; [done|]. intros cid. simpl. rewrite HM. by rewrite lookup_empty. }
  apply (capLoop_spec [] bindings) in H0. apply H0.
Qed.
End caps.

(** ** Lemmas on attribution *)

(** Network [a] parses and contains the address. *)
Definition covers (a : string) (ip : IP) : Prop :=
  ∃ base network, ParseCIDR a = Ok (base, network) ∧ Contains network ip = true.

Lemma allowedContains_Ok ip cid allowed found :
  allowedContains ip cid allowed = Ok found →
  if found then ∃ a, a ∈ allowed ∧ covers a ip
  else ∀ a, a ∈ allowed → is_ok (ParseCIDR a) = true ∧ ¬ covers a ip.
Proof.
  revert found. induction allowed as [|a allowed IH]; intros found H; simpl in H.
  { simplify_eq. set_solver. }
  destruct (ParseCIDR a) as [[base network]|e] eqn:Ha; simpl in H; [|done].
  destruct (Contains network ip) eqn:Hc.
  - simplify_eq. exists a. split; [set_solver|]. by exists base, network.
  - apply IH in H. destruct found.
    + destruct H as (a' & Hin & Hcov). exists a'. split; [set_solver|done].
    + intros a' [->|Hin]%elem_of_cons; [|by apply H]. rewrite Ha. split; [done|].
      intros (? & ? & Ha' & Hc'). congruence.
Qed.

Definition bindingCovers (b : ClusterBinding) (ip : IP) : Prop :=
  ∃ a, a ∈ cb_AllowedPrefixes b ∧ covers a ip.

(** [matchBinding] finds the first binding that covers the address. *)
Lemma matchBindings_first ip bindings b :
  matchBindings ip bindings = Ok (Some b) →
  ∃ pre post, bindings = pre ++ b :: post ∧ bindingCovers b ip ∧
    Forall (λ b', ¬ bindingCovers b' ip) pre.
Proof.
  induction bindings as [|b' bindings IH]; intros H; simpl in H; [done|].
  destruct (allowedContains ip (cb_ClusterID b') (cb_AllowedPrefixes b')) as [found|] eqn:Hf; [|done].
  apply allowedContains_Ok in Hf. destruct found.
  - simplify_eq. by exists [], bindings.
  - destruct (IH H) as (pre & post & -> & Hcov & Hpre). exists (b' :: pre), post.
    split_and!; [done..|]. constructor; [|done].
    intros (a & Ha & Hc). by apply (Hf a Ha).
Qed.

Lemma matchBindings_None ip bindings :
  matchBindings ip bindings = Ok None → Forall (λ b', ¬ bindingCovers b' ip) bindings.
Proof.
  induction bindings as [|b' bindings IH]; intros H; simpl in H; [done|].
  destruct (allowedContains ip (cb_ClusterID b') (cb_AllowedPrefixes b')) as [[]|] eqn:Hf; [done| |done].
  constructor; [|by apply IH]. apply allowedContains_Ok in Hf. intros (a & Ha & Hc). by apply (Hf a Ha).
Qed.

(** What every branch keeps of the first loop's result [r]. *)
Definition onlyRejects (r o : RIBRoute) : Prop :=
  o = r ∨ ∃ reason, o = mkRIBRoute (rr_Prefix r) (rr_ClusterID r) (rr_Peer r) (rr_Locality r)
    (rr_MED r) (rr_ASPath r) (rr_LargeCommunities r) true reason.

Lemma capBinding_onlyRejects `{!Sorter} b st i o :
  (capBinding b st).1 !! i = Some o →
  ∃ r, st.1 !! i = Some r ∧ onlyRejects r o.
Proof.
  destruct st as [A M]. unfold capBinding. repeat case_match; simpl; intros Ho;
    try (by exists o; split; [|left]).
  rewrite foldl_alter_lookup in Ho by done. case_decide; [|by exists o; split; [|left]].
  destruct (A !! i) as [r|]; simplify_eq/=. exists r. split; [done|]. right. by eexists.
Qed.

Lemma onlyRejects_trans r o o' : onlyRejects r o → onlyRejects o o' → onlyRejects r o'.
Proof. intros [->|[? ->]] [->|[? ->]]; unfold onlyRejects; simpl; eauto. Qed.

Lemma capLoop_onlyRejects `{!Sorter} bs st i o :
  (foldl (λ st b, capBinding b st) st bs).1 !! i = Some o →
  ∃ r, st.1 !! i = Some r ∧ onlyRejects r o.
Proof.
  revert st. induction bs as [|b bs IH]; intros st Ho; simpl in Ho.
  { exists o. split; [done|by left]. }
  apply IH in Ho as (r' & Hr' & Ho). apply capBinding_onlyRejects in Hr' as (r & Hr & Hr').
  exists r. split; [done|]. by eapply onlyRejects_trans.
Qed.

Lemma Authorize_lookup `{!Sorter} routes bindings out i o :
  Authorize routes bindings = Ok out → out !! i = Some o →
  ∃ r, routes !! i = Some r ∧ onlyRejects (verdict bindings routes [] r) o
       ∧ matchable bindings r = true.
Proof.
  unfold Authorize. intros Hout Ho.
  destruct (authorizeRoutes_spec bindings routes routes [] ∅) as [(Hok & M & Hrun & _)|(_ & e & Hrun)];
    rewrite Hrun in Hout; simplify_eq/=.
  apply capLoop_onlyRejects in Ho as (r' & Hr' & Ho). simpl in Hr'.
  rewrite list_lookup_fmap in Hr'. destruct (routes !! i) as [r|] eqn:Hi; simplify_eq/=.
  exists r. split_and!; [done..|]. by eapply Forall_lookup_1 in Hok.
Qed.

Lemma length_capLoop `{!Sorter} bs st :
  length (foldl (λ st b, capBinding b st) st bs).1 = length st.1.
Proof.
  revert st. induction bs as [|b bs IH]; intros st; simpl; [done|]. rewrite IH.
  destruct st as [A M]. unfold capBinding. repeat case_match; simpl; try done.
  by rewrite length_foldl_alter.
Qed.

Lemma rank_perm bindings routes routes' cid p :
  routes ≡ₚ routes' → rank bindings routes cid p = rank bindings routes' cid p.
Proof. intros H. by apply length_filter_perm. Qed.

(** Verdicts depend on the other routes only through the ranks in their own cluster. *)
Lemma verdict_rank bindings routes routes' bs r :
  (∀ cid, clusterOf bindings r = Some cid →
     rank bindings routes cid (rr_Prefix r) = rank bindings routes' cid (rr_Prefix r)) →
  verdict bindings routes bs r = verdict bindings routes' bs r.
Proof.
  intros Hrank. unfold verdict.
  rewrite (list_filter_iff _ (λ b', exceeds bindings routes' r b' = true)); [done|].
  intros b. unfold exceeds. destruct (cb_MaxPrefixes b); [|done].
  destruct (decide (clusterOf bindings r = Some (cb_ClusterID b))) as [Hc|Hc].
  - by rewrite (Hrank _ Hc).
  - rewrite !bool_decide_eq_false_2 by done. by rewrite !andb_false_r.
Qed.

(** ** The refinement theorem and its consequences *)

(** C1 (Authorize implements its specification).  With one route per prefix and
    fewer than 2^31 routes, [Authorize] succeeds exactly when every route can be
    matched against the bindings, and its two index-based loops then give each
    route, in order, the verdict [authorizeSpec] defines from that route, the
    bindings and its rank within its own cluster. *)
Theorem Authorize_refines_spec `{!Sorter} routes bindings :
  NoDup (rr_Prefix <$> routes) → Z.of_nat (length routes) < 2 ^ 31 →
  ∀ out, Authorize routes bindings = Ok out ↔
    Forall (λ r, matchable bindings r = true) routes ∧
    out = authorizeSpec bindings routes <$> routes.
Proof.
  intros Hnd Hlen out.
  destruct (Authorize_cases bindings routes Hnd Hlen) as [[Hok ->]|[Hbad [e ->]]]; naive_solver.
Qed.

Lemma Authorize_admits `{!Sorter} routes bindings out i o :
  Authorize routes bindings = Ok out → out !! i = Some o → rr_Rejected o = false →
  ∃ r b ip network pre post,
    routes !! i = Some r ∧ ParseCIDR (rr_Prefix r) = Ok (ip, network) ∧
    bindings = pre ++ b :: post ∧ bindingCovers b ip ∧ Forall (λ b', ¬ bindingCovers b' ip) pre ∧
    rr_ClusterID o = cb_ClusterID b ∧
    rr_Locality o = mkLocality (aloc_Region (cb_Locality b)) (aloc_Zone (cb_Locality b)) ∧
    rr_Prefix o = rr_Prefix r ∧ rr_Peer o = rr_Peer r ∧ rr_MED o = rr_MED r ∧
    rr_ASPath o = rr_ASPath r ∧ rr_LargeCommunities o = rr_LargeCommunities r.
Proof.
  intros Hrun Ho Hrej. destruct (Authorize_lookup _ _ _ _ _ Hrun Ho) as (r & Hr & Honly & _).
  destruct Honly as [->|[reason ->]]; [|done]. unfold verdict in *. exists r.
  destruct (matchBinding (rr_Prefix r) bindings) as [[b|]|e] eqn:Hm; simpl in *; try done.
  unfold matchBinding in Hm.
  destruct (ParseCIDR (rr_Prefix r)) as [[ip network]|]; simpl in Hm; [|done].
  apply matchBindings_first in Hm as (pre & post & Hb & Hcov & Hpre).
  by exists b, ip, network, pre, post.
Qed.

(** C2 (The trust boundary).  Every route [Authorize] lets through unrejected has its base
    address, the one written before the slash, inside an allowed prefix of some binding
    (its length is not looked at), and carries the cluster and the locality of the first
    binding that covers that address; prefix, peer, MED, AS path and communities are those
    received. *)
Theorem Authorize_sound `{!Sorter} routes bindings out i o :
  Authorize routes bindings = Ok out → out !! i = Some o → rr_Rejected o = false →
  ∃ r b ip network pre post,
    routes !! i = Some r ∧ ParseCIDR (rr_Prefix r) = Ok (ip, network) ∧
    bindings = pre ++ b :: post ∧ bindingCovers b ip ∧ Forall (λ b', ¬ bindingCovers b' ip) pre ∧
    rr_ClusterID o = cb_ClusterID b ∧
    rr_Locality o = mkLocality (aloc_Region (cb_Locality b)) (aloc_Zone (cb_Locality b)) ∧
    rr_Prefix o = rr_Prefix r ∧ rr_Peer o = rr_Peer r ∧ rr_MED o = rr_MED r ∧
    rr_ASPath o = rr_ASPath r ∧ rr_LargeCommunities o = rr_LargeCommunities r.
Proof. apply Authorize_admits. Qed.

Definition eraseClaims (r : RIBRoute) : RIBRoute :=
  mkRIBRoute (rr_Prefix r) "" (rr_Peer r) (mkLocality "" "") (rr_MED r)
    (rr_ASPath r) (rr_LargeCommunities r) (rr_Rejected r) (rr_Reason r).

(** (Non-interference).  What a peer asserts about its own cluster and locality
    has no influence on any result of [Authorize], errors included: the result is
    the one on the routes with those fields erased. *)
Theorem Authorize_ignores_claims `{!Sorter} routes bindings :
  Authorize (eraseClaims <$> routes) bindings = Authorize routes bindings.
Proof.
  unfold Authorize. f_equal. generalize ([] : list RIBRoute). generalize (∅ : gmap string (list nat)).
  induction routes as [|r routes IH]; intros M A; [done|]. cbn [fmap list_fmap authorizeRoutes].
  simpl. destruct (matchBinding (rr_Prefix r) bindings) as [[b|]|e]; simpl; [..|done]; apply IH.
Qed.

(** An unrejected route is below every cap of its cluster. *)
Lemma admitted_rank bindings routes r b max :
  b ∈ bindings → cb_MaxPrefixes b = Some max → 0 <= max →
  rr_Rejected (authorizeSpec bindings routes r) = false →
  rr_ClusterID (authorizeSpec bindings routes r) = cb_ClusterID b →
  clusterOf bindings r = Some (cb_ClusterID b) ∧
  Z.of_nat (rank bindings routes (cb_ClusterID b) (rr_Prefix r)) < max.
Proof.
  intros Hb Hmax Hpos. unfold authorizeSpec, verdict, clusterOf at 1.
  destruct (matchBinding (rr_Prefix r) bindings) as [[b0|]|e] eqn:Hm; [|done..].
  destruct (last _) eqn:Hl; [done|]. simpl. intros _ Heq. split; [congruence|].
  apply last_None in Hl. assert (b ∉ filter (λ b', exceeds bindings routes r b' = true) bindings) as Hnot.
  { rewrite Hl. apply not_elem_of_nil. }
  rewrite list_elem_of_filter in Hnot. apply Znot_ge_lt. intros Hge. apply Hnot. split; [|done].
  unfold exceeds, clusterOf. rewrite Hmax, Hm. rewrite bool_decide_eq_true_2 by congruence.
  apply andb_true_iff. split; [|by apply Z.leb_le, Z.ge_le].
  apply andb_true_iff. split; [by apply Z.leb_le|done].
Qed.

(** The unrejected routes attributed to a cluster. *)
Definition admitted (cid : string) (out : list RIBRoute) : list RIBRoute :=
  filter (λ o, rr_Rejected o = false ∧ rr_ClusterID o = cid) out.

Lemma admitted_capped `{!Sorter} routes bindings out b max :
  NoDup (rr_Prefix <$> routes) → Z.of_nat (length routes) < 2 ^ 31 →
  Authorize routes bindings = Ok out →
  b ∈ bindings → cb_MaxPrefixes b = Some max → 0 <= max →
  Z.of_nat (length (admitted (cb_ClusterID b) out)) <= max.
Proof.
  intros Hnd Hlen Hrun Hb Hmax Hpos.
  destruct (Authorize_cases bindings routes Hnd Hlen) as [[Hok Hrun']|[_ [e Hrun']]];
    rewrite Hrun' in Hrun; simplify_eq.
  unfold admitted. rewrite filter_fmap, length_fmap.
  set (mine := filter (λ r, clusterOf bindings r = Some (cb_ClusterID b)) routes).
  assert (NoDup (rr_Prefix <$> mine)) as Hnd'.
  { eapply sublist_NoDup; [done|]. apply fmap_sublist, sublist_filter. }
  pose proof (length_filter_rank_lt rr_Prefix mine (Z.to_nat max) Hnd') as Hbound.
  etrans; [|apply (proj1 (Nat2Z.inj_le _ _)) in Hbound; rewrite Z2Nat.id in Hbound by lia; exact Hbound].
  apply Nat2Z.inj_le. unfold mine. rewrite list_filter_filter. apply length_filter_impl.
  intros r _ [Hrej Hcid]. destruct (admitted_rank _ _ _ _ _ Hb Hmax Hpos Hrej Hcid) as [Hc Hr].
  split; [|done]. rewrite list_filter_filter. unfold rank in Hr.
  rewrite (list_filter_iff _ (λ r0, clusterOf bindings r0 = Some (cb_ClusterID b)
    ∧ (rr_Prefix r0 ≤ rr_Prefix r)%string ∧ rr_Prefix r0 ≠ rr_Prefix r)); [lia|naive_solver].
Qed.

(** (The cap holds).  When [Authorize] succeeds on fewer than 2^31 routes with distinct
    prefixes, no cluster has more unrejected routes than any non-negative [maxPrefixes]
    configured for it. *)
Theorem Authorize_cap `{!Sorter} routes bindings out b max :
  NoDup (rr_Prefix <$> routes) → Z.of_nat (length routes) < 2 ^ 31 →
  Authorize routes bindings = Ok out →
  b ∈ bindings → cb_MaxPrefixes b = Some max → 0 <= max →
  Z.of_nat (length (admitted (cb_ClusterID b) out)) <= max.
Proof. apply admitted_capped. Qed.

(** (RIB order is irrelevant).  Which prefixes survive a cap does not depend on
    the order in which the RIB lists its routes: on a permutation of the routes
    [Authorize] succeeds as well, with a permutation of the same verdicts. *)
Theorem Authorize_order_independent `{!Sorter} routes routes' bindings out :
  NoDup (rr_Prefix <$> routes) → Z.of_nat (length routes) < 2 ^ 31 →
  routes ≡ₚ routes' → Authorize routes bindings = Ok out →
  ∃ out', Authorize routes' bindings = Ok out' ∧ out ≡ₚ out'.
Proof.
  intros Hnd Hlen Hp Hrun.
  destruct (Authorize_cases bindings routes Hnd Hlen) as [[Hok Hrun']|[_ [e Hrun']]];
    rewrite Hrun' in Hrun; simplify_eq.
  destruct (Authorize_cases bindings routes') as [[Hok' ->]|[Hbad _]].
  - by rewrite <- Hp.
  - by rewrite <- Hp.
  - eexists. split; [done|].
    rewrite (list_fmap_ext _ (authorizeSpec bindings routes') routes);
      [by apply fmap_Permutation|].
    intros i r _. apply verdict_rank. intros cid _. by apply rank_perm.
  - by rewrite <- Hp in Hbad.
Qed.

Lemma zip_fmap {A B} (f : A → B) (l : list A) : zip l (f <$> l) = (λ x, (x, f x)) <$> l.
Proof. induction l as [|x l IH]; [done|]. rewrite !fmap_cons. simpl. by rewrite IH. Qed.

(** C26 (Clusters do not starve each other).  Whenever [Authorize] succeeds on fewer than
    2^31 routes with distinct prefixes, it also succeeds on the routes of cluster [cid]
    alone, and gives them the verdicts they have among the others: however routes of other
    clusters, or of none, are mixed in, they change no verdict of [cid]. *)
Theorem Authorize_isolates_clusters `{!Sorter} routes bindings out cid :
  NoDup (rr_Prefix <$> routes) → Z.of_nat (length routes) < 2 ^ 31 →
  Authorize routes bindings = Ok out →
  Authorize (filter (λ r, clusterOf bindings r = Some cid) routes) bindings
  = Ok (snd <$> filter (λ ro, clusterOf bindings ro.1 = Some cid) (zip routes out)).
Proof.
  intros Hnd Hlen Hrun.
  destruct (Authorize_cases bindings _ Hnd Hlen) as [[Hok Hrun']|[_ [e ?]]]; [|congruence].
  rewrite Hrun' in Hrun. injection Hrun as <-. set (mine := filter _ routes).
  assert (mine `sublist_of` routes) as Hsub by apply sublist_filter.
  destruct (Authorize_cases bindings mine) as [[_ ->]|[Hbad _]].
  - eapply sublist_NoDup; [done|]. by apply fmap_sublist.
  - apply sublist_length in Hsub. lia.
  - f_equal. rewrite zip_fmap, filter_fmap, <- list_fmap_compose.
    apply list_fmap_ext. intros i r [Hc _]%list_elem_of_lookup_2%list_elem_of_filter. simpl.
    apply verdict_rank. intros cid' Hc'. unfold rank, mine. rewrite list_filter_filter. f_equal.
    apply list_filter_iff. intros x. simplify_eq. naive_solver.
  - exfalso. apply Hbad. rewrite Forall_forall in Hok |- *. intros r [_ Hr]%list_elem_of_filter. by apply Hok.
Qed.

(** The nested loops of [matchBinding] as one scan: the allowed prefixes of all
    bindings in order, up to the first that either fails to parse or contains
    the address. *)
Definition allowedOf (bindings : list ClusterBinding) : list (ClusterBinding * string) :=
  bindings ≫= λ b, pair b <$> cb_AllowedPrefixes b.
Definition decisive (ip : IP) (ba : ClusterBinding * string) : Prop :=
  match ParseCIDR ba.2 with Ok (_, network) => Contains network ip = true | Err _ => True end.
#[export] Instance decisive_dec ip ba : Decision (decisive ip ba).
Proof. unfold decisive. destruct (ParseCIDR ba.2) as [[]|]; apply _. Defined.
Definition firstDecisive (ip : IP) (bindings : list ClusterBinding) : option (ClusterBinding * string) :=
  head (filter (decisive ip) (allowedOf bindings)).

Lemma allowedContains_scan ip b allowed rest :
  match allowedContains ip (cb_ClusterID b) allowed with
  | Ok true => ∃ a, is_ok (ParseCIDR a) = true ∧
      head (filter (decisive ip) ((pair b <$> allowed) ++ rest)) = Some (b, a)
  | Ok false => filter (decisive ip) ((pair b <$> allowed) ++ rest) = filter (decisive ip) rest
  | Err _ => ∃ a, is_ok (ParseCIDR a) = false ∧
      head (filter (decisive ip) ((pair b <$> allowed) ++ rest)) = Some (b, a)
  end.
Proof.
  induction allowed as [|a allowed IH]; [done|]. cbn [allowedContains fmap list_fmap app].
  rewrite filter_cons.
  assert (decisive ip (b, a) ↔ match ParseCIDR a with
    Ok (_, network) => Contains network ip = true | Err _ => True end) as Hd by done.
  destruct (decide (decisive ip (b, a))) as [Hdec|Hdec]; rewrite Hd in Hdec;
    destruct (ParseCIDR a) as [[base network]|e] eqn:Ha; cbn [wrapErr]; try tauto.
  - rewrite Hdec. exists a. by rewrite Ha.
  - exists a. by rewrite Ha.
  - rewrite (not_true_is_false _ Hdec). apply IH.
Qed.

Lemma matchBindings_scan ip bindings :
  match matchBindings ip bindings with
  | Ok None => firstDecisive ip bindings = None
  | Ok (Some b) => ∃ a, firstDecisive ip bindings = Some (b, a) ∧ is_ok (ParseCIDR a) = true
  | Err _ => ∃ b a, firstDecisive ip bindings = Some (b, a) ∧ is_ok (ParseCIDR a) = false
  end.
Proof.
  unfold firstDecisive. induction bindings as [|b bindings IH]; [done|].
  change (allowedOf (b :: bindings)) with ((pair b <$> cb_AllowedPrefixes b) ++ allowedOf bindings).
  cbn [matchBindings].
  pose proof (allowedContains_scan ip b (cb_AllowedPrefixes b) (allowedOf bindings)) as Hb.
  destruct (allowedContains _ _ _) as [[]|e].
  - naive_solver.
  - rewrite Hb. apply IH.
  - naive_solver.
Qed.

(** (When authorization fails).  [Authorize] returns an error exactly when some
    route's prefix is not a CIDR, or the first allowed prefix in configuration
    order that either contains the route's address or is malformed is malformed:
    a malformed allowed prefix behind the matching one does no harm. *)
Theorem Authorize_error_iff `{!Sorter} routes bindings :
  (∃ e, Authorize routes bindings = Err e) ↔
  ∃ r, r ∈ routes ∧
    (is_ok (ParseCIDR (rr_Prefix r)) = false ∨
     ∃ ip network b a, ParseCIDR (rr_Prefix r) = Ok (ip, network) ∧
       firstDecisive ip bindings = Some (b, a) ∧ is_ok (ParseCIDR a) = false).
Proof.
  assert ((∃ e, Authorize routes bindings = Err e) ↔
          Exists (not ∘ (λ r, matchable bindings r = true)) routes) as ->.
  { transitivity (¬ Forall (λ r, matchable bindings r = true) routes).
    2:{ split; [by apply (not_Forall_Exists _)|apply Exists_not_Forall]. }
    unfold Authorize. destruct (authorizeRoutes_spec bindings routes routes [] ∅) as [(Hok & M & -> & _)|(Hbad & e & ->)];
      naive_solver. }
  rewrite list.Exists_exists.
  apply exist_proper. intros r. apply and_iff_compat_l. unfold compose, matchable, matchBinding.
  destruct (ParseCIDR (rr_Prefix r)) as [[ip network]|e] eqn:Hp; simpl; [|naive_solver].
  pose proof (matchBindings_scan ip bindings) as Hs.
  destruct (matchBindings ip bindings) as [[b|]|e]; simpl.
  - split; [done|]. intros [?|(ip' & n' & b' & a' & Heq & Hf & Hbad)]; [done|].
    destruct Hs as (a & Hf' & Hok). simplify_eq. congruence.
  - split; [done|]. intros [?|(ip' & n' & b' & a' & Heq & Hf & Hbad)]; [done|]. simplify_eq.
  - split; [|done]. intros _. right. destruct Hs as (b & a & ?). by exists ip, network, b, a.
Qed.

(** ** Containment as arithmetic *)

(** Bindings whose allowed prefixes are IPv4 prefixes in canonical text. *)
Definition v4Entry (e : ClusterBinding * list (list Z * Z)) : Prop :=
  cb_AllowedPrefixes e.1 = uncurry cidr4 <$> e.2 ∧ Forall (λ p, is_v4 p.1 p.2) e.2.
(** Some allowed prefix has the same leading bits as the address. *)
Definition v4Covers (b : list Z) (e : ClusterBinding * list (list Z * Z)) : Prop :=
  Exists (λ p, netbits p.2 p.1 = netbits p.2 b) e.2.
#[export] Instance v4Covers_dec b e : Decision (v4Covers b e).
Proof. unfold v4Covers. apply _. Defined.

Lemma allowedContains_cidr4 b n cid ps :
  is_v4 b n → Forall (λ p, is_v4 p.1 p.2) ps →
  allowedContains (v4InV6Prefix ++ b) cid (uncurry cidr4 <$> ps)
  = Ok (bool_decide (Exists (λ p, netbits p.2 p.1 = netbits p.2 b) ps)).
Proof.
  intros Hb. induction 1 as [|[p m] ps Hp _ IH]; [done|].
  cbn [fmap list_fmap uncurry allowedContains]. rewrite ParseCIDR_cidr4 by done. cbn [wrapErr].
  rewrite (Contains_cidr4 p m b n) by done.
  destruct (decide (netbits m p = netbits m b)) as [Hc|Hc].
  - rewrite !bool_decide_eq_true_2; [done| |done]. by left.
  - rewrite bool_decide_eq_false_2, IH by done. f_equal. apply bool_decide_ext. rewrite Exists_cons. naive_solver.
Qed.

(** (Matching is longest-bits arithmetic).  On IPv4 text, [matchBinding] parses
    what it must and returns the first binding with an allowed prefix p/m whose
    leading m bits are those of the route's address. *)
Theorem matchBinding_arith b n (tbl : list (ClusterBinding * list (list Z * Z))) :
  is_v4 b n → Forall v4Entry tbl →
  matchBinding (cidr4 b n) tbl.*1 = Ok (fst <$> head (filter (v4Covers b) tbl)).
Proof.
  intros Hb Htbl. unfold matchBinding. rewrite ParseCIDR_cidr4 by done. cbn [wrapErr].
  induction Htbl as [|[c ps] tbl [Hc Hps] _ IH]; [done|].
  cbn [fmap list_fmap matchBindings fst]. simpl in Hc, Hps. rewrite Hc.
  rewrite (allowedContains_cidr4 b n) by done. rewrite filter_cons.
  case_bool_decide as He.
  - by rewrite decide_True by done.
  - rewrite decide_False by done. apply IH.
Qed.

(** (Only the address is checked).  The route's own prefix length plays no part
    in authorization: a route less specific than everything allowed is matched
    exactly as the host route of its base address. *)
Theorem matchBinding_ignores_length b n n' bindings :
  is_v4 b n → is_v4 b n' →
  matchBinding (cidr4 b n) bindings = matchBinding (cidr4 b n') bindings.
Proof.
  intros Hb Hb'. unfold matchBinding. by rewrite !ParseCIDR_cidr4 by done.
Qed.

(** ** tracker.go *)

Lemma RejectedCounts_from (counts : gmap string Z) routes peer :
  default 0 (counts !! peer) + Z.of_nat (length routes) < 2 ^ 31 → 0 <= default 0 (counts !! peer) →
  default 0 (foldl (λ counts route,
           if rr_Rejected route
           then <[rr_Peer route := int32 (default 0 (counts !! rr_Peer route) + 1)]> counts
           else counts) counts routes !! peer)
  = default 0 (counts !! peer)
    + Z.of_nat (length (filter (λ r, rr_Rejected r = true ∧ rr_Peer r = peer) routes)).
Proof.
  revert counts. induction routes as [|r routes IH]; intros counts Hlt Hpos; cbn [foldl].
  { simpl. lia. }
  cbn [length] in Hlt. rewrite filter_cons. destruct (rr_Rejected r) eqn:Hr.
  - destruct (decide (rr_Peer r = peer)) as [Hp|Hp].
    + rewrite decide_True by done. rewrite IH; rewrite Hp, lookup_insert, decide_True by done;
        simpl; rewrite int32_id by (unfold_ints; lia); lia.
    + rewrite decide_False by naive_solver. rewrite IH; rewrite lookup_insert_ne by done; lia.
  - rewrite decide_False by naive_solver. apply IH; lia.
Qed.

(** (Rejection gauges).  After a snapshot's counts are stored, reading a peer's
    gauge gives the number of that peer's rejected routes, 0 for an unknown peer. *)
Theorem trackerGet_counts t routes peer :
  Z.of_nat (length routes) < 2 ^ 31 →
  trackerGet (trackerSet t (RejectedCountsByPeer routes)) peer
  = Z.of_nat (length (filter (λ r, rr_Rejected r = true ∧ rr_Peer r = peer) routes)).
Proof.
  intros Hlen. unfold trackerGet, trackerSet, RejectedCountsByPeer. cbn [rt_counts].
  rewrite RejectedCounts_from; rewrite lookup_empty; simpl; lia.
Qed.

(** ** Concrete instances *)

Module AuthorizeExamples.
Definition east : ClusterBinding :=
  mkClusterBinding "east" ["198.51.100.0/26"] (Some 1) (mkApiLocality "r1" "z1").
Definition west : ClusterBinding :=
  mkClusterBinding "west" ["198.51.100.64/26"; "203.0.113.0/24"] None (mkApiLocality "r2" "z2").
Definition bindings : list ClusterBinding := [east; west].

Definition route (prefix : string) : RIBRoute :=
  mkRIBRoute prefix "asserted" "10.0.0.1" (mkLocality "x" "y") 100 (Some [65001]) None false "".
Definition inEast : list RIBRoute := [route "198.51.100.8/32"; route "198.51.100.4/32"].
Definition elsewhere : list RIBRoute := [route "203.0.113.9/32"; route "192.0.2.1/32"].
Definition routes : list RIBRoute := inEast ++ elsewhere.
Definition out : list RIBRoute := authorizeSpec bindings routes <$> routes.

(** The first route is attributed, and rejected by the cap of 1; the last is bound by nothing. *)
Example out_rejected : rr_Rejected <$> out = [true; false; false; true].
Proof. vm_compute. done. Qed.

Lemma Authorize_refines_spec_witness : Authorize routes bindings = Ok out.
Proof.
  apply (Authorize_refines_spec routes bindings); [by_compute|done|].
  split; [|done]. by_compute.
Defined.

Lemma Authorize_sound_witness : ∃ b ip, b ∈ bindings ∧ bindingCovers b ip ∧ cb_ClusterID b = "west".
Proof.
  destruct (Authorize_sound routes bindings out 2 (authorizeSpec bindings routes (route "203.0.113.9/32")))
    as (r & b & ip & n & pre & post & Hr & Hp & Hb & Hcov & _ & Hc & _); [by vm_compute..|].
  exists b, ip. split; [rewrite Hb; set_solver|]. split; [done|]. rewrite <- Hc. by vm_compute.
Defined.

Lemma Authorize_cap_witness : Z.of_nat (length (admitted "east" out)) <= 1.
Proof.
  apply (Authorize_cap routes bindings out east 1); [by_compute|done|by vm_compute| |done|done].
  set_solver.
Defined.

Lemma Authorize_order_independent_witness :
  ∃ out', Authorize (reverse routes) bindings = Ok out' ∧ out ≡ₚ out'.
Proof.
  apply (Authorize_order_independent routes); [by_compute|done| |by vm_compute].
  symmetry. apply reverse_Permutation.
Defined.

Lemma Authorize_isolates_clusters_witness :
  Authorize (filter (λ r, clusterOf bindings r = Some "east") routes) bindings
  = Ok (snd <$> filter (λ ro, clusterOf bindings ro.1 = Some "east") (zip routes out)).
Proof.
  apply (Authorize_isolates_clusters routes bindings out "east"); [by_compute|done|by vm_compute].
Defined.

Lemma matchBinding_arith_witness :
  matchBinding "198.51.100.8/32" bindings = Ok (Some east).
Proof.
  apply (matchBinding_arith [198; 51; 100; 8] 32
    [(east, [([198; 51; 100; 0], 26)]); (west, [([198; 51; 100; 64], 26); ([203; 0; 113; 0], 24)])]).
  - by repeat constructor.
  - by repeat constructor.
Defined.

(** A /24 that is four times the size of the allowed /26 is attributed to it. *)
Lemma matchBinding_ignores_length_witness :
  matchBinding "198.51.100.0/24" bindings = Ok (Some east).
Proof.
  transitivity (matchBinding "198.51.100.0/32" bindings); [|by vm_compute].
  apply (matchBinding_ignores_length [198; 51; 100; 0] 24 32); by repeat constructor.
Defined.

Lemma trackerGet_counts_witness :
  trackerGet (trackerSet newRejectionTracker (RejectedCountsByPeer out)) "10.0.0.1" = 2.
Proof. by rewrite (trackerGet_counts _ out) by done. Defined.
End AuthorizeExamples.
