(* ===== verification/Objects.v ===== *)
(** * The generated Kubernetes and Istio objects

    Records with the fields the struct literals of [internal/reconcile/render.go]
    and [internal/reconcile/istio/driver.go] fill in, and [Object], the values of
    [client.Object] the renderer and its drivers produce. *)

From S2P Require Import Prelude GoTime Api.

(** ** core/v1 and discovery/v1 *)

Record ServicePort := mkServicePort {
  sp_Name : string;
  sp_Port : Z;
  sp_Protocol : string;
}.

Record Service := mkService {
  svc_TypeMeta : TypeMeta;
  svc_ObjectMeta : ObjectMeta;
  svc_ClusterIP : string;
  svc_Ports : list ServicePort;
}.

Inductive AddressType := AddressTypeIPv4 | AddressTypeIPv6.

Record Endpoint := mkEndpoint {
  ep_Addresses : list string;
  ep_Ready : option bool;
  ep_Serving : option bool;
  ep_Zone : option string;
  ep_ForZones : option (list string);
}.

Record EndpointPort := mkEndpointPort {
  epp_Name : option string;
  epp_Port : option Z;
  epp_Protocol : option string;
}.

Record EndpointSlice := mkEndpointSlice {
  es_TypeMeta : TypeMeta;
  es_ObjectMeta : ObjectMeta;
  es_AddressType : AddressType;
  es_Ports : list EndpointPort;
  es_Endpoints : list Endpoint;
}.

(** ** networking.istio.io/v1 *)

Inductive TLSmode := ClientTLSSettings_SIMPLE.

Record ClientTLSSettings := mkClientTLSSettings {
  cts_Mode : TLSmode;
  cts_Sni : string;
  cts_CredentialName : string;
}.

Record Failover := mkFailover { fo_From : string; fo_To : string }.

Record LoadBalancerSettings := mkLoadBalancerSettings { lbs_Failover : list Failover }.

Record OutlierDetection := mkOutlierDetection {
  out_Consecutive5XxErrors : option Z;
  out_BaseEjectionTime : option Duration;
  out_MaxEjectionPercent : Z;
}.

Record DestinationRule := mkDestinationRule {
  dr_TypeMeta : TypeMeta;
  dr_ObjectMeta : ObjectMeta;
  dr_Host : string;
  dr_Tls : ClientTLSSettings;
  dr_LoadBalancer : option LoadBalancerSettings;
  dr_OutlierDetection : option OutlierDetection;
}.

(** ** client.Object *)

Inductive Object :=
| OService (s : Service)
| OEndpointSlice (s : EndpointSlice)
| ODestinationRule (d : DestinationRule).

Definition objectMeta (o : Object) : ObjectMeta :=
  match o with
  | OService s => svc_ObjectMeta s
  | OEndpointSlice s => es_ObjectMeta s
  | ODestinationRule d => dr_ObjectMeta d
  end.

Definition objectKind (o : Object) : string :=
  match o with
  | OService s => tm_Kind (svc_TypeMeta s)
  | OEndpointSlice s => tm_Kind (es_TypeMeta s)
  | ODestinationRule d => tm_Kind (dr_TypeMeta d)
  end.

Definition GetName (o : Object) : string := om_Name (objectMeta o).
Definition GetNamespace (o : Object) : string := om_Namespace (objectMeta o).
Definition GetLabels (o : Object) : gmap string string := om_Labels (objectMeta o).

Definition withResourceVersion (rv : string) (m : ObjectMeta) : ObjectMeta :=
  mkObjectMeta (om_Name m) (om_Namespace m) (om_Labels m) rv.

Definition SetResourceVersion (rv : string) (o : Object) : Object :=
  match o with
  | OService s => OService (mkService (svc_TypeMeta s)
      (withResourceVersion rv (svc_ObjectMeta s)) (svc_ClusterIP s) (svc_Ports s))
  | OEndpointSlice s => OEndpointSlice (mkEndpointSlice (es_TypeMeta s)
      (withResourceVersion rv (es_ObjectMeta s)) (es_AddressType s) (es_Ports s) (es_Endpoints s))
  | ODestinationRule d => ODestinationRule (mkDestinationRule (dr_TypeMeta d)
      (withResourceVersion rv (dr_ObjectMeta d)) (dr_Host d) (dr_Tls d) (dr_LoadBalancer d)
      (dr_OutlierDetection d))
  end.

#[export] Instance AddressType_eq_dec : EqDecision AddressType.
Proof. solve_decision. Defined.
