(* ===== verification/Reconcile.v ===== *)
(** * [internal/reconcile]: from candidates to Kubernetes objects

    [Select] and [Render] are render.go and [Driver] is the interface of driver.go.
    The theorems give [Select] as a filter, say what [Render] produces for which
    candidate and when it fails, and show that generated names identify what they
    are generated for. *)

From S2P Require Import Prelude GoStrings GoNet GoTime Api Pipeline Objects.
Local Open Scope Z_scope.

(** ** driver.go *)

Definition ManagedByLabel : string := "kreg.twr.dev/managed-by".

Class Driver := {
  Lower : BGPBackendPolicy → list BackendCandidate → string → res (list Object);
}.

(** ** render.go *)

Record Output := mkOutput {
  out_Service : Service;
  out_EndpointSlices : list EndpointSlice;
  out_DriverObjects : list Object;
}.

Definition OutputObjects (o : Output) : list Object :=
  [OService (out_Service o)] ++ (OEndpointSlice <$> out_EndpointSlices o) ++ out_DriverObjects o.

(** The loop of [prefixWithinAny]. *)
Fixpoint withinLoop (ip : IP) (cidrs : list string) : res bool :=
  match cidrs with
  | [] => Ok false
  | cidr :: rest =>
      let* (_, network) := wrapErr "parse selector prefix %q: %w" [cidr] (ParseCIDR cidr) in
      if Contains network ip then Ok true else withinLoop ip rest
  end.

Definition prefixWithinAny (prefix : string) (cidrs : list string) : res bool :=
  let* (ip, _) := wrapErr "parse candidate prefix %q: %w" [prefix] (ParseCIDR prefix) in
  withinLoop ip cidrs.

Definition suppressed (d : option DampingInfo) : bool :=
  match d with
  | Some d => bool_decide (di_State d = BackendStateDampened)
              || bool_decide (di_State d = BackendStatePending)
  | None => false
  end.

Definition tagMismatch (want have : option Z) : bool :=
  match want with
  | Some t => match have with Some t' => negb (t' =? t) | None => true end
  | None => false
  end.

(** The loop of [Select]; every [continue] is one branch. *)
Fixpoint selectLoop (candidates : list BackendCandidate) (sel : BackendSelector)
    (selected : list BackendCandidate) : res (list BackendCandidate) :=
  match candidates with
  | [] => Ok selected
  | c :: rest =>
      if bc_Rejected c then selectLoop rest sel selected
      else if suppressed (bc_Damping c) then selectLoop rest sel selected
      else if (0 <? Z.of_nat (length (sel_ClusterIDs sel)))
              && negb (bool_decide (bc_ClusterID c ∈ sel_ClusterIDs sel))
      then selectLoop rest sel selected
      else if tagMismatch (sel_ServiceTag sel) (bc_ServiceTag c) then selectLoop rest sel selected
      else if 0 <? Z.of_nat (length (sel_Prefixes sel)) then
        let* within := prefixWithinAny (bc_Prefix c) (sel_Prefixes sel) in
        if negb within then selectLoop rest sel selected
        else selectLoop rest sel (selected ++ [c])
      else selectLoop rest sel (selected ++ [c])
  end.

Definition Select (candidates : list BackendCandidate) (sel : BackendSelector)
    : res (list BackendCandidate) := selectLoop candidates sel [].

Definition ServiceName (policy : BGPBackendPolicy) : string :=
  om_Name (bp_ObjectMeta policy) +:+ "-kreg".

Definition sanitizeByte (a : ascii) : ascii :=
  if bool_decide (a = "."%char) || bool_decide (a = "/"%char) || bool_decide (a = ":"%char)
  then "-"%char else a.

Definition SanitizeForName (prefix : string) : string := mapBytes sanitizeByte prefix.

Definition EndpointSliceName (serviceName clusterID prefix : string) : string :=
  serviceName +:+ "-" +:+ clusterID +:+ "-" +:+ SanitizeForName prefix.

Definition unattributedClusterID : string := "unattributed".

Definition BackendObjectName (prefix clusterID : string) : string :=
  let clusterID := if String.eqb clusterID "" then unattributedClusterID else clusterID in
  SanitizeForName prefix +:+ "-" +:+ clusterID.

Definition managedByLabels (policy : BGPBackendPolicy) (extra : gmap string string)
    : gmap string string :=
  extra ∪ {[ ManagedByLabel := om_Name (bp_ObjectMeta policy) ]}.

Definition backendPortName (backend : BackendConfig) : string :=
  match be_AppProtocol backend with
  | Some p => if negb (String.eqb p "") then p else "backend"
  | None => "backend"
  end.

Definition renderService (policy : BGPBackendPolicy) : Service :=
  let backend := bps_Backend (bp_Spec policy) in
  mkService (mkTypeMeta "v1" "Service")
    (mkObjectMeta (ServiceName policy) (om_Namespace (bp_ObjectMeta policy))
       (managedByLabels policy ∅) "")
    "None" [mkServicePort (backendPortName backend) (be_Port backend) "TCP"].

Definition addressAndType (prefix : string) : res (string * AddressType) :=
  let* (ip, _) := wrapErr "parse prefix %q: %w" [prefix] (ParseCIDR prefix) in
  match To4 ip with
  | Some _ => Ok (IPString ip, AddressTypeIPv4)
  | None => Ok (IPString ip, AddressTypeIPv6)
  end.

Definition LabelServiceName : string := "kubernetes.io/service-name".

(** One iteration of [renderEndpointSlices]. *)
Definition renderEndpointSlice (policy : BGPBackendPolicy) (serviceName : string)
    (c : BackendCandidate) : res EndpointSlice :=
  let backend := bps_Backend (bp_Spec policy) in
  let* (addr, addrType) := addressAndType (bc_Prefix c) in
  let zone := loc_Zone (bc_Locality c) in
  let endpoint := mkEndpoint [addr] (Some (negb (bc_Drain c))) (Some true)
    (if negb (String.eqb zone "") then Some zone else None)
    (if negb (String.eqb zone "") then Some [zone] else None) in
  Ok (mkEndpointSlice (mkTypeMeta "discovery.k8s.io/v1" "EndpointSlice")
        (mkObjectMeta (EndpointSliceName serviceName (bc_ClusterID c) (bc_Prefix c))
           (om_Namespace (bp_ObjectMeta policy))
           (managedByLabels policy {[ LabelServiceName := serviceName ]}) "")
        addrType
        [mkEndpointPort (Some (backendPortName backend)) (Some (be_Port backend)) (Some "TCP")]
        [endpoint]).

Definition renderEndpointSlices (policy : BGPBackendPolicy) (serviceName : string)
    (candidates : list BackendCandidate) : res (list EndpointSlice) :=
  mapRes (renderEndpointSlice policy serviceName) candidates.

Definition Render `{Driver} (policy : BGPBackendPolicy) (candidates : list BackendCandidate)
    : res Output :=
  let* selected := wrapErr "select backends: %w" []
                     (Select candidates (bps_Selector (bp_Spec policy))) in
  let svc := renderService policy in
  let svcName := om_Name (svc_ObjectMeta svc) in
  let* endpointSlices := wrapErr "render endpoint slices: %w" []
                           (renderEndpointSlices policy svcName selected) in
  let host := svcName +:+ "." +:+ om_Namespace (bp_ObjectMeta policy) +:+ ".svc.cluster.local" in
  let* driverObjects := wrapErr "lower driver objects: %w" [] (Lower policy selected host) in
  Ok (mkOutput svc endpointSlices driverObjects).

(** ** [Select] as a filter *)

(** The conditions that need no parsing. *)
Definition eligible (sel : BackendSelector) (c : BackendCandidate) : Prop :=
  bc_Rejected c = false ∧ suppressed (bc_Damping c) = false ∧
  (sel_ClusterIDs sel = [] ∨ bc_ClusterID c ∈ sel_ClusterIDs sel) ∧
  (sel_ServiceTag sel = None ∨ bc_ServiceTag c = sel_ServiceTag sel).
#[export] Instance eligible_dec sel c : Decision (eligible sel c).
Proof. unfold eligible. apply _. Defined.

(** The prefix list can be evaluated on the candidate. *)
Definition decidable_prefix (sel : BackendSelector) (c : BackendCandidate) : Prop :=
  sel_Prefixes sel = [] ∨ is_ok (prefixWithinAny (bc_Prefix c) (sel_Prefixes sel)) = true.
#[export] Instance decidable_prefix_dec sel c : Decision (decidable_prefix sel c).
Proof. unfold decidable_prefix. apply _. Defined.

Definition selects (sel : BackendSelector) (c : BackendCandidate) : Prop :=
  eligible sel c ∧
  (sel_Prefixes sel = [] ∨ match prefixWithinAny (bc_Prefix c) (sel_Prefixes sel) with
                           | Ok within => within = true | Err _ => False end).
#[export] Instance selects_dec sel c : Decision (selects sel c).
Proof.
  unfold selects. refine (and_dec _ _). apply or_dec; [apply _|].
  destruct (prefixWithinAny _ _); apply _.
Defined.

Lemma tagMismatch_false want have : tagMismatch want have = false ↔ want = None ∨ have = want.
Proof.
  unfold tagMismatch. destruct want as [t|], have as [t'|]; try naive_solver.
  rewrite negb_false_iff, Z.eqb_eq. naive_solver.
Qed.

Lemma clusterFilter_false {A} (l : list A) P `{Decision P} :
  (0 <? Z.of_nat (length l)) && negb (bool_decide P) = false ↔ l = [] ∨ P.
Proof.
  rewrite andb_false_iff, negb_false_iff, bool_decide_eq_true. destruct l; simpl; naive_solver.
Qed.

(** One iteration of the loop. *)
Lemma selectLoop_cons c rest sel acc :
  selectLoop (c :: rest) sel acc =
  if decide (eligible sel c) then
    if decide (sel_Prefixes sel = []) then selectLoop rest sel (acc ++ [c])
    else let* within := prefixWithinAny (bc_Prefix c) (sel_Prefixes sel) in
         selectLoop rest sel (if (within : bool) then acc ++ [c] else acc)
  else selectLoop rest sel acc.
Proof.
  cbn [selectLoop].
  destruct (decide (eligible sel c)) as [(-> & -> & Hcl & Htag)|Hne].
  - rewrite (proj2 (clusterFilter_false _ _) Hcl). apply tagMismatch_false in Htag. rewrite Htag.
    destruct (sel_Prefixes sel) as [|p ps]; [done|].
    rewrite decide_False by done. change (0 <? Z.of_nat (length (p :: ps))) with true.
    by destruct (prefixWithinAny _ _) as [[]|].
  - destruct (bc_Rejected c) eqn:Hr; [done|]. destruct (suppressed _) eqn:Hs; [done|].
    destruct (_ && _) eqn:Hcl; [done|]. destruct (tagMismatch _ _) eqn:Htag; [done|].
    exfalso. apply Hne. apply clusterFilter_false in Hcl. apply tagMismatch_false in Htag.
    by split_and!.
Qed.

Lemma selectLoop_spec candidates sel acc :
  (Forall (λ c, eligible sel c → decidable_prefix sel c) candidates ∧
     selectLoop candidates sel acc = Ok (acc ++ filter (selects sel) candidates)) ∨
  (¬ Forall (λ c, eligible sel c → decidable_prefix sel c) candidates ∧
     ∃ e, selectLoop candidates sel acc = Err e).
Proof.
  revert acc. induction candidates as [|c rest IH]; intros acc.
  { left. by rewrite app_nil_r. }
  rewrite selectLoop_cons, Forall_cons, filter_cons.
  assert (∀ k : list BackendCandidate, (acc ++ [c]) ++ k = acc ++ c :: k) as Happ
    by (intros; by rewrite <- app_assoc).
  destruct (decide (eligible sel c)) as [He|He].
  2:{ rewrite (decide_False (P := selects sel c)) by (unfold selects; tauto).
      destruct (IH acc); [left|right]; tauto. }
  destruct (decide (sel_Prefixes sel = [])) as [Hp|Hp].
  { rewrite (decide_True (P := selects sel c)) by (unfold selects; tauto). rewrite <- (Happ (filter (selects sel) rest)).
    assert (decidable_prefix sel c) by by left. destruct (IH (acc ++ [c])); [left|right]; tauto. }
  assert (decidable_prefix sel c ↔ is_ok (prefixWithinAny (bc_Prefix c) (sel_Prefixes sel)) = true)
    as Hdp by (unfold decidable_prefix; tauto).
  destruct (prefixWithinAny (bc_Prefix c) (sel_Prefixes sel)) as [within|e] eqn:Hw; simpl.
  2:{ right. split; [|by eexists]. rewrite Hdp. naive_solver. }
  simpl in Hdp. assert (selects sel c ↔ within = true) as Hsel by (unfold selects; rewrite Hw; tauto).
  destruct within.
  - rewrite (decide_True (P := selects sel c)) by tauto. rewrite <- (Happ (filter (selects sel) rest)).
    destruct (IH (acc ++ [c])); [left|right]; tauto.
  - rewrite (decide_False (P := selects sel c)) by naive_solver.
    destruct (IH acc); [left|right]; tauto.
Qed.


(** ** Names *)

(** Segments, each behind a dash. *)
Fixpoint dashes (xs : list string) : string :=
  match xs with [] => "" | x :: xs' => "-" +:+ x +:+ dashes xs' end.
Definition noDash (s : string) : Prop := containsByte "-" s = false.

Lemma dashes_snoc xs x : dashes (xs ++ [x]) = dashes xs +:+ "-" +:+ x.
Proof.
  induction xs as [|y xs IH]; cbn [dashes app]; [by rewrite app_empty_r|].
  rewrite IH. by rewrite !str_app_assoc.
Qed.

Lemma cut_dash_inj s s' t t' :
  noDash s → noDash s' → s +:+ "-" +:+ t = s' +:+ "-" +:+ t' → s = s' ∧ t = t'.
Proof.
  intros Hs Hs' Heq.
  pose proof (cut_app "-" s t Hs) as H1. pose proof (cut_app "-" s' t' Hs') as H2.
  rewrite !app_String, !app_empty_l in Heq. rewrite Heq in H1. rewrite H1 in H2. naive_solver.
Qed.

Lemma cutLast_app s t : noDash t → cutLast "-" (s +:+ "-" +:+ t) = Some (s, t).
Proof.
  intros Ht. rewrite !app_String, !app_empty_l.
  induction s as [|a s IH]; rewrite ?app_empty_l, ?app_String; cbn [cutLast].
  - assert (cutLast "-" t = None) as ->; [|done].
    induction t as [|b t IH]; [done|]. cbn in Ht. apply orb_false_iff in Ht as [Hb Ht].
    simpl. by rewrite IH, Hb.
  - by rewrite IH.
Qed.

(** Trailing dash-free segments can be read off. *)
Lemma dashes_suffix_inj s s' xs ys :
  length xs = length ys → Forall noDash xs → Forall noDash ys →
  s +:+ dashes xs = s' +:+ dashes ys → s = s' ∧ xs = ys.
Proof.
  revert s s' ys. induction xs as [|x xs IH] using rev_ind; intros s s' ys Hl Hx Hy Heq.
  { destruct ys; [|done]. cbn [dashes] in Heq. by rewrite !app_empty_r in Heq. }
  destruct ys as [|y ys _] using rev_ind; [by rewrite length_app in Hl; simpl in Hl; lia|].
  rewrite !length_app in Hl. apply Forall_app in Hx as [Hxs [Hx _]%Forall_cons].
  apply Forall_app in Hy as [Hys [Hy _]%Forall_cons].
  rewrite !dashes_snoc, <- !str_app_assoc in Heq. rewrite !str_app_assoc in Heq.
  assert (cutLast "-" ((s +:+ dashes xs) +:+ "-" +:+ x) = Some (s +:+ dashes xs, x)) as H1
    by by apply cutLast_app.
  assert (cutLast "-" ((s' +:+ dashes ys) +:+ "-" +:+ y) = Some (s' +:+ dashes ys, y)) as H2
    by by apply cutLast_app.
  rewrite !str_app_assoc in H1, H2. rewrite Heq in H1. rewrite H1 in H2.
  injection H2 as H2 ->. destruct (IH s s' ys) as [-> ->]; try done. simpl in Hl. lia.
Qed.

(** Leading ones too. *)
Lemma dashes_prefix_inj xs ys c c' :
  length xs = length ys → Forall noDash xs → Forall noDash ys →
  dashes xs +:+ "-" +:+ c = dashes ys +:+ "-" +:+ c' → xs = ys ∧ c = c'.
Proof.
  revert ys. induction xs as [|x xs IH]; intros ys Hl Hx Hy Heq; destruct ys as [|y ys]; try done.
  { by apply (cut_dash_inj "" "" c c') in Heq as [_ ->]. }
  apply Forall_cons in Hx as [Hx Hxs]. apply Forall_cons in Hy as [Hy Hys].
  cbn [dashes] in Heq. rewrite !str_app_assoc in Heq.
  apply (cut_dash_inj "" "" _ _) in Heq as [_ Heq]; [|done..].
  assert (∀ zs k, ∃ k', dashes zs +:+ "-" +:+ k = "-" +:+ k') as Hd.
  { intros [|z zs] k; [by eexists|]. exists (z +:+ dashes zs +:+ "-" +:+ k).
    cbn [dashes]. by rewrite !str_app_assoc. }
  destruct (Hd xs c) as [k1 Hk1], (Hd ys c') as [k2 Hk2].
  rewrite Hk1, Hk2 in Heq. apply cut_dash_inj in Heq as [-> Heq]; [|done..].
  rewrite Heq in Hk1. rewrite <- Hk2 in Hk1. destruct (IH ys) as [-> ->]; try done.
  simpl in Hl. lia.
Qed.

Lemma sanitize_digits s : digits s = true → SanitizeForName s = s.
Proof.
  unfold SanitizeForName. induction s as [|a s IH]; [done|]. simpl.
  destruct (digitVal a) eqn:Ha; [|done]. intros Hs. rewrite IH by done. f_equal.
  unfold sanitizeByte. rewrite !bool_decide_eq_false_2; [done|intros ->; done..].
Qed.

(** The segments of a sanitized IPv4 prefix. *)
Lemma sanitize_cidr4 b n : is_v4 b n →
  "-" +:+ SanitizeForName (cidr4 b n) = dashes (itoa <$> b ++ [n]).
Proof.
  intros (Hl & Hb & Hn). destruct b as [|a1 [|a2 [|a3 [|a4 [|]]]]]; try done.
  rewrite !Forall_cons in Hb. destruct Hb as ((? & ?) & (? & ?) & (? & ?) & (? & ?) & _).
  unfold SanitizeForName, cidr4. cbn [fmap list_fmap join app dashes]. rewrite !mapBytes_app.
  fold (SanitizeForName (itoa a1)) (SanitizeForName (itoa a2)) (SanitizeForName (itoa a3))
    (SanitizeForName (itoa a4)) (SanitizeForName (itoa n)).
  rewrite (sanitize_digits (itoa a1)), (sanitize_digits (itoa a2)), (sanitize_digits (itoa a3)),
    (sanitize_digits (itoa a4)), (sanitize_digits (itoa n)) by (apply digits_itoa; lia).
  change (mapBytes sanitizeByte ".") with "-". change (mapBytes sanitizeByte "/") with "-".
  by rewrite !str_app_assoc, app_empty_r.
Qed.

Lemma noDash_itoa b n : is_v4 b n → Forall noDash (itoa <$> b ++ [n]).
Proof.
  intros (_ & Hb & Hn). apply Forall_fmap, Forall_app. split.
  - eapply Forall_impl; [done|]. intros x [Hx _]. apply digits_no; [by apply digits_itoa|done].
  - repeat constructor. apply digits_no; [by apply digits_itoa; lia|done].
Qed.

Lemma v4_segments_inj b n b' n' : itoa <$> b ++ [n] = itoa <$> b' ++ [n'] → b = b' ∧ n = n'.
Proof. intros H%(inj (fmap itoa)). by apply app_inj_2 in H as [-> [= ->]]. Qed.

Definition attributed (clusterID : string) : string :=
  if String.eqb clusterID "" then unattributedClusterID else clusterID.

(** C27 (Record names identify records).  Two IPv4 prefixes and clusters share an
    AdvertisedBackend name exactly when they are the same prefix and, with the
    empty cluster read as "unattributed", the same cluster: dashes inside cluster
    names cannot make two records overwrite each other. *)
Theorem BackendObjectName_injective b n c b' n' c' :
  is_v4 b n → is_v4 b' n' →
  BackendObjectName (cidr4 b n) c = BackendObjectName (cidr4 b' n') c' ↔
  b = b' ∧ n = n' ∧ attributed c = attributed c'.
Proof.
  intros Hb Hb'. unfold BackendObjectName. fold (attributed c) (attributed c').
  split; [|by intros (-> & -> & ->)]. intros Heq.
  assert (dashes (itoa <$> b ++ [n]) +:+ "-" +:+ attributed c
          = dashes (itoa <$> b' ++ [n']) +:+ "-" +:+ attributed c') as Heq'.
  { rewrite <- !sanitize_cidr4, !str_app_assoc by done. by rewrite Heq. }
  apply dashes_prefix_inj in Heq' as [Hs Hc]; [|by destruct Hb, Hb'; rewrite !length_fmap, !length_app; simpl; lia
    |by apply noDash_itoa..].
  by apply v4_segments_inj in Hs as [-> ->].
Qed.

Lemma EndpointSliceName_v4_inj svc b n c b' n' c' :
  is_v4 b n → is_v4 b' n' →
  EndpointSliceName svc c (cidr4 b n) = EndpointSliceName svc c' (cidr4 b' n') →
  b = b' ∧ n = n' ∧ c = c'.
Proof.
  intros Hb Hb'. unfold EndpointSliceName.
  rewrite !sanitize_cidr4 by done. intros Heq.
  rewrite <- !(str_app_assoc "-" _ (dashes _)), <- !str_app_assoc in Heq.
  apply dashes_suffix_inj in Heq as [Hc Hs]; [|by destruct Hb, Hb'; rewrite !length_fmap, !length_app; simpl; lia
    |by apply noDash_itoa..].
  apply v4_segments_inj in Hs as [-> ->]. split_and!; [done..|].
  rewrite !str_app_assoc in Hc. by apply str_app_inj_l, str_app_inj_l in Hc.
Qed.

(** (IPv6 names can collide).  The guarantee does not extend to IPv6: the colon
    and the slash are flattened to the dash that also separates the cluster, so two
    different prefixes of differently named clusters can share one record name. *)
Theorem BackendObjectName_v6_collision :
  ∃ p p' c c', is_ok (ParseCIDR p) = true ∧ is_ok (ParseCIDR p') = true ∧ p ≠ p' ∧ c ≠ c' ∧
    BackendObjectName p c = BackendObjectName p' c'.
Proof. by exists "::1:2/3", "::1/2", "c", "3-c". Qed.

(** ** [Render] *)

(** What a driver promises the reconciler: everything it lowers a policy to is
    labelled with the policy and lives in its namespace. *)
Definition ownedBy (policy : BGPBackendPolicy) (o : Object) : Prop :=
  GetLabels o !! ManagedByLabel = Some (om_Name (bp_ObjectMeta policy)) ∧
  GetNamespace o = om_Namespace (bp_ObjectMeta policy).

Class OwnedDriver `{Driver} : Prop :=
  Lower_owned policy candidates host objs :
    Lower policy candidates host = Ok objs → Forall (ownedBy policy) objs.

(** The slice [s] serves candidate [c]: one endpoint at the base address of its
    prefix, ready unless the candidate drains, hinted at its zone if it has one. *)
Record sliceFor (policy : BGPBackendPolicy) (c : BackendCandidate) (s : EndpointSlice) : Prop := {
  sf_name : om_Name (es_ObjectMeta s)
            = EndpointSliceName (ServiceName policy) (bc_ClusterID c) (bc_Prefix c);
  sf_owned : ownedBy policy (OEndpointSlice s);
  sf_service : om_Labels (es_ObjectMeta s) !! LabelServiceName = Some (ServiceName policy);
  sf_endpoint : ∃ ip network e,
    ParseCIDR (bc_Prefix c) = Ok (ip, network) ∧ es_Endpoints s = [e] ∧
    ep_Addresses e = [IPString ip] ∧ ep_Ready e = Some (negb (bc_Drain c)) ∧
    (es_AddressType s = AddressTypeIPv4 ↔ is_Some (To4 ip)) ∧
    (loc_Zone (bc_Locality c) = "" → ep_Zone e = None ∧ ep_ForZones e = None) ∧
    (loc_Zone (bc_Locality c) ≠ "" →
       ep_Zone e = Some (loc_Zone (bc_Locality c)) ∧
       ep_ForZones e = Some [loc_Zone (bc_Locality c)]);
}.

Lemma managedByLabels_owner policy extra :
  extra !! ManagedByLabel = None →
  managedByLabels policy extra !! ManagedByLabel = Some (om_Name (bp_ObjectMeta policy)).
Proof.
  intros He. unfold managedByLabels. rewrite lookup_union_r by done. by rewrite lookup_singleton_eq.
Qed.

Lemma renderEndpointSlice_ok policy c s :
  renderEndpointSlice policy (ServiceName policy) c = Ok s → sliceFor policy c s.
Proof.
  unfold renderEndpointSlice, addressAndType.
  destruct (ParseCIDR (bc_Prefix c)) as [[ip network]|e] eqn:Hp; cbn [wrapErr]; [|done].
  intros Hs.
  assert (∃ ty, (ty = AddressTypeIPv4 ↔ is_Some (To4 ip)) ∧ es_AddressType s = ty ∧
    s = mkEndpointSlice (es_TypeMeta s) (es_ObjectMeta s) ty (es_Ports s) (es_Endpoints s) ∧
    es_ObjectMeta s = mkObjectMeta (EndpointSliceName (ServiceName policy) (bc_ClusterID c) (bc_Prefix c))
      (om_Namespace (bp_ObjectMeta policy))
      (managedByLabels policy {[ LabelServiceName := ServiceName policy ]}) "" ∧
    es_Endpoints s = [mkEndpoint [IPString ip] (Some (negb (bc_Drain c))) (Some true)
      (if negb (String.eqb (loc_Zone (bc_Locality c)) "") then Some (loc_Zone (bc_Locality c)) else None)
      (if negb (String.eqb (loc_Zone (bc_Locality c)) "") then Some [loc_Zone (bc_Locality c)] else None)])
    as (ty & Hty & Ha & _ & Hm & He).
  { destruct (To4 ip) as [ip4|] eqn:H4; simplify_eq/=; eexists; split_and!; try done;
      (split; [done|by intros [??]]) || by eexists. }
  constructor; unfold ownedBy, GetLabels, GetNamespace, objectMeta; rewrite ?Hm; cbn [om_Labels om_Name om_Namespace].
  - done.
  - split; [|done]. by apply managedByLabels_owner.
  - unfold managedByLabels. by apply lookup_union_Some_l, lookup_singleton_eq.
  - rewrite He, Ha. exists ip, network. eexists. split; [done|]. split; [done|].
    destruct (String.eqb_spec (loc_Zone (bc_Locality c)) ""); naive_solver.
Qed.

Lemma renderEndpointSlice_ok_iff policy svc c :
  is_ok (renderEndpointSlice policy svc c) = is_ok (ParseCIDR (bc_Prefix c)).
Proof.
  unfold renderEndpointSlice, addressAndType. destruct (ParseCIDR _) as [[ip ?]|]; [|done]. simpl.
  by destruct (To4 ip).
Qed.

Lemma Render_inv `{Driver} policy candidates out :
  Render policy candidates = Ok out →
  let selected := filter (selects (bps_Selector (bp_Spec policy))) candidates in
  Select candidates (bps_Selector (bp_Spec policy)) = Ok selected ∧
  out_Service out = renderService policy ∧
  Forall2 (sliceFor policy) selected (out_EndpointSlices out) ∧
  Lower policy selected (ServiceName policy +:+ "." +:+ om_Namespace (bp_ObjectMeta policy)
                         +:+ ".svc.cluster.local") = Ok (out_DriverObjects out).
Proof.
  unfold Render. intros Hr.
  destruct (Select candidates _) as [sel|] eqn:Hsel; [|done]. cbn [wrapErr] in Hr.
  destruct (selectLoop_spec candidates (bps_Selector (bp_Spec policy)) []) as [[_ Hs]|[_ [e Hs]]];
    unfold Select in Hsel; rewrite Hsel in Hs; simplify_eq.
  destruct (renderEndpointSlices _ _ _) as [slices|] eqn:Hsl; [|done]. cbn [wrapErr] in Hr.
  destruct (Lower _ _ _) as [objs|] eqn:Hlow; [|done]. cbn [wrapErr] in Hr. simplify_eq.
  split_and!; [done..| |done]. apply mapRes_Ok in Hsl.
  eapply Forall2_impl; [done|]. intros c s. apply renderEndpointSlice_ok.
Qed.

(** (One slice per served backend).  A successful [Render] produces the policy's
    headless Service and, in order, one EndpointSlice for each candidate the selector
    serves and for no other, with that candidate's address, readiness, zone and
    owner. *)
Theorem Render_slices `{Driver} policy candidates out :
  Render policy candidates = Ok out →
  out_Service out = renderService policy ∧
  Forall2 (sliceFor policy) (filter (selects (bps_Selector (bp_Spec policy))) candidates)
    (out_EndpointSlices out).
Proof. intros (_ & Hsvc & Hsl & _)%Render_inv. done. Qed.

(** (Everything generated is owned).  With a driver that labels what it lowers,
    every object of the output carries the policy's managed-by label and is in the
    policy's namespace. *)
Theorem Render_owned `{OwnedDriver} policy candidates out :
  Render policy candidates = Ok out → Forall (ownedBy policy) (OutputObjects out).
Proof.
  intros (_ & Hsvc & Hsl & Hlow)%Render_inv. unfold OutputObjects.
  rewrite !Forall_app, Forall_singleton, Forall_fmap. split_and!.
  - rewrite Hsvc. split; [|done]. by apply managedByLabels_owner.
  - apply Forall_forall. intros s Hs. apply list_elem_of_lookup in Hs as [i Hi].
    apply (Forall2_lookup_r _ _ _ _ _ Hsl) in Hi as (c & _ & Hc). apply Hc.
  - by eapply Lower_owned.
Qed.

(** (When rendering fails).  [Render] succeeds exactly when the selector can be
    evaluated, every selected prefix parses and the driver can lower the policy. *)
Theorem Render_ok_iff `{Driver} policy candidates :
  let selected := filter (selects (bps_Selector (bp_Spec policy))) candidates in
  (∃ out, Render policy candidates = Ok out) ↔
  Forall (λ c, eligible (bps_Selector (bp_Spec policy)) c →
               decidable_prefix (bps_Selector (bp_Spec policy)) c) candidates ∧
  Forall (λ c, is_ok (ParseCIDR (bc_Prefix c)) = true) selected ∧
  is_ok (Lower policy selected (ServiceName policy +:+ "." +:+ om_Namespace (bp_ObjectMeta policy)
                                +:+ ".svc.cluster.local")) = true.
Proof.
  intros selected. unfold Render.
  destruct (selectLoop_spec candidates (bps_Selector (bp_Spec policy)) []) as [[Hok Hs]|[Hbad [e Hs]]];
    unfold Select; rewrite Hs; cbn [wrapErr]; [|split; [by intros [??]|tauto]].
  change ([] ++ ?l) with l. fold selected.
  destruct (renderEndpointSlices policy _ selected) as [slices|e] eqn:Hsl; cbn [wrapErr].
  - assert (Forall (λ c, is_ok (ParseCIDR (bc_Prefix c)) = true) selected) as Hpar.
    { apply mapRes_Ok in Hsl. apply Forall_forall. intros c Hc.
      apply list_elem_of_lookup in Hc as [i Hi].
      destruct (Forall2_lookup_l _ _ _ _ _ Hsl Hi) as (s & _ & Hs').
      cbn in Hs'. by rewrite <- (renderEndpointSlice_ok_iff policy (ServiceName policy)), Hs'. }
    destruct (Lower _ _ _); simpl; naive_solver.
  - split; [by intros [??]|]. intros (_ & Hpar & _). exfalso.
    destruct (proj1 (mapRes_Err_iff (renderEndpointSlice policy (ServiceName policy)) selected))
      as (c & Hc & e' & He'); [by exists e|].
    rewrite Forall_forall in Hpar. apply Hpar in Hc.
    by rewrite <- (renderEndpointSlice_ok_iff policy (ServiceName policy)), He' in Hc.
Qed.

(** A candidate whose prefix is IPv4 in canonical text. *)
Definition v4Candidate (c : BackendCandidate) : Prop :=
  ∃ b n, is_v4 b n ∧ bc_Prefix c = cidr4 b n.

(** (Slices do not collide).  When no two candidates have the same prefix and
    cluster, the EndpointSlices rendered for IPv4 candidates have pairwise different
    names, so applying one never overwrites another. *)
Theorem Render_slice_names_distinct `{Driver} policy candidates out :
  Forall v4Candidate candidates →
  NoDup ((λ c, (bc_Prefix c, bc_ClusterID c)) <$> candidates) →
  Render policy candidates = Ok out →
  NoDup ((λ s, om_Name (es_ObjectMeta s)) <$> out_EndpointSlices out).
Proof.
  intros Hv4 Hnd (_ & _ & Hsl & _)%Render_inv.
  set (selected := filter _ candidates) in Hsl.
  assert ((λ s, om_Name (es_ObjectMeta s)) <$> out_EndpointSlices out =
    (λ c, EndpointSliceName (ServiceName policy) (bc_ClusterID c) (bc_Prefix c)) <$> selected) as ->.
  { symmetry. apply list_eq_Forall2, Forall2_fmap. eapply Forall2_impl; [done|].
    intros c s Hc. symmetry. apply Hc. }
  assert (NoDup ((λ c, (bc_Prefix c, bc_ClusterID c)) <$> selected)) as Hnd'.
  { eapply sublist_NoDup; [done|]. apply fmap_sublist, sublist_filter. }
  assert ((λ c, EndpointSliceName (ServiceName policy) (bc_ClusterID c) (bc_Prefix c)) <$> selected
    = (λ pc, EndpointSliceName (ServiceName policy) pc.2 pc.1) <$>
      ((λ c, (bc_Prefix c, bc_ClusterID c)) <$> selected)) as -> by by rewrite <- list_fmap_compose.
  apply NoDup_fmap_2_strong; [|done]. intros [p c] [p' c'] Hp Hp' Heq.
  apply list_elem_of_fmap in Hp as (x & [= -> ->] & [_ Hx]%list_elem_of_filter).
  apply list_elem_of_fmap in Hp' as (y & [= -> ->] & [_ Hy]%list_elem_of_filter).
  rewrite Forall_forall in Hv4.
  destruct (Hv4 x Hx) as (b & n & Hb & Hbx), (Hv4 y Hy) as (b' & n' & Hb' & Hby).
  simpl in Heq. rewrite Hbx, Hby in Heq |- *.
  by apply EndpointSliceName_v4_inj in Heq as (-> & -> & ->).
Qed.

(** ** Concrete instances *)

Module ReconcileExamples.
Definition candidate (prefix cluster : string) : BackendCandidate :=
  mkBackendCandidate prefix cluster "10.0.0.1" (mkLocality "r1" "z1") 100 (Some [65001]) None
    100 "" false None false "" None.
Definition policy : BGPBackendPolicy :=
  mkBGPBackendPolicy (mkObjectMeta "shop" "web" ∅ "")
    (mkBGPBackendPolicySpec (mkLocalPolicyTargetReference "" "Service" "shop")
       (mkBackendSelector ["198.51.100.0/24"] None ["atl-1"; "atl-2"])
       (mkBackendConfig 443 (Some "https") (mkBackendTLSConfig BackendTLSModeSimple "" None))
       (mkLoadBalancingConfig (LoadBalancingStrategyOther "") None) None None)
    (mkBGPBackendPolicyStatus [] 0 0 []).
Definition candidates : list BackendCandidate :=
  [candidate "198.51.100.10/32" "atl-1"; candidate "198.51.100.11/32" "atl-2";
   candidate "203.0.113.1/32" "atl-1"].

(** A driver that lowers nothing. *)
Definition noDriver : Driver := {| Lower := λ _ _ _, Ok [] |}.
Lemma noDriver_owned : @OwnedDriver noDriver.
Proof. intros p cs h objs [= <-]. constructor. Qed.

Definition output : Output :=
  match @Render noDriver policy candidates with
  | Ok out => out
  | Err _ => mkOutput (renderService policy) [] []
  end.
Lemma output_ok : @Render noDriver policy candidates = Ok output.
Proof. vm_compute. reflexivity. Qed.
Example output_names : (λ s, om_Name (es_ObjectMeta s)) <$> out_EndpointSlices output
  = ["shop-kreg-atl-1-198-51-100-10-32"; "shop-kreg-atl-2-198-51-100-11-32"].
Proof. vm_compute. reflexivity. Qed.

Lemma BackendObjectName_injective_witness :
  BackendObjectName "198.51.100.10/32" "atl-1" ≠ BackendObjectName "198.51.100.1/3" "2-atl-1".
Proof.
  intros E. apply (BackendObjectName_injective [198; 51; 100; 10] 32 "atl-1" [198; 51; 100; 1] 3 "2-atl-1")
    in E as (E & _); [discriminate E|by repeat constructor..].
Defined.

Lemma Render_slices_witness :
  Forall2 (sliceFor policy) (filter (selects (bps_Selector (bp_Spec policy))) candidates)
    (out_EndpointSlices output).
Proof. apply (@Render_slices noDriver policy candidates output output_ok). Defined.

Lemma Render_owned_witness : Forall (ownedBy policy) (OutputObjects output).
Proof. apply (@Render_owned noDriver noDriver_owned policy candidates output output_ok). Defined.

Lemma Render_slice_names_distinct_witness :
  NoDup ((λ s, om_Name (es_ObjectMeta s)) <$> out_EndpointSlices output).
Proof.
  apply (@Render_slice_names_distinct noDriver policy candidates output); [|by_compute|apply output_ok].
  repeat constructor; [exists [198; 51; 100; 10], 32|exists [198; 51; 100; 11], 32|exists [203; 0; 113; 1], 32];
    (split; [by repeat constructor|reflexivity]).
Defined.
End ReconcileExamples.
