(* ===== verification/Istio.v ===== *)
(** * [internal/reconcile/istio]: the Istio driver

    driver.go, the [Driver] the controller uses by default, with the instance of
    the ownership promise the renderer's theorems are stated against. *)

From S2P Require Import Prelude GoStrings GoNet GoTime Api Pipeline Objects Reconcile.
Local Open Scope Z_scope.

Definition tlsModeString (m : BackendTLSMode) : string :=
  match m with
  | BackendTLSModeSimple => "SIMPLE"
  | BackendTLSModePassthrough => "Passthrough"
  | BackendTLSModeMutual => "Mutual"
  | BackendTLSModeOther s => s
  end.

Definition clientTLSSettings (tls : BackendTLSConfig) : res ClientTLSSettings :=
  let simple := mkClientTLSSettings ClientTLSSettings_SIMPLE (tls_SNI tls)
                  (from_option lor_Name "" (tls_CredentialRef tls)) in
  match tls_Mode tls with
  | BackendTLSModeSimple | BackendTLSModeOther "" => Ok simple
  | m => Err (Errorf "backend.tls.mode %q is not yet implemented by the Istio driver (only SIMPLE ships in v1; see docs/design/architecture.md §2.3)" [tlsModeString m])
  end.

(** [preference[i]] to [preference[i+1]]; both indices are in range. *)
Definition failoverChain (preference : list string) : list Failover :=
  (λ i, mkFailover (nth i preference "") (nth (S i) preference ""))
    <$> seq 0 (length preference - 1).

Definition loadBalancerSettings (lb : LoadBalancingConfig) : option LoadBalancerSettings :=
  match lb_Locality lb with
  | None => None
  | Some l => if Z.of_nat (length (llb_Preference l)) <? 2 then None
              else Some (mkLoadBalancerSettings (failoverChain (llb_Preference l)))
  end.

Definition outlierDetection (od : option OutlierDetectionConfig) : option OutlierDetection :=
  match od with
  | None => None
  | Some od => Some (mkOutlierDetection (uint32 <$> od_Consecutive5xx od) (od_BaseEjectionTime od)
                       (default 0 (od_MaxEjectionPercent od)))
  end.

Definition istioLower (policy : BGPBackendPolicy) (candidates : list BackendCandidate)
    (host : string) : res (list Object) :=
  let spec := bp_Spec policy in
  let* tls := clientTLSSettings (be_TLS (bps_Backend spec)) in
  Ok [ODestinationRule (mkDestinationRule (mkTypeMeta "networking.istio.io/v1" "DestinationRule")
        (mkObjectMeta (om_Name (bp_ObjectMeta policy) +:+ "-kreg")
           (om_Namespace (bp_ObjectMeta policy))
           {[ ManagedByLabel := om_Name (bp_ObjectMeta policy) ]} "")
        host tls (loadBalancerSettings (bps_LoadBalancing spec))
        (outlierDetection (bps_OutlierDetection spec)))].

#[export] Instance istioDriver : Driver := {| Lower := istioLower |}.

#[export] Instance istioDriver_owned : OwnedDriver.
Proof.
  intros policy candidates host objs. simpl. unfold istioLower.
  destruct (clientTLSSettings _); [|done]. intros [= <-]. by repeat constructor.
Qed.

(** (Only implemented TLS modes render).  The driver lowers a policy to exactly one
    DestinationRule, named and placed like the policy's Service and addressed at its
    host, when the TLS mode is SIMPLE or unset, and fails on every other mode rather
    than lowering it to something else. *)
Theorem istioLower_ok_iff policy candidates host :
  match istioLower policy candidates host with
  | Ok objs =>
      (tls_Mode (be_TLS (bps_Backend (bp_Spec policy))) = BackendTLSModeSimple ∨
       tls_Mode (be_TLS (bps_Backend (bp_Spec policy))) = BackendTLSModeOther "") ∧
      ∃ dr, objs = [ODestinationRule dr] ∧ dr_Host dr = host ∧
        om_Name (dr_ObjectMeta dr) = om_Name (svc_ObjectMeta (renderService policy)) ∧
        om_Namespace (dr_ObjectMeta dr) = om_Namespace (svc_ObjectMeta (renderService policy))
  | Err _ =>
      tls_Mode (be_TLS (bps_Backend (bp_Spec policy))) ≠ BackendTLSModeSimple ∧
      tls_Mode (be_TLS (bps_Backend (bp_Spec policy))) ≠ BackendTLSModeOther ""
  end.
Proof.
  unfold istioLower, clientTLSSettings.
  destruct (tls_Mode _) as [| | |[|a s]]; simpl; naive_solver.
Qed.

(** (Failover follows the preference).  The chain pairs every locality of the
    preference with its successor, in order. *)
Theorem failoverChain_consecutive preference :
  failoverChain preference = zip_with mkFailover preference (tail preference).
Proof.
  unfold failoverChain. destruct preference as [|a l]; [done|]. simpl. rewrite Nat.sub_0_r.
  revert a. induction l as [|b l IH]; intros a; [done|]. simpl. f_equal.
  rewrite <- IH. rewrite <- seq_shift, <- list_fmap_compose. done.
Qed.
