(* ===== verification/Damp.v ===== *)
(** * [internal/damp]: the cross-tick memory and the [Damper] interface

    damp.go.  [PriorState] is rebuilt from the AdvertisedBackend records at every
    tick; a [Damper] turns it and the settled candidates into the candidates with
    damping decided. *)

From S2P Require Import Prelude GoStrings GoFloat GoTime Api Pipeline.
Local Open Scope Z_scope.

Record PriorState := mkPriorState {
  prior_Candidate : BackendCandidate;
  prior_Damping : DampingInfo;
}.

(** The interface.  Go leaves the iteration order of the map [prior] open: [order]
    is the sequence in which a run visits its entries. *)
Class Damper := {
  Evaluate : ∀ (now : Time) (candidates : list BackendCandidate) (prior : gmap string PriorState)
    (order : list (string * PriorState)) (cfg : BGPStabilityConfigSpec), list BackendCandidate;
}.

Definition priorDampingState (status : AdvertisedBackendStatus) : BackendState * string :=
  match abs_State status with
  | BackendStatePending | BackendStateHoldDown | BackendStateDampened =>
      (abs_State status, abs_Reason status)
  | _ => (BackendStateActive, "")
  end.

Definition asPathUint32 (asPath : slice Z) : slice Z :=
  match asPath with
  | None => None
  | Some l => Some (uint32 <$> l)
  end.

Definition candidateFromStatus (status : AdvertisedBackendStatus) : BackendCandidate :=
  let a := abs_Attributes status in
  mkBackendCandidate (abs_Prefix status) (abs_ClusterID status) (abs_Peer status)
    (mkLocality (aloc_Region (abs_Locality status)) (aloc_Zone (abs_Locality status)))
    (uint32 (ba_MED a)) (asPathUint32 (ba_ASPath a)) (ba_LargeCommunities a)
    (ba_Weight a) (ba_Tier a) (ba_Drain a) (ba_ServiceTag a) false "" None.

Definition timePtr (t : option Time) : option Time :=
  match t with None => None | Some t => Some t end.

(** The state rebuilt from one record; [None] when it was never evaluated. *)
Definition priorOfStatus (status : AdvertisedBackendStatus) : option PriorState :=
  let stability := abs_Stability status in
  match ss_LastObservedAt stability with
  | None => None
  | Some lastObservedAt =>
      let '(state, reason) := priorDampingState status in
      Some (mkPriorState (candidateFromStatus status)
        (mkDampingInfo state reason (float64_of_Z (ss_DampeningPenalty stability))
           (ss_FlapCount24h stability) lastObservedAt (timePtr (ss_WithdrawnAt stability))
           (timePtr (ss_SuppressedSince stability)) (timePtr (ss_PendingSince stability))))
  end.

Definition PriorStateFromAdvertisedBackends (items : list AdvertisedBackend)
    : gmap string PriorState :=
  foldl (λ prior item,
           match priorOfStatus (ab_Status item) with
           | None => prior
           | Some p => <[om_Name (ab_ObjectMeta item) := p]> prior
           end) ∅ items.

(** ** The rebuilt map *)

Lemma PriorState_from prior items name :
  NoDup ((λ i, om_Name (ab_ObjectMeta i)) <$> items) →
  (∀ i, i ∈ items → prior !! om_Name (ab_ObjectMeta i) = None) →
  foldl (λ (prior : gmap string PriorState) item,
           match priorOfStatus (ab_Status item) with
           | None => prior
           | Some p => <[om_Name (ab_ObjectMeta item) := p]> prior
           end) prior items !! name =
  match head (filter (λ i, om_Name (ab_ObjectMeta i) = name) items) with
  | Some i => priorOfStatus (ab_Status i)
  | None => prior !! name
  end.
Proof.
  revert prior. induction items as [|i items IH]; intros prior Hnd Hfresh; [done|].
  cbn [foldl]. apply NoDup_cons in Hnd as [Hi Hnd].
  assert (∀ j, j ∈ items → om_Name (ab_ObjectMeta j) ≠ om_Name (ab_ObjectMeta i)) as Hne.
  { intros j Hj Heq. apply Hi. rewrite <- Heq. by apply (list_elem_of_fmap_2 (λ i, om_Name (ab_ObjectMeta i))). }
  rewrite IH; [|done|].
  2:{ intros j Hj. destruct (priorOfStatus (ab_Status i)); [|apply Hfresh; set_solver].
      rewrite lookup_insert_ne by (intros E; by apply (Hne j Hj)). apply Hfresh. set_solver. }
  rewrite filter_cons. case_decide as Hn.
  - rewrite filter_none; [|intros j Hj ?; by apply (Hne j Hj); congruence]. simpl.
    destruct (priorOfStatus (ab_Status i)) eqn:Hp.
    + by rewrite <- Hn, lookup_insert_eq.
    + rewrite <- Hn. apply Hfresh. set_solver.
  - destruct (head _) as [j|]; [done|].
    destruct (priorOfStatus (ab_Status i)); [|done]. by rewrite lookup_insert_ne.
Qed.

Lemma PriorState_lookup items name :
  NoDup ((λ i, om_Name (ab_ObjectMeta i)) <$> items) →
  PriorStateFromAdvertisedBackends items !! name =
  match head (filter (λ i, om_Name (ab_ObjectMeta i) = name) items) with
  | Some i => priorOfStatus (ab_Status i)
  | None => None
  end.
Proof.
  intros Hnd. unfold PriorStateFromAdvertisedBackends. rewrite PriorState_from; [|done|].
  - by rewrite lookup_empty.
  - intros i _. apply lookup_empty.
Qed.

(** Every rebuilt entry comes from a record of that name. *)
Lemma PriorState_provenance items k p :
  PriorStateFromAdvertisedBackends items !! k = Some p →
  ∃ i, i ∈ items ∧ om_Name (ab_ObjectMeta i) = k ∧ priorOfStatus (ab_Status i) = Some p.
Proof.
  unfold PriorStateFromAdvertisedBackends. induction items as [|i items IH] using rev_ind; [done|].
  rewrite foldl_app. cbn [foldl].
  destruct (priorOfStatus (ab_Status i)) as [q|] eqn:Hq.
  - rewrite lookup_insert_Some. intros [[<- <-]|[_ Hp]]; [exists i; set_solver|].
    destruct (IH Hp) as (j & ? & ?). exists j. set_solver.
  - intros Hp. destruct (IH Hp) as (j & ? & ?). exists j. set_solver.
Qed.

Lemma PriorState_complete items i p :
  i ∈ items → priorOfStatus (ab_Status i) = Some p →
  is_Some (PriorStateFromAdvertisedBackends items !! om_Name (ab_ObjectMeta i)).
Proof.
  intros Hi Hp. unfold PriorStateFromAdvertisedBackends.
  induction items as [|j items IH] using rev_ind; [set_solver|]. rewrite foldl_app. cbn [foldl].
  apply elem_of_app in Hi as [Hi| ->%list_elem_of_singleton].
  - specialize (IH Hi). destruct (priorOfStatus (ab_Status j)); [|done].
    apply lookup_insert_is_Some. destruct (decide (om_Name (ab_ObjectMeta j) = om_Name (ab_ObjectMeta i))); auto.
  - rewrite Hp, lookup_insert_eq. by eexists.
Qed.

Lemma priorOfStatus_candidate status p :
  priorOfStatus status = Some p → prior_Candidate p = candidateFromStatus status.
Proof. unfold priorOfStatus. repeat case_match; naive_solver. Qed.

(** What the pipeline relies on in a damper: it changes nothing but the verdict of
    the candidates it is given, and adds only candidates of its memory. *)
Class DamperLaws `{Damper} : Prop :=
  Evaluate_provenance now candidates prior order cfg c :
    order ≡ₚ map_to_list prior → c ∈ Evaluate now candidates prior order cfg →
    (∃ c0, c0 ∈ candidates ∧ c = setDamping (bc_Damping c) c0) ∨
    (∃ k p, prior !! k = Some p ∧ c = setDamping (bc_Damping c) (prior_Candidate p)).
