(* ===== verification/Ewma.v ===== *)
(** * [internal/damp/ewma]: flap dampening

    ewma.go, the one implementation of [Damper]. *)

From S2P Require Import Prelude GoStrings GoFloat GoTime Api Pipeline Reconcile Damp.
Local Open Scope Z_scope.

Definition flapPenalty : float64 := float64_of_Z 1000.
Definition defaultHalfLife : Duration := 90 * Second.
Definition defaultSuppressThreshold : Z := 3000.
Definition defaultReuseThreshold : Z := 750.
Definition defaultMaxSuppress : Duration := 30 * Minute.
Definition flapCountHalfLife : Duration := 24 * Hour.

Definition durationOrZero (d : option Duration) : Duration := default 0 d.

Definition halfLifeOf (d : option DampeningConfig) : Duration :=
  match d with
  | Some d => default defaultHalfLife (dc_HalfLife d)
  | None => defaultHalfLife
  end.
Definition suppressThresholdOf (d : DampeningConfig) : Z :=
  default defaultSuppressThreshold (dc_SuppressThreshold d).
Definition reuseThresholdOf (d : DampeningConfig) : Z :=
  default defaultReuseThreshold (dc_ReuseThreshold d).
Definition maxSuppressOf (d : DampeningConfig) : Duration :=
  default defaultMaxSuppress (dc_MaxSuppress d).

Section ewma.
Context `{Platform}.

Definition decayScore (prevScore : float64) (elapsed halfLife : Duration) : float64 :=
  if (elapsed <=? 0) || (halfLife <=? 0) then prevScore
  else fmul prevScore (math_Pow fhalf (fdiv (Seconds elapsed) (Seconds halfLife))).

Definition decayFlapCount (prev : Z) (elapsed : Duration) : Z :=
  if elapsed <=? 0 then prev else
  let decayed := fmul (float64_of_Z prev)
                   (math_Pow fhalf (fdiv (Seconds elapsed) (Seconds flapCountHalfLife))) in
  convInt int32_min int32_max (Round decayed).

Definition suppressionState (now : Time) (score : float64) (suppressedSince : option Time)
    (dampening : option DampeningConfig) : BackendState * string * float64 * option Time :=
  match dampening with
  | None => (BackendStateActive, "", score, None)
  | Some d =>
      if negb (dc_Enabled d) then (BackendStateActive, "", score, None) else
      let suppressThreshold := suppressThresholdOf d in
      let reuseThreshold := reuseThresholdOf d in
      let maxSuppress := maxSuppressOf d in
      match suppressedSince with
      | Some since =>
          if maxSuppress <=? Sub now since then (BackendStateActive, "", fzero, None)
          else if flt score (float64_of_Z reuseThreshold)
          then (BackendStateActive, "", score, None)
          else (BackendStateDampened,
                "flap-dampened: score " +:+ fmtFloat0 score +:+ " (reuse below "
                +:+ itoa reuseThreshold +:+ ")", score, suppressedSince)
      | None =>
          if fle (float64_of_Z suppressThreshold) score
          then (BackendStateDampened,
                "flap-dampened: score " +:+ fmtFloat0 score +:+ " (>= suppressThreshold "
                +:+ itoa suppressThreshold +:+ ")", score, Some now)
          else (BackendStateActive, "", score, None)
      end
  end.

Definition newCandidateDamping (now : Time) (additionDelay : Duration) : DampingInfo :=
  if additionDelay <=? 0
  then mkDampingInfo BackendStateActive "" fzero 0 now None None None
  else mkDampingInfo BackendStatePending
         ("settling, additionDelay " +:+ DurationString additionDelay) fzero 0 now None None
         (Some now).

(** The branch of [evaluatePresent] for a candidate that is still settling. *)
Definition stillPending (now : Time) (prev : DampingInfo) (additionDelay : Duration)
    : option DampingInfo :=
  if decide (di_State prev = BackendStatePending) then
    let pendingSince := default (di_LastObservedAt prev) (di_PendingSince prev) in
    if Sub now pendingSince <? additionDelay
    then Some (mkDampingInfo BackendStatePending
                 ("settling, additionDelay " +:+ DurationString additionDelay) fzero 0 now None None
                 (Some pendingSince))
    else None
  else None.

Definition evaluatePresent (now : Time) (p : option PriorState) (additionDelay : Duration)
    (dampening : option DampeningConfig) : DampingInfo :=
  match p with
  | None => newCandidateDamping now additionDelay
  | Some p =>
      let prev := prior_Damping p in
      match stillPending now prev additionDelay with
      | Some d => d
      | None =>
          let elapsed := Sub now (di_LastObservedAt prev) in
          let score := decayScore (di_Score prev) elapsed (halfLifeOf dampening) in
          let flapCount := decayFlapCount (di_FlapCount24h prev) elapsed in
          let '(score, flapCount) :=
            match di_WithdrawnAt prev with
            | Some _ => (fadd score flapPenalty, int32 (flapCount + 1))
            | None => (score, flapCount)
            end in
          let '(state, reason, score, suppressedSince) :=
            suppressionState now score (di_SuppressedSince prev) dampening in
          mkDampingInfo state reason score flapCount now None suppressedSince None
      end
  end.

Definition evaluateAbsent (now : Time) (p : PriorState) (withdrawalGrace : Duration)
    (dampening : option DampeningConfig) : option BackendCandidate :=
  let prev := prior_Damping p in
  if decide (di_State prev = BackendStatePending) then None else
  let withdrawnAt := default now (di_WithdrawnAt prev) in
  if withdrawalGrace <=? Sub now withdrawnAt then None else
  let elapsed := Sub now (di_LastObservedAt prev) in
  let score := decayScore (di_Score prev) elapsed (halfLifeOf dampening) in
  let flapCount := decayFlapCount (di_FlapCount24h prev) elapsed in
  let '(state, reason, score, suppressedSince) :=
    suppressionState now score (di_SuppressedSince prev) dampening in
  let '(state, reason) :=
    if decide (state ≠ BackendStateDampened)
    then (BackendStateHoldDown,
          "withdrawn " +:+ DurationString (RoundDuration (Sub now withdrawnAt) Second)
          +:+ " ago, grace " +:+ DurationString withdrawalGrace)
    else (state, reason) in
  Some (setDamping (Some (mkDampingInfo state reason score flapCount now (Some withdrawnAt)
                            suppressedSince None)) (prior_Candidate p)).

(** The first loop of [Evaluate]; [seen] collects the keys of the evaluated candidates. *)
Fixpoint evaluateLoop (now : Time) (prior : gmap string PriorState) (additionDelay : Duration)
    (dampening : option DampeningConfig) (candidates : list BackendCandidate)
    (seen : gset string) (out : list BackendCandidate) : gset string * list BackendCandidate :=
  match candidates with
  | [] => (seen, out)
  | c :: rest =>
      if bc_Rejected c then evaluateLoop now prior additionDelay dampening rest seen (out ++ [c])
      else
        let key := BackendObjectName (bc_Prefix c) (bc_ClusterID c) in
        evaluateLoop now prior additionDelay dampening rest ({[ key ]} ∪ seen)
          (out ++ [setDamping (Some (evaluatePresent now (prior !! key) additionDelay dampening)) c])
  end.

Definition ewmaEvaluate (now : Time) (candidates : list BackendCandidate)
    (prior : gmap string PriorState) (order : list (string * PriorState))
    (cfg : BGPStabilityConfigSpec) : list BackendCandidate :=
  let withdrawalGrace := durationOrZero (scs_WithdrawalGrace cfg) in
  let additionDelay := durationOrZero (scs_AdditionDelay cfg) in
  let '(seen, out) := evaluateLoop now prior additionDelay (scs_Dampening cfg) candidates ∅ [] in
  foldl (λ out kp,
           if decide (kp.1 ∈ seen) then out
           else match evaluateAbsent now kp.2 withdrawalGrace (scs_Dampening cfg) with
                | Some synthesized => out ++ [synthesized]
                | None => out
                end) out order.
End ewma.

#[export] Instance ewmaDamper `{Platform} : Damper := {| Evaluate := ewmaEvaluate |}.

(** ** The shape of the result *)

(** The keys of the candidates that are evaluated. *)
Definition liveKeys (candidates : list BackendCandidate) : list string :=
  (λ c, BackendObjectName (bc_Prefix c) (bc_ClusterID c))
    <$> filter (λ c, bc_Rejected c = false) candidates.

Section shape.
Context `{Platform} (now : Time) (prior : gmap string PriorState) (cfg : BGPStabilityConfigSpec).

Definition evaluated (c : BackendCandidate) : BackendCandidate :=
  if bc_Rejected c then c
  else setDamping (Some (evaluatePresent now
         (prior !! BackendObjectName (bc_Prefix c) (bc_ClusterID c))
         (durationOrZero (scs_AdditionDelay cfg)) (scs_Dampening cfg))) c.

Definition synthesized (candidates : list BackendCandidate) (kp : string * PriorState)
    : option BackendCandidate :=
  if decide (kp.1 ∈ liveKeys candidates) then None
  else evaluateAbsent now kp.2 (durationOrZero (scs_WithdrawalGrace cfg)) (scs_Dampening cfg).

Lemma evaluateLoop_spec candidates seen out :
  ∃ seen', evaluateLoop now prior (durationOrZero (scs_AdditionDelay cfg)) (scs_Dampening cfg)
             candidates seen out = (seen', out ++ (evaluated <$> candidates)) ∧
    ∀ k, k ∈ seen' ↔ k ∈ seen ∨ k ∈ liveKeys candidates.
Proof.
  revert seen out. induction candidates as [|c rest IH]; intros seen out; cbn [evaluateLoop].
  { exists seen. rewrite app_nil_r. split; [done|]. set_solver. }
  unfold liveKeys. rewrite filter_cons, fmap_cons.
  destruct (bc_Rejected c) eqn:Hr.
  - rewrite decide_False by congruence.
    assert (evaluated c = c) as -> by (unfold evaluated; by rewrite Hr).
    destruct (IH seen (out ++ [c])) as (seen' & -> & Hs). exists seen'.
    by rewrite <- app_assoc.
  - rewrite decide_True by done. rewrite fmap_cons.
    destruct (IH ({[BackendObjectName (bc_Prefix c) (bc_ClusterID c)]} ∪ seen)
      (out ++ [setDamping (Some (evaluatePresent now
         (prior !! BackendObjectName (bc_Prefix c) (bc_ClusterID c))
         (durationOrZero (scs_AdditionDelay cfg)) (scs_Dampening cfg))) c])) as (seen' & -> & Hs).
    exists seen'. rewrite <- app_assoc. unfold evaluated at 2. rewrite Hr. split; [done|].
    intros k. rewrite Hs. unfold liveKeys. set_solver.
Qed.

Lemma ewmaEvaluate_eq candidates order :
  ewmaEvaluate now candidates prior order cfg
  = (evaluated <$> candidates) ++ omap (synthesized candidates) order.
Proof.
  unfold ewmaEvaluate.
  destruct (evaluateLoop_spec candidates ∅ []) as (seen & -> & Hseen).
  rewrite app_nil_l. generalize (evaluated <$> candidates) as out.
  induction order as [|[k p] order IH]; intros out; cbn [foldl omap list_omap]; [by rewrite app_nil_r|].
  rewrite IH. unfold synthesized at 2. cbn [fst snd].
  assert (k ∈ seen ↔ k ∈ liveKeys candidates) as Hk by (rewrite Hseen; set_solver).
  destruct (decide (k ∈ seen)), (decide (k ∈ liveKeys candidates)); try tauto.
  destruct (evaluateAbsent _ _ _ _); [by rewrite <- app_assoc|done].
Qed.
End shape.

(** (The two loops of Evaluate).  The result is the settled candidates in order,
    each rejected one untouched and each other one with its own damping verdict,
    followed by the hold-down candidates of exactly those prior entries whose key no
    evaluated candidate has; visiting the prior map in another order only permutes
    the latter. *)
Theorem Evaluate_shape `{Platform} now candidates prior order order' cfg :
  ewmaEvaluate now candidates prior order cfg
    = (evaluated now prior cfg <$> candidates) ++ omap (synthesized now cfg candidates) order ∧
  (order ≡ₚ order' → ewmaEvaluate now candidates prior order cfg
                     ≡ₚ ewmaEvaluate now candidates prior order' cfg).
Proof.
  rewrite !ewmaEvaluate_eq. split; [done|]. intros Hp. apply Permutation_app_head.
  by apply omap_Permutation.
Qed.

(** ** The well-formedness of a verdict *)

(** The four states with their time stamps: suppressed states carry the start of the
    suppression, settling ones the start of the settling, and only withdrawn ones the
    time of the withdrawal. *)
Definition wfDamping (now : Time) (d : DampingInfo) : Prop :=
  di_LastObservedAt d = now ∧
  match di_State d with
  | BackendStateActive =>
      di_SuppressedSince d = None ∧ di_PendingSince d = None ∧ di_WithdrawnAt d = None
  | BackendStatePending =>
      di_SuppressedSince d = None ∧ is_Some (di_PendingSince d) ∧ di_WithdrawnAt d = None
      ∧ di_Score d = fzero ∧ di_FlapCount24h d = 0
  | BackendStateHoldDown =>
      di_SuppressedSince d = None ∧ di_PendingSince d = None ∧ is_Some (di_WithdrawnAt d)
  | BackendStateDampened => is_Some (di_SuppressedSince d) ∧ di_PendingSince d = None
  | _ => False
  end.

Lemma suppressionState_cases `{Platform} now score since dampening :
  (∃ score', suppressionState now score since dampening = (BackendStateActive, "", score', None)
             ∧ (score' = score ∨ score' = fzero)) ∨
  (∃ reason s, suppressionState now score since dampening
               = (BackendStateDampened, reason, score, Some s)
               ∧ (since = Some s ∨ since = None ∧ s = now)).
Proof. unfold suppressionState. repeat case_match; simplify_eq; eauto 10. Qed.

Lemma evaluatePresent_wf `{Platform} now p delay dampening :
  wfDamping now (evaluatePresent now p delay dampening).
Proof.
  unfold evaluatePresent, newCandidateDamping, stillPending.
  destruct p as [p|]; [|by case_match; split; simpl; eauto 10].
  destruct (if decide _ then _ else _) as [d|] eqn:Hp.
  { repeat case_match; simplify_eq. split; simpl; eauto 10. }
  destruct (di_WithdrawnAt (prior_Damping p)); case_match; simplify_eq;
    match goal with |- context [suppressionState ?a ?b ?c ?d] =>
      destruct (suppressionState_cases a b c d) as [(? & -> & _)|(? & ? & -> & _)] end;
    split; simpl; eauto.
Qed.

Lemma evaluateAbsent_wf `{Platform} now p grace dampening c :
  evaluateAbsent now p grace dampening = Some c →
  ∃ d, bc_Damping c = Some d ∧ wfDamping now d ∧ is_Some (di_WithdrawnAt d) ∧
    (di_State d = BackendStateHoldDown ∨ di_State d = BackendStateDampened).
Proof.
  unfold evaluateAbsent. repeat case_match; intros; simplify_eq; eexists; (split; [done|]);
    repeat match goal with H : suppressionState ?a ?b ?c ?d = _ |- _ =>
      destruct (suppressionState_cases a b c d) as [(? & Heq & _)|(? & ? & Heq & _)];
      rewrite Heq in H; clear Heq end; simplify_eq/=; unfold wfDamping; simpl; try tauto; eauto 10.
Qed.

(** C38 (Verdicts are well formed).  Whatever the prior state read back from the
    cluster, every candidate [Evaluate] returns is either one it was given as rejected
    or carries a verdict in one of the four damping states with exactly the time
    stamps that state requires. *)
Theorem Evaluate_wf `{Platform} now candidates prior order cfg :
  Forall (λ c, (bc_Rejected c = true ∧ c ∈ candidates) ∨
               ∃ d, bc_Damping c = Some d ∧ wfDamping now d)
    (ewmaEvaluate now candidates prior order cfg).
Proof.
  rewrite ewmaEvaluate_eq. apply Forall_app. split; apply Forall_forall.
  - intros c (c0 & -> & Hc0)%list_elem_of_fmap. unfold evaluated.
    destruct (bc_Rejected c0) eqn:Hr; [by left|]. right. eexists. split; [done|].
    apply evaluatePresent_wf.
  - intros c (kp & Hkp & Hs)%list_elem_of_omap. right. unfold synthesized in Hs.
    case_decide; [done|]. apply evaluateAbsent_wf in Hs as (d & ? & ? & _). eauto.
Qed.

#[export] Instance ewmaDamper_laws `{Platform} : DamperLaws.
Proof.
  intros now candidates prior order cfg c Horder. simpl. rewrite ewmaEvaluate_eq, elem_of_app.
  intros [(c0 & -> & Hc0)%list_elem_of_fmap|(kp & Hkp & Hs)%list_elem_of_omap].
  - left. exists c0. split; [done|]. unfold evaluated. destruct (bc_Rejected c0); [by destruct c0|done].
  - right. destruct kp as [k p]. exists k, p. rewrite Horder, elem_of_map_to_list in Hkp.
    split; [done|]. unfold synthesized in Hs. case_decide; [done|].
    unfold evaluateAbsent in Hs. repeat case_match; simplify_eq/=; done.
Qed.

(** (Revoking a prefix does not withdraw it).  Rejected candidates do not count as
    seen, so a backend whose route is rejected at this tick, for instance because its
    binding was removed, is treated as withdrawn: with a positive [withdrawalGrace] it
    is kept in the snapshot in hold-down, and a policy still selects it. *)
Theorem rejected_route_held_down `{Platform} now candidates prior order cfg k p :
  Forall (λ c, bc_Rejected c = true) candidates → (k, p) ∈ order →
  di_State (prior_Damping p) = BackendStateActive → di_WithdrawnAt (prior_Damping p) = None →
  bc_Rejected (prior_Candidate p) = false → scs_Dampening cfg = None →
  0 < durationOrZero (scs_WithdrawalGrace cfg) →
  ∃ c, c ∈ ewmaEvaluate now candidates prior order cfg ∧
    c = setDamping (bc_Damping c) (prior_Candidate p) ∧ selects (mkBackendSelector [] None []) c.
Proof.
  intros Hrej Hin Hst Hw Hr Hdc Hg.
  assert (∃ c, synthesized now cfg candidates (k, p) = Some c ∧
    c = setDamping (bc_Damping c) (prior_Candidate p) ∧ suppressed (bc_Damping c) = false)
    as (c & Hs & Hc & Hsup).
  { unfold synthesized. rewrite decide_False.
    2:{ unfold liveKeys. rewrite filter_none; [set_solver|].
        intros c Hc. rewrite Forall_forall in Hrej. rewrite (Hrej c Hc). done. }
    unfold evaluateAbsent. cbn [snd]. rewrite Hst, decide_False by done. rewrite Hw.
    change (default now None) with now. rewrite Sub_self, Hdc.
    destruct (Z.leb_spec (durationOrZero (scs_WithdrawalGrace cfg)) 0); [lia|].
    cbn [suppressionState]. rewrite decide_True by done. by eexists. }
  exists c. split_and!; [|done|].
  - rewrite ewmaEvaluate_eq. apply elem_of_app. right. apply list_elem_of_omap. by exists (k, p).
  - split; [|by left]. split_and!; [|done|by left|by left]. by rewrite Hc.
Qed.

(** ** Decay *)

(** What the decay relies on in [math.Pow]: one half, raised to the ratio of two
    positive durations, is a number between 0 and 1. *)
Class PowLaws `{Platform} : Prop :=
  Pow_half_unit (elapsed halfLife : Duration) :
    0 < elapsed → 0 < halfLife →
    in_unit (math_Pow fhalf (fdiv (Seconds elapsed) (Seconds halfLife))).

(** A finite, non-negative score. *)
Definition score_ok (x : float64) : Prop := valid x = true ∧ finite x = true ∧ 0 <= sval x.

(** (Scores only decay).  Between flaps the score stays finite and non-negative
    and never grows, whatever the elapsed time and the configured half-life, and
    whatever rounding the multiplication does. *)
Theorem decayScore_bounded `{PowLaws} score elapsed halfLife :
  score_ok score →
  score_ok (decayScore score elapsed halfLife) ∧
  fle (decayScore score elapsed halfLife) score = true.
Proof.
  intros (Hv & Hf & Hp). unfold decayScore.
  destruct (Z.leb_spec elapsed 0); [|destruct (Z.leb_spec halfLife 0)]; simpl;
    try (split; [done|]; rewrite fle_sval by done; apply Z.leb_le; lia).
  destruct (fmul_shrinks score _ Hv Hf Hp (Pow_half_unit elapsed halfLife ltac:(lia) ltac:(lia)))
    as (Hv' & Hf' & Hp').
  split; [split_and!; [done..|lia]|]. rewrite fle_sval by done. apply Z.leb_le; lia.
Qed.

Lemma roundZ_mono_nonneg x n :
  valid x = true → finite x = true → 0 <= sval x <= n * 2 ^ 1074 → 0 <= roundZ x <= n.
Proof.
  intros Hv Hf Hs. assert (0 < 2 ^ 1074) as H2 by by vm_compute.
  destruct x as [| | |s m e]; try done; cbn [roundZ sval] in *; [nia|].
  apply valid_finite in Hv as [Hc He]. pose proof (mag_pos m e ltac:(lia)) as Hm.
  destruct s; [lia|]. unfold mag in *.
  destruct (Z.leb_spec 0 e) as [He0|He0].
  - rewrite Z.pow_add_r, Z.mul_assoc in Hs by lia. nia.
  - rewrite (split_1074 e) in Hs by lia.
    assert (0 < 2 ^ (e + 1074)) as Hq by (apply Z.pow_pos_nonneg; lia).
    assert (0 < 2 ^ (- e)) as Hr by (apply Z.pow_pos_nonneg; lia).
    assert (Zpos m <= n * 2 ^ (- e)) as Hle by nia.
    unfold roundHalfUp. replace (1 - e) with (Z.succ (- e)) by lia. rewrite Z.pow_succ_r by lia.
    split; [apply Z.div_pos; lia|].
    apply Z.lt_succ_r, Z.div_lt_upper_bound; nia.
Qed.

(** (Flap counts only decay).  The decayed flap count is an [int32] between 0 and
    the count before, so the conversion from floating point is never out of range. *)
Theorem decayFlapCount_bounded `{PowLaws} prev elapsed :
  0 <= prev <= int32_max → 0 <= decayFlapCount prev elapsed <= prev.
Proof.
  intros Hprev. unfold decayFlapCount. destruct (Z.leb_spec elapsed 0); [lia|].
  assert (0 < 2 ^ 1074) as H2 by by vm_compute.
  destruct (float64_of_Z_exact prev) as (Hv & Hf & Hs); [unfold_ints; lia|].
  destruct (fmul_shrinks (float64_of_Z prev) _ Hv Hf ltac:(nia)
    (Pow_half_unit elapsed flapCountHalfLife ltac:(lia) ltac:(done))) as (Hv' & Hf' & Hs').
  set (y := fmul _ _) in *. rewrite Hs in Hs'.
  pose proof (roundZ_mono_nonneg y prev Hv' Hf' Hs') as Hr.
  destruct (Round_spec y Hv' Hf') as (Hv'' & Hf'' & Hs'').
  unfold convInt. rewrite truncZ_sval by done. rewrite Hs'', Z.quot_mul by lia.
  replace (int32_min <=? roundZ y) with true by (unfold_ints; lia).
  replace (roundZ y <=? int32_max) with true by (unfold_ints; lia). done.
Qed.

(** The decay factor of one polling interval, 0.5^(30s/24h), as a float64. *)
Definition tickFactor : float64 := S754_finite false 9005031697963180 (-53).

Lemma tickFactor_rounds_back :
  Forall (λ n, truncZ (Round (fmul (float64_of_Z n) tickFactor)) = Some n) (seqZ 0 1001).
Proof. apply (bool_decide_unpack _). vm_compute. exact I. Qed.

(** (Flap counts stick at the polling rate).  Evaluated every 30 seconds, as the
    controllers do, a flap count of up to 1000 never decays: one tick removes less than
    half a flap, and the rounding puts it back. *)
Theorem decayFlapCount_sticks `{Platform} n :
  math_Pow fhalf (fdiv (Seconds (30 * Second)) (Seconds flapCountHalfLife)) = tickFactor →
  0 <= n <= 1000 → decayFlapCount n (30 * Second) = n.
Proof.
  intros Hpow Hn. unfold decayFlapCount. change (30 * Second <=? 0) with false. cbv iota zeta.
  rewrite Hpow. pose proof tickFactor_rounds_back as Hall. rewrite Forall_forall in Hall.
  unfold convInt. rewrite (Hall n) by (apply elem_of_seqZ; lia).
  replace (int32_min <=? n) with true by (unfold_ints; lia).
  by replace (n <=? int32_max) with true by (unfold_ints; lia).
Qed.

(** ** Concrete instances *)

Module EwmaExamples.
Import ReconcileExamples.

(** A platform whose [Pow] halves once a full half-life has passed. *)
Definition halving : Platform :=
  {| math_Pow x y := if fle fone y then fhalf else fone; conv_undefined _ := 0 |}.
Lemma halving_laws : @PowLaws halving.
Proof. intros elapsed halfLife _ _. cbn. by destruct (fle fone _). Qed.

(** One that is exact at the polling interval. *)
Definition polling : Platform := {| math_Pow _ _ := tickFactor; conv_undefined _ := 0 |}.

Definition active (now : Time) : DampingInfo :=
  mkDampingInfo BackendStateActive "" fzero 0 now None None None.
Definition memory : PriorState := mkPriorState (candidate "198.51.100.10/32" "atl-1") (active 1000).
Definition name : string := BackendObjectName "198.51.100.10/32" "atl-1".
Definition graceful : BGPStabilityConfigSpec := mkBGPStabilityConfigSpec (Some (30 * Second)) None None.

Lemma Evaluate_shape_witness :
  @ewmaEvaluate halving 2000 candidates {[ name := memory ]} [(name, memory)] graceful
  ≡ₚ @ewmaEvaluate halving 2000 candidates {[ name := memory ]} (reverse [(name, memory)]) graceful.
Proof.
  apply (@Evaluate_shape halving 2000 candidates {[ name := memory ]} [(name, memory)]
    (reverse [(name, memory)]) graceful). symmetry. apply reverse_Permutation.
Defined.

Lemma rejected_route_held_down_witness :
  ∃ c, c ∈ @ewmaEvaluate halving 2000 [setRejected true (candidate "198.51.100.10/32" "")]
              {[ name := memory ]} [(name, memory)] graceful ∧
    c = setDamping (bc_Damping c) (prior_Candidate memory) ∧ selects (mkBackendSelector [] None []) c.
Proof.
  apply (@rejected_route_held_down halving 2000 _ _ _ graceful name memory);
    [by repeat constructor|set_solver|done..].
Defined.

Lemma decayScore_bounded_witness :
  fle (@decayScore halving (float64_of_Z 3000) (90 * Second) (90 * Second)) (float64_of_Z 3000) = true.
Proof.
  apply (@decayScore_bounded halving halving_laws (float64_of_Z 3000) (90 * Second) (90 * Second)).
  by vm_compute.
Defined.

Lemma decayFlapCount_bounded_witness : 0 <= @decayFlapCount halving 7 (36 * Hour) <= 7.
Proof. apply (@decayFlapCount_bounded halving halving_laws). by vm_compute. Defined.

Lemma decayFlapCount_sticks_witness : @decayFlapCount polling 5 (30 * Second) = 5.
Proof. apply (@decayFlapCount_sticks polling 5); [reflexivity|lia]. Defined.
End EwmaExamples.
