(* ===== verification/Report.v ===== *)
(** * [internal/report]: the AdvertisedBackend view

    build.go.  The theorems show that the view is independent of the order of the
    policies, that the resources it lists are those the renderer generates, that the
    persisted penalty is always the clamped rounded score, and that a record read
    back by [internal/damp] restores the candidate and its verdict. *)

From S2P Require Import Prelude GoStrings GoNet GoFloat GoTime Api Wire Pipeline Objects Reconcile Istio Damp Ewma.
Local Open Scope Z_scope.

Definition ManagedByValue : string := "advertisedbackend".

Definition metaTime (t : Time) : option Time := if IsZero t then None else Some t.
Definition metaTimeOrNil (t : option Time) : option Time :=
  match t with None => None | Some t => metaTime t end.

Definition clampToInt32 `{Platform} (f : float64) : Z :=
  if IsNaN f then 0 else
  let rounded := Round f in
  if flt (float64_of_Z int32_max) rounded then int32_max
  else if flt rounded (float64_of_Z int32_min) then int32_min
  else convInt int32_min int32_max rounded.

Definition stateAndReason (c : BackendCandidate) : BackendState * string :=
  let undamped := if bc_Drain c then (BackendStateDraining, "") else (BackendStateActive, "") in
  if bc_Rejected c then (BackendStateRejected, bc_Reason c)
  else match bc_Damping c with
       | Some d =>
           match di_State d with
           | BackendStatePending | BackendStateHoldDown | BackendStateDampened =>
               (di_State d, di_Reason d)
           | _ => undamped
           end
       | None => undamped
       end.

Definition asPathInt64 (asPath : slice Z) : slice Z :=
  match asPath with
  | None => None
  | Some l => Some (int64 <$> l)
  end.

Definition objectName (c : BackendCandidate) : string :=
  BackendObjectName (bc_Prefix c) (bc_ClusterID c).

(** [slices.Sort] on strings. *)
Definition sortStrings `{Sorter} (l : list string) : list string :=
  SortFunc (λ a b, String.compare a b) l.

Definition boundPolicyName (policy : BGPBackendPolicy) : string :=
  om_Namespace (bp_ObjectMeta policy) +:+ "/" +:+ om_Name (bp_ObjectMeta policy).

Definition generatedResource (c : BackendCandidate) (policy : BGPBackendPolicy) : string :=
  "EndpointSlice/" +:+ om_Namespace (bp_ObjectMeta policy) +:+ "/"
  +:+ EndpointSliceName (ServiceName policy) (bc_ClusterID c) (bc_Prefix c).

(** The loop of [bindings]. *)
Fixpoint bindingsLoop (c : BackendCandidate) (policies : list BGPBackendPolicy)
    (boundPolicies generatedResources : list string) : list string * list string :=
  match policies with
  | [] => (boundPolicies, generatedResources)
  | policy :: rest =>
      match Select [c] (bps_Selector (bp_Spec policy)) with
      | Err _ | Ok [] => bindingsLoop c rest boundPolicies generatedResources
      | Ok _ => bindingsLoop c rest (boundPolicies ++ [boundPolicyName policy])
                  (generatedResources ++ [generatedResource c policy])
      end
  end.

Definition bindings `{Sorter} (c : BackendCandidate) (policies : list BGPBackendPolicy)
    : list string * list string :=
  if bc_Rejected c then ([], []) else
  let '(boundPolicies, generatedResources) := bindingsLoop c policies [] [] in
  (sortStrings boundPolicies, sortStrings generatedResources).

Definition stabilityOf `{Platform} (d : option DampingInfo) : StabilityStatus :=
  match d with
  | None => zeroStability
  | Some d => mkStabilityStatus (di_FlapCount24h d) (clampToInt32 (di_Score d))
                (metaTime (di_LastObservedAt d)) (metaTimeOrNil (di_WithdrawnAt d))
                (metaTimeOrNil (di_SuppressedSince d)) (metaTimeOrNil (di_PendingSince d))
  end.

Definition buildOne `{Platform, Sorter} (c : BackendCandidate) (policies : list BGPBackendPolicy)
    : AdvertisedBackend :=
  let '(state, reason) := stateAndReason c in
  let '(boundPolicies, generatedResources) := bindings c policies in
  mkAdvertisedBackend
    (mkObjectMeta (objectName c) "" {[ ManagedByLabel := ManagedByValue ]} "")
    (mkAdvertisedBackendStatus (bc_Prefix c) (bc_ClusterID c) (bc_Peer c)
       (mkApiLocality (loc_Region (bc_Locality c)) (loc_Zone (bc_Locality c)))
       (mkBackendAttributes (bc_Weight c) (bc_Tier c) (bc_Drain c) (bc_ServiceTag c)
          (int64 (bc_MED c)) (asPathInt64 (bc_ASPath c)) (bc_LargeCommunities c))
       state reason None None (stabilityOf (bc_Damping c)) boundPolicies generatedResources).

Definition BuildAdvertisedBackends `{Platform, Sorter} (candidates : list BackendCandidate)
    (policies : list BGPBackendPolicy) : list AdvertisedBackend :=
  (λ c, buildOne c policies) <$> candidates.

Lemma buildOne_name `{Platform, Sorter} c policies :
  om_Name (ab_ObjectMeta (buildOne c policies)) = objectName c.
Proof. unfold buildOne. by destruct (stateAndReason c), (bindings c policies). Qed.

(** ** The persisted penalty *)

(** C33 (No garbage is persisted).  For every float64, NaN and the infinities
    included, the penalty written is the rounded score clamped to the range of
    [int32] (0 for NaN); the platform-dependent result of an out-of-range conversion
    is never reached. *)
Theorem clampToInt32_spec `{Platform} f :
  valid f = true →
  clampToInt32 f = match f with
                   | S754_nan => 0
                   | S754_infinity s => if s then int32_min else int32_max
                   | _ => Z.max int32_min (Z.min int32_max (roundZ f))
                   end.
Proof.
  intros Hv. unfold clampToInt32. destruct f as [[]|[]| |s m e]; try done.
  assert (0 < 2 ^ 1074) as H2 by by vm_compute.
  cbn [IsNaN]. set (x := S754_finite s m e) in *.
  destruct (Round_spec x Hv eq_refl) as (Hv' & Hf' & Hs).
  destruct (float64_of_Z_exact int32_max) as (Hv1 & Hf1 & Hs1); [done|].
  destruct (float64_of_Z_exact int32_min) as (Hv2 & Hf2 & Hs2); [done|].
  rewrite !flt_sval by done. rewrite Hs, Hs1, Hs2.
  assert (∀ a b, (a * 2 ^ 1074 <? b * 2 ^ 1074) = (a <? b)) as Hlt.
  { intros a b. destruct (Z.ltb_spec a b); [apply Z.ltb_lt|apply Z.ltb_ge]; nia. }
  rewrite !Hlt. unfold convInt. rewrite truncZ_sval, Hs, Z.quot_mul by (done || lia).
  generalize (roundZ x). intros z. clear.
  destruct (Z.ltb_spec int32_max z), (Z.ltb_spec z int32_min),
    (Z.leb_spec int32_min z), (Z.leb_spec z int32_max); simpl; unfold_ints; lia.
Qed.

(** ** The bindings of a candidate *)

Lemma sortStrings_perm `{Sorter} l k : l ≡ₚ k → sortStrings l = sortStrings k.
Proof.
  intros Hp. apply (StronglySorted_unique String.le).
  - apply (SortFunc_by_key id).
  - apply (SortFunc_by_key id).
  - unfold sortStrings. by rewrite !SortFunc_perm.
Qed.

Definition boundTo (c : BackendCandidate) (policy : BGPBackendPolicy) : Prop :=
  selects (bps_Selector (bp_Spec policy)) c.
#[export] Instance boundTo_dec c policy : Decision (boundTo c policy).
Proof. unfold boundTo. apply _. Defined.

Lemma Select_singleton c sel :
  match Select [c] sel with
  | Ok [] | Err _ => ¬ selects sel c
  | Ok _ => selects sel c
  end.
Proof.
  unfold Select. destruct (selectLoop_spec [c] sel []) as [[Hok ->]|[Hbad [e ->]]].
  - rewrite app_nil_l, filter_cons. by case_decide.
  - rewrite Forall_singleton in Hbad. intros [He Hw]. apply Hbad. intros _.
    destruct Hw as [Hw|Hw]; [by left|right]. by destruct (prefixWithinAny _ _).
Qed.

Lemma bindingsLoop_spec c policies b g :
  bindingsLoop c policies b g
  = (b ++ (boundPolicyName <$> filter (boundTo c) policies),
     g ++ (generatedResource c <$> filter (boundTo c) policies)).
Proof.
  revert b g. induction policies as [|p policies IH]; intros b g; cbn [bindingsLoop].
  { by rewrite !app_nil_r. }
  pose proof (Select_singleton c (bps_Selector (bp_Spec p))) as Hs.
  rewrite filter_cons.
  destruct (Select [c] _) as [[|c' cs]|e].
  - by rewrite decide_False, IH by done.
  - rewrite decide_True, IH by done. by rewrite !fmap_cons, <- !app_assoc.
  - by rewrite decide_False, IH by done.
Qed.

Lemma bindings_eq `{Sorter} c policies :
  bindings c policies =
  (sortStrings (boundPolicyName <$> filter (boundTo c) policies),
   sortStrings (generatedResource c <$> filter (boundTo c) policies)).
Proof.
  unfold bindings. destruct (bc_Rejected c) eqn:Hr; [|by rewrite bindingsLoop_spec].
  rewrite filter_none; [|by intros p _ [(Hrej & _) _]; congruence].
  assert (sortStrings [] = []) as Hnil.
  { apply Permutation_nil_r. apply SortFunc_perm. }
  by rewrite !fmap_nil, Hnil.
Qed.

(** The policies that select a candidate depend on its verdict only through its state. *)
Lemma bindings_verdict `{Sorter} c d d' policies :
  di_State d = di_State d' →
  bindings (setDamping (Some d) c) policies = bindings (setDamping (Some d') c) policies.
Proof.
  intros Hst. rewrite !bindings_eq.
  assert (∀ p, boundTo (setDamping (Some d) c) p ↔ boundTo (setDamping (Some d') c) p) as Hb.
  { intros p. unfold boundTo, selects, eligible, suppressed. simpl. by rewrite Hst. }
  rewrite (list_filter_iff _ (boundTo (setDamping (Some d') c)) policies) by done. done.
Qed.

(** (The view does not flap with the API server's list order).  The records built
    for a snapshot are the same for every order in which the policies are listed. *)
Theorem BuildAdvertisedBackends_order_independent `{Platform, Sorter} candidates policies policies' :
  policies ≡ₚ policies' →
  BuildAdvertisedBackends candidates policies = BuildAdvertisedBackends candidates policies'.
Proof.
  intros Hp. apply list_fmap_ext. intros i c _. unfold buildOne. rewrite !bindings_eq.
  assert (∀ f : BGPBackendPolicy → string, sortStrings (f <$> filter (boundTo c) policies)
    = sortStrings (f <$> filter (boundTo c) policies')) as Hs.
  { intros f. apply sortStrings_perm. by rewrite Hp. }
  by rewrite !Hs.
Qed.

(** The resource name of a generated slice. *)
Definition sliceResource (s : EndpointSlice) : string :=
  "EndpointSlice/" +:+ om_Namespace (es_ObjectMeta s) +:+ "/" +:+ om_Name (es_ObjectMeta s).
Lemma sliceResource_of policy c s : sliceFor policy c s → generatedResource c policy = sliceResource s.
Proof.
  intros [Hn [_ Hns] _ _]. unfold generatedResource, sliceResource. rewrite Hn.
  unfold GetNamespace in Hns. simpl in Hns. by rewrite Hns.
Qed.

(** The records list one slice name for every policy and candidate it selects. *)
Lemma listed_iff `{Platform, Sorter} candidates policies x :
  (∃ ab, ab ∈ BuildAdvertisedBackends candidates policies ∧ x ∈ abs_GeneratedResources (ab_Status ab)) ↔
  ∃ p c, p ∈ policies ∧ c ∈ candidates ∧ selects (bps_Selector (bp_Spec p)) c ∧ x = generatedResource c p.
Proof.
  assert (∀ c, abs_GeneratedResources (ab_Status (buildOne c policies))
    ≡ₚ generatedResource c <$> filter (boundTo c) policies) as Hgen.
  { intros c. unfold buildOne. rewrite bindings_eq. destruct (stateAndReason c). apply SortFunc_perm. }
  split.
  - intros (ab & (c & -> & Hc)%list_elem_of_fmap & Hx). rewrite Hgen in Hx.
    apply list_elem_of_fmap in Hx as (p & -> & [Hsel Hp]%list_elem_of_filter). by exists p, c.
  - intros (p & c & Hp & Hc & Hsel & ->). exists (buildOne c policies).
    split; [by apply (list_elem_of_fmap_2 (λ c, buildOne c policies))|].
    rewrite Hgen. apply list_elem_of_fmap. exists p. split; [done|]. by apply list_elem_of_filter.
Qed.

(** C28 (The view names what is generated).  The records list, for every policy, exactly
    one slice name per candidate it selects.  For a policy that renders these are exactly
    the EndpointSlices the renderer generates; so each generated slice of any policy is
    listed, and a slice that is listed without being generated is that of a policy that
    fails to render. *)
Theorem generatedResources_agree_with_Render `{Platform, Sorter, Driver} candidates policies x :
  let listed := ∃ ab, ab ∈ BuildAdvertisedBackends candidates policies ∧
                  x ∈ abs_GeneratedResources (ab_Status ab) in
  let generated p out := Render p candidates = Ok out ∧ x ∈ sliceResource <$> out_EndpointSlices out in
  (listed ↔ ∃ p c, p ∈ policies ∧ c ∈ candidates ∧ selects (bps_Selector (bp_Spec p)) c ∧
              x = generatedResource c p) ∧
  (∀ p out, p ∈ policies → generated p out → listed) ∧
  (listed → ∃ p, p ∈ policies ∧ ((∃ out, generated p out) ∨ ∃ e, Render p candidates = Err e)).
Proof.
  cbv zeta. pose proof (listed_iff candidates policies x) as Hiff.
  split; [done|]. split.
  - intros p out Hp [(_ & _ & Hsl & _)%Render_inv (s & -> & Hs)%list_elem_of_fmap].
    apply list_elem_of_lookup in Hs as [i Hi]. destruct (Forall2_lookup_r _ _ _ _ _ Hsl Hi) as (c & Hc & Hfor).
    apply list_elem_of_lookup_2, list_elem_of_filter in Hc as [Hsel Hc].
    apply Hiff. exists p, c. split_and!; [done..|]. symmetry. by apply sliceResource_of.
  - intros (p & c & Hp & Hc & Hsel & ->)%Hiff. exists p. split; [done|].
    destruct (Render p candidates) as [out|e] eqn:Hren; [left|right; by exists e].
    exists out. split; [done|]. apply Render_inv in Hren as (_ & _ & Hsl & _).
    assert (c ∈ filter (selects (bps_Selector (bp_Spec p))) candidates) as Hin by by apply list_elem_of_filter.
    apply list_elem_of_lookup in Hin as [i Hi]. destruct (Forall2_lookup_l _ _ _ _ _ Hsl Hi) as (s & Hs & Hfor).
    rewrite (sliceResource_of _ _ _ Hfor). by eapply list_elem_of_fmap_2, list_elem_of_lookup_2.
Qed.

(** ** The record as memory *)

(** What a stored record keeps of a verdict: the score as a whole number, the times in
    whole seconds, and the reason only for the states that have one. *)
Definition persist `{Platform} (d : DampingInfo) : DampingInfo :=
  mkDampingInfo (di_State d)
    (match di_State d with
     | BackendStatePending | BackendStateHoldDown | BackendStateDampened => di_Reason d
     | _ => ""
     end)
    (float64_of_Z (clampToInt32 (di_Score d))) (di_FlapCount24h d)
    (wireTime (di_LastObservedAt d)) (wireTime <$> di_WithdrawnAt d)
    (wireTime <$> di_SuppressedSince d) (wireTime <$> di_PendingSince d).

(** A candidate without its verdict and its community warning, and with nil for the
    slices that are empty. *)
Definition bare (c : BackendCandidate) : BackendCandidate :=
  mkBackendCandidate (bc_Prefix c) (bc_ClusterID c) (bc_Peer c) (bc_Locality c) (bc_MED c)
    (wireSlice (bc_ASPath c)) (wireSlice (bc_LargeCommunities c)) (bc_Weight c) (bc_Tier c)
    (bc_Drain c) (bc_ServiceTag c) false "" None.

(** Past the first second of year 1: the zero [time.Time] is read back as unset. *)
Definition stamp (t : option Time) : Prop := ∀ t', t = Some t' → Second <= t'.
Definition stamped (d : DampingInfo) : Prop :=
  Second <= di_LastObservedAt d ∧ stamp (di_WithdrawnAt d) ∧ stamp (di_SuppressedSince d) ∧
  stamp (di_PendingSince d).

Lemma stamp_None : stamp None.
Proof. done. Qed.
Lemma stamp_Some t : Second <= t → stamp (Some t).
Proof. by intros ? ? [= <-]. Qed.
Lemma stamp_default t u : Second <= u → stamp t → Second <= default u t.
Proof. destruct t as [t|]; [|done]. intros _ Ht. by apply Ht. Qed.
#[export] Hint Resolve stamp_None stamp_Some stamp_default : kreg.

Lemma stamp_wire t : stamp t → stamp (wireTime <$> t).
Proof.
  intros Ht t' (u & -> & ->)%fmap_Some. by apply (wireTime_mono Second), Ht.
Qed.

Lemma persist_stamped `{Platform} d : stamped d → stamped (persist d).
Proof.
  intros (Hl & Hw & Hs & Hp). repeat split; simpl; try by apply stamp_wire.
  by apply (wireTime_mono Second).
Qed.

(** The integer attributes at their Go widths. *)
Definition wfRoute (c : BackendCandidate) : Prop :=
  in_uint32 (bc_MED c) ∧ Forall in_uint32 (elems (bc_ASPath c)).

Lemma int64_uint32 z : in_uint32 z → int64 z = z.
Proof. unfold_ints. intros. rewrite Z.mod_small; lia. Qed.

Lemma uint32_int64_path asPath :
  Forall in_uint32 (elems asPath) →
  asPathUint32 (wireSlice (asPathInt64 asPath)) = wireSlice asPath.
Proof.
  assert (∀ l, Forall in_uint32 l → uint32 <$> (int64 <$> l) = l) as Hid.
  { intros l Hl. induction Hl as [|y k Hy _ IH]; [done|]. rewrite !fmap_cons, IH. f_equal.
    rewrite int64_uint32 by done. by apply uint32_id. }
  destruct asPath as [[|x l]|]; try done. intros Hl. pose proof (Hid _ Hl) as E. simpl in *.
  by rewrite E.
Qed.

Lemma IsZero_stamp t : Second <= t → IsZero t = false.
Proof. unfold Second, IsZero. intros. apply Z.eqb_neq. lia. Qed.

Lemma metaTimeOrNil_wire t : stamp t → timePtr (wireTimePtr (metaTimeOrNil t)) = wireTime <$> t.
Proof.
  destruct t as [t|]; [|done]. intros Ht. simpl. unfold metaTime.
  rewrite IsZero_stamp by by apply Ht. simpl. by rewrite IsZero_stamp by by apply Ht.
Qed.

(** What a stored record says of the verdict, and of the candidate. *)
Lemma prior_of_verdict `{Platform, Sorter} now c d policies :
  bc_Rejected c = false → bc_Damping c = Some d → wfDamping now d → stamped d →
  priorOfStatus (wireStatus (ab_Status (buildOne c policies)))
  = Some (mkPriorState (candidateFromStatus (wireStatus (ab_Status (buildOne c policies)))) (persist d)).
Proof.
  intros Hrej Hd [_ Hwf] (Hl & Hw & Hs & Hp).
  unfold buildOne. destruct (bindings c policies) as [bound gen].
  unfold stateAndReason. rewrite Hrej, Hd. unfold priorOfStatus, persist.
  assert (wireTimePtr (metaTime (di_LastObservedAt d)) = Some (wireTime (di_LastObservedAt d))) as Hobs.
  { unfold metaTime. rewrite IsZero_stamp by done. simpl. by rewrite IsZero_stamp. }
  destruct (di_State d) eqn:Hst; try done;
    try destruct (bc_Drain c) eqn:Hdr;
    cbn [ab_Status abs_Stability wireStatus stabilityOf wireStability ss_LastObservedAt
         ss_WithdrawnAt ss_SuppressedSince ss_PendingSince ss_DampeningPenalty ss_FlapCount24h];
    rewrite Hobs, !metaTimeOrNil_wire by done; reflexivity.
Qed.

Lemma prior_of_unevaluated `{Platform, Sorter} c policies :
  bc_Damping c = None → priorOfStatus (wireStatus (ab_Status (buildOne c policies))) = None.
Proof.
  intros Hd. unfold buildOne. destruct (stateAndReason c), (bindings c policies). by rewrite Hd.
Qed.

Lemma candidate_of_buildOne `{Platform, Sorter} c policies :
  wfRoute c → candidateFromStatus (wireStatus (ab_Status (buildOne c policies))) = bare c.
Proof.
  intros [Hmed Hpath]. unfold buildOne. destruct (stateAndReason c), (bindings c policies).
  unfold candidateFromStatus, bare. cbn.
  rewrite int64_uint32, uint32_id, uint32_int64_path by done. by destruct (bc_Locality c).
Qed.

Lemma candidate_name_of_buildOne `{Platform, Sorter} c policies :
  objectName (candidateFromStatus (wireStatus (ab_Status (buildOne c policies)))) = objectName c.
Proof. unfold buildOne. by destruct (stateAndReason c), (bindings c policies). Qed.

Lemma prior_of_buildOne `{Platform, Sorter} now c d policies :
  bc_Rejected c = false → bc_Damping c = Some d → wfDamping now d → stamped d → wfRoute c →
  priorOfStatus (wireStatus (ab_Status (buildOne c policies)))
  = Some (mkPriorState (bare c) (persist d)).
Proof.
  intros. rewrite (prior_of_verdict now c d) by done. by rewrite candidate_of_buildOne.
Qed.

(** C29 (Reports restore the damping state).  Reading a stored record back gives the
    candidate it was built from, and its verdict up to the rounding of the score and of
    the times: no state, time stamp, flap count or route attribute is lost between two
    ticks or across a restart. *)
Theorem report_prior_roundtrip `{Platform, Sorter} now c d policies :
  bc_Rejected c = false → bc_Damping c = Some d → wfDamping now d → stamped d → wfRoute c →
  PriorStateFromAdvertisedBackends [wireBackend (buildOne c policies)]
  = {[ BackendObjectName (bc_Prefix c) (bc_ClusterID c) := mkPriorState (bare c) (persist d) ]}.
Proof.
  intros. unfold PriorStateFromAdvertisedBackends. cbn [foldl wireBackend ab_Status ab_ObjectMeta].
  rewrite (prior_of_buildOne now c d) by done. rewrite insert_empty.
  f_equal. unfold buildOne. destruct (stateAndReason c), (bindings c policies). done.
Qed.

(** ** Concrete instances *)

Module ReportExamples.
Import ReconcileExamples EwmaExamples.

Definition second : BGPBackendPolicy :=
  mkBGPBackendPolicy (mkObjectMeta "api" "web" ∅ "") (bp_Spec policy) (bp_Status policy).

Lemma clampToInt32_spec_witness :
  @clampToInt32 halving (S754_finite false 6755399441055744 (-52)) = 2.
Proof.
  rewrite (@clampToInt32_spec halving (S754_finite false 6755399441055744 (-52))); by vm_compute.
Defined.

Lemma BuildAdvertisedBackends_order_independent_witness :
  @BuildAdvertisedBackends halving _ candidates [policy; second]
  = @BuildAdvertisedBackends halving _ candidates [second; policy].
Proof. apply (@BuildAdvertisedBackends_order_independent halving). apply Permutation_swap. Defined.

Lemma report_prior_roundtrip_witness :
  PriorStateFromAdvertisedBackends
    [wireBackend (@buildOne halving _
       (setDamping (Some (active (2500 * Millisecond))) (candidate "198.51.100.10/32" "atl-1")) [policy])]
  = {[ BackendObjectName "198.51.100.10/32" "atl-1" :=
         mkPriorState (bare (candidate "198.51.100.10/32" "atl-1")) (active (2 * Second)) ]}.
Proof.
  apply (@report_prior_roundtrip halving _ (2500 * Millisecond)
    (setDamping (Some (active (2500 * Millisecond))) (candidate "198.51.100.10/32" "atl-1"))
    (active (2500 * Millisecond)) [policy]);
    try done; repeat split; simpl; (done || (by repeat constructor) || auto with kreg).
Defined.

(** A policy with a TLS mode that Istio's driver refuses does not render, and yet its
    slices are listed. *)
Definition mutual : BGPBackendPolicy :=
  mkBGPBackendPolicy (bp_ObjectMeta policy)
    (mkBGPBackendPolicySpec (bps_TargetRef (bp_Spec policy)) (bps_Selector (bp_Spec policy))
       (mkBackendConfig 443 (Some "https") (mkBackendTLSConfig BackendTLSModeMutual "" None))
       (bps_LoadBalancing (bp_Spec policy)) None None)
    (bp_Status policy).
Theorem unrendered_listed :
  is_ok (@Render istioDriver mutual candidates) = false ∧
  ∃ ab, ab ∈ @BuildAdvertisedBackends halving _ candidates [mutual] ∧
    "EndpointSlice/web/shop-kreg-atl-1-198-51-100-10-32" ∈ abs_GeneratedResources (ab_Status ab).
Proof.
  split; [by vm_compute|]. apply listed_iff. exists mutual, (candidate "198.51.100.10/32" "atl-1").
  split_and!; [set_solver..|by_compute|by vm_compute].
Qed.
End ReportExamples.
