(* ===== verification/Stability.v ===== *)
(** * The life of one backend across ticks

    A backend's verdict is computed at every tick from the verdict of the tick
    before, as the stored AdvertisedBackend record keeps it ([Report.persist]: times in
    whole seconds, the score as a whole number).  [tick] is
    that step for one backend, [Observed] and [Missed] being what the settled snapshot
    says, and [run] its iteration.  The theorems are about whole runs: how long
    settling, hold-down and suppression last, and when dampening can act at all. *)

From S2P Require Import Prelude GoStrings GoFloat GoTime Api Wire Pipeline Reconcile Damp Ewma Report.
Local Open Scope Z_scope.

#[local] Arguments suppressionState : simpl never.
#[local] Arguments clampToInt32 : simpl never.
#[local] Arguments decayScore : simpl never.
#[local] Arguments decayFlapCount : simpl never.

Inductive observation := Observed | Missed.

Section stability.
Context `{Platform} (c : BackendCandidate) (cfg : BGPStabilityConfigSpec).

Let grace : Duration := durationOrZero (scs_WithdrawalGrace cfg).
Let delay : Duration := durationOrZero (scs_AdditionDelay cfg).

(** The prior state a later tick reads. *)
Definition remembered (st : option DampingInfo) : option PriorState :=
  (λ d, mkPriorState c (persist d)) <$> st.

Definition tick (now : Time) (o : observation) (st : option DampingInfo) : option DampingInfo :=
  match o with
  | Observed => Some (evaluatePresent now (remembered st)
                        (durationOrZero (scs_AdditionDelay cfg)) (scs_Dampening cfg))
  | Missed => remembered st ≫= λ p,
      evaluateAbsent now p (durationOrZero (scs_WithdrawalGrace cfg)) (scs_Dampening cfg)
        ≫= bc_Damping
  end.

Definition run (ticks : list (Time * observation)) (st : option DampingInfo) : option DampingInfo :=
  foldl (λ st t, tick t.1 t.2 st) st ticks.

(** The states a run can reach, with the time of the last tick. *)
Inductive reachable : Time → option DampingInfo → Prop :=
| reach_start now : reachable now None
| reach_tick now now' o st : reachable now st → now <= now' → reachable now' (tick now' o st).

Lemma run_snoc ticks t o st : run (ticks ++ [(t, o)]) st = tick t o (run ticks st).
Proof. unfold run. by rewrite foldl_app. Qed.

(** ** One step *)

Lemma tick_missed_some now d d' :
  tick now Missed (Some d) = Some d' →
  di_State d ≠ BackendStatePending ∧
  Sub now (default now (wireTime <$> di_WithdrawnAt d)) < grace ∧
  di_WithdrawnAt d' = Some (default now (wireTime <$> di_WithdrawnAt d)) ∧
  (di_State d' = BackendStateHoldDown ∨ di_State d' = BackendStateDampened).
Proof.
  simpl. destruct (evaluateAbsent _ _ _ _) as [c'|] eqn:He; [|done]. simpl. intros Hd'.
  destruct (evaluateAbsent_wf _ _ _ _ _ He) as (d'' & Hd & _ & _ & Hst). rewrite Hd in Hd'.
  injection Hd' as ->.
  unfold evaluateAbsent in He. simpl in He.
  destruct (decide _); [done|]. destruct (Z.leb_spec (durationOrZero (scs_WithdrawalGrace cfg))
    (Sub now (default now (wireTime <$> di_WithdrawnAt d)))); [done|].
  split_and!; [done..| |done].
  repeat case_match; simplify_eq/=; congruence.
Qed.

Lemma tick_missed_none now d :
  tick now Missed (Some d) = None ↔
  di_State d = BackendStatePending ∨
  grace <= Sub now (default now (wireTime <$> di_WithdrawnAt d)).
Proof.
  simpl. unfold evaluateAbsent. simpl.
  destruct (decide (di_State d = BackendStatePending)); [naive_solver|].
  destruct (Z.leb_spec (durationOrZero (scs_WithdrawalGrace cfg))
    (Sub now (default now (wireTime <$> di_WithdrawnAt d)))); [naive_solver|].
  split; [repeat case_match; simpl; congruence|]. intros [?|?]; [done|]. unfold grace in *. lia.
Qed.

(** ** Hold-down *)

Definition missed (times : list Time) : list (Time * observation) := (λ t, (t, Missed)) <$> times.
Definition observed (times : list Time) : list (Time * observation) := (λ t, (t, Observed)) <$> times.

Lemma run_missed_none times : run (missed times) None = None.
Proof. by induction times. Qed.

Lemma run_missed_from t1 times t d :
  StronglySorted Z.le (times ++ [t]) → di_State d ≠ BackendStatePending →
  wireTime <$> di_WithdrawnAt d = Some (wireTime t1) →
  is_Some (run (missed (times ++ [t])) (Some d)) ↔ Sub t (wireTime t1) < grace.
Proof.
  revert d. induction times as [|t' times IH]; intros d Hs Hd Hw.
  - pose proof (tick_missed_none t d) as Hn. rewrite Hw in Hn. cbn [default from_option id] in Hn.
    unfold run, missed. cbn [fmap list_fmap app foldl fst snd].
    destruct (tick t Missed (Some d)) eqn:Ht.
    + split; [|done]. intros _. assert (¬ grace <= Sub t (wireTime t1)) by naive_solver. lia.
    + split; [by intros [??]|]. intros ?. destruct (proj1 Hn eq_refl) as [?|?]; [done|lia].
  - simpl in Hs. apply StronglySorted_cons in Hs as [Hall Hs].
    change (run (missed ((t' :: times) ++ [t])) (Some d))
      with (run (missed (times ++ [t])) (tick t' Missed (Some d))).
    destruct (tick t' Missed (Some d)) as [d'|] eqn:Ht.
    + apply tick_missed_some in Ht as (_ & _ & Hw' & Hst). rewrite Hw in Hw'. simpl in Hw'.
      apply IH; [done| |by rewrite Hw'; simpl; rewrite wireTime_idem].
      intros Hp. rewrite Hp in Hst. by destruct Hst.
    + rewrite run_missed_none. split; [by intros [??]|]. intros Hlt.
      apply tick_missed_none in Ht as [?|Hge]; [done|]. rewrite Hw in Hge. simpl in Hge.
      rewrite Forall_forall in Hall. pose proof (Hall t ltac:(set_solver)) as Hle.
      pose proof (Sub_mono t' t (wireTime t1) Hle). lia.
Qed.

(** C10 (Hold-down lasts the grace, to the second).  A served backend that goes missing at
    [t1] and stays missing is held down at [t1] exactly when there is a grace, and is
    still part of the snapshot at a later tick exactly when less than
    [withdrawalGrace] has passed since [t1] rounded down to the second, however the
    ticks in between fall. *)
Theorem holdDown_lasts t1 times t d :
  StronglySorted Z.le (t1 :: times ++ [t]) → di_State d ≠ BackendStatePending →
  di_WithdrawnAt d = None →
  (is_Some (run (missed [t1]) (Some d)) ↔ 0 < durationOrZero (scs_WithdrawalGrace cfg)) ∧
  (is_Some (run (missed (t1 :: times ++ [t])) (Some d)) ↔
   Sub t (wireTime t1) < durationOrZero (scs_WithdrawalGrace cfg)).
Proof.
  intros Hs Hd Hw. apply StronglySorted_cons in Hs as [Hall Hs].
  change (run (missed (t1 :: times ++ [t])) (Some d))
    with (run (missed (times ++ [t])) (tick t1 Missed (Some d))).
  change (run (missed [t1]) (Some d)) with (tick t1 Missed (Some d)).
  pose proof (tick_missed_none t1 d) as Hn. rewrite Hw in Hn.
  cbn [default from_option id fmap option_fmap option_map] in Hn. rewrite Sub_self in Hn.
  destruct (tick t1 Missed (Some d)) as [d'|] eqn:Ht.
  - apply tick_missed_some in Ht as (_ & Hg & Hw' & Hst). rewrite Hw in Hw', Hg. simpl in Hw', Hg.
    rewrite Sub_self in Hg. split; [split; [done|by eexists]|].
    apply run_missed_from; [done| |by rewrite Hw'].
    intros Hp. rewrite Hp in Hst. by destruct Hst.
  - rewrite run_missed_none. destruct (proj1 Hn eq_refl) as [?|Hge]; [done|]. unfold grace in Hge.
    split; (split; [by intros [??]|]); intros Hlt; [lia|].
    rewrite Forall_forall in Hall. pose proof (Hall t ltac:(set_solver)) as Hle.
    pose proof (wireTime_le t1). pose proof (Sub_nonneg t (wireTime t1) ltac:(lia)). lia.
Qed.

(** ** Settling *)

Lemma tick_observed_pending now d :
  di_State d = BackendStatePending → ∃ d', tick now Observed (Some d) = Some d' ∧
    (if Sub now (wireTime (default (di_LastObservedAt d) (di_PendingSince d))) <? delay
     then di_State d' = BackendStatePending ∧
          di_PendingSince d' = Some (wireTime (default (di_LastObservedAt d) (di_PendingSince d)))
     else di_State d' ≠ BackendStatePending).
Proof.
  intros Hp. eexists. split; [done|]. unfold evaluatePresent, stillPending. simpl.
  rewrite decide_True by done. unfold delay.
  assert (default (wireTime (di_LastObservedAt d)) (wireTime <$> di_PendingSince d)
          = wireTime (default (di_LastObservedAt d) (di_PendingSince d))) as ->
    by by destruct (di_PendingSince d).
  destruct (_ <? _) eqn:Hlt; [done|].
  destruct (di_WithdrawnAt d); simpl;
    match goal with |- context [suppressionState ?a ?b ?c ?d] =>
      destruct (suppressionState_cases a b c d) as [(? & -> & _)|(? & ? & -> & _)] end; done.
Qed.

Lemma tick_observed_settled now d :
  di_State d ≠ BackendStatePending →
  ∃ d', tick now Observed (Some d) = Some d' ∧ di_State d' ≠ BackendStatePending.
Proof.
  intros Hp. eexists. split; [done|]. unfold evaluatePresent, stillPending. simpl.
  rewrite decide_False by done.
  destruct (di_WithdrawnAt d); simpl;
    match goal with |- context [suppressionState ?a ?b ?c ?d] =>
      destruct (suppressionState_cases a b c d) as [(? & -> & _)|(? & ? & -> & _)] end; done.
Qed.

(** Pending since [t1] after [elapsed], or settled. *)
Definition settlingAt (t1 : Time) (elapsed : Duration) (d : DampingInfo) : Prop :=
  if elapsed <? durationOrZero (scs_AdditionDelay cfg)
  then di_State d = BackendStatePending ∧ wireTime <$> di_PendingSince d = Some (wireTime t1)
  else di_State d ≠ BackendStatePending.

Lemma settlingAt_pending t1 elapsed d : settlingAt t1 elapsed d →
  di_State d = BackendStatePending ↔ elapsed < durationOrZero (scs_AdditionDelay cfg).
Proof.
  unfold settlingAt. destruct (Z.ltb_spec elapsed (durationOrZero (scs_AdditionDelay cfg))); [naive_solver|].
  split; [done|lia].
Qed.

Lemma settling_starts t1 : ∃ d, run (observed [t1]) None = Some d ∧ settlingAt t1 0 d.
Proof.
  exists (newCandidateDamping t1 (durationOrZero (scs_AdditionDelay cfg))). split; [done|].
  unfold settlingAt, newCandidateDamping.
  destruct (Z.ltb_spec 0 (durationOrZero (scs_AdditionDelay cfg))),
    (Z.leb_spec (durationOrZero (scs_AdditionDelay cfg)) 0); done || lia.
Qed.

Lemma settling_step t1 elapsed t d :
  settlingAt t1 elapsed d → elapsed <= Sub t (wireTime t1) →
  ∃ d', tick t Observed (Some d) = Some d' ∧ settlingAt t1 (Sub t (wireTime t1)) d'.
Proof.
  unfold settlingAt. fold delay. intros Hd Hle. destruct (Z.ltb_spec elapsed delay) as [Hlt|Hge].
  - destruct Hd as [Hp Hsince]. destruct (tick_observed_pending t d Hp) as (d' & Hd' & Hcase).
    exists d'. split; [done|].
    destruct (di_PendingSince d) as [s0|]; [|done]. injection Hsince as Hs0. simpl in Hcase.
    rewrite Hs0 in Hcase. revert Hcase. destruct (Sub t (wireTime t1) <? delay); [|done].
    intros [? ->]. simpl. by rewrite wireTime_idem.
  - destruct (tick_observed_settled t d Hd) as (d' & Hd' & Hcase). exists d'. split; [done|].
    destruct (Z.ltb_spec (Sub t (wireTime t1)) delay); [lia|done].
Qed.

Lemma settling_run t1 times t :
  StronglySorted Z.le (t1 :: times ++ [t]) →
  ∃ d, run (observed (t1 :: times ++ [t])) None = Some d ∧ settlingAt t1 (Sub t (wireTime t1)) d.
Proof.
  pose proof (wireTime_le t1) as Hw. revert t.
  induction times as [|t' times IH] using rev_ind; intros t Hs.
  - destruct (settling_starts t1) as (d1 & Hrun & Hd1).
    assert (run (observed (t1 :: [] ++ [t])) None = tick t Observed (Some d1)) as -> by by rewrite <- Hrun.
    eapply settling_step; [done|].
    apply Sub_nonneg. apply StronglySorted_cons in Hs as [Hall _].
    rewrite Forall_forall in Hall. specialize (Hall t ltac:(set_solver)). lia.
  - rewrite app_comm_cons in Hs. apply StronglySorted_app in Hs as (Hcross & Hs & _).
    destruct (IH t' Hs) as (d & Hrun & Hd).
    assert (run (observed (t1 :: (times ++ [t']) ++ [t])) None = tick t Observed (Some d)) as ->.
    { rewrite <- Hrun. rewrite app_comm_cons. unfold observed. rewrite fmap_app. apply run_snoc. }
    eapply settling_step; [done|]. apply Sub_mono. apply Hcross; set_solver.
Qed.

(** C11 (Settling lasts the addition delay, to the second).  A backend first seen at [t1]
    and present ever since is pending at [t1], and so not served, exactly when there is a
    delay, and later exactly while less than [additionDelay] has passed since [t1]
    rounded down to the second. *)
Theorem settling_lasts t1 times t :
  StronglySorted Z.le (t1 :: times ++ [t]) →
  (∃ d, run (observed [t1]) None = Some d ∧
    (di_State d = BackendStatePending ↔ 0 < durationOrZero (scs_AdditionDelay cfg))) ∧
  (∃ d, run (observed (t1 :: times ++ [t])) None = Some d ∧
    (di_State d = BackendStatePending ↔
     Sub t (wireTime t1) < durationOrZero (scs_AdditionDelay cfg))).
Proof.
  intros Hs. destruct (settling_starts t1) as (d1 & Hrun1 & Hd1), (settling_run t1 times t Hs) as (d & Hrun & Hd).
  split; [exists d1|exists d]; (split; [done|by eapply settlingAt_pending]).
Qed.

(** ** Suppression *)

Lemma tick_wf now o st d : tick now o st = Some d → wfDamping now d.
Proof.
  destruct o; simpl.
  - intros [= <-]. apply evaluatePresent_wf.
  - destruct st as [d0|]; [|done]. simpl. destruct (evaluateAbsent _ _ _ _) as [c'|] eqn:He; [|done].
    simpl. apply evaluateAbsent_wf in He as (d' & -> & Hwf & _). by intros [= <-].
Qed.

Lemma reachable_wf now d : reachable now (Some d) → ∃ now', wfDamping now' d.
Proof.
  remember (Some d) as st eqn:Hst. intros Hr. destruct Hr as [|now now' o st Hr Hle]; [done|].
  exists now'. by eapply tick_wf.
Qed.

(** A dampened verdict keeps the start of the suppression it continues, which is
    within the cap, or starts one now. *)
Lemma tick_dampened dc now o st d :
  scs_Dampening cfg = Some dc → tick now o st = Some d → di_State d = BackendStateDampened →
  match wireTime <$> (st ≫= di_SuppressedSince) with
  | Some s => di_SuppressedSince d = Some s ∧ Sub now s < maxSuppressOf dc
  | None => di_SuppressedSince d = Some now
  end.
Proof.
  intros Hdc Ht Hst.
  enough (∃ score, let '(state, _, _, since) :=
      suppressionState now score (wireTime <$> (st ≫= di_SuppressedSince)) (Some dc) in
    state = BackendStateDampened ∧ since = di_SuppressedSince d) as (score & Hs).
  { unfold suppressionState in Hs. destruct (negb _); [by destruct Hs|].
    destruct (wireTime <$> (st ≫= di_SuppressedSince)) as [s|].
    - destruct (Z.leb_spec (maxSuppressOf dc) (Sub now s)); [by destruct Hs|].
      destruct (flt _ _); [by destruct Hs|]. destruct Hs as [_ <-]. done.
    - destruct (fle _ _); [|by destruct Hs]. by destruct Hs as [_ <-]. }
  destruct o; simpl in Ht; rewrite Hdc in Ht.
  - injection Ht as <-. destruct st as [d0|]; simpl in *.
    2:{ unfold newCandidateDamping in Hst. by case_match. }
    unfold evaluatePresent in *. destruct (stillPending _ _ _) as [d'|] eqn:Hp.
    { unfold stillPending in Hp. repeat case_match; simplify_eq/=. }
    simpl in *. destruct (di_WithdrawnAt d0); simpl in *;
      match goal with |- context [suppressionState ?a ?b ?c ?d] =>
        exists b; destruct (suppressionState a b c d) as [[[state reason] score] since] end; done.
  - destruct st as [d0|]; [|done]. simpl in *.
    unfold evaluateAbsent in Ht. simpl in Ht.
    repeat case_match; simplify_eq/=; try done.
    eexists. match goal with H : suppressionState _ _ _ _ = _ |- _ => rewrite H end.
    split; [|done]. destruct (decide _); simplify_eq/=; done.
Qed.

(** [suppressedFor t0 t d]: the backend has been dampened at every tick from [t0],
    when it was not yet, to [t], whose verdict is [d]. *)
Inductive suppressedFor : Time → Time → DampingInfo → Prop :=
| suppressed_start now t0 o st d :
    reachable now st → (∀ d0, st = Some d0 → di_State d0 ≠ BackendStateDampened) →
    tick t0 o st = Some d → di_State d = BackendStateDampened → suppressedFor t0 t0 d
| suppressed_step t0 t t' o d d' :
    suppressedFor t0 t d → tick t' o (Some d) = Some d' →
    di_State d' = BackendStateDampened → suppressedFor t0 t' d'.

(** C9 (Suppression is bounded).  With a positive [maxSuppress], a backend is never
    dampened at every tick of a period that long: whether it is present, missing or
    flapping, and whatever its score, the cap lets it back. *)
Theorem suppression_bounded dc t0 t d :
  scs_Dampening cfg = Some dc → 0 < maxSuppressOf dc → suppressedFor t0 t d →
  Sub t t0 < maxSuppressOf dc.
Proof.
  intros Hdc Hmax Hs.
  enough (wireTime <$> di_SuppressedSince d = Some (wireTime t0) ∧ Sub t t0 < maxSuppressOf dc)
    by tauto.
  induction Hs as [now t0 o st d Hr Hnd Ht Hst|t0 t t' o d d' Hs [IHs _] Ht Hst].
  - pose proof (tick_dampened _ _ _ _ _ Hdc Ht Hst) as Hd.
    assert (st ≫= di_SuppressedSince = None) as Hnone.
    { destruct st as [d0|]; [|done]. apply reachable_wf in Hr as [now' [_ Hwf]].
      specialize (Hnd d0 eq_refl). simpl. destruct (di_State d0); naive_solver. }
    rewrite Hnone in Hd. simpl in Hd. by rewrite Hd, Sub_self.
  - pose proof (tick_dampened _ _ _ _ _ Hdc Ht Hst) as Hd. simpl in Hd. rewrite IHs in Hd.
    destruct Hd as [-> Hlt]. simpl. rewrite wireTime_idem. split; [done|].
    pose proof (wireTime_le t0). unfold Sub in *. lia.
Qed.

(** ** What a tick keeps *)

(** The stamps of a verdict are those of the verdict before, or new. *)
Lemma tick_stamps now o d d' :
  tick now o (Some d) = Some d' →
  di_WithdrawnAt d' = (match o with
                       | Observed => None
                       | Missed => Some (default now (wireTime <$> di_WithdrawnAt d))
                       end) ∧
  (di_State d' = BackendStateDampened →
   di_SuppressedSince d' = Some (default now (wireTime <$> di_SuppressedSince d))) ∧
  (di_State d' = BackendStatePending →
   di_PendingSince d' = Some (wireTime (default (di_LastObservedAt d) (di_PendingSince d)))).
Proof.
  destruct o; simpl.
  - intros [= <-]. unfold evaluatePresent, stillPending. simpl.
    assert (default (wireTime (di_LastObservedAt d)) (wireTime <$> di_PendingSince d)
            = wireTime (default (di_LastObservedAt d) (di_PendingSince d))) as ->
      by by destruct (di_PendingSince d).
    destruct (if decide _ then _ else _) as [d'|] eqn:Hd.
    { repeat case_match; simplify_eq. done. }
    destruct (di_WithdrawnAt d); simpl;
      match goal with |- context [suppressionState ?a ?b ?c ?d] =>
        destruct (suppressionState_cases a b c d) as [(? & -> & _)|(? & ? & -> & [Hs|[Hs ->]])] end;
      simpl; rewrite ?Hs; done.
  - unfold evaluateAbsent. simpl. destruct (decide _); [done|]. destruct (_ <=? _); [done|].
    match goal with |- context [suppressionState ?a ?b ?c ?d] =>
      destruct (suppressionState_cases a b c d) as [(? & -> & _)|(? & ? & -> & [Hs|[Hs ->]])] end;
      (destruct (decide _); [|try done]); intros [= <-]; simpl; rewrite ?Hs; try done.
Qed.

(** The reason of a settling backend is a function of the configuration. *)
Lemma tick_pending_reason now o st d :
  tick now o st = Some d → di_State d = BackendStatePending →
  di_Reason d = "settling, additionDelay " +:+ DurationString (durationOrZero (scs_AdditionDelay cfg)).
Proof.
  intros Ht Hp. destruct o; simpl in Ht.
  - injection Ht as <-. revert Hp. destruct st as [d0|]; simpl.
    2:{ unfold newCandidateDamping. by case_match. }
    unfold evaluatePresent, stillPending. simpl.
    destruct (if decide _ then _ else _) as [d'|] eqn:Hd.
    { repeat case_match; simplify_eq. done. }
    destruct (di_WithdrawnAt d0); simpl;
      match goal with |- context [suppressionState ?a ?b ?c ?d] =>
        destruct (suppressionState_cases a b c d) as [(? & -> & _)|(? & ? & -> & _)] end; done.
  - destruct st as [d0|]; [|done]. apply (tick_missed_some now d0 d) in Ht as (_ & _ & _ & Hst).
    rewrite Hp in Hst. by destruct Hst.
Qed.

(** ** Dampening needs hold-down *)

Lemma fmul_zero s p : in_unit p → ∃ s', fmul (S754_zero s) p = S754_zero s'.
Proof. intros (_ & Hf & _). destruct p; try done; by eexists. Qed.

Lemma decay_zero `{!PowLaws} s elapsed halfLife :
  ∃ s', decayScore (S754_zero s) elapsed halfLife = S754_zero s'.
Proof.
  unfold decayScore. destruct (Z.leb_spec elapsed 0); [by eexists|].
  destruct (Z.leb_spec halfLife 0); [by eexists|]. simpl. by apply fmul_zero, Pow_half_unit.
Qed.

Definition quiet (d : DampingInfo) : Prop :=
  di_WithdrawnAt d = None ∧ di_SuppressedSince d = None ∧ (∃ s, di_Score d = S754_zero s) ∧
  di_State d ≠ BackendStateDampened.

Lemma suppression_zero now s dampening :
  (∀ dc, dampening = Some dc → 0 < suppressThresholdOf dc < 2 ^ 53) →
  suppressionState now (S754_zero s) None dampening = (BackendStateActive, "", S754_zero s, None).
Proof.
  intros Hthr. unfold suppressionState. destruct dampening as [dc|]; [|done].
  destruct (negb _); [done|]. specialize (Hthr dc eq_refl).
  destruct (float64_of_Z_exact (suppressThresholdOf dc)) as (Hv & Hf & Hs); [lia|].
  rewrite fle_sval by done. rewrite Hs. assert (0 < 2 ^ 1074) by by vm_compute.
  change (sval (S754_zero s)) with 0. by replace (_ <=? 0) with false by nia.
Qed.

Lemma tick_quiet `{!PowLaws} now o st d :
  (∀ dc, scs_Dampening cfg = Some dc → 0 < suppressThresholdOf dc < 2 ^ 53) →
  grace <= 0 → (∀ d0, st = Some d0 → quiet d0) → tick now o st = Some d → quiet d.
Proof.
  intros Hthr Hg Hq Ht. destruct o.
  2:{ destruct st as [d0|]; [|done]. destruct (Hq d0 eq_refl) as (Hw & _).
      apply tick_missed_some in Ht as (_ & Hlt & _). rewrite Hw in Hlt.
      simpl in Hlt. rewrite Sub_self in Hlt. lia. }
  simpl in Ht. injection Ht as <-. destruct st as [d0|]; simpl.
  2:{ unfold newCandidateDamping. case_match; repeat split; simpl; eauto. }
  destruct (Hq d0 eq_refl) as (Hw & Hs & [s Hz] & Hd). unfold evaluatePresent.
  destruct (stillPending _ _ _) as [d'|] eqn:Hp.
  { unfold stillPending in Hp. repeat case_match; simplify_eq/=. repeat split; simpl; eauto. }
  simpl. rewrite Hw, Hs, Hz. simpl.
  destruct (decay_zero false (Sub now (wireTime (di_LastObservedAt d0))) (halfLifeOf (scs_Dampening cfg))) as [s' Hs'].
  rewrite Hs', suppression_zero by done.
  repeat split; simpl; eauto.
Qed.

(** (Dampening is inert without hold-down).  With no [withdrawalGrace] a flap leaves
    no trace: no reachable verdict has a score or is dampened, even with dampening
    enabled, because a missing backend's record is gone before it can return. *)
Theorem dampening_needs_grace `{!PowLaws} now d :
  (∀ dc, scs_Dampening cfg = Some dc → 0 < suppressThresholdOf dc < 2 ^ 53) →
  durationOrZero (scs_WithdrawalGrace cfg) <= 0 →
  reachable now (Some d) → di_State d ≠ BackendStateDampened ∧ ∃ s, di_Score d = S754_zero s.
Proof.
  intros Hthr Hg Hr. enough (quiet d) as (_ & _ & ? & ?) by done.
  remember (Some d) as st eqn:Hst. revert d Hst.
  induction Hr as [|now now' o st Hr IH Hle]; intros d Hst; [done|]. by eapply tick_quiet.
Qed.
End stability.

(** ** The route does not matter *)

(** A tick computed from what the memory holds, whatever candidate it holds it for. *)
Lemma tick_memory `{Platform} c cfg now st (m : option PriorState) :
  prior_Damping <$> m = persist <$> st →
  tick c cfg now Observed st
  = Some (evaluatePresent now m (durationOrZero (scs_AdditionDelay cfg)) (scs_Dampening cfg)) ∧
  tick c cfg now Missed st
  = m ≫= λ p, evaluateAbsent now p (durationOrZero (scs_WithdrawalGrace cfg)) (scs_Dampening cfg)
                ≫= bc_Damping.
Proof.
  destruct m as [[c' p]|], st as [d|]; try done. simpl. intros [= ->]. split.
  - unfold evaluatePresent. simpl. done.
  - unfold evaluateAbsent. simpl. repeat case_match; done.
Qed.

Lemma tick_any `{Platform} c c' cfg now o st : tick c cfg now o st = tick c' cfg now o st.
Proof.
  assert (prior_Damping <$> remembered c' st = persist <$> st) as Hm by by destruct st.
  destruct (tick_memory c cfg now st _ Hm) as [Hob Hmi]. by destruct o; [rewrite Hob|rewrite Hmi].
Qed.

(** ** Concrete instances *)

Module StabilityExamples.
Import ReconcileExamples EwmaExamples.

Definition backend : BackendCandidate := candidate "198.51.100.10/32" "atl-1".
Definition damping : DampeningConfig :=
  mkDampeningConfig true (Some (90 * Second)) (Some 1000) (Some 500) (Some Hour).
Definition careful : BGPStabilityConfigSpec :=
  mkBGPStabilityConfigSpec (Some (45 * Second)) (Some (20 * Second)) (Some damping).
Definition graceless : BGPStabilityConfigSpec :=
  mkBGPStabilityConfigSpec None (Some (20 * Second)) (Some damping).

Lemma holdDown_lasts_witness :
  is_Some (@run halving backend careful (missed [100 * Second; 130 * Second]) (Some (active (70 * Second))))
  ∧ ¬ is_Some (@run halving backend careful (missed [100 * Second; 130 * Second; 160 * Second])
                 (Some (active (70 * Second)))).
Proof.
  split.
  - apply (@holdDown_lasts halving backend careful (100 * Second) [] (130 * Second) (active (70 * Second)));
      [|done..]. by repeat constructor.
  - intros Hs. apply (@holdDown_lasts halving backend careful (100 * Second) [130 * Second] (160 * Second)
      (active (70 * Second))) in Hs; [by vm_compute in Hs| |done..]. by repeat constructor.
Defined.

Lemma settling_lasts_witness :
  ∃ d, @run halving backend careful (observed [100500 * Millisecond; 130 * Second]) None = Some d ∧
    (di_State d = BackendStatePending ↔ Sub (130 * Second) (100 * Second) < 20 * Second).
Proof.
  apply (@settling_lasts halving backend careful (100500 * Millisecond) [] (130 * Second)).
  by repeat constructor.
Defined.

(** Seen, settled, missed once and back: the flap reaches the threshold. *)
Definition before : list (Time * observation) :=
  [(100 * Second, Observed); (130 * Second, Observed); (160 * Second, Missed)].
Definition dampened : DampingInfo :=
  default (active 0) (@tick halving backend careful (190 * Second) Observed
                        (@run halving backend careful before None)).
Lemma reachable_before :
  @reachable halving backend careful (160 * Second) (@run halving backend careful before None).
Proof.
  apply (reach_tick _ _ (130 * Second)); [|by vm_compute].
  apply (reach_tick _ _ (100 * Second)); [|by vm_compute].
  apply (reach_tick _ _ 0); [constructor|by vm_compute].
Qed.

Lemma suppression_bounded_witness : Sub (190 * Second) (190 * Second) < Hour.
Proof.
  apply (@suppression_bounded halving backend careful damping (190 * Second) (190 * Second) dampened);
    [done|done|].
  apply (suppressed_start _ _ (160 * Second) (190 * Second) Observed _ _ reachable_before);
    [|by vm_compute|by vm_compute]. intros d0 E. vm_compute in E. by simplify_eq.
Defined.

Lemma dampening_needs_grace_witness :
  di_State (@evaluatePresent halving (100 * Second) None (20 * Second) (Some damping))
  ≠ BackendStateDampened.
Proof.
  apply (@dampening_needs_grace halving backend graceless halving_laws (100 * Second)).
  - by intros dc [= <-].
  - done.
  - apply (@reach_tick halving backend graceless 0 (100 * Second) Observed None);
      [constructor|by vm_compute].
Defined.
End StabilityExamples.
