(* ===== verification/Snapshot.v ===== *)
(** * [internal/snapshot]: the pipeline

    source.go chains Ingest, Authorize, Normalize and Damp.  The cluster reads and the
    RIB are the classes [KubeReader] and [RIB], the damper the class [Damper]; the
    rejection tracker is threaded as state, because it is published even when a later
    stage fails. *)

From S2P Require Import Prelude GoStrings GoNet GoFloat GoTime Api Pipeline Ingest Authorize.
From S2P Require Import Objects Reconcile Damp Ewma Report.
Local Open Scope Z_scope.

(** What one [Snapshot] reads of the cluster.  A missing object is the error
    [NotFound]. *)
Class KubeReader := {
  ListBGPPeerConfigs : res (list BGPPeerConfig);
  GetCommunityMap : string → res CommunityMap;
  GetBGPStabilityConfig : string → res BGPStabilityConfig;
  ListAdvertisedBackends : gmap string string → res (list AdvertisedBackend);
}.

Class RIB := { RIBSnapshot : res (list RIBRoute) }.

Definition communityMapName : string := "default".
Definition stabilityConfigName : string := "default".

Definition needsPriorState (spec : BGPStabilityConfigSpec) : bool :=
  if from_option (λ d, 0 <? d) false (scs_WithdrawalGrace spec) then true
  else if from_option (λ d, 0 <? d) false (scs_AdditionDelay spec) then true
  else from_option dc_Enabled false (scs_Dampening spec).

(** [Get], then the three cases of its error. *)
Definition getOptional {A} (fmt name : string) (r : res A) : res (option A) :=
  match r with
  | Ok a => Ok (Some a)
  | Err NotFound => Ok None
  | Err e => Err (Wrapf fmt [name] e)
  end.

Section snapshot.
Context `{HS : Sorter} `{HK : KubeReader} `{HR : RIB} `{HD : Damper}.

Definition allBindings (peerConfigs : list BGPPeerConfig) : list ClusterBinding :=
  peerConfigs ≫= λ pc, pcs_ClusterBindings (pc_Spec pc).

(** The stages up to and including Authorize. *)
Definition authorizedRoutes : res (list RIBRoute) :=
  let* routes := wrapErr "ingest: %w" [] RIBSnapshot in
  let* peerConfigs := wrapErr "list BGPPeerConfigs: %w" [] ListBGPPeerConfigs in
  wrapErr "authorize: %w" [] (Authorize routes (allBindings peerConfigs)).

(** The stages after it; [order] enumerates the prior map. *)
Definition finishSnapshot (now : Time)
    (order : gmap string PriorState → list (string * PriorState)) (authorized : list RIBRoute)
    : res (list BackendCandidate) :=
  let* cmObj := getOptional "get CommunityMap %q: %w" communityMapName
                  (GetCommunityMap communityMapName) in
  let cm := cmap_Spec <$> cmObj in
  let* candidates := wrapErr "normalize: %w" [] (Normalize authorized cm) in
  let* scObj := getOptional "get BGPStabilityConfig %q: %w" stabilityConfigName
                  (GetBGPStabilityConfig stabilityConfigName) in
  let spec := from_option sc_Spec zeroStabilitySpec scObj in
  let* prior :=
    if needsPriorState spec then
      let* existing := wrapErr "list AdvertisedBackends: %w" []
                         (ListAdvertisedBackends {[ ManagedByLabel := ManagedByValue ]}) in
      Ok (PriorStateFromAdvertisedBackends existing)
    else Ok ∅ in
  Ok (Evaluate now candidates prior (order prior) spec).

Definition Snapshot (now : Time) (order : gmap string PriorState → list (string * PriorState))
    (tracker : option RejectionTracker)
    : res (list BackendCandidate) * option RejectionTracker :=
  match authorizedRoutes with
  | Err e => (Err e, tracker)
  | Ok authorized =>
      (finishSnapshot now order authorized,
       (λ t, trackerSet t (RejectedCountsByPeer authorized)) <$> tracker)
  end.
End snapshot.

(** ** Publishing rejections *)

(** (Rejection counts are published as soon as they are known).  The tracker holds
    the counts of this tick's Authorize whenever that stage succeeds, whatever the
    stages after it do, and is left alone when it does not. *)
Theorem Snapshot_publishes `{Sorter, KubeReader, RIB, Damper} now order t peer :
  ∃ t', (Snapshot now order (Some t)).2 = Some t' ∧
    trackerGet t' peer =
    match authorizedRoutes with
    | Ok authorized => default 0 (RejectedCountsByPeer authorized !! peer)
    | Err _ => trackerGet t peer
    end.
Proof. unfold Snapshot. destruct authorizedRoutes; by eexists. Qed.

(** ** Skipping the prior state *)

(** A verdict without the score and the flap count, which only bookkeeping reads. *)
Definition forgetScore (c : BackendCandidate) : BackendCandidate :=
  setDamping ((λ d, mkDampingInfo (di_State d) (di_Reason d) fzero 0 (di_LastObservedAt d)
    (di_WithdrawnAt d) (di_SuppressedSince d) (di_PendingSince d)) <$> bc_Damping c) c.

(** No stamp of the record is in the future. *)
Definition notFuture (now : Time) (p : PriorState) : Prop :=
  di_LastObservedAt (prior_Damping p) <= now ∧
  (∀ t, di_WithdrawnAt (prior_Damping p) = Some t → t <= now) ∧
  (∀ t, di_PendingSince (prior_Damping p) = Some t → t <= now).

Lemma needsPriorState_false spec :
  needsPriorState spec = false →
  durationOrZero (scs_WithdrawalGrace spec) <= 0 ∧ durationOrZero (scs_AdditionDelay spec) <= 0 ∧
  (∀ dc, scs_Dampening spec = Some dc → dc_Enabled dc = false).
Proof.
  unfold needsPriorState, durationOrZero. intros Hn.
  destruct (scs_WithdrawalGrace spec) as [g|], (scs_AdditionDelay spec) as [d|]; simpl in *;
    repeat match goal with H : context [0 <? ?x] |- _ => destruct (Z.ltb_spec 0 x); [done|] end;
    split_and!; try lia; intros dc Hdc; rewrite Hdc in Hn; done.
Qed.

Lemma suppression_disabled `{Platform} now score since dampening :
  (∀ dc, dampening = Some dc → dc_Enabled dc = false) →
  suppressionState now score since dampening = (BackendStateActive, "", score, None).
Proof. intros Hd. unfold suppressionState. destruct dampening as [dc|]; [|done]. by rewrite Hd. Qed.

Lemma evaluateAbsent_no_grace `{Platform} now p grace dampening :
  grace <= 0 → notFuture now p → evaluateAbsent now p grace dampening = None.
Proof.
  intros Hg (_ & Hw & _). unfold evaluateAbsent. case_decide; [done|].
  assert (default now (di_WithdrawnAt (prior_Damping p)) <= now) as Hle.
  { destruct (di_WithdrawnAt (prior_Damping p)) eqn:E; simpl; [by apply Hw|done]. }
  pose proof (Sub_nonneg _ _ Hle). destruct (Z.leb_spec grace
    (Sub now (default now (di_WithdrawnAt (prior_Damping p))))); [done|lia].
Qed.

Lemma evaluatePresent_no_config `{Platform} now p delay dampening c :
  delay <= 0 → (∀ dc, dampening = Some dc → dc_Enabled dc = false) →
  (∀ q, p = Some q → notFuture now q) →
  forgetScore (setDamping (Some (evaluatePresent now p delay dampening)) c)
  = forgetScore (setDamping (Some (evaluatePresent now None delay dampening)) c).
Proof.
  intros Hd Hen Hnf. destruct p as [p|]; [|done].
  destruct (Hnf p eq_refl) as (Hl & _ & Hp). unfold evaluatePresent, newCandidateDamping.
  destruct (Z.leb_spec delay 0); [|lia].
  assert (stillPending now (prior_Damping p) delay = None) as ->.
  { unfold stillPending. case_decide; [|done].
    assert (default (di_LastObservedAt (prior_Damping p)) (di_PendingSince (prior_Damping p)) <= now) as Hle.
    { destruct (di_PendingSince (prior_Damping p)) eqn:E; simpl; [by apply Hp|done]. }
    pose proof (Sub_nonneg _ _ Hle). destruct (Z.ltb_spec (Sub now (default (di_LastObservedAt
      (prior_Damping p)) (di_PendingSince (prior_Damping p)))) delay); [lia|done]. }
  destruct (di_WithdrawnAt (prior_Damping p)); by rewrite suppression_disabled by done.
Qed.

(** C32 (Skipping the records is sound).  When [needsPriorState] says the records need
    not be listed, evaluating with them, provided they are not stamped in the future,
    gives the same candidates with the same states, reasons and time stamps as
    evaluating with none: only the reported score and flap count can differ. *)
Theorem needsPriorState_sound `{Platform} now candidates prior order spec :
  needsPriorState spec = false → order ≡ₚ map_to_list prior →
  (∀ k p, prior !! k = Some p → notFuture now p) →
  forgetScore <$> ewmaEvaluate now candidates prior order spec
  = forgetScore <$> ewmaEvaluate now candidates ∅ [] spec.
Proof.
  intros (Hg & Hd & Hen)%needsPriorState_false Horder Hnf. rewrite !ewmaEvaluate_eq.
  assert (omap (synthesized now spec candidates) order = []) as ->.
  { assert (∀ kp, kp ∈ order → notFuture now kp.2) as Hall.
    { intros [k p] Hkp. rewrite Horder, elem_of_map_to_list in Hkp. by eapply Hnf. }
    apply elem_of_nil_inv. intros x (kp & Hkp & Hs)%list_elem_of_omap.
    unfold synthesized in Hs. case_decide; [done|].
    by rewrite evaluateAbsent_no_grace in Hs by (done || by apply Hall). }
  simpl. rewrite !app_nil_r, <- !list_fmap_compose. apply list_fmap_ext. intros i c _. simpl.
  unfold evaluated. destruct (bc_Rejected c); [done|]. rewrite lookup_empty.
  apply evaluatePresent_no_config; [done..|]. intros q Hq. by eapply Hnf.
Qed.

(** ** Provenance *)

Lemma Snapshot_inv `{Sorter, KubeReader, RIB, Damper} now order tracker cs :
  (Snapshot now order tracker).1 = Ok cs →
  ∃ routes pcs authorized cm prior spec,
    RIBSnapshot = Ok routes ∧ ListBGPPeerConfigs = Ok pcs ∧
    Authorize routes (allBindings pcs) = Ok authorized ∧
    cs = Evaluate now (normalizeSpec cm <$> authorized) prior (order prior) spec ∧
    (∃ sco, getOptional "get BGPStabilityConfig %q: %w" stabilityConfigName
              (GetBGPStabilityConfig stabilityConfigName) = Ok sco ∧
            spec = from_option sc_Spec zeroStabilitySpec sco) ∧
    (needsPriorState spec = false ∧ prior = ∅ ∨
     needsPriorState spec = true ∧
     ∃ items, ListAdvertisedBackends {[ ManagedByLabel := ManagedByValue ]} = Ok items ∧
              prior = PriorStateFromAdvertisedBackends items).
Proof.
  unfold Snapshot, authorizedRoutes.
  destruct RIBSnapshot as [routes|] eqn:Hr; simpl; [|done].
  destruct ListBGPPeerConfigs as [pcs|] eqn:Hp; simpl; [|done].
  destruct (Authorize routes (allBindings pcs)) as [authorized|] eqn:Ha; simpl; [|done].
  unfold finishSnapshot. destruct (getOptional _ _ _) as [cmo|]; [|done].
  destruct (Normalize authorized _) as [cands|] eqn:Hn; simpl; [|done].
  apply Normalize_iff in Hn as [_ ->].
  destruct (getOptional _ _ _) as [sco|] eqn:Hsc; [|done].
  destruct (needsPriorState _) eqn:Hneed.
  - destruct (ListAdvertisedBackends _) as [items|] eqn:Hi; simpl; [|done]. intros [= <-].
    eexists routes, pcs, authorized, _, _, _. split_and!; [done..|by exists sco|]. right.
    split; [done|]. by exists items.
  - intros [= <-]. eexists routes, pcs, authorized, _, _, _.
    split_and!; [done..|by exists sco|]. by left.
Qed.

(** With any damper that respects its interface, every unrejected candidate of a snapshot
    is a route of the current table that a binding covers, or recorded. *)
Lemma Snapshot_any_damper `{Sorter, KubeReader, RIB, DamperLaws} now order tracker cs c :
  (∀ m, order m ≡ₚ map_to_list m) →
  (Snapshot now order tracker).1 = Ok cs → c ∈ cs → bc_Rejected c = false →
  (∃ routes pcs r b ip network,
     RIBSnapshot = Ok routes ∧ ListBGPPeerConfigs = Ok pcs ∧ r ∈ routes ∧ b ∈ allBindings pcs ∧
     ParseCIDR (rr_Prefix r) = Ok (ip, network) ∧ bindingCovers b ip ∧
     bc_Prefix c = rr_Prefix r ∧ bc_ClusterID c = cb_ClusterID b ∧
     bc_Locality c = mkLocality (aloc_Region (cb_Locality b)) (aloc_Zone (cb_Locality b))) ∨
  (∃ items ab,
     ListAdvertisedBackends {[ ManagedByLabel := ManagedByValue ]} = Ok items ∧ ab ∈ items ∧
     c = setDamping (bc_Damping c) (candidateFromStatus (ab_Status ab))).
Proof.
  intros Horder
    (routes & pcs & authorized & cm & prior & spec & Hr & Hp & Ha & -> & _ & Hprior)%Snapshot_inv Hc Hrej.
  apply Evaluate_provenance in Hc; [|by apply Horder].
  destruct Hc as [(c0 & (r & -> & Hin)%list_elem_of_fmap & Hc0)|(k & p & Hk & Hcp)].
  - left. apply list_elem_of_lookup in Hin as [i Hi]. rewrite Hc0 in Hrej. simpl in Hrej.
    apply orb_false_iff in Hrej as [Hrej _].
    destruct (Authorize_admits _ _ _ _ _ Ha Hi Hrej)
      as (r0 & b & ip & n & pre & post & Hr0 & Hpar & Hb & Hcov & _ & Hcl & Hloc & Hpre & _).
    exists routes, pcs, r0, b, ip, n. rewrite Hc0. simpl.
    split_and!; try done; [by eapply list_elem_of_lookup_2|rewrite Hb; set_solver].
  - right. destruct Hprior as [[_ ->]|(_ & items & Hi & ->)]; [by rewrite lookup_empty in Hk|].
    apply PriorState_provenance in Hk as (ab & Hab & _ & Hps). exists items, ab.
    apply priorOfStatus_candidate in Hps. by rewrite <- Hps.
Qed.

(** What keeps a missing backend in a snapshot: less than the grace has passed. *)
Lemma evaluateAbsent_held `{Platform} now p grace dampening c :
  evaluateAbsent now p grace dampening = Some c →
  c = setDamping (bc_Damping c) (prior_Candidate p) ∧
  ∃ d t, bc_Damping c = Some d ∧ di_WithdrawnAt d = Some t ∧ Sub now t < grace.
Proof.
  unfold evaluateAbsent. case_decide; [done|]. destruct (Z.leb_spec grace
    (Sub now (default now (di_WithdrawnAt (prior_Damping p))))); [done|].
  repeat case_match; intros [= <-]; (split; [done|]); eexists _, _; (split_and!; [done|done|done]).
Qed.

(** The route was let through, and the candidate has the cluster and the locality of the
    first binding that covers its base address. *)
Definition admittedAs (bindings : list ClusterBinding) (routes authorized : list RIBRoute)
    (c : BackendCandidate) : Prop :=
  ∃ i r o b ip network pre post,
    routes !! i = Some r ∧ authorized !! i = Some o ∧ rr_Rejected o = false ∧
    bc_Prefix c = rr_Prefix r ∧ ParseCIDR (rr_Prefix r) = Ok (ip, network) ∧
    bindings = pre ++ b :: post ∧ bindingCovers b ip ∧ Forall (λ b', ¬ bindingCovers b' ip) pre ∧
    bc_ClusterID c = cb_ClusterID b ∧
    bc_Locality c = mkLocality (aloc_Region (cb_Locality b)) (aloc_Zone (cb_Locality b)).

(** The candidate of a record of the controller, first missed less than the grace ago. *)
Definition heldFrom `{KubeReader} (now : Time) (grace : Duration) (c : BackendCandidate) : Prop :=
  ∃ items ab d t,
    ListAdvertisedBackends {[ ManagedByLabel := ManagedByValue ]} = Ok items ∧ ab ∈ items ∧
    c = setDamping (Some d) (candidateFromStatus (ab_Status ab)) ∧
    di_WithdrawnAt d = Some t ∧ Sub now t < grace.

Lemma normalized_admitted bindings routes authorized cm o c `{!Sorter} :
  Authorize routes bindings = Ok authorized → o ∈ authorized →
  (∃ d, c = setDamping d (normalizeSpec cm o)) → bc_Rejected c = false →
  admittedAs bindings routes authorized c.
Proof.
  intros Ha Hin [d ->] Hrej. simpl in Hrej. apply orb_false_iff in Hrej as [Hrej _].
  apply list_elem_of_lookup in Hin as [i Hi].
  destruct (Authorize_admits _ _ _ _ _ Ha Hi Hrej)
    as (r & b & ip & n & pre & post & Hr & Hpar & Hb & Hcov & Hpre & Hcl & Hloc & Hprefix & _).
  exists i, r, o, b, ip, n, pre, post. by split_and!.
Qed.

(** C3 (Nothing unauthorized is served).  A snapshot with the EWMA damper is made of
    present and held candidates.  Each present candidate that is not rejected is a route
    of the current table that [Authorize] lets through, with the cluster and locality of
    the first binding that covers its base address, and with distinct prefixes and fewer
    than 2^31 routes no cluster has more of them than a [maxPrefixes] allows.  Each held
    candidate is that of a record the controller wrote, marked as missing since less than
    the withdrawal grace. *)
Theorem Snapshot_provenance `{Platform, Sorter, KubeReader, RIB} now order tracker cs :
  (∀ m, order m ≡ₚ map_to_list m) →
  (Snapshot (HD := ewmaDamper) now order tracker).1 = Ok cs →
  ∃ routes pcs authorized sco present held,
    RIBSnapshot = Ok routes ∧ ListBGPPeerConfigs = Ok pcs ∧
    Authorize routes (allBindings pcs) = Ok authorized ∧
    getOptional "get BGPStabilityConfig %q: %w" stabilityConfigName
      (GetBGPStabilityConfig stabilityConfigName) = Ok sco ∧
    cs = present ++ held ∧
    (∀ c, c ∈ present → bc_Rejected c = false → admittedAs (allBindings pcs) routes authorized c) ∧
    (NoDup (rr_Prefix <$> routes) → Z.of_nat (length routes) < 2 ^ 31 →
     ∀ b max, b ∈ allBindings pcs → cb_MaxPrefixes b = Some max → 0 <= max →
       Z.of_nat (length (filter (λ c, bc_Rejected c = false ∧ bc_ClusterID c = cb_ClusterID b) present)) <= max) ∧
    (∀ c, c ∈ held →
       heldFrom now (durationOrZero (scs_WithdrawalGrace (from_option sc_Spec zeroStabilitySpec sco))) c).
Proof.
  intros Horder (routes & pcs & authorized & cm & prior & spec & Hr & Hp & Ha & -> & (sco & Hsc & ->) & Hprior)%Snapshot_inv.
  exists routes, pcs, authorized, sco, (evaluated now prior (from_option sc_Spec zeroStabilitySpec sco)
    <$> (normalizeSpec cm <$> authorized)), (omap (synthesized now (from_option sc_Spec zeroStabilitySpec sco)
    (normalizeSpec cm <$> authorized)) (order prior)).
  split_and!; [done..|apply ewmaEvaluate_eq| | |].
  - intros c (c0 & -> & (o & -> & Ho)%list_elem_of_fmap)%list_elem_of_fmap Hrej.
    eapply normalized_admitted; [done..| |done]. unfold evaluated.
    destruct (bc_Rejected (normalizeSpec cm o)); [by exists None|by eexists].
  - intros Hnd Hlen b max Hb Hmax Hpos. etrans; [|by eapply admitted_capped].
    rewrite <- list_fmap_compose, filter_fmap, length_fmap. apply Nat2Z.inj_le, length_filter_impl.
    intros o _. unfold compose, evaluated.
    destruct (bc_Rejected (normalizeSpec cm o)) eqn:E; [rewrite E; by intros []|].
    cbn in E. apply orb_false_iff in E as [E _]. by intros [_ Hcl].
  - intros c ([k p] & Hkp & Hs)%list_elem_of_omap. rewrite Horder, elem_of_map_to_list in Hkp.
    unfold synthesized in Hs. case_decide; [done|]. apply evaluateAbsent_held in Hs as [Hc (d & t & Hd & Ht & Hlt)].
    destruct Hprior as [[_ ->]|(_ & items & Hi & ->)]; [by rewrite lookup_empty in Hkp|].
    apply PriorState_provenance in Hkp as (ab & Hab & _ & Hps). apply priorOfStatus_candidate in Hps.
    exists items, ab, d, t. split_and!; [done..| |done|done]. by rewrite Hc, Hd, <- Hps.
Qed.

(** ** Concrete instances *)

Module SnapshotExamples.
Import AuthorizeExamples EwmaExamples.

Definition peerConfig : BGPPeerConfig :=
  mkBGPPeerConfig (mkObjectMeta "main" "" ∅ "")
    (mkBGPPeerConfigSpec 65000 "10.0.0.2" None BGPPeerConfigModeRouteReflectorClient []
       AuthorizeExamples.bindings)
    (mkBGPPeerConfigStatus [] []).
(** A cluster with one peer config and nothing else. *)
Definition bareCluster : KubeReader := {|
  ListBGPPeerConfigs := Ok [peerConfig];
  GetCommunityMap _ := Err NotFound;
  GetBGPStabilityConfig _ := Err NotFound;
  ListAdvertisedBackends _ := Ok [];
|}.
Definition table : RIB := {| RIBSnapshot := Ok routes |}.
Definition settled : list BackendCandidate :=
  match (@Snapshot _ bareCluster table (@ewmaDamper halving) 1000 map_to_list None).1 with
  | Ok cs => cs
  | Err _ => []
  end.
Definition served : BackendCandidate :=
  setDamping (Some (active 1000)) (normalizeSpec None (authorizeSpec AuthorizeExamples.bindings routes
    (route "203.0.113.9/32"))).

Lemma needsPriorState_sound_witness :
  forgetScore <$> @ewmaEvaluate halving 2000 settled {[ name := memory ]} [(name, memory)] zeroStabilitySpec
  = forgetScore <$> @ewmaEvaluate halving 2000 settled ∅ [] zeroStabilitySpec.
Proof.
  apply (@needsPriorState_sound halving); [done|by rewrite map_to_list_singleton|].
  intros k p [_ <-]%lookup_singleton_Some. by split_and!.
Defined.

Lemma Snapshot_provenance_witness :
  ∃ routes authorized, admittedAs AuthorizeExamples.bindings routes authorized served.
Proof.
  destruct (@Snapshot_provenance halving _ bareCluster table 1000 map_to_list None settled)
    as (rs & pcs & authorized & sco & present & held & _ & Hp & _ & _ & Hcs & Hpresent & _ & Hheld).
  - done.
  - by vm_compute.
  - injection Hp as <-. exists rs, authorized. apply (Hpresent served); [|by vm_compute].
    assert (served ∈ settled) as Hin by (by_compute || (vm_compute; set_solver)).
    rewrite Hcs in Hin. apply elem_of_app in Hin as [Hin|Hin]; [exact Hin|exfalso].
    destruct (Hheld _ Hin) as (items & ab & d & t & Hi & Hab & _). injection Hi as <-. set_solver.
Defined.
End SnapshotExamples.
