(* ===== verification/System.v ===== *)
(** * One tick of the whole controller, seen from one backend

    A tick evaluates the settled candidates against the memory, and the report stage
    writes the result back, in the form the API server keeps, as the memory of the next
    tick.  [nextPrior] is that composition of Damp and Report; the simulation theorem shows that, for every
    backend, it is exactly the step [Stability.tick] whose runs the theorems of
    [Stability] are about. *)

From S2P Require Import Prelude GoStrings GoFloat GoTime Api Wire Pipeline Objects Reconcile.
From S2P Require Import Damp Ewma Report Stability.
Local Open Scope Z_scope.

Section system.
Context `{HP : Platform} `{HS : Sorter}.

Definition nextPrior (now : Time) (candidates : list BackendCandidate)
    (prior : gmap string PriorState) (order : list (string * PriorState))
    (cfg : BGPStabilityConfigSpec) (policies : list BGPBackendPolicy) : gmap string PriorState :=
  PriorStateFromAdvertisedBackends
    (wireBackend <$> BuildAdvertisedBackends (ewmaEvaluate now candidates prior order cfg) policies).

(** The memory is consistent when every entry is filed under its candidate's name, is
    unrejected, and has stamps past the zero time. *)
Definition consistent (prior : gmap string PriorState) : Prop :=
  ∀ k p, prior !! k = Some p →
    objectName (prior_Candidate p) = k ∧ bc_Rejected (prior_Candidate p) = false ∧
    wfRoute (prior_Candidate p) ∧ stamped (prior_Damping p).

Lemma names_built out policies :
  (λ i, om_Name (ab_ObjectMeta i)) <$> (wireBackend <$> BuildAdvertisedBackends out policies)
  = objectName <$> out.
Proof.
  unfold BuildAdvertisedBackends. rewrite <- !list_fmap_compose. apply list_fmap_ext.
  intros i c _. apply buildOne_name.
Qed.

Lemma head_filter_unique {A} (f : A → string) l x :
  NoDup (f <$> l) → x ∈ l → head (filter (λ y, f y = f x) l) = Some x.
Proof.
  induction l as [|y l IH]; [set_solver|]. rewrite fmap_cons, NoDup_cons, elem_of_cons, filter_cons.
  intros [Hy Hnd] [->|Hx]; [by rewrite decide_True by done|].
  rewrite decide_False; [by apply IH|]. intros E. apply Hy. rewrite E. by apply list_elem_of_fmap_2.
Qed.

(** The entry of a candidate of the evaluated snapshot. *)
Lemma prior_of_built out policies c d now :
  NoDup (objectName <$> out) → c ∈ out →
  bc_Rejected c = false → bc_Damping c = Some d → wfDamping now d → stamped d → wfRoute c →
  PriorStateFromAdvertisedBackends (wireBackend <$> BuildAdvertisedBackends out policies)
    !! objectName c
  = Some (mkPriorState (bare c) (persist d)).
Proof.
  intros Hnd Hc Hr Hd Hwf Hst Hroute.
  rewrite PriorState_lookup by by rewrite names_built.
  rewrite <- (buildOne_name c policies).
  change (om_Name (ab_ObjectMeta (buildOne c policies)))
    with (om_Name (ab_ObjectMeta (wireBackend (buildOne c policies)))).
  rewrite (head_filter_unique (λ i, om_Name (ab_ObjectMeta i)) _ (wireBackend (buildOne c policies))).
  - by apply (prior_of_buildOne now).
  - by rewrite names_built.
  - by apply list_elem_of_fmap_2, (list_elem_of_fmap_2 (λ c, buildOne c policies)).
Qed.

Lemma prior_of_missing out policies k :
  k ∉ objectName <$> out →
  PriorStateFromAdvertisedBackends (wireBackend <$> BuildAdvertisedBackends out policies) !! k = None.
Proof.
  intros Hk. destruct (PriorStateFromAdvertisedBackends _ !! k) as [p|] eqn:Hp; [|done].
  apply PriorState_provenance in Hp as (i & Hi & Hn & _). exfalso. apply Hk.
  rewrite <- (names_built out policies), <- Hn.
  by apply (list_elem_of_fmap_2 (λ i, om_Name (ab_ObjectMeta i))).
Qed.

Lemma suppression_stamp now score since dampening :
  Second <= now → stamp since → stamp (suppressionState now score since dampening).2.
Proof.
  intros Hn Hs. destruct (suppressionState_cases now score since dampening)
    as [(? & -> & _)|(? & s & -> & [->|[_ ->]])]; simpl; auto with kreg.
Qed.

Lemma evaluatePresent_stamped now p delay dampening :
  Second <= now → (∀ q, p = Some q → stamped (prior_Damping q)) →
  stamped (evaluatePresent now p delay dampening).
Proof.
  intros Hn Hp. unfold evaluatePresent, newCandidateDamping, stillPending.
  destruct p as [p|]; [|by case_match; repeat split; simpl; auto with kreg].
  destruct (Hp p eq_refl) as (Hl & Hw & Hs & Hpe).
  destruct (if decide _ then _ else _) as [d|] eqn:Hd.
  { repeat case_match; simplify_eq. repeat split; simpl; auto with kreg. }
  destruct (di_WithdrawnAt (prior_Damping p));
    match goal with |- context [suppressionState ?a ?b ?c ?d] =>
      pose proof (suppression_stamp a b c d Hn Hs) as Hst;
      destruct (suppressionState a b c d) as [[[? ?] ?] ?] end; by repeat split.
Qed.

Lemma evaluateAbsent_stamped now p grace dampening c :
  Second <= now → stamped (prior_Damping p) → evaluateAbsent now p grace dampening = Some c →
  ∃ d, c = setDamping (Some d) (prior_Candidate p) ∧ stamped d ∧ wfDamping now d.
Proof.
  intros Hn (Hl & Hw & Hs & _) He.
  pose proof (evaluateAbsent_wf _ _ _ _ _ He) as (d & Hd & Hwf & _).
  exists d. unfold evaluateAbsent in He.
  destruct (decide _); [done|]. destruct (_ <=? _); [done|].
  match goal with _ : context [suppressionState ?a ?b ?c ?d] |- _ =>
    pose proof (suppression_stamp a b c d Hn Hs) as Hst;
    destruct (suppressionState a b c d) as [[[? ?] ?] ?] end.
  destruct (decide _); simplify_eq/=; (split; [done|split; [|done]]);
    repeat split; simpl; auto with kreg.
Qed.

Lemma bare_setDamping d c : bare (setDamping d c) = bare c.
Proof. done. Qed.

Section step.
Context (now : Time) (candidates : list BackendCandidate) (prior : gmap string PriorState).
Context (order : list (string * PriorState)) (cfg : BGPStabilityConfigSpec).
Context (policies : list BGPBackendPolicy).
Hypothesis Hnow : Second <= now.
Hypothesis Horder : order ≡ₚ map_to_list prior.
Hypothesis Hprior : consistent prior.
Hypothesis Hroutes : Forall wfRoute candidates.
Hypothesis Hsettled : Forall (λ c, bc_Damping c = None) candidates.
Hypothesis Hnames : NoDup (objectName <$> ewmaEvaluate now candidates prior order cfg).

Lemma in_order k p : (k, p) ∈ order ↔ prior !! k = Some p.
Proof. by rewrite Horder, elem_of_map_to_list. Qed.

Lemma nextPrior_observed c1 :
  c1 ∈ candidates → bc_Rejected c1 = false →
  nextPrior now candidates prior order cfg policies !! objectName c1
  = Some (mkPriorState (bare c1) (persist (evaluatePresent now (prior !! objectName c1)
      (durationOrZero (scs_AdditionDelay cfg)) (scs_Dampening cfg)))).
Proof.
  intros Hc Hr. set (d := evaluatePresent _ _ _ _).
  assert (evaluated now prior cfg c1 = setDamping (Some d) c1) as Hev by (unfold evaluated; by rewrite Hr).
  assert (setDamping (Some d) c1 ∈ ewmaEvaluate now candidates prior order cfg) as Hin.
  { rewrite ewmaEvaluate_eq, elem_of_app. left. rewrite <- Hev. by apply list_elem_of_fmap_2. }
  rewrite Forall_forall in Hroutes. rewrite <- (bare_setDamping (Some d) c1).
  apply (prior_of_built _ policies (setDamping (Some d) c1) d now); try done.
  - apply evaluatePresent_wf.
  - apply evaluatePresent_stamped; [done|]. intros q Hq. by apply Hprior in Hq as (_ & _ & _ & ?).
  - exact (Hroutes c1 Hc).
Qed.

(** A backend whose name no unrejected candidate has is in the evaluated snapshot as a
    rejected route, or as an entry of the memory that is held down. *)
Lemma missed_name k c :
  k ∉ liveKeys candidates → c ∈ ewmaEvaluate now candidates prior order cfg → objectName c = k →
  (c ∈ candidates ∧ bc_Rejected c = true) ∨
  ∃ p, prior !! k = Some p ∧ synthesized now cfg candidates (k, p) = Some c.
Proof.
  intros Hk Hc Hn. rewrite ewmaEvaluate_eq, elem_of_app in Hc.
  destruct Hc as [(c0 & -> & Hc0)%list_elem_of_fmap|([k' p] & Hkp & Hs)%list_elem_of_omap].
  - unfold evaluated in *. destruct (bc_Rejected c0) eqn:Hr; [by left|]. exfalso. apply Hk. rewrite <- Hn.
    unfold liveKeys. apply list_elem_of_fmap. exists c0. split; [done|]. by apply list_elem_of_filter.
  - right. apply in_order in Hkp. destruct (Hprior _ _ Hkp) as (Hname & _ & _ & Hst).
    pose proof Hs as Hs'. unfold synthesized in Hs. case_decide; [done|].
    destruct (evaluateAbsent_stamped _ _ _ _ _ Hnow Hst Hs) as (d & -> & _).
    change (objectName (setDamping (Some d) (prior_Candidate p))) with (objectName (prior_Candidate p)) in Hn.
    rewrite Hname in Hn. subst k'. eauto.
Qed.

(** Nothing is remembered of a backend that is only there as a rejected route. *)
Lemma nextPrior_unheld k :
  k ∉ liveKeys candidates → (∀ p, prior !! k = Some p → synthesized now cfg candidates (k, p) = None) →
  nextPrior now candidates prior order cfg policies !! k = None.
Proof.
  intros Hk Hsyn. unfold nextPrior. set (out := ewmaEvaluate _ _ _ _ _).
  destruct (decide (k ∈ objectName <$> out)) as [(c & Hn & Hc)%list_elem_of_fmap|]; [|by apply prior_of_missing].
  destruct (missed_name k c Hk Hc (eq_sym Hn)) as [[Hin Hr]|(p & Hp & Hs)]; [|by rewrite Hsyn in Hs].
  subst k. rewrite PriorState_lookup by by rewrite names_built.
  rewrite <- (buildOne_name c policies).
  change (om_Name (ab_ObjectMeta (buildOne c policies)))
    with (om_Name (ab_ObjectMeta (wireBackend (buildOne c policies)))).
  rewrite (head_filter_unique (λ i, om_Name (ab_ObjectMeta i)) _ (wireBackend (buildOne c policies)));
    [apply prior_of_unevaluated|by rewrite names_built|].
  - rewrite Forall_forall in Hsettled. by apply Hsettled.
  - by apply list_elem_of_fmap_2, (list_elem_of_fmap_2 (λ c, buildOne c policies)).
Qed.

Lemma nextPrior_missed k :
  k ∉ liveKeys candidates →
  nextPrior now candidates prior order cfg policies !! k =
  p ← prior !! k;
  c ← evaluateAbsent now p (durationOrZero (scs_WithdrawalGrace cfg)) (scs_Dampening cfg);
  d ← bc_Damping c;
  Some (mkPriorState (bare (prior_Candidate p)) (persist d)).
Proof.
  intros Hk.
  assert (∀ p, synthesized now cfg candidates (k, p) = evaluateAbsent now p
    (durationOrZero (scs_WithdrawalGrace cfg)) (scs_Dampening cfg)) as Hsyn.
  { intros p. unfold synthesized. by rewrite decide_False by done. }
  destruct (prior !! k) as [p|] eqn:Hp; simpl; [|apply nextPrior_unheld; [done|congruence]].
  destruct (evaluateAbsent now p _ _) as [c|] eqn:He; simpl.
  2:{ apply nextPrior_unheld; [done|]. intros p' Hp'. rewrite Hsyn. congruence. }
  destruct (Hprior _ _ Hp) as (Hname & Hr & Hroute & Hst).
  destruct (evaluateAbsent_stamped _ _ _ _ _ Hnow Hst He) as (d & -> & Hstd & Hwf). simpl.
  rewrite <- Hname at 1. rewrite <- (bare_setDamping (Some d)).
  apply (prior_of_built _ policies (setDamping (Some d) (prior_Candidate p)) d now); try done.
  rewrite ewmaEvaluate_eq, elem_of_app. right. apply list_elem_of_omap.
  exists (k, p). split; [by apply in_order|]. by rewrite Hsyn.
Qed.
End step.

(** C6 (A tick of the system is a tick of every backend).  When the evaluated snapshot
    has one candidate per name, the memory the next tick reads for a backend is what
    [Stability.tick] computes from this tick's memory of it: [Observed] when an unrejected
    candidate has its name, [Missed] when none has, be it withdrawn or rejected; no other
    backend matters.  The memory is filed by name and stamped, the routes have 32-bit
    numbers and no verdict yet, and the clock is past its first second. *)
Theorem nextPrior_simulates_tick now candidates prior order cfg policies k c st :
  Second <= now → order ≡ₚ map_to_list prior → consistent prior → Forall wfRoute candidates →
  Forall (λ c, bc_Damping c = None) candidates →
  NoDup (objectName <$> ewmaEvaluate now candidates prior order cfg) →
  prior !! k = remembered c st →
  (∀ c1, c1 ∈ candidates → bc_Rejected c1 = false → objectName c1 = k →
     nextPrior now candidates prior order cfg policies !! k
     = remembered (bare c1) (tick c cfg now Observed st)) ∧
  ((∀ c1, c1 ∈ candidates → objectName c1 = k → bc_Rejected c1 = true) →
     nextPrior now candidates prior order cfg policies !! k
     = remembered (bare c) (tick c cfg now Missed st)).
Proof.
  intros Hnow Horder Hprior Hroutes Hsettled Hnames Hk. split.
  - intros c1 Hc Hr <-. rewrite nextPrior_observed by done. by rewrite Hk.
  - intros Hnot. rewrite nextPrior_missed; [|done..|].
    + rewrite Hk. destruct st as [d|]; [|done].
      simpl. by destruct (evaluateAbsent _ _ _ _) as [c'|]; simpl; [destruct (bc_Damping c')|].
    + unfold liveKeys. intros (c1 & -> & [Hr Hc]%list_elem_of_filter)%list_elem_of_fmap.
      by rewrite (Hnot c1 Hc) in Hr.
Qed.
End system.

(** ** Concrete instances *)

Module SystemExamples.
Import ReconcileExamples EwmaExamples StabilityExamples.

(** The backend is remembered as active, and missing from the table. *)
Definition recalled : PriorState := mkPriorState backend (active (10 * Second)).
Lemma nextPrior_simulates_tick_witness :
  @nextPrior halving _ (20 * Second) [] {[ name := recalled ]} [(name, recalled)] graceful [policy] !! name
  = @remembered halving (bare backend)
      (@tick halving backend graceful (20 * Second) Missed (Some (active (10 * Second)))).
Proof.
  apply (@nextPrior_simulates_tick halving _ (20 * Second) [] {[ name := recalled ]}
    [(name, recalled)] graceful [policy] name backend (Some (active (10 * Second)))).
  - done.
  - by rewrite map_to_list_singleton.
  - intros k p [<- <-]%lookup_singleton_Some.
    repeat split; simpl; (done || (by repeat constructor) || auto with kreg).
  - done.
  - done.
  - by_compute.
  - by rewrite lookup_singleton_eq.
  - set_solver.
Defined.
End SystemExamples.
