(* ===== verification/Kube.v ===== *)
(** * The Kubernetes API as the controllers use it

    The API server and the controller-runtime client are parameters: [Client] has the
    calls the controllers make on the generated objects, over a world [W] that the
    calls read and change, and [ClientLaws] what the controllers rely on.  Reads may
    come from a cache that lags behind the stored objects; what a write can change is
    bounded by the optimistic concurrency the API server documents: an update is
    applied only to the version it names. *)

From S2P Require Import Prelude Api Objects.

(** Which object of which kind: the Go type decides the kind. *)
Definition ObjectKey : Type := string * string * string.
Definition typeName (o : Object) : string :=
  match o with
  | OService _ => "Service"
  | OEndpointSlice _ => "EndpointSlice"
  | ODestinationRule _ => "DestinationRule"
  end.
Definition keyOf (o : Object) : ObjectKey := (typeName o, GetNamespace o, GetName o).
Definition GetResourceVersion (o : Object) : string := om_ResourceVersion (objectMeta o).

(** The same object whatever its version. *)
Definition sameContent (o o' : Object) : Prop := SetResourceVersion "" o = SetResourceVersion "" o'.

Class Client (W : Type) := {
  GetObject : ObjectKey → W → res Object;
  CreateObject : Object → W → res unit * W;
  UpdateObject : Object → W → res unit * W;
  ListEndpointSlices : string → gmap string string → W → res (list EndpointSlice);
  DeleteEndpointSlice : EndpointSlice → W → res unit * W;
  GetPolicy : string → string → W → res BGPBackendPolicy;
  UpdatePolicyStatus : BGPBackendPolicy → W → res unit * W;
}.

Class ClientLaws (W : Type) `{Client W} := {
  objects : W → gmap ObjectKey Object;
  (** Objects read from the server have a version. *)
  get_versioned k w o : GetObject k w = Ok o → GetResourceVersion o ≠ "";
  (** A version names one content: a read at the stored version is the stored object. *)
  get_version k w o cur :
    GetObject k w = Ok o → objects w !! k = Some cur →
    GetResourceVersion cur = GetResourceVersion o → cur = o;
  (** Creating never changes an object that exists. *)
  create_frame o w r w' k cur :
    CreateObject o w = (r, w') → objects w !! k = Some cur → objects w' !! k = Some cur;
  create_ok o w w' :
    CreateObject o w = (Ok tt, w') →
    ∃ o', objects w' !! keyOf o = Some o' ∧ sameContent o' o;
  (** An update changes at most the object it names, and if it names a version, only
      when that is the stored one. *)
  update_frame o w r w' k cur :
    UpdateObject o w = (r, w') → objects w !! k = Some cur →
    k ≠ keyOf o ∨ (GetResourceVersion o ≠ "" ∧ GetResourceVersion cur ≠ GetResourceVersion o) →
    objects w' !! k = Some cur;
  update_ok o w w' :
    UpdateObject o w = (Ok tt, w') →
    ∃ o', objects w' !! keyOf o = Some o' ∧ sameContent o' o;
  (** Neither makes an object appear under another key. *)
  create_none o w r w' k :
    CreateObject o w = (r, w') → k ≠ keyOf o → objects w !! k = None → objects w' !! k = None;
  update_none o w r w' k :
    UpdateObject o w = (r, w') → k ≠ keyOf o → objects w !! k = None → objects w' !! k = None;
  delete_frame s w r w' k :
    DeleteEndpointSlice s w = (r, w') → k ≠ keyOf (OEndpointSlice s) →
    objects w' !! k = objects w !! k;
  delete_gone s w w' :
    DeleteEndpointSlice s w = (Ok tt, w') ∨ DeleteEndpointSlice s w = (Err NotFound, w') →
    objects w' !! keyOf (OEndpointSlice s) = None;
  (** The status subresource is not part of the generated objects. *)
  status_frame p w r w' : UpdatePolicyStatus p w = (r, w') → objects w' = objects w;
}.

(** A list that may be stale, but not about the labels it selects by: a listed slice
    that is still stored still has them. *)
Definition stableLabels (W : Type) `{ClientLaws W} : Prop :=
  ∀ ns labels w items s cur, ListEndpointSlices ns labels w = Ok items → s ∈ items →
    objects w !! keyOf (OEndpointSlice s) = Some cur → labels ⊆ GetLabels cur.

(** A list that is up to date: exactly the stored slices with the labels asked for.
    The cache does not promise this at every moment; theorems that need it say so. *)
Definition currentLists (W : Type) `{ClientLaws W} : Prop :=
  ∀ ns labels w items, ListEndpointSlices ns labels w = Ok items →
    ∀ s, s ∈ items ↔
      objects w !! keyOf (OEndpointSlice s) = Some (OEndpointSlice s) ∧
      om_Namespace (es_ObjectMeta s) = ns ∧ labels ⊆ om_Labels (es_ObjectMeta s).

Lemma currentLists_stable (W : Type) `{ClientLaws W} : currentLists W → stableLabels W.
Proof.
  intros Hcur ns labels w items s cur Hlist (Hst & _ & Hl)%(Hcur _ _ _ _ Hlist) Hs.
  by simplify_eq.
Qed.

(** A write to the API server happens or does not, whatever the caller is told, and reads
    of a policy give the policy asked for. *)
Class AtomicClient (W : Type) `{ClientLaws W} : Prop := {
  create_any o w r w' : CreateObject o w = (r, w') →
    objects w' = objects w ∨ ∃ o', objects w' = <[keyOf o := o']> (objects w) ∧ sameContent o' o;
  update_any o w r w' : UpdateObject o w = (r, w') →
    objects w' = objects w ∨ ∃ o', objects w' = <[keyOf o := o']> (objects w) ∧ sameContent o' o;
  delete_any s w r w' : DeleteEndpointSlice s w = (r, w') →
    objects w' = objects w ∨ objects w' = delete (keyOf (OEndpointSlice s)) (objects w);
  policy_named ns name w p : GetPolicy ns name w = Ok p →
    om_Namespace (bp_ObjectMeta p) = ns ∧ om_Name (bp_ObjectMeta p) = name;
}.

Lemma keyOf_SetResourceVersion rv o : keyOf (SetResourceVersion rv o) = keyOf o.
Proof. by destruct o. Qed.

Lemma sameContent_SetResourceVersion rv o : sameContent (SetResourceVersion rv o) o.
Proof. by destruct o. Qed.

#[export] Instance sameContent_equiv : Equivalence sameContent.
Proof. split; unfold sameContent; congruence. Qed.

Lemma sameContent_labels o o' : sameContent o o' → GetLabels o = GetLabels o'.
Proof.
  unfold sameContent, GetLabels. destruct o as [s|s|d], o' as [s'|s'|d']; simpl; intros [=];
    by destruct (svc_ObjectMeta s), (svc_ObjectMeta s') || by destruct (es_ObjectMeta s), (es_ObjectMeta s')
    || by destruct (dr_ObjectMeta d), (dr_ObjectMeta d') || done.
Qed.

(** ** An API server in memory *)

Module MemoryServer.
(** The stored objects and policies; a version grows at every write. *)
Record world := mkWorld {
  store : gmap ObjectKey Object;
  policies : gmap (string * string) BGPBackendPolicy;
}.
Definition withStore (w : world) (m : gmap ObjectKey Object) : world := mkWorld m (policies w).

Definition matching (ns : string) (labels : gmap string string) (ko : ObjectKey * Object)
    : option EndpointSlice :=
  match ko.2 with
  | OEndpointSlice s =>
      if decide (ko.1 = keyOf (OEndpointSlice s) ∧ om_Namespace (es_ObjectMeta s) = ns
                 ∧ labels ⊆ om_Labels (es_ObjectMeta s))
      then Some s else None
  | _ => None
  end.

#[export] Instance memoryClient : Client world := {|
  GetObject k w :=
    match store w !! k with
    | Some o => if decide (GetResourceVersion o = "") then Err (Opaque "no version") else Ok o
    | None => Err NotFound
    end;
  CreateObject o w :=
    match store w !! keyOf o with
    | Some _ => (Err (Opaque "already exists"), w)
    | None => (Ok tt, withStore w (<[keyOf o := SetResourceVersion "1" o]> (store w)))
    end;
  UpdateObject o w :=
    match store w !! keyOf o with
    | Some cur =>
        if decide (GetResourceVersion cur = GetResourceVersion o)
        then (Ok tt, withStore w (<[keyOf o := SetResourceVersion (GetResourceVersion o +:+ "+") o]> (store w)))
        else (Err (Opaque "conflict"), w)
    | None => (Err NotFound, w)
    end;
  ListEndpointSlices ns labels w := Ok (omap (matching ns labels) (map_to_list (store w)));
  DeleteEndpointSlice s w :=
    match store w !! keyOf (OEndpointSlice s) with
    | Some _ => (Ok tt, withStore w (delete (keyOf (OEndpointSlice s)) (store w)))
    | None => (Err NotFound, w)
    end;
  GetPolicy ns name w :=
    match policies w !! (ns, name) with
    | Some p => if decide (om_Namespace (bp_ObjectMeta p) = ns ∧ om_Name (bp_ObjectMeta p) = name)
                then Ok p else Err NotFound
    | None => Err NotFound
    end;
  UpdatePolicyStatus p w :=
    (Ok tt, mkWorld (store w)
       (<[(om_Namespace (bp_ObjectMeta p), om_Name (bp_ObjectMeta p)) := p]> (policies w)));
|}.

#[export] Program Instance memoryLaws : ClientLaws world := {| objects := store |}.
Next Obligation. intros k w o Hg. simpl in Hg. repeat case_match; by simplify_eq. Qed.
Next Obligation.
  intros k w o cur Hg Hc _. simpl in Hg. rewrite Hc in Hg. case_decide; by simplify_eq.
Qed.
Next Obligation.
  intros o w r w' k cur Hr Hc. simpl in Hr. destruct (store w !! keyOf o) eqn:Ho; simplify_eq; [done|].
  simpl. rewrite lookup_insert_ne by congruence. done.
Qed.
Next Obligation.
  intros o w w' Hr. simpl in Hr. destruct (store w !! keyOf o); simplify_eq. simpl.
  eexists. rewrite lookup_insert_eq. split; [done|]. apply sameContent_SetResourceVersion.
Qed.
Next Obligation.
  intros o w r w' k cur Hr Hc Hne. simpl in Hr. destruct (store w !! keyOf o) eqn:Ho; [|by simplify_eq].
  case_decide; simplify_eq; [|done]. simpl. rewrite lookup_insert_ne; [done|]. intros <-.
  simplify_eq. by destruct Hne as [|[_ ?]].
Qed.
Next Obligation.
  intros o w w' Hr. simpl in Hr. destruct (store w !! keyOf o); [|done].
  case_decide; simplify_eq. simpl. eexists. rewrite lookup_insert_eq. split; [done|].
  apply sameContent_SetResourceVersion.
Qed.
Next Obligation.
  intros o w r w' k Hr Hk Hn. simpl in Hr. destruct (store w !! keyOf o); simplify_eq; [done|].
  simpl. by rewrite lookup_insert_ne.
Qed.
Next Obligation.
  intros o w r w' k Hr Hk Hn. simpl in Hr. destruct (store w !! keyOf o); [|by simplify_eq].
  case_decide; simplify_eq; [|done]. simpl. by rewrite lookup_insert_ne.
Qed.
Next Obligation.
  intros s w r w' k Hr Hk. simpl in Hr. destruct (store w !! keyOf (OEndpointSlice s)); simplify_eq; [|done].
  simpl. by rewrite lookup_delete_ne.
Qed.
Next Obligation.
  intros s w w' Hr. simpl in Hr. destruct (store w !! keyOf (OEndpointSlice s)) eqn:Hs;
    destruct Hr; simplify_eq; [|done]. simpl. apply lookup_delete_eq.
Qed.
Next Obligation. intros p w r w' Hr. simpl in Hr. by simplify_eq. Qed.

Lemma memory_currentLists : currentLists world.
Proof.
  intros ns labels w items [= <-] s. rewrite list_elem_of_omap. split.
  - intros ([k o] & Hin%elem_of_map_to_list & Hm). unfold matching in Hm. simpl in Hm.
    destruct o as [|s'|]; try done. case_decide as Hd; [|done]. simplify_eq.
    destruct Hd as (-> & ? & ?). done.
  - intros (Hst & Hns & Hl). exists (keyOf (OEndpointSlice s), OEndpointSlice s).
    split; [by apply elem_of_map_to_list|]. unfold matching. simpl. by rewrite decide_True.
Qed.

#[export] Instance memory_atomic : AtomicClient world.
Proof.
  split.
  - intros o w r w' Hr. simpl in Hr. destruct (store w !! keyOf o); simplify_eq; [by left|right].
    eexists. split; [done|]. apply sameContent_SetResourceVersion.
  - intros o w r w' Hr. simpl in Hr. destruct (store w !! keyOf o); [case_decide|]; simplify_eq; [right|by left..].
    eexists. split; [done|]. apply sameContent_SetResourceVersion.
  - intros s w r w' Hr. simpl in Hr. destruct (store w !! _); simplify_eq; [by right|by left].
  - intros ns name w p. simpl. destruct (policies w !! _); [|done]. case_decide; [|done]. by intros [= <-].
Qed.
End MemoryServer.
