(* ===== verification/PolicyController.v ===== *)
(** * [internal/controller]: the BGPBackendPolicy controller

    bgpbackendpolicy_controller.go: one reconcile pass renders a policy and applies the
    result to the cluster.  The world is threaded through every call, so that the
    theorems can say what a pass may change (nothing another policy owns) and what it
    has established when it succeeds. *)

From S2P Require Import Prelude GoStrings GoTime Api Pipeline Objects Reconcile Kube.
Local Open Scope Z_scope.

Definition snapshotPollInterval : Duration := 30 * Second.

(** [ctrl.Result]: when to come back, if at all. *)
Record Result := mkResult { res_RequeueAfter : Duration }.

(** The interface [SnapshotSource]; a snapshot may write to the world's bookkeeping,
    which no generated object is part of. *)
Class SnapshotSource (W : Type) := {
  SourceSnapshot : W → res (list BackendCandidate) * W;
}.

Section controller.
Context {W : Type} `{HC : Client W} `{HN : SnapshotSource W} `{HD : Driver}.

Definition refusal (policyName owner : string) (desired : Object) : error :=
  Errorf "%s/%s is managed by %q, not %q — refusing to overwrite"
    [objectKind desired; GetName desired; owner; policyName].

Definition applyOwned (policyName : string) (desired : Object) (w : W) : res unit * W :=
  match GetObject (keyOf desired) w with
  | Err NotFound => CreateObject desired w
  | Err e => (Err e, w)
  | Ok current =>
      let owner := default "" (GetLabels current !! ManagedByLabel) in
      if negb (String.eqb owner "") && negb (String.eqb owner policyName)
      then (Err (refusal policyName owner desired), w)
      else UpdateObject (SetResourceVersion (GetResourceVersion current) desired) w
  end.

(** The loop over [output.Objects()]. *)
Fixpoint applyObjects (policyName : string) (objs : list Object) (generated : list string) (w : W)
    : res (list string) * W :=
  match objs with
  | [] => (Ok generated, w)
  | obj :: rest =>
      match applyOwned policyName obj w with
      | (Err e, w) => (Err (Wrapf "apply %s: %w" [objectKind obj] e), w)
      | (Ok _, w) =>
          applyObjects policyName rest
            (generated ++ [objectKind obj +:+ "/" +:+ GetNamespace obj +:+ "/" +:+ GetName obj]) w
      end
  end.

(** The loop over the listed slices. *)
Fixpoint deleteStale (desiredNames : gset string) (existing : list EndpointSlice) (w : W)
    : res unit * W :=
  match existing with
  | [] => (Ok tt, w)
  | s :: rest =>
      if decide (om_Name (es_ObjectMeta s) ∈ desiredNames) then deleteStale desiredNames rest w
      else match DeleteEndpointSlice s w with
           | (Err NotFound, w) | (Ok _, w) => deleteStale desiredNames rest w
           | (Err e, w) =>
               (Err (Wrapf "delete stale endpoint slice %s: %w" [om_Name (es_ObjectMeta s)] e), w)
           end
  end.

Definition pruneStaleEndpointSlices (policy : BGPBackendPolicy) (serviceName : string)
    (desired : list EndpointSlice) (w : W) : res unit * W :=
  let desiredNames := list_to_set ((λ s, om_Name (es_ObjectMeta s)) <$> desired) in
  match ListEndpointSlices (om_Namespace (bp_ObjectMeta policy))
          {[ ManagedByLabel := om_Name (bp_ObjectMeta policy); LabelServiceName := serviceName ]} w with
  | Err e => (Err (Wrapf "list endpoint slices: %w" [] e), w)
  | Ok existing => deleteStale desiredNames existing w
  end.

Definition withStatus (policy : BGPBackendPolicy) (generated : list string) (active : Z)
    : BGPBackendPolicy :=
  mkBGPBackendPolicy (bp_ObjectMeta policy) (bp_Spec policy)
    (mkBGPBackendPolicyStatus (bpst_Conditions (bp_Status policy)) active
       (bpst_SuppressedBackends (bp_Status policy)) generated).

Definition ReconcilePolicy (ns name : string) (w : W) : res Result * W :=
  match GetPolicy ns name w with
  | Err NotFound => (Ok (mkResult 0), w)
  | Err e => (Err e, w)
  | Ok policy =>
      match SourceSnapshot w with
      | (Err e, w) => (Err (Wrapf "get snapshot: %w" [] e), w)
      | (Ok candidates, w) =>
          match Render policy candidates with
          | Err e => (Err (Wrapf "render: %w" [] e), w)
          | Ok output =>
              match applyObjects (om_Name (bp_ObjectMeta policy)) (OutputObjects output) [] w with
              | (Err e, w) => (Err e, w)
              | (Ok generated, w) =>
                  match pruneStaleEndpointSlices policy (om_Name (svc_ObjectMeta (out_Service output)))
                          (out_EndpointSlices output) w with
                  | (Err e, w) => (Err (Wrapf "prune: %w" [] e), w)
                  | (Ok _, w) =>
                      let active := int32 (Z.of_nat (length (out_EndpointSlices output))) in
                      match UpdatePolicyStatus (withStatus policy generated active) w with
                      | (Err e, w) => (Err (Wrapf "update status: %w" [] e), w)
                      | (Ok _, w) => (Ok (mkResult snapshotPollInterval), w)
                      end
                  end
              end
          end
      end
  end.
End controller.

(** ** What a pass may change *)

(** Owned by a policy other than [policyName]. *)
Definition foreign (policyName : string) (o : Object) : Prop :=
  ∃ owner, GetLabels o !! ManagedByLabel = Some owner ∧ owner ≠ "" ∧ owner ≠ policyName.

#[export] Instance foreign_dec policyName o : Decision (foreign policyName o).
Proof.
  destruct (GetLabels o !! ManagedByLabel) as [owner|] eqn:E.
  - destruct (decide (owner ≠ "" ∧ owner ≠ policyName)) as [[??]|Hn]; [left; by exists owner|right].
    intros (owner' & Ho & ? & ?). rewrite E in Ho. injection Ho as <-. by apply Hn.
  - right. intros (? & ? & _). congruence.
Defined.

(** A pass that succeeds comes back at the polling interval, unless the policy is gone. *)
Lemma ReconcilePolicy_result {W} `{Client W, SnapshotSource W, Driver} ns name (w : W) r w' :
  ReconcilePolicy ns name w = (Ok r, w') →
  r = mkResult snapshotPollInterval ∨ r = mkResult 0 ∧ GetPolicy ns name w = Err NotFound.
Proof.
  unfold ReconcilePolicy. intros Hrun. repeat (case_match; simplify_eq/=); eauto.
Qed.

Section safety.
Context {W : Type} `{HC : Client W} `{HL : !ClientLaws W}.

Lemma applyOwned_safe policyName desired w r w' k cur :
  applyOwned policyName desired w = (r, w') → objects w !! k = Some cur → foreign policyName cur →
  objects w' !! k = Some cur.
Proof.
  unfold applyOwned. intros Hrun Hcur (owner & Hown & Hne & Hnp).
  destruct (GetObject (keyOf desired) w) as [current|e] eqn:Hget.
  - destruct (negb _ && negb _) eqn:Hg; [by simplify_eq|].
    eapply update_frame; [done..|]. rewrite keyOf_SetResourceVersion.
    destruct (decide (k = keyOf desired)) as [->|]; [right|by left].
    assert (GetResourceVersion (SetResourceVersion (GetResourceVersion current) desired)
            = GetResourceVersion current) as -> by by destruct desired.
    split; [by eapply get_versioned|]. intros Hrv.
    assert (cur = current) as -> by by eapply get_version.
    rewrite Hown in Hg. simpl in Hg.
    destruct (String.eqb_spec owner ""), (String.eqb_spec owner policyName); done.
  - destruct e; try by simplify_eq. by eapply create_frame.
Qed.

Lemma applyObjects_safe policyName objs generated w r w' k cur :
  applyObjects policyName objs generated w = (r, w') → objects w !! k = Some cur →
  foreign policyName cur → objects w' !! k = Some cur.
Proof.
  revert generated w. induction objs as [|o objs IH]; intros generated w Hrun Hcur Hf; simpl in Hrun.
  { by simplify_eq. }
  destruct (applyOwned policyName o w) as [[[]|e] w1] eqn:Ho.
  - eapply IH; [done| |done]. by eapply applyOwned_safe.
  - simplify_eq. by eapply applyOwned_safe.
Qed.

Lemma deleteStale_frame names items w r w' k :
  deleteStale names items w = (r, w') →
  (∀ s, s ∈ items → om_Name (es_ObjectMeta s) ∉ names → k ≠ keyOf (OEndpointSlice s)) →
  objects w' !! k = objects w !! k.
Proof.
  revert w. induction items as [|s items IH]; intros w Hrun Hk; simpl in Hrun; [by simplify_eq|].
  case_decide as Hn; [apply IH; [done|set_solver]|].
  destruct (DeleteEndpointSlice s w) as [d w1] eqn:Hd.
  assert (objects w1 !! k = objects w !! k) as Hw1.
  { eapply delete_frame; [done|]. apply Hk; [set_solver|done]. }
  rewrite <- Hw1. destruct d as [[]|[]]; try (by simplify_eq); (apply IH; [done|set_solver]).
Qed.
End safety.

Section reconcile.
Context {W : Type} `{HC : Client W} `{HL : !ClientLaws W} `{HN : SnapshotSource W} `{HD : Driver}.

(** Taking a snapshot does not touch the generated objects. *)
Definition snapshotFrame : Prop :=
  ∀ w r w', SourceSnapshot w = (r, w') → objects w' = objects w.

Lemma prune_frame policy svc desired w r w' k cur :
  stableLabels W → pruneStaleEndpointSlices policy svc desired w = (r, w') →
  objects w !! k = Some cur →
  (∀ s, k = keyOf (OEndpointSlice s) →
     GetLabels cur !! ManagedByLabel = Some (om_Name (bp_ObjectMeta policy)) →
     om_Name (es_ObjectMeta s) ∈ (λ s, om_Name (es_ObjectMeta s)) <$> desired) →
  objects w' !! k = Some cur.
Proof.
  intros Hlists Hrun Hcur Hk. unfold pruneStaleEndpointSlices in Hrun.
  destruct (ListEndpointSlices _ _ _) as [items|e] eqn:Hlist; [|by simplify_eq].
  rewrite <- Hcur. eapply deleteStale_frame; [done|]. intros s Hs Hn ->.
  apply Hn, elem_of_list_to_set, Hk; [done|].
  eapply lookup_weaken; [|by eapply Hlists]. apply lookup_insert_eq.
Qed.

Lemma pass_leaves_foreign ns name w r w' policy k cur :
  stableLabels W → snapshotFrame → GetPolicy ns name w = Ok policy →
  ReconcilePolicy ns name w = (r, w') →
  objects w !! k = Some cur → foreign (om_Name (bp_ObjectMeta policy)) cur →
  objects w' !! k = Some cur.
Proof.
  intros Hlists Hsnap Hget Hrun Hcur Hf. unfold ReconcilePolicy in Hrun. rewrite Hget in Hrun.
  destruct (SourceSnapshot w) as [rs w1] eqn:Hs. apply Hsnap in Hs. rewrite <- Hs in Hcur.
  destruct rs as [cands|e]; [|by simplify_eq].
  destruct (Render policy cands) as [out|e]; [|by simplify_eq].
  destruct (applyObjects _ _ _ w1) as [ra w2] eqn:Ha.
  pose proof (applyObjects_safe _ _ _ _ _ _ _ _ Ha Hcur Hf) as Hcur2.
  destruct ra as [generated|e]; [|by simplify_eq].
  destruct (pruneStaleEndpointSlices _ _ _ w2) as [rp w3] eqn:Hp.
  assert (objects w3 !! k = Some cur) as Hcur3.
  { eapply prune_frame; [done..|]. intros s _ Hl. destruct Hf as (owner & Hown & _ & Hne).
    congruence. }
  destruct rp as [[]|e]; [|by simplify_eq].
  destruct (UpdatePolicyStatus _ w3) as [ru w4] eqn:Hu.
  apply status_frame in Hu. destruct ru as [[]|e]; simplify_eq; by rewrite Hu.
Qed.

(** C12 (Nothing another policy owns is touched).  Whatever a pass does and however it
    ends, an object labelled as managed by another policy is stored unchanged
    afterwards.  The reads may be stale: an object read before a write may have been
    replaced since, and the list used for pruning may miss slices or show deleted ones,
    as long as no listed slice has changed hands. *)
Theorem ReconcilePolicy_leaves_foreign ns name w r w' policy k cur :
  stableLabels W → snapshotFrame → GetPolicy ns name w = Ok policy →
  ReconcilePolicy ns name w = (r, w') →
  objects w !! k = Some cur → foreign (om_Name (bp_ObjectMeta policy)) cur →
  objects w' !! k = Some cur.
Proof. apply pass_leaves_foreign. Qed.

(** ** What a successful pass establishes *)

Lemma applyOwned_other policyName desired w r w' k :
  applyOwned policyName desired w = (r, w') → k ≠ keyOf desired → objects w' !! k = objects w !! k.
Proof.
  unfold applyOwned. intros Hrun Hk.
  destruct (GetObject (keyOf desired) w) as [current|e].
  - destruct (negb _ && negb _); [by simplify_eq|].
    destruct (objects w !! k) as [cur|] eqn:Hcur.
    + eapply update_frame; [done..|]. rewrite keyOf_SetResourceVersion. by left.
    + eapply update_none; [done| |done]. by rewrite keyOf_SetResourceVersion.
  - destruct e; try by simplify_eq. destruct (objects w !! k) as [cur|] eqn:Hcur.
    + by eapply create_frame.
    + by eapply create_none.
Qed.

Lemma applyOwned_ok policyName desired w w' :
  applyOwned policyName desired w = (Ok tt, w') →
  ∃ o, objects w' !! keyOf desired = Some o ∧ sameContent o desired.
Proof.
  unfold applyOwned. intros Hrun.
  destruct (GetObject (keyOf desired) w) as [current|e].
  - destruct (negb _ && negb _); [by simplify_eq|]. apply update_ok in Hrun as (o & Ho & Hsame).
    rewrite keyOf_SetResourceVersion in Ho. exists o. split; [done|].
    etrans; [done|]. apply sameContent_SetResourceVersion.
  - destruct e; try by simplify_eq. by eapply create_ok.
Qed.

Lemma applyObjects_other policyName objs generated w r w' k :
  applyObjects policyName objs generated w = (r, w') → k ∉ keyOf <$> objs →
  objects w' !! k = objects w !! k.
Proof.
  revert generated w. induction objs as [|o objs IH]; intros generated w Hrun Hk; simpl in Hrun.
  { by simplify_eq. }
  rewrite fmap_cons, not_elem_of_cons in Hk. destruct Hk as [Hk Hks].
  destruct (applyOwned policyName o w) as [[[]|e] w1] eqn:Ho;
    pose proof (applyOwned_other _ _ _ _ _ k Ho Hk) as <-; [by eapply IH|by simplify_eq].
Qed.

Lemma applyObjects_ok policyName objs generated w names w' :
  NoDup (keyOf <$> objs) → applyObjects policyName objs generated w = (Ok names, w') →
  Forall (λ o, ∃ o', objects w' !! keyOf o = Some o' ∧ sameContent o' o) objs.
Proof.
  revert generated w. induction objs as [|o objs IH]; intros generated w Hnd Hrun; simpl in Hrun.
  { constructor. }
  rewrite fmap_cons, NoDup_cons in Hnd. destruct Hnd as [Ho Hnd].
  destruct (applyOwned policyName o w) as [[[]|e] w1] eqn:Happ; [|done].
  constructor; [|by eapply IH]. apply applyOwned_ok in Happ as (o' & Ho' & Hsame).
  exists o'. split; [|done]. rewrite <- Ho'. by eapply applyObjects_other.
Qed.

(** The slices that would be left over. *)
Lemma deleteStale_gone names items w w' :
  deleteStale names items w = (Ok tt, w') →
  Forall (λ s, om_Name (es_ObjectMeta s) ∉ names → objects w' !! keyOf (OEndpointSlice s) = None) items.
Proof.
  revert w. induction items as [|s items IH]; intros w Hrun; simpl in Hrun; [constructor|].
  case_decide as Hn; [constructor; [done|by eapply IH]|].
  destruct (DeleteEndpointSlice s w) as [d w1] eqn:Hd.
  assert (deleteStale names items w1 = (Ok tt, w') ∧ objects w1 !! keyOf (OEndpointSlice s) = None)
    as [Hrun1 Hgone].
  { destruct d as [[]|[]]; try done; (split; [done|]); eapply delete_gone; eauto. }
  constructor; [|by eapply IH]. intros _.
  destruct (decide (Exists (λ s', om_Name (es_ObjectMeta s') ∉ names ∧
    keyOf (OEndpointSlice s) = keyOf (OEndpointSlice s')) items)) as [Hex|Hno].
  - apply list.Exists_exists in Hex as (s' & Hs' & Hn' & ->). specialize (IH _ Hrun1).
    rewrite Forall_forall in IH. by apply IH.
  - rewrite <- Hgone. eapply deleteStale_frame; [done|]. intros s' Hs' Hn' Heq. apply Hno.
    apply list.Exists_exists. eauto.
Qed.

(** A stored slice with a rendered object's key is one of the rendered slices. *)
Lemma rendered_slice policy cands out o s :
  Render policy cands = Ok out →
  Forall (λ o, typeName o ≠ "EndpointSlice") (out_DriverObjects out) →
  o ∈ OutputObjects out → keyOf o = keyOf (OEndpointSlice s) →
  om_Name (es_ObjectMeta s) ∈ (λ s, om_Name (es_ObjectMeta s)) <$> out_EndpointSlices out.
Proof.
  intros _ Hdrv Ho Hk. unfold OutputObjects in Ho.
  apply elem_of_app in Ho as [->%list_elem_of_singleton|Ho]; [done|].
  apply elem_of_app in Ho as [(s' & -> & Hs')%list_elem_of_fmap|Ho].
  - injection Hk as _ Hn. unfold GetName in Hn. simpl in Hn. rewrite <- Hn.
    by apply (list_elem_of_fmap_2 (λ s, om_Name (es_ObjectMeta s))).
  - rewrite Forall_forall in Hdrv. apply Hdrv in Ho. by injection Hk.
Qed.

Lemma prune_complete policy svc desired w w' :
  currentLists W → pruneStaleEndpointSlices policy svc desired w = (Ok tt, w') →
  ∀ s, objects w' !! keyOf (OEndpointSlice s) = Some (OEndpointSlice s) →
    om_Namespace (es_ObjectMeta s) = om_Namespace (bp_ObjectMeta policy) →
    om_Labels (es_ObjectMeta s) !! ManagedByLabel = Some (om_Name (bp_ObjectMeta policy)) →
    om_Labels (es_ObjectMeta s) !! LabelServiceName = Some svc →
    om_Name (es_ObjectMeta s) ∈ (λ s, om_Name (es_ObjectMeta s)) <$> desired.
Proof.
  intros Hlists Hrun s Hst Hns Hown Hsvc. unfold pruneStaleEndpointSlices in Hrun.
  destruct (ListEndpointSlices _ _ _) as [items|e] eqn:Hlist; [|done].
  destruct (decide (om_Name (es_ObjectMeta s) ∈ (λ s, om_Name (es_ObjectMeta s)) <$> desired))
    as [|Hn]; [done|exfalso].
  pose proof (deleteStale_gone _ _ _ _ Hrun) as Hgone. rewrite Forall_forall in Hgone.
  assert (s ∈ items → False) as Hnot.
  { intros Hs. rewrite (Hgone s Hs) in Hst; [done|]. by rewrite elem_of_list_to_set. }
  assert (objects w !! keyOf (OEndpointSlice s) = Some (OEndpointSlice s)) as Hw.
  { rewrite <- Hst. symmetry. eapply deleteStale_frame; [done|]. intros s' Hs' Hn' Heq.
    rewrite Heq in Hst. by rewrite (Hgone s' Hs' Hn') in Hst. }
  apply Hnot, (Hlists _ _ _ _ Hlist). split_and!; [done..|].
  apply map_subseteq_spec. intros k v [[<- <-]|[_ [<- <-]%lookup_singleton_Some]]%lookup_insert_Some; done.
Qed.

Lemma ReconcilePolicy_ok ns name w result w' policy :
  currentLists W → snapshotFrame → GetPolicy ns name w = Ok policy →
  (∀ candidates w1 out, SourceSnapshot w = (Ok candidates, w1) → Render policy candidates = Ok out →
     NoDup (keyOf <$> OutputObjects out) ∧
     Forall (λ o, typeName o ≠ "EndpointSlice") (out_DriverObjects out)) →
  ReconcilePolicy ns name w = (Ok result, w') →
  res_RequeueAfter result = snapshotPollInterval ∧
  ∃ candidates w1 out, SourceSnapshot w = (Ok candidates, w1) ∧ Render policy candidates = Ok out ∧
    Forall (λ o, ∃ o', objects w' !! keyOf o = Some o' ∧ sameContent o' o) (OutputObjects out) ∧
    ∀ s, objects w' !! keyOf (OEndpointSlice s) = Some (OEndpointSlice s) →
      om_Namespace (es_ObjectMeta s) = om_Namespace (bp_ObjectMeta policy) →
      om_Labels (es_ObjectMeta s) !! ManagedByLabel = Some (om_Name (bp_ObjectMeta policy)) →
      om_Labels (es_ObjectMeta s) !! LabelServiceName = Some (ServiceName policy) →
      om_Name (es_ObjectMeta s) ∈ (λ s, om_Name (es_ObjectMeta s)) <$> out_EndpointSlices out.
Proof.
  intros Hlists Hsnap Hget Hkeys Hrun. unfold ReconcilePolicy in Hrun. rewrite Hget in Hrun.
  destruct (SourceSnapshot w) as [[cands|] w1] eqn:Hs; [|done].
  destruct (Render policy cands) as [out|e] eqn:Hren; [|done].
  destruct (Hkeys _ _ _ eq_refl Hren) as [Hnd Hdrv].
  destruct (applyObjects _ _ _ w1) as [[generated|e] w2] eqn:Ha; [|done].
  apply applyObjects_ok in Ha; [|done].
  destruct (pruneStaleEndpointSlices _ _ _ w2) as [[[]|e] w3] eqn:Hp; [|done].
  destruct (UpdatePolicyStatus _ w3) as [[[]|e] w4] eqn:Hu; [|done].
  apply status_frame in Hu. simplify_eq/=. rewrite Hu. split; [done|]. exists cands, w1, out.
  split; [done|]. split; [done|]. split.
  - rewrite Forall_forall in Ha |- *. intros o Ho. destruct (Ha o Ho) as (o' & Ho' & Hsame).
    exists o'. split; [|done]. eapply prune_frame; [by apply currentLists_stable|done..|].
    intros s Hks _. eapply rendered_slice; [exact Hren|done..].
  - destruct (Render_inv _ _ _ Hren) as (_ & Hsvc & _). rewrite Hsvc in Hp.
    change (om_Name (svc_ObjectMeta (renderService policy))) with (ServiceName policy) in Hp.
    by eapply prune_complete.
Qed.

(** C15 (A successful pass converges).  When a pass over a policy succeeds, it comes back
    at the polling interval, and the cluster holds the rendered Service, EndpointSlices
    and driver objects with the rendered content, and no other EndpointSlice of the
    policy's Service; this needs an up-to-date list for the pruning, rendered objects
    with distinct keys, and a driver that generates no EndpointSlices of its own. *)
Theorem ReconcilePolicy_converges ns name w result w' policy :
  currentLists W → snapshotFrame → GetPolicy ns name w = Ok policy →
  (∀ candidates w1 out, SourceSnapshot w = (Ok candidates, w1) → Render policy candidates = Ok out →
     NoDup (keyOf <$> OutputObjects out) ∧
     Forall (λ o, typeName o ≠ "EndpointSlice") (out_DriverObjects out)) →
  ReconcilePolicy ns name w = (Ok result, w') →
  res_RequeueAfter result = snapshotPollInterval ∧
  ∃ candidates w1 out, SourceSnapshot w = (Ok candidates, w1) ∧ Render policy candidates = Ok out ∧
    Forall (λ o, ∃ o', objects w' !! keyOf o = Some o' ∧ sameContent o' o) (OutputObjects out) ∧
    ∀ s, objects w' !! keyOf (OEndpointSlice s) = Some (OEndpointSlice s) →
      om_Namespace (es_ObjectMeta s) = om_Namespace (bp_ObjectMeta policy) →
      om_Labels (es_ObjectMeta s) !! ManagedByLabel = Some (om_Name (bp_ObjectMeta policy)) →
      om_Labels (es_ObjectMeta s) !! LabelServiceName = Some (ServiceName policy) →
      om_Name (es_ObjectMeta s) ∈ (λ s, om_Name (es_ObjectMeta s)) <$> out_EndpointSlices out.
Proof. apply ReconcilePolicy_ok. Qed.
End reconcile.

(** (Unlabelled objects are taken over).  An object that carries no managed-by label is
    not owned by the policy, but it is not protected either: the pass overwrites it. *)
Theorem applyOwned_adopts_unlabelled {W} `{ClientLaws W} policyName desired current w :
  GetObject (keyOf desired) w = Ok current → GetLabels current !! ManagedByLabel = None →
  applyOwned policyName desired w
  = UpdateObject (SetResourceVersion (GetResourceVersion current) desired) w.
Proof. intros Hget Hl. unfold applyOwned. by rewrite Hget, Hl. Qed.

(** ** Concrete instances *)

Module PolicyControllerExamples.
Import MemoryServer ReconcileExamples.

(** A source that always gives the same snapshot. *)
#[local] Instance constant : SnapshotSource world := {| SourceSnapshot w := (Ok candidates, w) |}.
Lemma constant_frame : snapshotFrame.
Proof. intros w r w' [= _ <-]. done. Qed.

(** Another policy's slice, and one of this policy's that is no longer wanted. *)
Definition slice (name owner svc : string) : Object :=
  OEndpointSlice (mkEndpointSlice (mkTypeMeta "" "")
    (mkObjectMeta name "web" {[ ManagedByLabel := owner; LabelServiceName := svc ]} "7")
    AddressTypeIPv4 [] []).
Definition theirs : Object := slice "other-kreg-atl-1-198-51-100-10-32" "other" "other-kreg".
Definition stale : Object := slice "shop-kreg-atl-1-198-51-100-99-32" "shop" "shop-kreg".
Definition before : world :=
  mkWorld {[ keyOf theirs := theirs; keyOf stale := stale ]} {[ ("web", "shop") := policy ]}.
Definition after : world := (@ReconcilePolicy _ _ _ noDriver "web" "shop" before).2.

Lemma ReconcilePolicy_leaves_foreign_witness : objects after !! keyOf theirs = Some theirs.
Proof.
  apply (@ReconcilePolicy_leaves_foreign _ _ _ _ noDriver "web" "shop" before
    (@ReconcilePolicy _ _ _ noDriver "web" "shop" before).1 after policy);
    [apply currentLists_stable, memory_currentLists|apply constant_frame|done|apply surjective_pairing|by vm_compute|].
  by exists "other".
Defined.

Lemma ReconcilePolicy_converges_witness :
  ∃ o, objects after !! keyOf (OService (renderService policy)) = Some o ∧
       sameContent o (OService (renderService policy)).
Proof.
  destruct (@ReconcilePolicy_converges _ _ _ _ noDriver "web" "shop" before
    (mkResult snapshotPollInterval) after policy) as (_ & cands & w1 & out & _ & Hren & Hall & _).
  - apply memory_currentLists.
  - apply constant_frame.
  - done.
  - intros cands w1 out [= <- _] Hren. rewrite output_ok in Hren. injection Hren as <-.
    split; [by_compute|constructor].
  - apply result_of. by vm_compute.
  - apply Forall_cons in Hall as [Hsvc _]. apply Render_inv in Hren as (_ & Heq & _).
    by rewrite Heq in Hsvc.
Defined.
End PolicyControllerExamples.
