(* ===== verification/PeerController.v ===== *)
(** * [internal/controller]: the BGPPeerConfig controller

    bgppeerconfig_controller.go: one pass resolves the peers' passwords, converges the
    BGP server and reports session state.  The theorems show that resolving fails
    closed, and that a pass that succeeds leaves no session without the password its
    spec asks for. *)

From S2P Require Import Prelude GoStrings GoNet GoFloat GoTime Api Pipeline Ingest Authorize.
Local Open Scope Z_scope.

Definition statusPollInterval : Duration := 30 * Second.

(** The cluster calls of this controller over a world [W]. *)
Class PeerClient (W : Type) := {
  GetPeerConfig : string → W → res BGPPeerConfig;
  GetSecret : string → string → W → res (gmap string string);
  UpdatePeerConfigStatus : BGPPeerConfig → W → res unit * W;
}.

Definition secretRef (peer : BGPPeer) : option SecretKeySelector :=
  peer_Auth peer ≫= auth_TCPMD5SecretRef.

Definition isOptional (ref : SecretKeySelector) : bool := default false (sks_Optional ref).

Section resolve.
Context {W : Type} `{PeerClient W} (namespace : string) (w : W).

(** The part of an iteration after the duplicate check: the password of one peer, or
    none when it has no reference or its optional one cannot be resolved. *)
Definition resolvePassword (peer : BGPPeer) : res (option string) :=
  match secretRef peer with
  | None => Ok None
  | Some ref =>
      if String.eqb namespace "" then
        Err (Errorf "peer %s: tcpMD5SecretRef is set but no namespace is configured to resolve it against (POD_NAMESPACE not set?)" [peer_Name peer])
      else if String.eqb (sks_Name ref) "" then
        Err (Errorf "peer %s: tcpMD5SecretRef.name is empty" [peer_Name peer])
      else if String.eqb (sks_Key ref) "" then
        Err (Errorf "peer %s: tcpMD5SecretRef.key is empty" [peer_Name peer])
      else
        match GetSecret namespace (sks_Name ref) w with
        | Err NotFound =>
            if isOptional ref then Ok None
            else Err (Errorf "peer %s: secret %s/%s not found" [peer_Name peer; namespace; sks_Name ref])
        | Err e =>
            Err (Wrapf "peer %s: get secret %s/%s: %w" [peer_Name peer; namespace; sks_Name ref] e)
        | Ok data =>
            match data !! sks_Key ref with
            | Some password => Ok (Some password)
            | None =>
                if isOptional ref then Ok None
                else Err (Errorf "peer %s: key %q not found in secret %s/%s"
                            [peer_Name peer; sks_Key ref; namespace; sks_Name ref])
            end
        end
  end.

Fixpoint resolvePasswords (peers : list BGPPeer) (seenNames : gset string)
    (passwords : gmap string string) : res (gmap string string) :=
  match peers with
  | [] => Ok passwords
  | peer :: rest =>
      if decide (peer_Name peer ∈ seenNames) then
        Err (Errorf "duplicate peer name %q" [peer_Name peer])
      else
        let* password := resolvePassword peer in
        resolvePasswords rest ({[ peer_Name peer ]} ∪ seenNames)
          (match password with
           | Some pw => <[peer_Name peer := pw]> passwords
           | None => passwords
           end)
  end.
End resolve.

Definition withRejected (tracker : RejectionTracker) (s : PeerStatus) : PeerStatus :=
  mkPeerStatus (ps_Name s) (ps_SessionState s) (ps_Uptime s) (ps_PrefixesReceived s)
    (ps_PrefixesAccepted s) (trackerGet tracker (ps_Name s)).

Section controller.
Context `{HP : Platform} {W S : Type} `{HC : PeerClient W} `{HB : BgpServer S}.

(** One pass; [order] enumerates the existing peers, [now] is the clock of the status. *)
Definition ReconcilePeerConfig (namespace name : string) (now : Time)
    (order : gset string → list string) (tracker : option RejectionTracker)
    (w : W) (m : Manager S) : res Duration * W * Manager S :=
  match GetPeerConfig name w with
  | Err NotFound => (Ok 0, w, m)
  | Err e => (Err e, w, m)
  | Ok pc =>
      match resolvePasswords namespace w (pcs_Peers (pc_Spec pc)) ∅ ∅ with
      | Err e => (Err (Wrapf "resolve peer auth: %w" [] e), w, m)
      | Ok passwords =>
          match Reconfigure order m (pc_Spec pc) passwords with
          | (Err e, m) => (Err (Wrapf "reconfigure: %w" [] e), w, m)
          | (Ok _, m) =>
              match ManagerStatus now m with
              | Err e => (Err (Wrapf "status: %w" [] e), w, m)
              | Ok statuses =>
                  let statuses := match tracker with
                                  | Some t => withRejected t <$> statuses
                                  | None => statuses
                                  end in
                  let pc' := mkBGPPeerConfig (pc_ObjectMeta pc) (pc_Spec pc)
                               (mkBGPPeerConfigStatus statuses (pcst_Conditions (pc_Status pc))) in
                  match UpdatePeerConfigStatus pc' w with
                  | (Err e, w) => (Err (Wrapf "update status: %w" [] e), w, m)
                  | (Ok _, w) => (Ok statusPollInterval, w, m)
                  end
              end
          end
      end
  end.
End controller.

(** ** Passwords *)

Section passwords.
Context {W : Type} `{HC : PeerClient W} (namespace : string) (w : W).

Lemma resolvePasswords_from peers seen pw0 pw :
  resolvePasswords namespace w peers seen pw0 = Ok pw →
  (∀ n, n ∉ seen → pw0 !! n = None) →
  NoDup (peer_Name <$> peers) ∧ (∀ n, n ∈ seen → n ∉ peer_Name <$> peers) ∧
  (∀ peer, peer ∈ peers → resolvePassword namespace w peer = Ok (pw !! peer_Name peer)) ∧
  (∀ n, n ∉ peer_Name <$> peers → pw !! n = pw0 !! n).
Proof.
  revert seen pw0. induction peers as [|peer peers IH]; intros seen pw0 Hrun Hpw0; simpl in Hrun.
  { simplify_eq. split_and!; [constructor|set_solver..]. }
  case_decide as Hseen; [done|].
  destruct (resolvePassword namespace w peer) as [o|e] eqn:Ho; [|done].
  destruct (IH _ _ Hrun) as (Hnd & Hfresh & Hall & Hother).
  { intros n Hn. destruct o as [pw1|]; [|set_solver]. rewrite lookup_insert_ne by set_solver.
    apply Hpw0. set_solver. }
  assert (peer_Name peer ∉ peer_Name <$> peers) as Hnew by (apply Hfresh; set_solver).
  split_and!.
  - rewrite fmap_cons. by constructor.
  - intros n Hn. rewrite fmap_cons, not_elem_of_cons. split; [set_solver|]. apply Hfresh. set_solver.
  - intros peer' [->|Hin]%elem_of_cons; [|by apply Hall]. rewrite Ho. f_equal.
    rewrite Hother by done. destruct o as [pw1|]; [by rewrite lookup_insert_eq|].
    symmetry. by apply Hpw0.
  - intros n Hn. rewrite fmap_cons, not_elem_of_cons in Hn. rewrite Hother by tauto.
    destruct o as [pw1|]; [|done]. rewrite lookup_insert_ne; [done|]. naive_solver.
Qed.

Lemma resolvePasswords_Ok peers pw :
  resolvePasswords namespace w peers ∅ ∅ = Ok pw →
  NoDup (peer_Name <$> peers) ∧
  (∀ peer, peer ∈ peers → resolvePassword namespace w peer = Ok (pw !! peer_Name peer)) ∧
  (∀ n, n ∉ peer_Name <$> peers → pw !! n = None).
Proof.
  intros Hrun. destruct (resolvePasswords_from _ _ _ _ Hrun) as (Hnd & _ & Hall & Hother);
    [intros; apply lookup_empty|]. split_and!; [done..|]. intros n Hn. rewrite Hother by done.
  apply lookup_empty.
Qed.
End passwords.

Lemma resolvePassword_mandatory {W} `{PeerClient W} namespace (w : W) peer ref password :
  secretRef peer = Some ref → isOptional ref = false →
  resolvePassword namespace w peer = Ok password →
  ∃ data pw, GetSecret namespace (sks_Name ref) w = Ok data ∧ data !! sks_Key ref = Some pw ∧
    password = Some pw.
Proof.
  intros Href Hopt Hres. unfold resolvePassword in Hres. rewrite Href, Hopt in Hres.
  repeat (destruct (String.eqb _ _); [done|]).
  destruct (GetSecret namespace (sks_Name ref) w) as [data|[]]; try done.
  destruct (data !! sks_Key ref) as [pw|] eqn:Hk; [|done]. simplify_eq. eauto.
Qed.

(** C22 (No session without its password).  When a pass over a configuration whose peers
    have distinct addresses succeeds, every peer whose spec has a mandatory secret
    reference is configured in the BGP server with exactly the password stored under that
    secret and key: not with none, and not with another peer's. *)
Theorem ReconcilePeerConfig_authenticates {W S} `{Platform, PeerClient W} `{HB : BgpServer S} `{!BgpServerLaws S}
    namespace name now order tracker (w : W) (m : Manager S) pc d w' m' peer ref :
  (∀ X, order X ≡ₚ elements X) → GetPeerConfig name w = Ok pc →
  NoDup (peerHost <$> pcs_Peers (pc_Spec pc)) →
  ReconcilePeerConfig namespace name now order tracker w m = (Ok d, w', m') →
  peer ∈ pcs_Peers (pc_Spec pc) → secretRef peer = Some ref → isOptional ref = false →
  ∃ data password settings,
    GetSecret namespace (sks_Name ref) w = Ok data ∧ data !! sks_Key ref = Some password ∧
    configured (mgr_server m') !! peerHost peer = Some settings ∧ pe_AuthPassword settings = password.
Proof.
  intros Horder Hget Hhosts Hrun Hpeer Href Hopt. unfold ReconcilePeerConfig in Hrun.
  rewrite Hget in Hrun.
  destruct (resolvePasswords namespace w _ ∅ ∅) as [pw|e] eqn:Hpw; [|done].
  destruct (Reconfigure order m (pc_Spec pc) pw) as [[[]|e] m1] eqn:Hrec; [|done].
  assert (m' = m1) as -> by (repeat case_match; simplify_eq; done).
  apply Reconfigure_Ok in Hrec as [Hconf _]; [|done..].
  apply resolvePasswords_Ok in Hpw as (_ & Hall & _). specialize (Hall peer Hpeer).
  destruct (resolvePassword_mandatory _ _ _ _ _ Href Hopt Hall) as (data & password & Hd & Hk & Hp).
  exists data, password, (settingsOf pw peer). split_and!; [done..| |].
  - rewrite Hconf. unfold wanted. apply elem_of_list_to_map_1.
    + by rewrite fst_peers.
    + by apply (list_elem_of_fmap_2 (λ peer, (peerHost peer, settingsOf pw peer))).
  - unfold settingsOf, toAPIPeer. destruct (splitHostPort _). simpl. by rewrite Hp.
Qed.

(** (Authentication fails closed).  When a mandatory secret or key is missing, or
    two peers share a name, the pass returns an error and the BGP server is not
    touched at all. *)
Theorem ReconcilePeerConfig_fails_closed {W S} `{Platform, PeerClient W} `{HB : BgpServer S}
    namespace name now order tracker (w : W) (m : Manager S) pc :
  GetPeerConfig name w = Ok pc →
  ¬ NoDup (peer_Name <$> pcs_Peers (pc_Spec pc)) ∨
  (∃ peer ref, peer ∈ pcs_Peers (pc_Spec pc) ∧ secretRef peer = Some ref ∧ isOptional ref = false ∧
     ∀ data, GetSecret namespace (sks_Name ref) w = Ok data → data !! sks_Key ref = None) →
  ∃ e, ReconcilePeerConfig namespace name now order tracker w m = (Err e, w, m).
Proof.
  intros Hget Hbad. unfold ReconcilePeerConfig. rewrite Hget.
  destruct (resolvePasswords namespace w _ ∅ ∅) as [pw|e] eqn:Hpw; [|by eexists]. exfalso.
  apply resolvePasswords_Ok in Hpw as (Hnd & Hall & _).
  destruct Hbad as [?|(peer & ref & Hpeer & Href & Hopt & Hmiss)]; [done|].
  destruct (resolvePassword_mandatory _ _ _ _ _ Href Hopt (Hall peer Hpeer)) as (data & p & Hd & Hk & _).
  specialize (Hmiss data Hd). congruence.
Qed.

(** ** Concrete instances *)

Module PeerControllerExamples.
Import IngestExamples.

Definition ref : SecretKeySelector := mkSecretKeySelector "bgp" "rr" None.
Definition guarded : BGPPeer :=
  mkBGPPeer "rr" "10.0.0.1" 65000 (Some (mkBGPPeerAuth (Some ref))) None None.
Definition config : BGPPeerConfig :=
  mkBGPPeerConfig (mkObjectMeta "main" "" ∅ "")
    (mkBGPPeerConfigSpec 65000 "10.0.0.2" None BGPPeerConfigModeRouteReflectorClient [guarded] [])
    (mkBGPPeerConfigStatus [] []).
(** A cluster whose world is the set of secrets. *)
Definition secretsClient : PeerClient (gmap string (gmap string string)) := {|
  GetPeerConfig _ _ := Ok config;
  GetSecret _ name w := match w !! name with Some d => Ok d | None => Err NotFound end;
  UpdatePeerConfigStatus _ w := (Ok tt, w);
|}.
Definition secrets : gmap string (gmap string string) := {[ "bgp" := {[ "rr" := "hunter2" ]} ]}.
Definition pass (w : gmap string (gmap string string)) :=
  @ReconcilePeerConfig somePlatform _ _ secretsClient mapServer "kreg" "main" 0 elements None w initial.

Lemma ReconcilePeerConfig_authenticates_witness :
  ∃ settings, @configured _ _ mapServer_laws (mgr_server (pass secrets).2) !! "10.0.0.1" = Some settings
              ∧ pe_AuthPassword settings = "hunter2".
Proof.
  destruct (@ReconcilePeerConfig_authenticates _ _ somePlatform secretsClient mapServer mapServer_laws
    "kreg" "main" 0 elements None secrets initial config statusPollInterval secrets (pass secrets).2
    guarded ref) as (data & password & settings & Hd & Hk & Hs & Hp);
    [done|done|by_compute|by vm_compute|set_solver|done|done|].
  exists settings. split; [exact Hs|]. rewrite Hp.
  assert (Ok data = Ok ({[ "rr" := "hunter2" ]} : gmap string string)) as [= ->] by (rewrite <- Hd; reflexivity).
  change (sks_Key ref) with "rr" in Hk. rewrite lookup_singleton_eq in Hk. by injection Hk.
Defined.

Lemma ReconcilePeerConfig_fails_closed_witness : ∃ e, pass ∅ = (Err e, ∅, initial).
Proof.
  apply (@ReconcilePeerConfig_fails_closed _ _ somePlatform secretsClient mapServer "kreg" "main" 0 elements
    None ∅ initial config); [done|]. right. exists guarded, ref.
  split; [set_solver|]. by split_and!.
Defined.
End PeerControllerExamples.
