(* ===== verification/Sessions.v ===== *)
(** * [internal/ingest]: the life of the session manager

    manager.go beyond one [Reconfigure]: [NewManager], [Serve], [Stop], and what any
    sequence of reconciliations does.  [recorded] wraps a BGP server so that it keeps the
    sequence of its calls; the invariant says in which order the manager can make them.
    The last theorem is about two BGPPeerConfigs in one cluster. *)

From S2P Require Import Prelude GoStrings GoNet GoFloat GoTime Api Pipeline Ingest Authorize PeerController.
Local Open Scope Z_scope.

(** ** Construction and shutdown *)

(** The rest of the server's interface, which the manager only forwards to. *)
Class BgpLifecycle (S : Type) := {
  NewBgpServer : S;
  ServeBgp : S → S;
  StopBgp : S → S;
}.

Definition NewManager {S : Type} `{BgpLifecycle S} : Manager S := mkManager NewBgpServer false.
Definition ManagerServe {S : Type} `{BgpLifecycle S} (m : Manager S) : Manager S :=
  mkManager (ServeBgp (mgr_server m)) (mgr_started m).
Definition ManagerStop {S : Type} `{BgpLifecycle S} (m : Manager S) : Manager S :=
  mkManager (StopBgp (mgr_server m)) (mgr_started m).

(** ** Recording the calls *)

Inductive call :=
| CallStart (g : Global) (ok : bool)
| CallAdd (p : PeerSettings) (ok : bool)
| CallUpdate (p : PeerSettings) (ok : bool)
| CallDelete (address : string) (ok : bool).

Definition isStart (c : call) : bool := match c with CallStart _ _ => true | _ => false end.

Section sessions.
Context `{Platform} {S : Type} `{HS : BgpServer S} `{HLC : BgpLifecycle S}.

Definition record {A} (c : bool → call) (log : list call) (r : res A * S) : res A * (S * list call) :=
  (r.1, (r.2, log ++ [c (is_ok r.1)])).

#[local] Instance recorded : BgpServer (S * list call) := {|
  StartBgp g s := record (CallStart g) s.2 (StartBgp g s.1);
  ListPeer s := ListPeer s.1;
  AddPeer p s := record (CallAdd p) s.2 (AddPeer p s.1);
  UpdatePeer p s := record (CallUpdate p) s.2 (UpdatePeer p s.1);
  DeletePeer a s := record (CallDelete a) s.2 (DeletePeer a s.1);
|}.
#[local] Instance recordedLifecycle : BgpLifecycle (S * list call) := {|
  NewBgpServer := (NewBgpServer, []);
  ServeBgp s := (ServeBgp s.1, s.2);
  StopBgp s := (StopBgp s.1, s.2);
|}.

(** The managers of a process: made once, and then served, stopped and reconfigured with
    any specs, passwords and outcomes. *)
Inductive managed : Manager (S * list call) → Prop :=
| managed_new : managed NewManager
| managed_serve m : managed m → managed (ManagerServe m)
| managed_stop m : managed m → managed (ManagerStop m)
| managed_reconfigure order m spec passwords r m' :
    managed m → Reconfigure order m spec passwords = (r, m') → managed m'.

(** Starts that failed, then, once started, one that succeeded and no other. *)
Definition startedOnce (started : bool) (log : list call) : Prop :=
  ∃ failed rest, log = failed ++ rest ∧ Forall (λ c, ∃ g, c = CallStart g false) failed ∧
    if started
    then ∃ g calls, rest = CallStart g true :: calls ∧ Forall (λ c, isStart c = false) calls
    else rest = [].

Lemma startedOnce_app log calls :
  startedOnce true log → Forall (λ c, isStart c = false) calls → startedOnce true (log ++ calls).
Proof.
  intros (failed & rest & -> & Hf & g & cs & -> & Hcs) Hcalls.
  exists failed, (CallStart g true :: (cs ++ calls)). split; [by rewrite <- app_assoc|].
  split; [done|]. exists g, (cs ++ calls). split; [done|]. by apply Forall_app.
Qed.

Lemma ensureStarted_once m spec r m' :
  startedOnce (mgr_started m) (mgr_server m).2 → ensureStarted m spec = (r, m') →
  startedOnce (mgr_started m') (mgr_server m').2 ∧ (r = Ok tt → mgr_started m' = true).
Proof.
  intros Hlog Hrun. unfold ensureStarted in Hrun. destruct (mgr_started m) eqn:Hm.
  { simplify_eq. by rewrite Hm. }
  destruct Hlog as (failed & rest & Hlog & Hf & ->). rewrite app_nil_r in Hlog. simpl in Hrun.
  unfold record in Hrun. destruct (StartBgp _ (mgr_server m).1) as [[[]|e] s1]; simplify_eq/=;
    (split; [|done]).
  - eexists _, [_]. split; [done|]. split; [done|]. eexists _, []. done.
  - eexists (_ ++ [_]), []. rewrite app_nil_r. split; [done|]. split; [|done].
    apply Forall_app. split; [done|]. apply Forall_singleton. by eexists.
Qed.

Lemma applyPeers_calls existing passwords peers desired (s : S * list call) r s' :
  applyPeers existing passwords peers desired s = (r, s') →
  ∃ calls, s'.2 = s.2 ++ calls ∧ Forall (λ c, isStart c = false) calls.
Proof.
  revert desired s. induction peers as [|peer peers IH]; intros desired s Hrun; simpl in Hrun.
  { simplify_eq. exists []. by rewrite app_nil_r. }
  destruct (splitHostPort (peer_Address peer)) as [host port].
  case_decide; unfold record in Hrun;
    [destruct (UpdatePeer _ s.1) as [[[]|e] s1]|destruct (AddPeer _ s.1) as [[[]|e] s1]];
    simpl in Hrun; first [apply IH in Hrun as (calls & -> & Hcalls)|simplify_eq];
    simpl; rewrite <- ?app_assoc; (eexists; split; [done|]); repeat constructor; done.
Qed.

Lemma removePeers_calls desired addrs (s : S * list call) r s' :
  removePeers desired addrs s = (r, s') →
  ∃ calls, s'.2 = s.2 ++ calls ∧ Forall (λ c, isStart c = false) calls.
Proof.
  revert s. induction addrs as [|a addrs IH]; intros s Hrun; simpl in Hrun.
  { simplify_eq. exists []. by rewrite app_nil_r. }
  case_decide; [by apply IH|]. unfold record in Hrun.
  destruct (DeletePeer a s.1) as [[[]|e] s1];
    simpl in Hrun; first [apply IH in Hrun as (calls & -> & Hcalls)|simplify_eq];
    simpl; rewrite <- ?app_assoc; (eexists; split; [done|]); repeat constructor; done.
Qed.

Lemma Reconfigure_once order m spec passwords r m' :
  startedOnce (mgr_started m) (mgr_server m).2 → Reconfigure order m spec passwords = (r, m') →
  startedOnce (mgr_started m') (mgr_server m').2.
Proof.
  intros Hlog Hrun. unfold Reconfigure in Hrun.
  destruct (ensureStarted m spec) as [[[]|e] m1] eqn:Hstart;
    apply ensureStarted_once in Hstart as [Hlog1 Hst]; try done; [|by simplify_eq].
  specialize (Hst eq_refl). rewrite Hst in Hlog1.
  destruct (ListPeer _) as [infos|e]; [|simplify_eq; by rewrite Hst].
  destruct (applyPeers _ _ _ _ _) as [ra s2] eqn:Ha. apply applyPeers_calls in Ha as (calls & Hs2 & Hc).
  assert (startedOnce true s2.2) as Hlog2 by (rewrite Hs2; by apply startedOnce_app).
  destruct ra as [desired|e]; [|simplify_eq/=; by rewrite Hst].
  destruct (removePeers _ _ _) as [rr s3] eqn:Hr. simplify_eq/=. rewrite Hst.
  apply removePeers_calls in Hr as (calls' & -> & Hc'). by apply startedOnce_app.
Qed.

(** C23 (The daemon is started once, and first).  Whatever sequence of reconciliations a
    process goes through, with whatever specs and failures, the calls its manager has made
    to the BGP server are some starts that failed, then, when the manager counts itself
    started, one that succeeded, and peers are added, updated and deleted only after
    it; the server is never started again. *)
Theorem managed_starts_once m : managed m → startedOnce (mgr_started m) (mgr_server m).2.
Proof.
  induction 1 as [|m _ IH|m _ IH|order m spec passwords r m' _ IH Hrun]; [by exists [], []|done|done|].
  by eapply Reconfigure_once.
Qed.
End sessions.

(** ** Two configurations in one cluster *)

(** (BGPPeerConfigs evict each other's peers).  The reconciler converges the one BGP server
    to the config it is called for, so after a pass over one config succeeds, no peer of
    another config with other hosts is left, although the pipeline reads the bindings of
    every config: with two configs, each pass takes down the sessions of the other. *)
Theorem peerConfigs_evict {W S} `{Platform, PeerClient W, BgpServerLaws S}
    namespace name now order tracker (w w' : W) (m m' : Manager S) pc d peer :
  (∀ X, order X ≡ₚ elements X) → GetPeerConfig name w = Ok pc →
  NoDup (peerHost <$> pcs_Peers (pc_Spec pc)) →
  ReconcilePeerConfig namespace name now order tracker w m = (Ok d, w', m') →
  peerHost peer ∉ peerHost <$> pcs_Peers (pc_Spec pc) →
  configured (mgr_server m') !! peerHost peer = None.
Proof.
  intros Horder Hget Hnd Hrun Hother. unfold ReconcilePeerConfig in Hrun. rewrite Hget in Hrun.
  destruct (resolvePasswords namespace w _ ∅ ∅) as [pw|e]; [|done].
  destruct (Reconfigure order m (pc_Spec pc) pw) as [[[]|e] m1] eqn:Hrec; [|done].
  assert (m' = m1) as -> by (repeat case_match; simplify_eq; done).
  apply Reconfigure_Ok in Hrec as [-> _]; [|done..].
  unfold wanted. apply not_elem_of_list_to_map_1. by rewrite fst_peers.
Qed.

(** ** Concrete instances *)

Module SessionsExamples.
Import IngestExamples.

Definition emptyServer : BgpLifecycle (gmap string PeerSettings) :=
  {| NewBgpServer := ∅; ServeBgp s := s; StopBgp s := s |}.
Definition fresh := @NewManager _ (@recordedLifecycle _ emptyServer).
Definition configuredOnce : Manager (gmap string PeerSettings * list call) :=
  (@Reconfigure somePlatform _ (@recorded _ mapServer) elements fresh spec ∅).2.

Lemma managed_starts_once_witness :
  startedOnce (mgr_started configuredOnce) (mgr_server configuredOnce).2.
Proof.
  apply (@managed_starts_once somePlatform _ mapServer emptyServer).
  apply (@managed_reconfigure somePlatform _ mapServer emptyServer elements fresh spec ∅
    (@Reconfigure somePlatform _ (@recorded _ mapServer) elements fresh spec ∅).1 configuredOnce);
    [constructor|apply surjective_pairing].
Defined.
End SessionsExamples.
