(* ===== verification/BackendController.v ===== *)
(** * [internal/controller]: the AdvertisedBackend controller

    advertisedbackend_controller.go: one pass rebuilds the view, writes each record and
    prunes the rest.  The theorems say what the records are after a successful pass, stamps
    included, and which records pruning can delete. *)

From S2P Require Import Prelude GoStrings GoNet GoFloat GoTime Api Wire Pipeline Objects Reconcile.
From S2P Require Import Damp Ewma Report PolicyController.
Local Open Scope Z_scope.

(** The cluster calls of this controller; [Now] is the clock. *)
Class BackendClient (W : Type) := {
  Now : W → Time;
  GetBackend : string → W → res AdvertisedBackend;
  CreateBackend : AdvertisedBackend → W → res ObjectMeta * W;
  UpdateBackendStatus : AdvertisedBackend → W → res unit * W;
  ListBackends : gmap string string → W → res (list AdvertisedBackend);
  DeleteBackend : AdvertisedBackend → W → res unit * W;
  ListPolicies : W → res (list BGPBackendPolicy);
}.

Definition reasonDrifts (state : BackendState) : bool :=
  match state with
  | BackendStateHoldDown | BackendStateDampened => true
  | _ => false
  end.

(** The status with the fields [statusChanged] clears. *)
Definition comparable (s : AdvertisedBackendStatus) : AdvertisedBackendStatus :=
  let st := abs_Stability s in
  mkAdvertisedBackendStatus (abs_Prefix s) (abs_ClusterID s) (abs_Peer s) (abs_Locality s)
    (abs_Attributes s) (abs_State s) (if reasonDrifts (abs_State s) then "" else abs_Reason s)
    None None
    (mkStabilityStatus 0 0 None (ss_WithdrawnAt st) (ss_SuppressedSince st) (ss_PendingSince st))
    (abs_BoundPolicies s) (abs_GeneratedResources s).

Definition statusChanged (old latest : AdvertisedBackendStatus) : bool :=
  negb (bool_decide (comparable old = comparable latest)).

Definition backendVersion (b : AdvertisedBackend) : string := om_ResourceVersion (ab_ObjectMeta b).

Definition withTimes (first last : option Time) (s : AdvertisedBackendStatus) : AdvertisedBackendStatus :=
  mkAdvertisedBackendStatus (abs_Prefix s) (abs_ClusterID s) (abs_Peer s) (abs_Locality s)
    (abs_Attributes s) (abs_State s) (abs_Reason s) first last (abs_Stability s)
    (abs_BoundPolicies s) (abs_GeneratedResources s).

Section controller.
Context `{HP : Platform} `{HS : Sorter} {W : Type} `{HC : BackendClient W} `{HN : SnapshotSource W}.

Definition applyBackend (desired : AdvertisedBackend) (w : W) : res unit * W :=
  let name := om_Name (ab_ObjectMeta desired) in
  match GetBackend name w with
  | Err NotFound =>
      let bare := mkAdvertisedBackend
        (mkObjectMeta name "" (om_Labels (ab_ObjectMeta desired)) "")
        zeroStatus in
      match CreateBackend bare w with
      | (Err e, w) => (Err (Wrapf "create: %w" [] e), w)
      | (Ok meta, w) =>
          let now := Some (Now w) in
          UpdateBackendStatus (mkAdvertisedBackend meta (withTimes now now (ab_Status desired))) w
      end
  | Err e => (Err (Wrapf "get: %w" [] e), w)
  | Ok current =>
      let lastChange := if statusChanged (ab_Status current) (ab_Status desired)
                        then Some (Now w) else abs_LastChange (ab_Status current) in
      UpdateBackendStatus (mkAdvertisedBackend (ab_ObjectMeta current)
        (withTimes (abs_FirstSeen (ab_Status current)) lastChange (ab_Status desired))) w
  end.

Fixpoint applyBackends (desired : list AdvertisedBackend) (names : gset string) (w : W)
    : res (gset string) * W :=
  match desired with
  | [] => (Ok names, w)
  | d :: rest =>
      match applyBackend d w with
      | (Err e, w) => (Err (Wrapf "apply %s: %w" [om_Name (ab_ObjectMeta d)] e), w)
      | (Ok _, w) => applyBackends rest ({[ om_Name (ab_ObjectMeta d) ]} ∪ names) w
      end
  end.

Fixpoint deleteBackends (names : gset string) (existing : list AdvertisedBackend) (w : W)
    : res unit * W :=
  match existing with
  | [] => (Ok tt, w)
  | b :: rest =>
      if decide (om_Name (ab_ObjectMeta b) ∈ names) then deleteBackends names rest w
      else match DeleteBackend b w with
           | (Err NotFound, w) | (Ok _, w) => deleteBackends names rest w
           | (Err e, w) =>
               (Err (Wrapf "delete stale advertisedbackend %s: %w" [om_Name (ab_ObjectMeta b)] e), w)
           end
  end.

Definition pruneStaleBackends (names : gset string) (w : W) : res unit * W :=
  match ListBackends {[ ManagedByLabel := ManagedByValue ]} w with
  | Err e => (Err (Wrapf "list: %w" [] e), w)
  | Ok existing => deleteBackends names existing w
  end.

Definition ReconcileBackends (w : W) : res Result * W :=
  match SourceSnapshot w with
  | (Err e, w) => (Err (Wrapf "get snapshot: %w" [] e), w)
  | (Ok candidates, w) =>
      match ListPolicies w with
      | Err e => (Err (Wrapf "list BGPBackendPolicies: %w" [] e), w)
      | Ok policies =>
          match applyBackends (BuildAdvertisedBackends candidates policies) ∅ w with
          | (Err e, w) => (Err e, w)
          | (Ok names, w) =>
              match pruneStaleBackends names w with
              | (Err e, w) => (Err (Wrapf "prune: %w" [] e), w)
              | (Ok _, w) => (Ok (mkResult snapshotPollInterval), w)
              end
          end
      end
  end.
End controller.

(** ** What a pass writes and deletes *)

(** The effect of a status update that was applied to the record stored under the name of
    [b]: the status is kept in its stored form and the metadata is left alone; an update
    that names a version applies only to that version. *)
Definition wroteStatus (recs recs' : gmap string AdvertisedBackend) (b : AdvertisedBackend) : Prop :=
  ∃ cur b', recs !! om_Name (ab_ObjectMeta b) = Some cur ∧
    (backendVersion b ≠ "" → backendVersion cur = backendVersion b) ∧
    recs' = <[om_Name (ab_ObjectMeta b) := b']> recs ∧
    ab_Status b' = wireStatus (ab_Status b) ∧ om_Labels (ab_ObjectMeta b') = om_Labels (ab_ObjectMeta cur).

(** The effect of a create that was applied: the status of a new object is not kept, it
    has to be written through the status subresource. *)
Definition createdRecord (recs recs' : gmap string AdvertisedBackend) (b : AdvertisedBackend) : Prop :=
  recs !! om_Name (ab_ObjectMeta b) = None ∧
  ∃ b', recs' = <[om_Name (ab_ObjectMeta b) := b']> recs ∧ ab_Status b' = zeroStatus ∧
    om_Labels (ab_ObjectMeta b') = om_Labels (ab_ObjectMeta b).

(** What the controller relies on; [records] are the stored records by name.  A read may
    be stale, but a version names one content; a call that reports an error may or may
    not have been applied; the clock does not run backwards. *)
Class BackendClientLaws (W : Type) `{BackendClient W} := {
  records : W → gmap string AdvertisedBackend;
  records_named n w b : records w !! n = Some b → om_Name (ab_ObjectMeta b) = n;
  getBackend_named n w b :
    GetBackend n w = Ok b → om_Name (ab_ObjectMeta b) = n ∧ backendVersion b ≠ "";
  getBackend_version n w b cur :
    GetBackend n w = Ok b → records w !! n = Some cur → backendVersion cur = backendVersion b →
    cur = b;
  updateStatus_ok b w w' :
    UpdateBackendStatus b w = (Ok tt, w') → wroteStatus (records w) (records w') b;
  updateStatus_err b w e w' :
    UpdateBackendStatus b w = (Err e, w') →
    records w' = records w ∨ wroteStatus (records w) (records w') b;
  createBackend_ok b w meta w' :
    CreateBackend b w = (Ok meta, w') →
    om_Name meta = om_Name (ab_ObjectMeta b) ∧ createdRecord (records w) (records w') b;
  createBackend_err b w e w' :
    CreateBackend b w = (Err e, w') →
    records w' = records w ∨ createdRecord (records w) (records w') b;
  deleteBackend_frame b w r w' n :
    DeleteBackend b w = (r, w') → n ≠ om_Name (ab_ObjectMeta b) → records w' !! n = records w !! n;
  deleteBackend_gone b w w' :
    DeleteBackend b w = (Ok tt, w') ∨ DeleteBackend b w = (Err NotFound, w') →
    records w' !! om_Name (ab_ObjectMeta b) = None;
  deleteBackend_any b w r w' :
    DeleteBackend b w = (r, w') →
    records w' !! om_Name (ab_ObjectMeta b) = records w !! om_Name (ab_ObjectMeta b) ∨
    records w' !! om_Name (ab_ObjectMeta b) = None;
  update_clock b w r w' : UpdateBackendStatus b w = (r, w') → Now w <= Now w';
  create_clock b w r w' : CreateBackend b w = (r, w') → Now w <= Now w';
  delete_clock b w r w' : DeleteBackend b w = (r, w') → Now w <= Now w';
}.

(** A list that is not stale about the labels it selects by, and one that is up to date. *)
Definition stableBackendLabels (W : Type) `{BackendClientLaws W} : Prop :=
  ∀ labels w items b cur, ListBackends labels w = Ok items → b ∈ items →
    records w !! om_Name (ab_ObjectMeta b) = Some cur → labels ⊆ om_Labels (ab_ObjectMeta cur).
Definition currentBackends (W : Type) `{BackendClientLaws W} : Prop :=
  ∀ labels w items, ListBackends labels w = Ok items →
    ∀ b, b ∈ items ↔ records w !! om_Name (ab_ObjectMeta b) = Some b ∧
                     labels ⊆ om_Labels (ab_ObjectMeta b).

Lemma currentBackends_stable (W : Type) `{BackendClientLaws W} :
  currentBackends W → stableBackendLabels W.
Proof.
  intros Hcur labels w items b cur Hlist [Hst Hl]%(Hcur _ _ _ Hlist) Hs. by simplify_eq.
Qed.

(** The status written at time [t] over the record stored before, if any. *)
Definition stampedStatus (t : Time) (old : option AdvertisedBackend) (s : AdvertisedBackendStatus)
    : AdvertisedBackendStatus :=
  match old with
  | None => withTimes (Some t) (Some t) s
  | Some o => withTimes (abs_FirstSeen (ab_Status o))
                (if statusChanged (ab_Status o) s then Some t else abs_LastChange (ab_Status o)) s
  end.

(** Whether a record is the controller's own. *)
Definition ownRecord (b : AdvertisedBackend) : Prop :=
  om_Labels (ab_ObjectMeta b) !! ManagedByLabel = Some ManagedByValue.
#[export] Instance ownRecord_dec b : Decision (ownRecord b).
Proof. unfold ownRecord. apply _. Defined.

Section pass.
Context `{HP : Platform} `{HS : Sorter} {W : Type} `{HC : BackendClient W} `{HL : !BackendClientLaws W}.
Context `{HN : SnapshotSource W}.

Notation nameOf d := (om_Name (ab_ObjectMeta d)).

(** A successful apply writes exactly one record, stamped against the one it replaces,
    whatever the read before it returned. *)
Lemma applyBackend_ok desired w w' :
  applyBackend desired w = (Ok tt, w') →
  ∃ b t, records w' !! nameOf desired = Some b ∧
    (∀ n, n ≠ nameOf desired → records w' !! n = records w !! n) ∧ Now w <= t <= Now w' ∧
    om_Labels (ab_ObjectMeta b) = om_Labels (ab_ObjectMeta (default desired (records w !! nameOf desired))) ∧
    ab_Status b = wireStatus (stampedStatus t (records w !! nameOf desired) (ab_Status desired)).
Proof.
  unfold applyBackend. intros Hrun.
  destruct (GetBackend _ w) as [current|[]] eqn:Hget; try done.
  - destruct (getBackend_named _ _ _ Hget) as [Hname Hv].
    pose proof (update_clock _ _ _ _ Hrun) as Ht.
    apply updateStatus_ok in Hrun as (cur & b & Hcur & Hrv & Hrec & Hst & Hlab). simpl in *.
    rewrite Hname in *. exists b, (Now w). rewrite Hrec, lookup_insert_eq. split; [done|].
    split; [intros; by rewrite lookup_insert_ne|]. split; [lia|]. rewrite Hcur. split; [done|].
    by rewrite Hst, (getBackend_version _ _ _ _ Hget Hcur (Hrv Hv)).
  - destruct (CreateBackend _ w) as [[meta|e] w1] eqn:Hc; [|done].
    pose proof (create_clock _ _ _ _ Hc). pose proof (update_clock _ _ _ _ Hrun).
    apply createBackend_ok in Hc as (Hname & Hnone & b1 & Hrec1 & _ & Hlab1). simpl in *.
    apply updateStatus_ok in Hrun as (cur & b & Hcur & _ & Hrec & Hst & Hlab). simpl in *.
    rewrite Hname, Hrec1, lookup_insert_eq in Hcur. simplify_eq.
    exists b, (Now w1). rewrite Hrec, Hname, Hrec1, insert_insert_eq, lookup_insert_eq.
    split; [done|]. split; [intros; by rewrite lookup_insert_ne|]. split; [lia|].
    rewrite Hnone. split; [by rewrite Hlab|]. by rewrite Hst.
Qed.

Lemma applyBackends_ok desired names w names' w' :
  NoDup ((λ d, nameOf d) <$> desired) → applyBackends desired names w = (Ok names', w') →
  names' = list_to_set ((λ d, nameOf d) <$> desired) ∪ names ∧ Now w <= Now w' ∧
  (∀ d, d ∈ desired → ∃ b t, records w' !! nameOf d = Some b ∧ Now w <= t <= Now w' ∧
     om_Labels (ab_ObjectMeta b) = om_Labels (ab_ObjectMeta (default d (records w !! nameOf d))) ∧
     ab_Status b = wireStatus (stampedStatus t (records w !! nameOf d) (ab_Status d))) ∧
  (∀ n, n ∉ (λ d, nameOf d) <$> desired → records w' !! n = records w !! n).
Proof.
  revert names w. induction desired as [|d desired IH]; intros names w Hnd Hrun; simpl in Hrun.
  { simplify_eq. split_and!; [set_solver|lia|set_solver|done]. }
  rewrite fmap_cons, NoDup_cons in Hnd. destruct Hnd as [Hd Hnd].
  destruct (applyBackend d w) as [[[]|e] w1] eqn:Happ; [|done].
  apply applyBackend_ok in Happ as (b & t & Hb & Hother & Ht & Hlab & Hst).
  apply IH in Hrun as (-> & Hclock & Hall & Hrest); [|done]. split_and!; [set_solver|lia| |].
  - intros d' [->|Hd']%list.elem_of_cons.
    + exists b, t. rewrite Hrest by done. split_and!; [done|lia|lia|done|done].
    + destruct (Hall d' Hd') as (b' & t' & Hb' & Ht' & Hst'). exists b', t'.
      rewrite <- (Hother (nameOf d')); [split_and!; [done|lia|lia|apply Hst'|apply Hst']|].
      intros Heq. apply Hd. rewrite <- Heq. by apply (list_elem_of_fmap_2 (λ d, nameOf d)).
  - intros n [Hn Hns]%not_elem_of_cons. rewrite Hrest by done. by apply Hother.
Qed.

Lemma deleteBackends_frame names items w r w' n :
  deleteBackends names items w = (r, w') →
  (∀ b, b ∈ items → nameOf b ∉ names → n ≠ nameOf b) →
  records w' !! n = records w !! n.
Proof.
  revert w. induction items as [|b items IH]; intros w Hrun Hn; simpl in Hrun; [by simplify_eq|].
  case_decide as Hd; [apply IH; [done|set_solver]|].
  destruct (DeleteBackend b w) as [d w1] eqn:Hdel.
  assert (records w1 !! n = records w !! n) as Hw1.
  { eapply deleteBackend_frame; [done|]. apply Hn; [set_solver|done]. }
  rewrite <- Hw1. destruct d as [[]|[]]; try (by simplify_eq); (apply IH; [done|set_solver]).
Qed.

Lemma deleteBackends_ok names items w w' :
  deleteBackends names items w = (Ok tt, w') →
  Now w <= Now w' ∧
  ∀ n, records w' !! n
       = if decide (n ∈ ((λ b, nameOf b) <$> items) ∧ n ∉ names) then None else records w !! n.
Proof.
  revert w. induction items as [|b items IH]; intros w Hrun; simpl in Hrun.
  { simplify_eq. split; [lia|]. intros n. rewrite decide_False; [done|]. set_solver. }
  case_decide as Hn.
  { apply IH in Hrun as [Hc Hrec]. split; [done|]. intros n. rewrite Hrec.
    apply decide_ext. rewrite fmap_cons, list.elem_of_cons. naive_solver. }
  destruct (DeleteBackend b w) as [d w1] eqn:Hdel. pose proof (delete_clock _ _ _ _ Hdel).
  assert (deleteBackends names items w1 = (Ok tt, w') ∧ records w1 !! nameOf b = None)
    as [Hrun1 Hgone].
  { destruct d as [[]|[]]; try done; (split; [done|]); eapply deleteBackend_gone; eauto. }
  apply IH in Hrun1 as [Hc Hrec]. split; [lia|]. intros n. rewrite Hrec.
  destruct (decide (n = nameOf b)) as [->|Hne].
  - rewrite Hgone, fmap_cons. case_decide; symmetry; by rewrite decide_True by (split; [left|]; done).
  - rewrite (deleteBackend_frame _ _ _ _ _ Hdel Hne). apply decide_ext.
    rewrite fmap_cons, list.elem_of_cons. naive_solver.
Qed.

(** (Pruning is confined).  A record that is still desired, or that does not carry
    this controller's label, survives the pruning unchanged, however the pruning ends;
    the list used for pruning may be stale, except about labels. *)
Theorem pruneStaleBackends_confined names w r w' n b :
  stableBackendLabels W → pruneStaleBackends names w = (r, w') → records w !! n = Some b →
  n ∈ names ∨ ¬ ownRecord b → records w' !! n = Some b.
Proof.
  intros Hlists Hrun Hb Hkeep. unfold pruneStaleBackends in Hrun.
  destruct (ListBackends _ w) as [items|e] eqn:Hlist; [|by simplify_eq].
  rewrite <- Hb. eapply deleteBackends_frame; [done|]. intros b' Hb' Hn ->.
  destruct Hkeep as [?|Hlab]; [done|]. apply Hlab.
  eapply lookup_weaken; [|by eapply Hlists]. by rewrite lookup_singleton_eq.
Qed.

Lemma prune_exact names w w' :
  currentBackends W → pruneStaleBackends names w = (Ok tt, w') →
  Now w <= Now w' ∧
  ∀ n, records w' !! n
       = if decide (n ∈ names) then records w !! n else records w !! n ≫= λ b,
           if decide (ownRecord b) then None else Some b.
Proof.
  intros Hlists Hrun. unfold pruneStaleBackends in Hrun.
  destruct (ListBackends _ w) as [items|e] eqn:Hlist; [|done].
  apply deleteBackends_ok in Hrun as [Hc Hrec]. split; [done|]. intros n. rewrite Hrec.
  destruct (decide (n ∈ names)) as [Hn|Hn]; [by rewrite decide_False by tauto|].
  assert (n ∈ ((λ b, nameOf b) <$> items) ↔ ∃ b, records w !! n = Some b ∧ ownRecord b) as Hin.
  { rewrite list_elem_of_fmap. split.
    - intros (b & -> & [Hst Hl]%(Hlists _ _ _ Hlist)). exists b. split; [done|].
      eapply lookup_weaken; [|done]. by rewrite lookup_singleton_eq.
    - intros (b & Hst & Hown). pose proof (records_named _ _ _ Hst) as <-.
      exists b. split; [done|]. apply (Hlists _ _ _ Hlist). split; [done|].
      by apply map_singleton_subseteq_l. }
  destruct (records w !! n) as [b|] eqn:Hb; simpl; [|by case_decide].
  destruct (decide (ownRecord b)); [rewrite decide_True by naive_solver; done|].
  rewrite decide_False; [done|]. naive_solver.
Qed.

(** Taking a snapshot leaves the records alone and does not turn back the clock. *)
Definition snapshotKeeps : Prop :=
  ∀ w r w', SourceSnapshot w = (r, w') → records w' = records w ∧ Now w <= Now w'.

Lemma ReconcileBackends_exact w result w' :
  currentBackends W → snapshotKeeps → ReconcileBackends w = (Ok result, w') →
  res_RequeueAfter result = snapshotPollInterval ∧
  ∃ candidates policies w1,
    SourceSnapshot w = (Ok candidates, w1) ∧ ListPolicies w1 = Ok policies ∧
    (NoDup (objectName <$> candidates) →
     (∀ c, c ∈ candidates → ∃ b t, records w' !! objectName c = Some b ∧ Now w <= t <= Now w' ∧
        (∀ old, records w !! objectName c = Some old →
           om_Labels (ab_ObjectMeta b) = om_Labels (ab_ObjectMeta old)) ∧
        (records w !! objectName c = None → ownRecord b) ∧
        ab_Status b = wireStatus (stampedStatus t (records w !! objectName c)
                                              (ab_Status (buildOne c policies)))) ∧
     (∀ n, n ∉ objectName <$> candidates →
        records w' !! n = records w !! n ≫= λ b, if decide (ownRecord b) then None else Some b)).
Proof.
  intros Hlists Hsnap Hrun. unfold ReconcileBackends in Hrun.
  destruct (SourceSnapshot w) as [[cands|] w1] eqn:Hs; [|done]. apply Hsnap in Hs as [Hrec Hc].
  destruct (ListPolicies w1) as [policies|] eqn:Hpol; [|done].
  destruct (applyBackends _ _ w1) as [[names|] w2] eqn:Ha; [|done].
  destruct (pruneStaleBackends names w2) as [[[]|] w3] eqn:Hp; simplify_eq/=.
  split; [done|]. exists cands, policies, w1. split_and!; [done..|]. intros Hnd.
  assert ((λ d, nameOf d) <$> BuildAdvertisedBackends cands policies = objectName <$> cands) as Hnames.
  { unfold BuildAdvertisedBackends. rewrite <- list_fmap_compose. apply list_fmap_ext.
    intros _ c _. apply buildOne_name. }
  apply applyBackends_ok in Ha as (-> & Hc2 & Hall & Hrest); [|by rewrite Hnames].
  apply prune_exact in Hp as [Hc3 Hp]; [|done]. rewrite Hnames in *. rewrite <- Hrec.
  split.
  - intros c Hin. destruct (Hall (buildOne c policies)) as (b & t & Hb & Ht & Hlab & Hst).
    { by apply (list_elem_of_fmap_2 (λ c, buildOne c policies)). }
    rewrite buildOne_name in *. exists b, t. rewrite Hp, decide_True.
    2:{ apply elem_of_union_l, elem_of_list_to_set. by apply list_elem_of_fmap_2. }
    split_and!; [done|lia|lia| | |done].
    + intros old Hold. by rewrite Hold in Hlab.
    + intros Hold. rewrite Hold in Hlab. unfold ownRecord. rewrite Hlab. simpl.
      unfold buildOne. destruct (stateAndReason c), (bindings c policies).
      apply lookup_singleton_eq.
  - intros n Hn. rewrite Hp, decide_False by set_solver. by rewrite Hrest.
Qed.

(** (A successful pass writes the view).  When a pass succeeds, it comes back at the
    polling interval and the records of the cluster are exactly determined, provided
    the backends of the snapshot have distinct names and the pruning list is up to
    date: each backend has the record built for it, in stored form, with [firstSeen] kept
    from the record stored before, and [lastChange] kept too unless the status changed,
    both set to a time within the pass when there was none; every other record of the
    controller is gone, and the records of others are as they were. *)
Theorem ReconcileBackends_converges w result w' :
  currentBackends W → snapshotKeeps → ReconcileBackends w = (Ok result, w') →
  res_RequeueAfter result = snapshotPollInterval ∧
  ∃ candidates policies w1,
    SourceSnapshot w = (Ok candidates, w1) ∧ ListPolicies w1 = Ok policies ∧
    (NoDup (objectName <$> candidates) →
     (∀ c, c ∈ candidates → ∃ b t, records w' !! objectName c = Some b ∧ Now w <= t <= Now w' ∧
        ab_Status b = wireStatus (stampedStatus t (records w !! objectName c)
                                              (ab_Status (buildOne c policies)))) ∧
     (∀ n, n ∉ objectName <$> candidates →
        records w' !! n = records w !! n ≫= λ b, if decide (ownRecord b) then None else Some b)).
Proof.
  intros Hlists Hsnap (Hres & cands & policies & w1 & Hs & Hp & Hall)%ReconcileBackends_exact; [|done..].
  split; [done|]. exists cands, policies, w1. split_and!; [done..|]. intros [Hin Hout]%Hall.
  split; [|done]. intros c (b & t & ? & ? & _ & _ & ?)%Hin. by exists b, t.
Qed.
End pass.

(** ** Concrete instances *)

Module BackendControllerExamples.
Import ReconcileExamples EwmaExamples.

(** A stored record: labels, a version and a status.  The clock stands still. *)
Record entry := mkEntry {
  en_Labels : gmap string string;
  en_Version : string;
  en_Status : AdvertisedBackendStatus;
}.
Notation world := (gmap string entry).
Definition versionOf (v : string) : string := "v" +:+ v.
Definition metaOf (n : string) (e : entry) : ObjectMeta :=
  mkObjectMeta n "" (en_Labels e) (versionOf (en_Version e)).
Definition asRecord (n : string) (e : entry) : AdvertisedBackend :=
  mkAdvertisedBackend (metaOf n e) (en_Status e).
#[export] Instance memoryBackends : BackendClient world := {|
  Now _ := 5000 * Second;
  GetBackend n w :=
    match w !! n with Some e => Ok (asRecord n e) | None => Err NotFound end;
  CreateBackend b w :=
    let n := om_Name (ab_ObjectMeta b) in
    match w !! n with
    | Some _ => (Err (Opaque "already exists"), w)
    | None => let e := mkEntry (om_Labels (ab_ObjectMeta b)) "1" zeroStatus in
              (Ok (metaOf n e), <[n := e]> w)
    end;
  UpdateBackendStatus b w :=
    let n := om_Name (ab_ObjectMeta b) in
    match w !! n with
    | Some e =>
        if decide (versionOf (en_Version e) = backendVersion b)
        then (Ok tt, <[n := mkEntry (en_Labels e) (en_Version e +:+ "+") (wireStatus (ab_Status b))]> w)
        else (Err (Opaque "conflict"), w)
    | None => (Err NotFound, w)
    end;
  ListBackends labels w :=
    Ok (omap (λ ne, if decide (labels ⊆ en_Labels ne.2) then Some (asRecord ne.1 ne.2) else None)
          (map_to_list w));
  DeleteBackend b w :=
    let n := om_Name (ab_ObjectMeta b) in
    match w !! n with Some _ => (Ok tt, delete n w) | None => (Err NotFound, w) end;
  ListPolicies _ := Ok [policy];
|}.

Definition memoryRecords (w : world) : gmap string AdvertisedBackend :=
  map_imap (λ n e, Some (asRecord n e)) w.
Lemma memoryRecords_lookup w n : memoryRecords w !! n = asRecord n <$> w !! n.
Proof. unfold memoryRecords. rewrite map_lookup_imap. by destruct (w !! n). Qed.
Lemma memoryRecords_insert w n e :
  memoryRecords (<[n := e]> w) = <[n := asRecord n e]> (memoryRecords w).
Proof.
  apply map_eq. intros i. rewrite memoryRecords_lookup, !lookup_insert, memoryRecords_lookup.
  case_decide; [by subst|done].
Qed.

#[export] Program Instance memoryBackends_laws : BackendClientLaws world :=
  {| records := memoryRecords |}.
Next Obligation. intros n w b. rewrite memoryRecords_lookup. by intros (e & _ & ->)%fmap_Some. Qed.
Next Obligation. intros n w b Hg. simpl in Hg. case_match; by simplify_eq. Qed.
Next Obligation.
  intros n w b cur Hg. rewrite memoryRecords_lookup. simpl in Hg.
  destruct (w !! n) as [e|]; [|done]. simpl. congruence.
Qed.
Next Obligation.
  intros b w w' Hr. simpl in Hr. destruct (w !! _) as [e|] eqn:He; [|done].
  case_decide; simplify_eq. exists (asRecord (om_Name (ab_ObjectMeta b)) e).
  rewrite memoryRecords_lookup, He, memoryRecords_insert. eexists. split_and!; done.
Qed.
Next Obligation.
  intros b w e w' Hr. left. simpl in Hr. repeat case_match; by simplify_eq.
Qed.
Next Obligation.
  intros b w meta w' Hr. simpl in Hr. destruct (w !! _) as [e|] eqn:He; simplify_eq.
  unfold createdRecord. rewrite memoryRecords_lookup, He, memoryRecords_insert.
  split_and!; [done..|]. eexists. done.
Qed.
Next Obligation.
  intros b w e w' Hr. left. simpl in Hr. case_match; by simplify_eq.
Qed.
Next Obligation.
  intros b w r w' n Hr Hn. simpl in Hr. rewrite !memoryRecords_lookup.
  case_match; simplify_eq; [|done]. by rewrite lookup_delete_ne.
Qed.
Next Obligation.
  intros b w w' Hr. simpl in Hr. rewrite memoryRecords_lookup.
  destruct (w !! om_Name (ab_ObjectMeta b)) eqn:He; destruct Hr; simplify_eq; [|by rewrite He].
  by rewrite lookup_delete_eq.
Qed.
Next Obligation.
  intros b w r w' Hr. simpl in Hr.
  destruct (w !! om_Name (ab_ObjectMeta b)); simplify_eq; [right|by left].
  by rewrite memoryRecords_lookup, lookup_delete_eq.
Qed.
Next Obligation. done. Qed.
Next Obligation. done. Qed.
Next Obligation. done. Qed.

Lemma memory_currentBackends : currentBackends world.
Proof.
  intros labels w items [= <-] b. rewrite list_elem_of_omap. simpl. rewrite memoryRecords_lookup.
  split.
  - intros ([n e] & Hin%elem_of_map_to_list & Hb). simpl in *. case_decide; [|done].
    simplify_eq. simpl. by rewrite Hin.
  - intros [(e & Hb & He)%fmap_Some Hl]. exists (om_Name (ab_ObjectMeta b), e).
    split; [by apply elem_of_map_to_list|]. simpl.
    rewrite decide_True; [by rewrite <- He|]. by rewrite He in Hl.
Qed.

Definition backend : BackendCandidate := candidate "198.51.100.10/32" "atl-1".
Definition record (t : Time) : AdvertisedBackend :=
  @buildOne halving _ (setDamping (Some (active t)) backend) [policy].
Definition entryOf (labels : gmap string string) (t : Time) : entry :=
  mkEntry labels "3" (wireStatus (withTimes (Some t) (Some t) (ab_Status (record t)))).
Definition own : gmap string string := {[ ManagedByLabel := ManagedByValue ]}.
(** A backend seen before, one that is gone, and a record someone else keeps. *)
Definition stored : world :=
  {[ name := entryOf own (1000 * Second); "gone" := entryOf own (500 * Second); "manual" := entryOf ∅ (10 * Second) ]}.
#[local] Instance settled : SnapshotSource world :=
  {| SourceSnapshot w := (Ok [setDamping (Some (active (2000 * Second))) backend], w) |}.
Lemma settled_keeps : snapshotKeeps.
Proof. intros w r w' [= _ <-]. split; [done|reflexivity]. Qed.
Definition pass : res Result * world := @ReconcileBackends halving _ _ _ _ stored.

Lemma pass_ok : pass.1 = Ok (mkResult snapshotPollInterval).
Proof. by vm_compute. Qed.

Lemma ReconcileBackends_converges_witness :
  records pass.2 !! "gone" = None ∧ records pass.2 !! "manual" = records stored !! "manual" ∧
  ∃ b, records pass.2 !! name = Some b ∧
    abs_FirstSeen (ab_Status b) = Some (1000 * Second) ∧ abs_LastChange (ab_Status b) = Some (1000 * Second).
Proof.
  destruct (@ReconcileBackends_converges halving _ _ _ _ _ stored (mkResult snapshotPollInterval) pass.2)
    as (_ & cands & pols & w1 & Hs & Hp & Hall);
    [apply memory_currentBackends|apply settled_keeps|rewrite <- pass_ok; apply surjective_pairing|].
  injection Hs as <- <-. injection Hp as <-. destruct Hall as [Hin Hout]; [by_compute|].
  split; [rewrite Hout; [by vm_compute|by_compute]|].
  split; [rewrite Hout; [by vm_compute|by_compute]|].
  destruct (Hin (setDamping (Some (active (2000 * Second))) backend)) as (b & t & Hb & _ & Hst); [by left|].
  exists b. split; [exact Hb|]. rewrite Hst.
  assert (records stored !! objectName (setDamping (Some (active (2000 * Second))) backend)
          = Some (asRecord name (entryOf own (1000 * Second)))) as -> by by vm_compute.
  cbn [stampedStatus].
  assert (statusChanged (ab_Status (asRecord name (entryOf own (1000 * Second)))) (ab_Status (record (2000 * Second))) = false)
    as E by by vm_compute.
  unfold record in E. rewrite E. split; reflexivity.
Defined.

Lemma pruneStaleBackends_confined_witness :
  records (pruneStaleBackends ∅ stored).2 !! "manual" = Some (asRecord "manual" (entryOf ∅ (10 * Second))).
Proof.
  apply (pruneStaleBackends_confined ∅ stored (pruneStaleBackends ∅ stored).1
    (pruneStaleBackends ∅ stored).2 "manual");
    [apply currentBackends_stable, memory_currentBackends|done|by vm_compute|right; by_compute].
Defined.
End BackendControllerExamples.
