(* ===== verification/Interleave.v ===== *)
(** * Interleave: other writers during a pass

    Elsewhere the world changes during a pass by the pass's own calls only.  Here others
    write between any two calls of a pass of the policy controller: a [shared] cluster
    lets the next of a list of foreign changes happen before and after every call that
    changes the world, and keeps the pass's own writes, each with the state it was made
    in and the state it left.  As [shared] is a [Client] like any other, the pass is the
    same [ReconcilePolicy]. *)
From S2P Require Import Prelude GoStrings Api Pipeline Objects Reconcile Kube PolicyController.

Record shared (W : Type) := mkShared {
  sh_world : W;
  sh_changes : list (W → W);
  sh_steps : list (W * W);
}.
Arguments mkShared {W} _ _ _.
Arguments sh_world {W} _.
Arguments sh_changes {W} _.
Arguments sh_steps {W} _.

(** The others' turn. *)
Definition turn {W} (s : shared W) : shared W :=
  match sh_changes s with
  | [] => s
  | f :: changes => mkShared (f (sh_world s)) changes (sh_steps s)
  end.

(** A call of the pass between two turns of the others; [own] says whether it is a write
    to the generated objects. *)
Definition call {W A} (own : bool) (f : W → A * W) (s : shared W) : A * shared W :=
  let s := turn s in
  let '(a, w') := f (sh_world s) in
  (a, turn (mkShared w' (sh_changes s) (if own then (sh_world s, w') :: sh_steps s else sh_steps s))).

#[export] Instance sharedClient {W} `{Client W} : Client (shared W) := {|
  GetObject k s := GetObject k (sh_world s);
  CreateObject o := call true (CreateObject o);
  UpdateObject o := call true (UpdateObject o);
  ListEndpointSlices ns labels s := ListEndpointSlices ns labels (sh_world s);
  DeleteEndpointSlice x := call true (DeleteEndpointSlice x);
  GetPolicy ns name s := GetPolicy ns name (sh_world s);
  UpdatePolicyStatus p := call true (UpdatePolicyStatus p);
|}.
#[export] Instance sharedSource {W} `{SnapshotSource W} : SnapshotSource (shared W) :=
  {| SourceSnapshot := call false SourceSnapshot |}.

(** A foreign change gives what it writes a new version: an object still stored at a
    version that was read before is the object that was read. *)
Definition versionedChange {W} `{ClientLaws W} (f : W → W) : Prop :=
  ∀ w k o cur, GetObject k w = Ok o → objects (f w) !! k = Some cur →
    GetResourceVersion cur = GetResourceVersion o → cur = o.

Section interleaved.
Context {W : Type} `{HC : Client W} `{HL : !ClientLaws W} `{HA : !AtomicClient W}.

(** From [s] to [s'] the pass makes writes that satisfy [P], and the others what is left
    for them to do. *)
Definition progress (P : W * W → Prop) (s s' : shared W) : Prop :=
  (∃ done, sh_changes s = done ++ sh_changes s') ∧
  ∃ steps, sh_steps s' = steps ++ sh_steps s ∧ Forall P steps.

#[export] Instance progress_refl P : Reflexive (progress P).
Proof. intros s. split; [by exists []|by exists []]. Qed.
#[export] Instance progress_trans P : Transitive (progress P).
Proof.
  intros s1 s2 s3 [[d1 E1] (l1 & F1 & H1)] [[d2 E2] (l2 & F2 & H2)]. split.
  - exists (d1 ++ d2). by rewrite E1, E2, app_assoc.
  - exists (l2 ++ l1). split; [by rewrite F2, F1, app_assoc|]. by apply Forall_app.
Qed.

Lemma progress_mono (P Q : W * W → Prop) s s' : (∀ ab, P ab → Q ab) → progress P s s' → progress Q s s'.
Proof. intros HPQ [Hd (l & Hl & HP)]. split; [done|]. exists l. split; [done|]. by eapply Forall_impl. Qed.

Lemma turn_progress P s : progress P s (turn s).
Proof.
  unfold turn. destruct (sh_changes s) as [|f fs] eqn:E; [reflexivity|].
  split; [exists [f]; by rewrite E|by exists []].
Qed.

Lemma call_progress {A} (P : W * W → Prop) own (f : W → A * W) s a s' :
  call own f s = (a, s') →
  (own = true → ∀ w', f (sh_world (turn s)) = (a, w') → P (sh_world (turn s), w')) → progress P s s'.
Proof.
  unfold call. intros Hcall HP. destruct (f (sh_world (turn s))) as [a' w'] eqn:Hf. injection Hcall as <- <-.
  etrans; [apply (turn_progress P)|]. etrans; [|apply (turn_progress P)]. split; [by exists []|].
  destruct own; simpl; [|by exists []]. exists [(sh_world (turn s), w')]. split; [done|].
  apply Forall_singleton. by apply HP.
Qed.

Lemma changes_kept P s s' :
  progress P s s' → Forall versionedChange (sh_changes s) → Forall versionedChange (sh_changes s').
Proof. intros [[d ->] _] [_ H]%Forall_app. done. Qed.

(** A write that leaves alone what other policies own when it is made. *)
Definition harmless (policyName : string) (ab : W * W) : Prop :=
  ∀ k cur, objects ab.1 !! k = Some cur → foreign policyName cur → objects ab.2 !! k = Some cur.
(** A write that deletes [x], or does nothing. *)
Definition deletes (x : EndpointSlice) (ab : W * W) : Prop :=
  objects ab.2 = objects ab.1 ∨ objects ab.2 = delete (keyOf (OEndpointSlice x)) (objects ab.1).

Lemma applyOwned_progress policyName desired s r s' :
  Forall versionedChange (sh_changes s) → applyOwned policyName desired s = (r, s') →
  progress (harmless policyName) s s'.
Proof.
  intros Hver. unfold applyOwned. cbn [GetObject sharedClient].
  destruct (GetObject (keyOf desired) (sh_world s)) as [current|e] eqn:Hget.
  - destruct (negb _ && negb _) eqn:Hg; [by intros [= _ <-]|]. intros Hcall.
    apply (call_progress (harmless policyName) _ _ _ _ _ Hcall). intros _ w' Hup k cur Hcur (owner & Hown & Hne & Hnp).
    eapply update_frame; [exact Hup|exact Hcur|]. rewrite keyOf_SetResourceVersion.
    destruct (decide (k = keyOf desired)) as [->|]; [right|by left].
    assert (GetResourceVersion (SetResourceVersion (GetResourceVersion current) desired)
            = GetResourceVersion current) as -> by by destruct desired.
    split; [by eapply get_versioned|]. intros Hrv.
    assert (cur = current) as ->.
    { unfold turn in Hcur. destruct (sh_changes s) as [|f fs]; [by eapply get_version|].
      apply Forall_cons in Hver as [Hf _]. by eapply Hf. }
    rewrite Hown in Hg. simpl in Hg.
    destruct (String.eqb_spec owner ""), (String.eqb_spec owner policyName); done.
  - destruct e; try by intros [= _ <-]. intros Hcall.
    apply (call_progress (harmless policyName) _ _ _ _ _ Hcall). intros _ w' Hcr k cur Hcur _. by eapply create_frame.
Qed.

Lemma applyObjects_progress policyName objs generated s r s' :
  Forall versionedChange (sh_changes s) → applyObjects policyName objs generated s = (r, s') →
  progress (harmless policyName) s s'.
Proof.
  revert generated s. induction objs as [|o objs IH]; intros generated s Hver; simpl; [by intros [= _ <-]|].
  destruct (applyOwned policyName o s) as [ro s1] eqn:Ho.
  pose proof (applyOwned_progress _ _ _ _ _ Hver Ho) as Hp. destruct ro as [[]|e]; intros Hrun.
  - etrans; [exact Hp|]. eapply IH; [by eapply changes_kept|exact Hrun].
  - by simplify_eq.
Qed.

Lemma deleteStale_progress (P : W * W → Prop) names items s r s' :
  (∀ x w d w', x ∈ items → DeleteEndpointSlice x w = (d, w') → P (w, w')) →
  deleteStale names items s = (r, s') → progress P s s'.
Proof.
  revert s. induction items as [|x items IH]; intros s HP; simpl; [by intros [= _ <-]|].
  assert (∀ x w d w', x ∈ items → DeleteEndpointSlice x w = (d, w') → P (w, w')) as HP'
    by (intros; eapply HP; [by right|done]).
  case_decide; [by apply IH|]. destruct (call _ _ s) as [d s1] eqn:Hd.
  assert (progress P s s1) as Hp.
  { eapply call_progress; [exact Hd|]. intros _ w' Hw. eapply (HP x); [by left|exact Hw]. }
  assert (deleteStale names items s1 = (r, s') → progress P s s') as Hrest.
  { intros Hrun. etrans; [exact Hp|]. by apply IH. }
  destruct d as [[]|[]]; first [apply Hrest|intros [= _ <-]; done].
Qed.

Lemma prune_progress policy svc desired s r s' :
  pruneStaleEndpointSlices policy svc desired s = (r, s') →
  progress (λ ab, ∃ items x, ListEndpointSlices (om_Namespace (bp_ObjectMeta policy))
      {[ ManagedByLabel := om_Name (bp_ObjectMeta policy); LabelServiceName := svc ]} (sh_world s) = Ok items ∧
    x ∈ items ∧ deletes x ab) s s'.
Proof.
  unfold pruneStaleEndpointSlices. cbn [ListEndpointSlices sharedClient].
  destruct (ListEndpointSlices _ _ (sh_world s)) as [items|e] eqn:Hlist; [|by intros [= _ <-]].
  apply deleteStale_progress. intros x w d w' Hx Hd. exists items, x. split_and!; [done..|].
  by eapply delete_any.
Qed.

Context `{HN : SnapshotSource W} `{HD : Driver}.

(** What the pass that starts in [s] lists for pruning: the slices with the labels of the
    policy and of its Service, once the snapshot is taken, rendered and applied. *)
Definition listedForPruning (policy : BGPBackendPolicy) (s : shared W) (items : list EndpointSlice) : Prop :=
  ∃ candidates s1 out generated s2,
    SourceSnapshot s = (Ok candidates, s1) ∧ Render policy candidates = Ok out ∧
    applyObjects (om_Name (bp_ObjectMeta policy)) (OutputObjects out) [] s1 = (Ok generated, s2) ∧
    ListEndpointSlices (om_Namespace (bp_ObjectMeta policy))
      {[ ManagedByLabel := om_Name (bp_ObjectMeta policy); LabelServiceName := ServiceName policy ]}
      (sh_world s2) = Ok items.

(** C13 (Others may write at any time).  Whatever others write between the calls of a pass,
    provided a write gives what it changes a new version, and however the pass ends, each
    of its writes leaves alone what other policies own at that moment, even an object the
    policy owned itself when the pass read it; or it is the deletion of a slice that this
    pass's own list for pruning, made by the labels of the policy and its Service, showed. *)
Theorem interleaved_pass_harmless ns name w changes r s' policy :
  Forall versionedChange changes → GetPolicy ns name w = Ok policy →
  ReconcilePolicy ns name (mkShared w changes []) = (r, s') →
  Forall (λ ab, harmless (om_Name (bp_ObjectMeta policy)) ab ∨
     ∃ items x, listedForPruning policy (mkShared w changes []) items ∧ x ∈ items ∧ deletes x ab)
    (sh_steps s').
Proof.
  set (P := λ ab, harmless (om_Name (bp_ObjectMeta policy)) ab ∨
     ∃ items x, listedForPruning policy (mkShared w changes []) items ∧ x ∈ items ∧ deletes x ab).
  intros Hver Hget Hrun.
  enough (progress P (mkShared w changes []) s') as [_ (steps & Hsteps & Hall)]
    by (rewrite Hsteps; simpl; by rewrite app_nil_r).
  unfold ReconcilePolicy in Hrun. cbn [GetPolicy sharedClient sh_world] in Hrun. rewrite Hget in Hrun.
  destruct (SourceSnapshot (mkShared w changes [])) as [rs s1] eqn:Hs.
  assert (progress P (mkShared w changes []) s1) as Hp1
    by (apply (call_progress P _ _ _ _ _ Hs); by intros ?).
  destruct rs as [cands|e]; [|by simplify_eq]. etrans; [exact Hp1|].
  apply changes_kept in Hp1; [|done]. destruct (Render policy cands) as [out|e] eqn:Hren; [|by simplify_eq].
  destruct (Render_inv _ _ _ Hren) as (_ & Hsvc & _).
  destruct (applyObjects _ _ _ s1) as [ra s2] eqn:Ha. pose proof (applyObjects_progress _ _ _ _ _ _ Hp1 Ha) as Hpa.
  apply (progress_mono _ P) in Hpa; [|by left].
  destruct ra as [generated|e]; [|by simplify_eq]. etrans; [exact Hpa|].
  destruct (pruneStaleEndpointSlices _ _ _ s2) as [rp s3] eqn:Hp. apply prune_progress in Hp.
  apply (progress_mono _ P) in Hp.
  2:{ intros ab (items & x & Hl & Hx & Hd). right. exists items, x. split_and!; [|done..].
      rewrite Hsvc in Hl. by exists cands, s1, out, generated, s2. }
  destruct rp as [[]|e]; [|by simplify_eq]. etrans; [exact Hp|].
  destruct (UpdatePolicyStatus _ s3) as [ru s4] eqn:Hu.
  assert (progress P s3 s4) as Hp4.
  { eapply call_progress; [exact Hu|]. intros _ w' Hw. left. intros k cur Hcur _.
    apply status_frame in Hw. cbn [fst snd] in *. by rewrite Hw. }
  destruct ru as [[]|e]; by simplify_eq.
Qed.
End interleaved.

(** ** Concrete instances *)

Module InterleaveExamples.
Import MemoryServer ReconcileExamples PolicyControllerExamples.
#[local] Existing Instance constant.
#[local] Existing Instance noDriver.

(** Another policy takes a slice over. *)
Definition handOver (owner : string) (o : Object) : Object :=
  match o with
  | OEndpointSlice s =>
      let m := es_ObjectMeta s in
      OEndpointSlice (mkEndpointSlice (es_TypeMeta s)
        (mkObjectMeta (om_Name m) (om_Namespace m) (<[ManagedByLabel := owner]> (om_Labels m))
           (om_ResourceVersion m +:+ "+")) (es_AddressType s) (es_Ports s) (es_Endpoints s))
  | o => SetResourceVersion (GetResourceVersion o +:+ "+") o
  end.
Definition takeOver (k : ObjectKey) (w : world) : world := withStore w (alter (handOver "other") k (store w)).

Lemma grown_version v : v +:+ "+" ≠ v.
Proof. induction v as [|a v IH]; [done|]. rewrite app_String. by intros [= ?]. Qed.

Lemma takeOver_versioned k : versionedChange (takeOver k).
Proof.
  intros w k' o cur Hget Hcur Hrv. simpl in Hget, Hcur.
  destruct (store w !! k') as [o'|] eqn:Ho; [|done]. case_decide; simplify_eq.
  destruct (decide (k = k')) as [->|]; [|rewrite lookup_alter_ne in Hcur by done; congruence].
  rewrite lookup_alter_eq, Ho in Hcur. simplify_eq/=. exfalso. revert Hrv.
  destruct o; apply grown_version.
Qed.

(** The second slice is taken over while the pass applies its objects: the update of it
    fails, and no step has touched it. *)
Definition second : ObjectKey := ("EndpointSlice", "web", "shop-kreg-atl-2-198-51-100-11-32").
Definition applied : world := mkWorld (store (ReconcilePolicy "web" "shop" before).2) (policies before).
Definition contended := ReconcilePolicy "web" "shop" (mkShared applied (replicate 6 id ++ [takeOver second]) []).
Example contended_conflict : contended.1 = Err (Wrapf "apply %s: %w" ["EndpointSlice"] (Opaque "conflict")).
Proof. vm_compute. reflexivity. Qed.

Lemma id_versioned : versionedChange (id : world → world).
Proof. intros w k o cur Hget Hcur Hrv. by eapply get_version. Qed.

Lemma interleaved_pass_harmless_witness :
  Forall (λ ab, harmless "shop" ab ∨
     ∃ items x, listedForPruning policy (mkShared applied (replicate 6 id ++ [takeOver second]) []) items ∧
       x ∈ items ∧ deletes x ab) (sh_steps contended.2).
Proof.
  apply (interleaved_pass_harmless "web" "shop" applied (replicate 6 id ++ [takeOver second]) contended.1 contended.2 policy).
  - apply Forall_app. split; [apply Forall_replicate, id_versioned|].
    apply Forall_singleton, takeOver_versioned.
  - by vm_compute.
  - apply surjective_pairing.
Defined.

(** The exception is real: deletions carry no precondition, so that a slice taken over
    between the list and the deletion is deleted. *)
Definition raced := ReconcilePolicy "web" "shop" (mkShared before (replicate 8 id ++ [takeOver (keyOf stale)]) []).
Definition lost (ab : world * world) : bool :=
  match objects ab.1 !! keyOf stale, objects ab.2 !! keyOf stale with
  | Some cur, None => bool_decide (foreign "shop" cur)
  | _, _ => false
  end.
Theorem prune_deletes_foreign :
  raced.1 = Ok (mkResult snapshotPollInterval) ∧
  ∃ ab cur, ab ∈ sh_steps raced.2 ∧ objects ab.1 !! keyOf stale = Some cur ∧ foreign "shop" cur ∧
    objects ab.2 !! keyOf stale = None.
Proof.
  split; [by vm_compute|]. assert (existsb lost (sh_steps raced.2) = true) as Hex by by vm_compute.
  apply existsb_exists in Hex as (ab & Hin & Hl). exists ab. unfold lost in Hl.
  destruct (objects ab.1 !! keyOf stale) as [cur|]; [|done]. destruct (objects ab.2 !! keyOf stale); [done|].
  apply bool_decide_eq_true in Hl. exists cur. split_and!; [by apply list_elem_of_In|done..].
Qed.
End InterleaveExamples.
