(* ===== verification/InterleaveView.v ===== *)
(** * InterleaveView: other writers during a pass of the view

    As [Interleave], for the AdvertisedBackend controller: others, such as a second
    instance of the process while leadership moves, write between any two calls of a
    pass.  The theorem says that the pass loses no update: what it writes over a record is
    computed from the record that is stored when the write happens. *)
From S2P Require Import Prelude GoStrings GoNet GoFloat GoTime Api Wire Pipeline Objects Reconcile.
From S2P Require Import Damp Ewma Report Kube PolicyController BackendController Interleave.
Local Open Scope Z_scope.

#[export] Instance sharedBackends {W} `{BackendClient W} : BackendClient (shared W) := {|
  Now s := Now (sh_world s);
  GetBackend n s := GetBackend n (sh_world s);
  CreateBackend b := call true (CreateBackend b);
  UpdateBackendStatus b := call true (UpdateBackendStatus b);
  ListBackends labels s := ListBackends labels (sh_world s);
  DeleteBackend b := call true (DeleteBackend b);
  ListPolicies s := ListPolicies (sh_world s);
|}.

(** How others change the cluster: a version names one content for good, that of an object
    as it was created included. *)
Class Evolution (W : Type) `{BackendClientLaws W} := {
  evolves : W → W → Prop;
  evolves_preorder :: PreOrder evolves;
  evolves_get n w b w' cur :
    GetBackend n w = Ok b → evolves w w' → records w' !! n = Some cur →
    backendVersion cur = backendVersion b → cur = b;
  evolves_create b w meta w1 w' cur :
    CreateBackend b w = (Ok meta, w1) → evolves w1 w' →
    records w' !! om_Name (ab_ObjectMeta b) = Some cur → om_ResourceVersion meta ≠ "" ∧
    (backendVersion cur = om_ResourceVersion meta → ab_Status cur = zeroStatus);
}.

Section view.
Context `{HP : Platform} `{HS : Sorter} {W : Type} `{HC : BackendClient W} `{HL : !BackendClientLaws W}.
Context `{HE : !Evolution W}.

Notation nameOf d := (om_Name (ab_ObjectMeta d)).
Notation foreignWrites s := (Forall (λ f : W → W, ∀ w, evolves w (f w)) (sh_changes s)).

Lemma turn_evolves s : foreignWrites s → evolves (sh_world s) (sh_world (turn s)).
Proof.
  unfold turn. destruct (sh_changes s) as [|f fs]; [reflexivity|]. intros [Hf _]%Forall_cons. apply Hf.
Qed.

Lemma writes_kept (P : W * W → Prop) s s' : progress P s s' → foreignWrites s → foreignWrites s'.
Proof. intros [[d ->] _] [_ H]%Forall_app. done. Qed.

(** A call, with the state it was made in and the state it left. *)
Lemma call_inv {A} own (f : W → A * W) s a s' :
  foreignWrites s → call own f s = (a, s') →
  ∃ w', f (sh_world (turn s)) = (a, w') ∧ evolves w' (sh_world s').
Proof.
  unfold call. intros Hf Hcall. destruct (f (sh_world (turn s))) as [a' w'] eqn:E. injection Hcall as <- <-.
  exists w'. split; [done|]. etrans; [|apply turn_evolves]; [reflexivity|]. simpl.
  eapply (writes_kept (λ _, True)); [apply turn_progress|done].
Qed.

(** What a write leaves in the place of a stored record is that record, or a status stamped
    against it; a record without a status yet gets its first. *)
Definition atomicWrite (ab : W * W) : Prop :=
  ∀ n cur new, records ab.1 !! n = Some cur → records ab.2 !! n = Some new →
    new = cur ∨
    om_Labels (ab_ObjectMeta new) = om_Labels (ab_ObjectMeta cur) ∧ ∃ status t,
      ab_Status new = wireStatus (stampedStatus t (Some cur) status) ∨
      ab_Status cur = zeroStatus ∧ ab_Status new = wireStatus (stampedStatus t None status).

Lemma update_atomic b w r w' :
  UpdateBackendStatus b w = (r, w') → backendVersion b ≠ "" →
  (∀ cur, records w !! nameOf b = Some cur → backendVersion cur = backendVersion b →
     ∃ status t, ab_Status b = stampedStatus t (Some cur) status ∨
       ab_Status cur = zeroStatus ∧ ab_Status b = stampedStatus t None status) →
  atomicWrite (w, w').
Proof.
  intros Hup Hv Hb n cur new Hcur Hnew. simpl in *.
  assert (records w' = records w ∨ wroteStatus (records w) (records w') b) as [E|Hw].
  { destruct r as [[]|e]; [right; by apply updateStatus_ok|by eapply updateStatus_err]. }
  { rewrite E in Hnew. left. congruence. }
  destruct Hw as (cur' & b' & Hcur' & Hver & Hrec & Hst & Hlab). rewrite Hrec in Hnew.
  destruct (decide (n = nameOf b)) as [->|Hn]; [|rewrite lookup_insert_ne in Hnew by done; left; congruence].
  rewrite lookup_insert_eq in Hnew. simplify_eq. right. split; [done|].
  destruct (Hb _ Hcur (Hver Hv)) as (status & t & Hs). exists status, t. rewrite Hst. naive_solver congruence.
Qed.

Lemma create_atomic b w r w' : CreateBackend b w = (r, w') → atomicWrite (w, w').
Proof.
  intros Hc n cur new Hcur Hnew. left. simpl in *.
  assert (records w' = records w ∨ createdRecord (records w) (records w') b) as [E|(Hnone & b' & Hrec & _)].
  { destruct r; [right; by eapply createBackend_ok|by eapply createBackend_err]. }
  { rewrite E in Hnew. congruence. }
  rewrite Hrec in Hnew. rewrite lookup_insert_ne in Hnew; congruence.
Qed.

Lemma delete_atomic b w r w' : DeleteBackend b w = (r, w') → atomicWrite (w, w').
Proof.
  intros Hd n cur new Hcur Hnew. left. simpl in *. destruct (decide (n = nameOf b)) as [->|Hn].
  - apply deleteBackend_any in Hd as [E|E]; congruence.
  - rewrite (deleteBackend_frame _ _ _ _ _ Hd Hn) in Hnew. congruence.
Qed.

Lemma applyBackend_progress desired s r s' :
  foreignWrites s → applyBackend desired s = (r, s') → progress atomicWrite s s'.
Proof.
  intros Hf. unfold applyBackend. cbn [GetBackend sharedBackends].
  destruct (GetBackend (nameOf desired) (sh_world s)) as [current|e] eqn:Hget.
  - destruct (getBackend_named _ _ _ Hget) as [Hname Hv]. intros Hcall.
    apply (call_progress atomicWrite _ _ _ _ _ Hcall). intros _ w' Hup. eapply update_atomic; [exact Hup|exact Hv|].
    intros cur Hcur Hver. simpl in Hcur. rewrite Hname in Hcur.
    rewrite (evolves_get _ _ _ _ _ Hget (turn_evolves s Hf) Hcur Hver).
    eexists (ab_Status desired), _. by left.
  - destruct e; try by intros [= _ <-]. destruct (CreateBackend _ s) as [rc s1] eqn:Hc.
    assert (progress atomicWrite s s1) as H1
      by (apply (call_progress atomicWrite _ _ _ _ _ Hc); intros _ w'; apply create_atomic).
    destruct rc as [meta|e]; [|by intros [= _ <-]]. intros Hcall. etrans; [exact H1|].
    pose proof (writes_kept _ _ _ H1 Hf) as Hf1. apply call_inv in Hc as (w1 & Hc & Hev); [|done].
    apply (call_progress atomicWrite _ _ _ _ _ Hcall). intros _ w' Hup.
    assert (evolves w1 (sh_world (turn s1))) as Hev' by (etrans; [exact Hev|by apply turn_evolves]).
    pose proof (λ cur, evolves_create _ _ _ _ _ cur Hc Hev') as Hnew. simpl in Hnew.
    apply createBackend_ok in Hc as [Hname _]. simpl in Hname.
    destruct (records (sh_world (turn s1)) !! nameOf desired) as [cur|] eqn:Hcur.
    + destruct (Hnew cur eq_refl) as [Hv Hzero]. eapply update_atomic; [exact Hup|exact Hv|].
      simpl. rewrite Hname. intros cur' Hcur' Hver. rewrite Hcur in Hcur'. injection Hcur' as <-.
      eexists (ab_Status desired), _. right. split; [by apply Hzero|reflexivity].
    + intros n cur new Hn Hn'. simpl in *. left.
      assert (records w' = records (sh_world (turn s1))) as E; [|rewrite E in Hn'; congruence].
      destruct r as [[]|e]; [apply updateStatus_ok in Hup|apply updateStatus_err in Hup as [?|Hup]; [done|]];
        destruct Hup as (cur' & _ & Hcur' & _); simpl in Hcur'; congruence.
Qed.

Lemma applyBackends_progress desired names s r s' :
  foreignWrites s → applyBackends desired names s = (r, s') → progress atomicWrite s s'.
Proof.
  revert names s. induction desired as [|d desired IH]; intros names s Hf; simpl; [by intros [= _ <-]|].
  destruct (applyBackend d s) as [rd s1] eqn:Hd. pose proof (applyBackend_progress _ _ _ _ Hf Hd) as H1.
  destruct rd as [[]|e]; intros Hrun; [|by simplify_eq].
  etrans; [exact H1|]. eapply IH; [by eapply writes_kept|exact Hrun].
Qed.

Lemma deleteBackends_progress names items s r s' :
  deleteBackends names items s = (r, s') → progress atomicWrite s s'.
Proof.
  revert s. induction items as [|b items IH]; intros s; simpl; [by intros [= _ <-]|].
  case_decide; [apply IH|]. destruct (call _ _ s) as [d s1] eqn:Hd.
  assert (progress atomicWrite s s1) as H1
    by (apply (call_progress atomicWrite _ _ _ _ _ Hd); intros _ w'; apply delete_atomic).
  intros Hrun. destruct d as [[]|[]]; try (by simplify_eq); (etrans; [exact H1|by apply IH]).
Qed.

Context `{HN : SnapshotSource W}.

(** C14 (The view loses no update).  Whatever others write between the calls of a pass, a
    second instance of the controller included, and however it ends: each write of the
    pass that changes a stored record keeps its labels, and its status is stamped against
    the record stored at that moment, not one read earlier; so [firstSeen] is kept and
    [lastChange] moves exactly when the status differs from the stored one.  Only a record
    that has no status yet gets new stamps. *)
Theorem view_loses_no_update w changes r s' :
  Forall (λ f : W → W, ∀ w, evolves w (f w)) changes →
  ReconcileBackends (mkShared w changes []) = (r, s') →
  Forall atomicWrite (sh_steps s').
Proof.
  intros Hf Hrun.
  enough (progress atomicWrite (mkShared w changes []) s') as [_ (steps & Hsteps & Hall)]
    by (rewrite Hsteps; simpl; by rewrite app_nil_r).
  unfold ReconcileBackends in Hrun. destruct (SourceSnapshot (mkShared w changes [])) as [rs s1] eqn:Hs.
  assert (progress atomicWrite (mkShared w changes []) s1) as H1
    by (apply (call_progress atomicWrite _ _ _ _ _ Hs); by intros ?).
  destruct rs as [cands|e]; [|by simplify_eq]. etrans; [exact H1|]. apply writes_kept in H1; [|done].
  destruct (ListPolicies s1) as [policies|e]; [|by simplify_eq].
  destruct (applyBackends _ _ s1) as [ra s2] eqn:Ha. apply applyBackends_progress in Ha; [|done].
  destruct ra as [names|e]; [|by simplify_eq]. etrans; [exact Ha|].
  destruct (pruneStaleBackends names s2) as [rp s3] eqn:Hp.
  assert (progress atomicWrite s2 s3) as H3.
  { unfold pruneStaleBackends in Hp. destruct (ListBackends _ s2) as [items|e]; [|by simplify_eq].
    by eapply deleteBackends_progress. }
  destruct rp as [[]|e]; by simplify_eq.
Qed.
End view.

(** ** Concrete instances *)

Module InterleaveViewExamples.
Import ReconcileExamples EwmaExamples BackendControllerExamples.
#[local] Existing Instances halving settled.

(** Others keep the records they find, or write a longer version. *)
Definition grows (w w' : gmap string entry) : Prop :=
  ∀ n e, w !! n = Some e → ∃ e', w' !! n = Some e' ∧
    (e' = e ∨ (String.length (en_Version e) < String.length (en_Version e'))%nat).
#[local] Instance grows_preorder : PreOrder grows.
Proof.
  split; [intros w n e He; by eauto|]. intros w1 w2 w3 H12 H23 n e He.
  destruct (H12 n e He) as (e2 & He2 & H2). destruct (H23 n e2 He2) as (e3 & He3 & H3).
  exists e3. split; [done|]. destruct H2 as [->|], H3 as [->|]; [by left|by right..|]. right. lia.
Qed.

Lemma grows_version (w w' : gmap string entry) n e e' :
  grows w w' → w !! n = Some e → w' !! n = Some e' → versionOf (en_Version e') = versionOf (en_Version e) → e' = e.
Proof.
  intros Hg He He' Hv. unfold versionOf in Hv. injection Hv as Hv.
  destruct (Hg n e He) as (e2 & He2 & [->|Hlt]); [congruence|]. rewrite He' in He2. simplify_eq.
  rewrite Hv in Hlt. lia.
Qed.

#[local] Instance memory_evolution : Evolution (gmap string entry).
Proof.
  refine {| evolves := grows |}.
  - intros n w b w' cur Hget Hev. simpl in *. rewrite memoryRecords_lookup.
    destruct (w !! n) as [e|] eqn:He; [|done]. injection Hget as <-.
    intros (e' & He' & ->)%fmap_Some Hv. by rewrite (grows_version _ _ _ _ _ Hev He He' Hv).
  - intros b w meta w1 w' cur Hc Hev. simpl in *. rewrite memoryRecords_lookup.
    destruct (w !! om_Name (ab_ObjectMeta b)) as [e|]; [done|]. injection Hc as <- <-.
    intros (e' & He' & ->)%fmap_Some. split; [done|]. intros Hv.
    by rewrite (grows_version _ _ _ _ _ Hev (lookup_insert_eq _ _ _) He' Hv).
Defined.

(** Someone else refreshes the record while the pass takes its snapshot, and touches it
    again just before the pass writes it. *)
Definition touch (w : gmap string entry) : gmap string entry :=
  alter (λ e, mkEntry (en_Labels e) (en_Version e +:+ "+") (en_Status e)) name w.
Lemma grown_longer v : (String.length v < String.length (v +:+ "+"))%nat.
Proof. induction v as [|a v IH]; [by apply Nat.lt_succ_diag_r|]. rewrite app_String. by apply (proj1 (Nat.succ_lt_mono _ _)). Qed.
Lemma touch_grows w : grows w (touch w).
Proof.
  intros n e He. unfold touch. destruct (decide (n = name)) as [->|]; [|rewrite lookup_alter_ne by done; eauto].
  rewrite lookup_alter_eq, He. eexists. split; [done|]. right. apply grown_longer.
Qed.

Definition disturbed := ReconcileBackends (mkShared stored [touch; id; touch] []).
Example disturbed_conflict : is_ok disturbed.1 = false.
Proof. by vm_compute. Qed.
Lemma view_loses_no_update_witness : Forall atomicWrite (sh_steps disturbed.2).
Proof.
  apply (view_loses_no_update stored [touch; id; touch] disturbed.1 disturbed.2).
  - repeat constructor; intros w; [apply touch_grows|reflexivity|apply touch_grows].
  - apply surjective_pairing.
Defined.
End InterleaveViewExamples.
