(* ===== verification/Progress.v ===== *)
(** * Progress: when a pass succeeds

    The convergence theorems of the controllers speak of passes that succeed.  Here the
    API server and the BGP server are assumed to answer ([ReliableClient],
    [ReliableBackends], [ReliableBgp]): reads are current, and a call that has no reason
    to fail does not.  What a server refuses by validation is a predicate of the class: an
    object, a record, a global or peer configuration that it admits is taken.  The theorems
    say exactly when a pass then succeeds: a policy whose objects are admitted unless one
    of them belongs to someone else, a peer configuration unless a password cannot be
    resolved, the view over admitted records always. *)
From S2P Require Import Prelude GoStrings GoNet GoFloat GoTime Api Wire Pipeline Ingest Authorize Objects Reconcile.
From S2P Require Import Damp Ewma Report Kube PolicyController PeerController BackendController.
Local Open Scope Z_scope.

(** ** The policy controller *)

Class ReliableClient (W : Type) `{ClientLaws W} := {
  (** What validation accepts, whatever the version. *)
  admits : Object → Prop;
  admits_version v o : admits o → admits (SetResourceVersion v o);
  reliable_get k w o : objects w !! k = Some o → GetResourceVersion o ≠ "" → GetObject k w = Ok o;
  reliable_get_none k w : objects w !! k = None → GetObject k w = Err NotFound;
  reliable_create o w : admits o → objects w !! keyOf o = None → ∃ w', CreateObject o w = (Ok tt, w');
  reliable_update o w cur :
    admits o → objects w !! keyOf o = Some cur → GetResourceVersion cur = GetResourceVersion o →
    ∃ w', UpdateObject o w = (Ok tt, w');
  reliable_list ns labels w : ∃ items, ListEndpointSlices ns labels w = Ok items;
  reliable_delete s w :
    ∃ w', DeleteEndpointSlice s w = (Ok tt, w') ∨ DeleteEndpointSlice s w = (Err NotFound, w');
  (** A status is taken when the policy has not changed since it was read, and writing
      generated objects does not change a policy. *)
  reliable_status ns name p w cur :
    GetPolicy ns name w = Ok cur → bp_ObjectMeta p = bp_ObjectMeta cur →
    ∃ w', UpdatePolicyStatus p w = (Ok tt, w');
  create_policy o w r w' ns name : CreateObject o w = (r, w') → GetPolicy ns name w' = GetPolicy ns name w;
  update_policy o w r w' ns name : UpdateObject o w = (r, w') → GetPolicy ns name w' = GetPolicy ns name w;
  delete_policy s w r w' ns name :
    DeleteEndpointSlice s w = (r, w') → GetPolicy ns name w' = GetPolicy ns name w;
}.

(** Taking a snapshot changes no policy. *)
Definition snapshotKeepsPolicies {W} `{Client W} `{SnapshotSource W} : Prop :=
  ∀ w r w' ns name, SourceSnapshot w = (r, w') → GetPolicy ns name w' = GetPolicy ns name w.

(** Stored objects have a version. *)
Definition versioned {W} `{ClientLaws W} (w : W) (o : Object) : Prop :=
  ∀ cur, objects w !! keyOf o = Some cur → GetResourceVersion cur ≠ "".
#[export] Instance versioned_dec {W} `{ClientLaws W} (w : W) o : Decision (versioned w o).
Proof.
  unfold versioned. destruct (objects w !! keyOf o) as [cur|]; [|by left].
  destruct (decide (GetResourceVersion cur = "")) as [Hv|Hv]; [right; naive_solver|left; naive_solver].
Defined.
(** No object of another policy is stored where [o] goes. *)
Definition unclaimed {W} `{ClientLaws W} (policyName : string) (w : W) (o : Object) : Prop :=
  ∀ cur, objects w !! keyOf o = Some cur → ¬ foreign policyName cur.
#[export] Instance unclaimed_dec {W} `{ClientLaws W} policyName (w : W) o : Decision (unclaimed policyName w o).
Proof.
  unfold unclaimed. destruct (objects w !! keyOf o) as [cur|]; [|by left].
  destruct (decide (foreign policyName cur)) as [Hf|Hf]; [right; naive_solver|left; naive_solver].
Defined.

Section policy.
Context {W : Type} `{HC : Client W} `{HL : !ClientLaws W} `{HR : !ReliableClient W}.

Lemma owner_checked policyName cur (owner := default "" (GetLabels cur !! ManagedByLabel)) :
  negb (String.eqb owner "") && negb (String.eqb owner policyName) = true ↔ foreign policyName cur.
Proof.
  unfold foreign, owner. destruct (GetLabels cur !! ManagedByLabel) as [o|]; simpl.
  - destruct (String.eqb_spec o ""), (String.eqb_spec o policyName); naive_solver.
  - naive_solver.
Qed.

Lemma applyOwned_iff policyName desired w :
  admits desired → versioned w desired →
  (∃ w', applyOwned policyName desired w = (Ok tt, w')) ↔ unclaimed policyName w desired.
Proof.
  intros Hadm Hver. unfold applyOwned, unclaimed. destruct (objects w !! keyOf desired) as [cur|] eqn:Hcur.
  - rewrite (reliable_get _ _ _ Hcur) by by apply Hver.
    pose proof (owner_checked policyName cur) as Hown. cbv zeta in Hown. destruct (negb _ && negb _).
    + split; [by intros [??]|]. intros Hn. destruct (Hn cur); [done|]. by apply Hown.
    + split; [|intros _].
      * intros _ ? [= <-] Hf. by apply Hown in Hf.
      * apply (reliable_update _ _ cur); [by apply admits_version|by rewrite keyOf_SetResourceVersion|].
        by destruct desired.
  - rewrite reliable_get_none by done. split; [done|]. intros _. by apply reliable_create.
Qed.

Lemma applyObjects_iff policyName objs generated w :
  NoDup (keyOf <$> objs) → Forall admits objs → Forall (versioned w) objs →
  (∃ names w', applyObjects policyName objs generated w = (Ok names, w')) ↔
  Forall (unclaimed policyName w) objs.
Proof.
  revert generated w. induction objs as [|o objs IH]; intros generated w Hnd Hadm Hver; simpl.
  { split; [by constructor|eauto]. }
  rewrite fmap_cons, NoDup_cons in Hnd. destruct Hnd as [Ho Hnd].
  apply Forall_cons in Hadm as [Hao Hadm].
  apply Forall_cons in Hver as [Hvo Hver]. pose proof (applyOwned_iff policyName o w Hao Hvo) as Hiff.
  destruct (applyOwned policyName o w) as [[[]|e] w1] eqn:Happ.
  - assert (∀ o', o' ∈ objs → objects w1 !! keyOf o' = objects w !! keyOf o') as Hother.
    { intros o' Ho'. eapply applyOwned_other; [done|]. intros Heq. apply Ho. rewrite <- Heq.
      by apply list_elem_of_fmap_2. }
    rewrite IH; [|done|done|].
    + rewrite Forall_cons, !Forall_forall. unfold unclaimed at 1. split.
      * intros Hall. split; [apply Hiff; eauto|]. intros o' Ho' cur. rewrite <- Hother by done. by apply Hall.
      * intros [_ Hall] o' Ho' cur. rewrite Hother by done. by apply Hall.
    + rewrite Forall_forall in Hver |- *. intros o' Ho' cur. rewrite Hother by done. by apply Hver.
  - split; [by intros (?&?&?)|]. intros [Hu _]%Forall_cons. apply Hiff in Hu as [? ?]. done.
Qed.

Lemma applyObjects_policy policyName objs generated w r w' ns name :
  applyObjects policyName objs generated w = (r, w') → GetPolicy ns name w' = GetPolicy ns name w.
Proof.
  revert generated w. induction objs as [|o objs IH]; intros generated w; simpl; [by intros [= _ <-]|].
  destruct (applyOwned policyName o w) as [ro w1] eqn:Happ. intros Hrun.
  assert (GetPolicy ns name w1 = GetPolicy ns name w) as H1.
  { unfold applyOwned in Happ. destruct (GetObject _ w) as [cur|[]];
      [destruct (negb _ && negb _)|..]; simplify_eq; eauto using create_policy, update_policy. }
  destruct ro as [[]|e]; [|by simplify_eq]. rewrite <- H1. by eapply IH.
Qed.

Lemma deleteStale_total names items w :
  ∃ w', deleteStale names items w = (Ok tt, w') ∧ ∀ ns name, GetPolicy ns name w' = GetPolicy ns name w.
Proof.
  revert w. induction items as [|s items IH]; intros w; simpl; [eauto|]. case_decide; [apply IH|].
  destruct (reliable_delete s w) as [w1 Hd].
  assert (∀ ns name, GetPolicy ns name w1 = GetPolicy ns name w) as H1
    by (intros ns name; destruct Hd; by eapply delete_policy).
  destruct (IH w1) as (w2 & Hrun & H2). exists w2. split; [by destruct Hd as [-> | ->]|].
  intros ns name. by rewrite H2.
Qed.

Context `{HN : SnapshotSource W} `{HD : Driver}.

Lemma policy_pass_iff ns name w policy candidates w1 out :
  snapshotFrame → snapshotKeepsPolicies → GetPolicy ns name w = Ok policy →
  SourceSnapshot w = (Ok candidates, w1) →
  Render policy candidates = Ok out → NoDup (keyOf <$> OutputObjects out) →
  Forall admits (OutputObjects out) → Forall (versioned w) (OutputObjects out) →
  (∃ w', ReconcilePolicy ns name w = (Ok (mkResult snapshotPollInterval), w')) ↔
  Forall (unclaimed (om_Name (bp_ObjectMeta policy)) w) (OutputObjects out).
Proof.
  intros Hsnap Hkeep Hget Hs Hren Hnd Hadm Hver. unfold ReconcilePolicy. rewrite Hget, Hs, Hren.
  pose proof (Hkeep _ _ _ ns name Hs) as Hget1. rewrite Hget in Hget1. apply Hsnap in Hs. unfold versioned, unclaimed in *. rewrite <- Hs in *.
  pose proof (applyObjects_iff (om_Name (bp_ObjectMeta policy)) _ [] w1 Hnd Hadm Hver) as Hiff.
  unfold unclaimed in Hiff. rewrite <- Hiff.
  destruct (applyObjects _ _ _ w1) as [[generated|e] w2] eqn:Ha; [|split; [by intros [??]|by intros (?&?&?)]].
  apply (applyObjects_policy _ _ _ _ _ _ ns name) in Ha. rewrite Hget1 in Ha.
  split; [eauto|intros _]. unfold pruneStaleEndpointSlices.
  destruct (reliable_list (om_Namespace (bp_ObjectMeta policy))
    {[ ManagedByLabel := om_Name (bp_ObjectMeta policy);
       LabelServiceName := om_Name (svc_ObjectMeta (out_Service out)) ]} w2) as [items ->].
  match goal with |- context [deleteStale ?n items w2] => destruct (deleteStale_total n items w2) as (w3 & -> & Hp3) end.
  match goal with |- context [UpdatePolicyStatus ?p w3] =>
    destruct (reliable_status ns name p w3 policy) as [w4 ->]; [by rewrite Hp3|done|eauto] end.
Qed.
End policy.

(** ** The peer controller *)

(** A BGP server that answers: it starts once, with a global configuration it accepts, and
    takes the peers it accepts once it runs. *)
Class ReliableBgp (S : Type) `{BgpServerLaws S} := {
  running : S → Prop;
  acceptsGlobal : Global → Prop;
  acceptsPeer : PeerSettings → Prop;
  reliable_start g s : ¬ running s → acceptsGlobal g → ∃ s', StartBgp g s = (Ok tt, s') ∧ running s';
  reliable_peers s : running s → ∃ infos, ListPeer s = Ok infos;
  reliable_addPeer p s :
    running s → acceptsPeer p → configured s !! pe_NeighborAddress p = None →
    ∃ s', AddPeer p s = (Ok tt, s') ∧ running s';
  reliable_updatePeer p s :
    running s → acceptsPeer p → is_Some (configured s !! pe_NeighborAddress p) →
    ∃ s', UpdatePeer p s = (Ok tt, s') ∧ running s';
  reliable_deletePeer a s :
    running s → is_Some (configured s !! a) → ∃ s', DeletePeer a s = (Ok tt, s') ∧ running s';
}.

(** The global configuration and the peers of a spec are ones the server accepts. *)
Definition acceptable `{Platform} {S} `{ReliableBgp S} (spec : BGPPeerConfigSpec) : Prop :=
  acceptsGlobal (mkGlobal (uint32 (pcs_LocalASN spec)) (pcs_RouterID spec) (default 179 (pcs_ListenPort spec))) ∧
  ∀ peer password, peer ∈ pcs_Peers spec → acceptsPeer (toAPIPeer peer password).

Section peer.
Context `{HP : Platform} {S : Type} `{HB : BgpServer S} `{HBL : !BgpServerLaws S} `{HR : !ReliableBgp S}.

Lemma applyPeers_total existing passwords peers desired s :
  running s → (∀ peer password, peer ∈ peers → acceptsPeer (toAPIPeer peer password)) →
  NoDup (peerHost <$> peers) →
  (∀ peer, peer ∈ peers → peerHost peer ∈ existing ↔ is_Some (configured s !! peerHost peer)) →
  ∃ desired' s', applyPeers existing passwords peers desired s = (Ok desired', s') ∧ running s'.
Proof.
  revert desired s. induction peers as [|peer peers IH]; intros desired s Hr Hacc Hnd Hex; simpl; [eauto|].
  apply NoDup_cons in Hnd as [Hnot Hnd]. specialize (Hex peer ltac:(set_solver)) as Hp.
  pose proof (settings_address passwords peer) as Haddr. unfold settingsOf, peerHost in Haddr, Hp.
  assert (∀ s1, configured s1 = <[peerHost peer := settingsOf passwords peer]> (configured s) →
    ∀ p, p ∈ peers → peerHost p ∈ existing ↔ is_Some (configured s1 !! peerHost p)) as Hkeep.
  { intros s1 -> p Hin. rewrite lookup_insert_ne; [apply Hex; set_solver|]. intros Heq. apply Hnot.
    rewrite Heq. by apply list_elem_of_fmap_2. }
  assert (acceptsPeer (settingsOf passwords peer)) as Ha by (apply Hacc; set_solver).
  unfold peerHost, settingsOf in Hkeep, Ha.
  destruct (splitHostPort (peer_Address peer)) as [host port]; cbn [fst] in *. case_decide as Hh.
  - destruct (reliable_updatePeer (toAPIPeer peer (default "" (passwords !! peer_Name peer))) s Hr Ha)
      as (s1 & Hu & Hr1); [rewrite Haddr; by apply Hp|]. rewrite Hu.
    apply IH; [done|set_solver|done|]. apply Hkeep. apply UpdatePeer_configured in Hu. by rewrite Haddr in Hu.
  - destruct (reliable_addPeer (toAPIPeer peer (default "" (passwords !! peer_Name peer))) s Hr Ha)
      as (s1 & Hu & Hr1). { rewrite Haddr. apply eq_None_not_Some. by rewrite <- Hp. }
    rewrite Hu. apply IH; [done|set_solver|done|]. apply Hkeep.
    apply AddPeer_configured in Hu. by rewrite Haddr in Hu.
Qed.

Lemma removePeers_total desired addrs s :
  running s → NoDup addrs → (∀ a, a ∈ addrs → a ∉ desired → is_Some (configured s !! a)) →
  ∃ s', removePeers desired addrs s = (Ok tt, s') ∧ running s'.
Proof.
  revert s. induction addrs as [|a addrs IH]; intros s Hr Hnd Hc; simpl; [eauto|].
  apply NoDup_cons in Hnd as [Hnot Hnd]. case_decide as Ha; [apply IH; [done|done|set_solver]|].
  destruct (reliable_deletePeer a s Hr) as (s1 & Hd & Hr1); [apply Hc; [set_solver|done]|]. rewrite Hd.
  apply IH; [done|done|]. intros b Hb Hn. rewrite (DeletePeer_configured _ _ _ Hd), lookup_delete_ne by set_solver.
  apply Hc; [set_solver|done].
Qed.

Lemma Reconfigure_total order m spec passwords :
  (∀ X, order X ≡ₚ elements X) → (mgr_started m = true ↔ running (mgr_server m)) → acceptable spec →
  NoDup (peerHost <$> pcs_Peers spec) →
  ∃ m', Reconfigure order m spec passwords = (Ok tt, m') ∧ running (mgr_server m').
Proof.
  intros Horder Hrun [Hglobal Hpeers] Hnd. unfold Reconfigure.
  assert (∃ m1, ensureStarted m spec = (Ok tt, m1) ∧ running (mgr_server m1)) as (m1 & -> & Hr).
  { unfold ensureStarted. destruct (mgr_started m); [exists m; naive_solver|].
    destruct (reliable_start _ (mgr_server m) ltac:(naive_solver) Hglobal) as (s' & -> & ?). by eexists. }
  destruct (reliable_peers (mgr_server m1) Hr) as [infos Hl]. rewrite Hl.
  apply ListPeer_configured in Hl. rewrite Hl.
  destruct (applyPeers_total (dom (configured (mgr_server m1))) passwords (pcs_Peers spec) ∅ (mgr_server m1))
    as (desired & s2 & Ha & Hr2); [done|done|done|intros; apply elem_of_dom|]. rewrite Ha.
  apply applyPeers_spec in Ha as [_ Hs2]; [|done].
  destruct (removePeers_total desired (order (dom (configured (mgr_server m1)))) s2 Hr2) as (s3 & -> & Hr3).
  - rewrite Horder. apply NoDup_elements.
  - intros a Hin _. rewrite Horder, elem_of_elements, elem_of_dom in Hin. rewrite Hs2.
    apply lookup_union_is_Some. by right.
  - by eexists.
Qed.

(** Resolving succeeds exactly when the names are distinct and each password resolves. *)
Lemma resolvePasswords_iff {W} `{PeerClient W} namespace (w : W) peers seen pw :
  is_ok (resolvePasswords namespace w peers seen pw) = true ↔
  NoDup (peer_Name <$> peers) ∧ (∀ n, n ∈ seen → n ∉ peer_Name <$> peers) ∧
  Forall (λ peer, is_ok (resolvePassword namespace w peer) = true) peers.
Proof.
  revert seen pw. induction peers as [|peer peers IH]; intros seen pw; cbn [resolvePasswords].
  { split; [intros _; split_and!; [constructor|set_solver|constructor]|done]. }
  rewrite fmap_cons, NoDup_cons, Forall_cons. case_decide as Hs.
  { split; [done|]. intros (_ & Hn & _). specialize (Hn _ Hs). set_solver. }
  destruct (resolvePassword namespace w peer) as [o|e]; simpl; [|naive_solver].
  rewrite IH. split.
  - intros (Hnd & Hn & Hall). split_and!; [apply Hn; set_solver|done| |done..].
    intros n Hin. rewrite not_elem_of_cons. split; [set_solver|]. apply Hn. set_solver.
  - intros ((Hnot & Hnd) & Hn & _ & Hall). split_and!; [done| |done].
    intros n [->%elem_of_singleton|Hin]%elem_of_union; [done|]. specialize (Hn n Hin). set_solver.
Qed.

(** C17 (When sessions converge).  With a BGP server that answers, runs exactly when the
    manager counts itself started, and accepts the global configuration and the peers of
    the spec, and with an API server that takes the status, a pass over a peer
    configuration with distinct peer addresses succeeds exactly when the peers have
    distinct names and every password resolves: a referenced secret and key exist, or the
    reference is optional.  It then leaves exactly the configured peers, each with its
    password, and otherwise neither the server nor the cluster is touched. *)
Theorem peer_pass_iff {W} `{PeerClient W} namespace name now order tracker (w : W) (m : Manager S) pc :
  (∀ X, order X ≡ₚ elements X) → GetPeerConfig name w = Ok pc →
  (∀ pc', pc_ObjectMeta pc' = pc_ObjectMeta pc → ∃ w', UpdatePeerConfigStatus pc' w = (Ok tt, w')) →
  (mgr_started m = true ↔ running (mgr_server m)) → acceptable (pc_Spec pc) →
  NoDup (peerHost <$> pcs_Peers (pc_Spec pc)) →
  let peers := pcs_Peers (pc_Spec pc) in
  let resolvable := NoDup (peer_Name <$> peers) ∧
                    Forall (λ peer, is_ok (resolvePassword namespace w peer) = true) peers in
  let '(r, w', m') := ReconcilePeerConfig namespace name now order tracker w m in
  (resolvable → r = Ok statusPollInterval ∧ ∃ passwords,
     (∀ peer, peer ∈ peers → resolvePassword namespace w peer = Ok (passwords !! peer_Name peer)) ∧
     configured (mgr_server m') = wanted passwords peers) ∧
  (¬ resolvable → is_ok r = false ∧ m' = m ∧ w' = w).
Proof.
  intros Horder Hget Hstatus Hrun Hacc Hhosts. cbv zeta. unfold ReconcilePeerConfig. rewrite Hget.
  pose proof (resolvePasswords_iff namespace w (pcs_Peers (pc_Spec pc)) ∅ ∅) as Hiff.
  destruct (resolvePasswords namespace w _ ∅ ∅) as [pw|e] eqn:Hpw.
  - destruct (Reconfigure_total order m (pc_Spec pc) pw Horder Hrun Hacc Hhosts) as (m1 & Hrec & Hr1). rewrite Hrec.
    apply Reconfigure_Ok in Hrec as [Hconf _]; [|done..].
    unfold ManagerStatus. destruct (reliable_peers (mgr_server m1) Hr1) as [infos ->].
    match goal with |- context [UpdatePeerConfigStatus ?p w] => destruct (Hstatus p eq_refl) as [w1 ->] end.
    apply resolvePasswords_Ok in Hpw as (_ & Hall & _).
    split; [intros _; eauto|]. intros Hn. destruct Hn. naive_solver.
  - split; [|done]. intros [Hnd Hall]. destruct Hiff as [_ Hiff]. discriminate Hiff.
    split_and!; [done|set_solver|done].
Qed.
End peer.

(** ** The view *)

Class ReliableBackends (W : Type) `{BackendClientLaws W} := {
  (** What validation accepts: the name of a new record, and a status. *)
  admitsName : string → Prop;
  admitsStatus : AdvertisedBackendStatus → Prop;
  reliable_getBackend n w b : records w !! n = Some b → backendVersion b ≠ "" → GetBackend n w = Ok b;
  reliable_getBackend_none n w : records w !! n = None → GetBackend n w = Err NotFound;
  reliable_createBackend b w :
    admitsName (om_Name (ab_ObjectMeta b)) → records w !! om_Name (ab_ObjectMeta b) = None →
    ∃ meta w' b', CreateBackend b w = (Ok meta, w') ∧
      records w' !! om_Name (ab_ObjectMeta b) = Some b' ∧ backendVersion b' = om_ResourceVersion meta;
  reliable_updateStatus b w cur :
    admitsStatus (ab_Status b) → records w !! om_Name (ab_ObjectMeta b) = Some cur → backendVersion cur = backendVersion b →
    ∃ w', UpdateBackendStatus b w = (Ok tt, w');
  reliable_listBackends labels w : ∃ items, ListBackends labels w = Ok items;
  reliable_deleteBackend b w :
    ∃ w', DeleteBackend b w = (Ok tt, w') ∨ DeleteBackend b w = (Err NotFound, w');
  reliable_policies w : ∃ policies, ListPolicies w = Ok policies;
}.

Section view.
Context `{HP : Platform} `{HS : Sorter} {W : Type} `{HC : BackendClient W} `{HL : !BackendClientLaws W}.
Context `{HR : !ReliableBackends W} `{HN : SnapshotSource W}.

Notation nameOf d := (om_Name (ab_ObjectMeta d)).
(** A record the API server takes, whatever its stamps. *)
Definition admitsRecord (d : AdvertisedBackend) : Prop :=
  admitsName (nameOf d) ∧ ∀ first last, admitsStatus (withTimes first last (ab_Status d)).
Definition recordVersioned (w : W) (n : string) : Prop := ∀ b, records w !! n = Some b → backendVersion b ≠ "".

Lemma applyBackend_total desired w :
  admitsRecord desired → recordVersioned w (nameOf desired) → ∃ w', applyBackend desired w = (Ok tt, w').
Proof.
  intros [Hname0 Hstatus] Hver. unfold applyBackend. destruct (records w !! nameOf desired) as [cur|] eqn:Hcur.
  - pose proof (records_named _ _ _ Hcur) as Hname. rewrite (reliable_getBackend _ _ _ Hcur (Hver _ Hcur)).
    apply (reliable_updateStatus _ _ cur); simpl; [done|by rewrite Hname|done].
  - rewrite reliable_getBackend_none by done.
    match goal with |- context [CreateBackend ?b w] =>
      destruct (reliable_createBackend b w Hname0 Hcur) as (meta & w1 & b1 & Hc & Hrec & Hv) end.
    rewrite Hc. apply createBackend_ok in Hc as [Hname _]. simpl in Hname, Hrec.
    apply (reliable_updateStatus _ _ b1); simpl; [done|by rewrite Hname|done].
Qed.

Lemma applyBackends_total desired names w :
  NoDup ((λ d, nameOf d) <$> desired) → Forall admitsRecord desired → Forall (λ d, recordVersioned w (nameOf d)) desired →
  ∃ names' w', applyBackends desired names w = (Ok names', w').
Proof.
  revert names w. induction desired as [|d desired IH]; intros names w Hnd Hadm Hver; cbn [applyBackends]; [eauto|].
  rewrite fmap_cons, NoDup_cons in Hnd. destruct Hnd as [Hd Hnd]. apply Forall_cons in Hver as [Hvd Hver].
  apply Forall_cons in Hadm as [Had Hadm].
  destruct (applyBackend_total d w Had Hvd) as [w1 Happ]. rewrite Happ.
  apply applyBackend_ok in Happ as (_ & _ & _ & Hother & _). apply IH; [done|done|].
  rewrite Forall_forall in Hver |- *. intros d' Hd' b. rewrite Hother; [by apply Hver|].
  intros Heq. apply Hd. rewrite <- Heq. by apply (list_elem_of_fmap_2 (λ d, nameOf d)).
Qed.

Lemma deleteBackends_total names items w : ∃ w', deleteBackends names items w = (Ok tt, w').
Proof.
  revert w. induction items as [|b items IH]; intros w; simpl; [eauto|]. case_decide; [apply IH|].
  destruct (reliable_deleteBackend b w) as [w1 [-> | ->]]; apply IH.
Qed.

(** The records built for the candidates are ones the API server takes. *)
Definition admittedBy (w : W) (candidates : list BackendCandidate) : Prop :=
  ∀ policies, ListPolicies w = Ok policies → Forall admitsRecord (BuildAdvertisedBackends candidates policies).

Lemma view_pass_succeeds w candidates w1 :
  snapshotKeeps → SourceSnapshot w = (Ok candidates, w1) →
  NoDup (objectName <$> candidates) → admittedBy w1 candidates → (∀ n, recordVersioned w n) →
  ∃ w', ReconcileBackends w = (Ok (mkResult snapshotPollInterval), w').
Proof.
  intros Hsnap Hs Hnd Hadm Hver. unfold ReconcileBackends. rewrite Hs. apply Hsnap in Hs as [Hrec _].
  destruct (reliable_policies w1) as [policies Hpol]. rewrite Hpol.
  destruct (applyBackends_total (BuildAdvertisedBackends candidates policies) ∅ w1) as (names & w2 & ->).
  - unfold BuildAdvertisedBackends. rewrite <- list_fmap_compose.
    erewrite list_fmap_ext; [exact Hnd|]. intros _ c _. apply buildOne_name.
  - by apply Hadm.
  - apply Forall_forall. intros d _ b. rewrite Hrec. apply Hver.
  - unfold pruneStaleBackends. destruct (reliable_listBackends {[ ManagedByLabel := ManagedByValue ]} w2)
      as [items ->]. destruct (deleteBackends_total names items w2) as [w3 ->]. eauto.
Qed.

(** C18 (The view is written).  With an API server that answers, whose lists are current
    and whose stored records have a version, a pass over a snapshot of distinctly named
    backends whose records the server's validation accepts (their names are made from
    prefixes and clusters, and a cluster is not validated) succeeds whatever records it
    finds, and comes back at the polling interval; and then every backend has the record
    built for it, stamped against the one it replaces, no other record of the controller is
    left, and those of others are untouched. *)
Theorem view_pass_total w candidates w1 :
  currentBackends W → snapshotKeeps → SourceSnapshot w = (Ok candidates, w1) →
  NoDup (objectName <$> candidates) → admittedBy w1 candidates → (∀ n, recordVersioned w n) →
  ∃ policies w', ListPolicies w1 = Ok policies ∧
    ReconcileBackends w = (Ok (mkResult snapshotPollInterval), w') ∧
    (∀ c, c ∈ candidates → ∃ b t, records w' !! objectName c = Some b ∧ Now w <= t <= Now w' ∧
       ab_Status b = wireStatus (stampedStatus t (records w !! objectName c)
                                             (ab_Status (buildOne c policies)))) ∧
    (∀ n, n ∉ objectName <$> candidates →
       records w' !! n = records w !! n ≫= λ b, if decide (ownRecord b) then None else Some b).
Proof.
  intros Hlists Hsnap Hs Hnd Hadm Hver.
  destruct (view_pass_succeeds w candidates w1 Hsnap Hs Hnd Hadm Hver) as [w' Hrun].
  destruct (ReconcileBackends_exact _ _ _ Hlists Hsnap Hrun) as (_ & cands & policies & w2 & Hs' & Hp & Hall).
  rewrite Hs in Hs'. injection Hs' as <- <-. exists policies, w'. split_and!; [done..| |].
  - intros c Hc. destruct (Hall Hnd) as [Hin _]. destruct (Hin c Hc) as (b & t & ? & ? & _ & _ & ?). eauto.
  - apply Hall, Hnd.
Qed.
End view.

(** ** Concrete instances *)

Module ProgressExamples.
Import IngestExamples PeerControllerExamples.

(** A server that starts once, needs a router ID, and takes peers with an address, and only
    while it runs. *)
Notation bgp := (bool * gmap string PeerSettings)%type.
Definition refused {A} (s : A) : res unit * A := (Err (Opaque "refused"), s).
Definition liveServer : BgpServer bgp := {|
  StartBgp g s := if s.1 || String.eqb (gl_RouterId g) "" then refused s else (Ok tt, (true, s.2));
  ListPeer s := Ok ((λ a, mkPeerInfo a None None []) <$> elements (dom s.2));
  AddPeer p s :=
    if negb s.1 || String.eqb (pe_NeighborAddress p) "" || bool_decide (is_Some (s.2 !! pe_NeighborAddress p))
    then refused s else (Ok tt, (true, <[pe_NeighborAddress p := p]> s.2));
  UpdatePeer p s :=
    if negb s.1 || String.eqb (pe_NeighborAddress p) "" || bool_decide (s.2 !! pe_NeighborAddress p = None)
    then refused s else (Ok tt, (true, <[pe_NeighborAddress p := p]> s.2));
  DeletePeer a s :=
    if negb s.1 || bool_decide (s.2 !! a = None) then refused s else (Ok tt, (true, delete a s.2));
|}.
#[program] Definition liveServer_laws : @BgpServerLaws _ liveServer := {| configured s := s.2 |}.
Next Obligation. intros g s s' Hs. simpl in Hs. by destruct (_ || _); simplify_eq. Qed.
Next Obligation.
  intros s infos [= <-]. rewrite <- list_fmap_compose. apply set_eq. intros a.
  rewrite elem_of_list_to_set, list_elem_of_fmap. unfold compose. simpl.
  setoid_rewrite elem_of_elements. naive_solver.
Qed.
Next Obligation. intros p s s' Hs. simpl in Hs. by destruct (_ || _); simplify_eq. Qed.
Next Obligation. intros p s s' Hs. simpl in Hs. by destruct (_ || _); simplify_eq. Qed.
Next Obligation. intros a s s' Hs. simpl in Hs. by destruct (_ || _); simplify_eq. Qed.

#[program] Definition liveServer_reliable : @ReliableBgp _ liveServer liveServer_laws := {|
  running s := s.1 = true;
  acceptsGlobal g := String.eqb (gl_RouterId g) "" = false;
  acceptsPeer p := String.eqb (pe_NeighborAddress p) "" = false;
|}.
Next Obligation. intros g [b s] Hr Hg. simpl in *. rewrite Hg. destruct b; [done|]. eauto. Qed.
Next Obligation. simpl. eauto. Qed.
Next Obligation.
  intros p [b s] Hr Hp Hn. simpl in *. rewrite Hr, Hp, bool_decide_eq_false_2; [simpl; eauto|].
  by rewrite Hn; intros [??].
Qed.
Next Obligation.
  intros p [b s] Hr Hp [x Hn]. simpl in *. rewrite Hr, Hp, bool_decide_eq_false_2; [simpl; eauto|]. by rewrite Hn.
Qed.
Next Obligation.
  intros a [b s] Hr [x Hn]. simpl in *. rewrite Hr, bool_decide_eq_false_2; [simpl; eauto|]. by rewrite Hn.
Qed.

Definition stopped : Manager bgp := mkManager (false, {[ "10.9.9.9" := stale ]}) false.
Definition livePass (w : gmap string (gmap string string)) :=
  @ReconcilePeerConfig somePlatform _ _ secretsClient liveServer "kreg" "main" 0 elements None w stopped.

Lemma config_acceptable :
  @acceptable somePlatform _ liveServer liveServer_laws liveServer_reliable (pc_Spec config).
Proof. split; [by vm_compute|]. intros peer password ->%list_elem_of_singleton. by vm_compute. Qed.

Lemma peer_pass_iff_witness : (livePass secrets).1.1 = Ok statusPollInterval ∧ (livePass ∅).2 = stopped.
Proof.
  pose proof (λ w, @peer_pass_iff somePlatform _ liveServer liveServer_laws liveServer_reliable _ secretsClient
    "kreg" "main" 0 elements None w stopped config) as Hiff. cbv zeta in Hiff. split.
  - specialize (Hiff secrets ltac:(done) ltac:(done) ltac:(simpl; eauto) ltac:(done) config_acceptable ltac:(by_compute)).
    destruct (@ReconcilePeerConfig _ _ _ _ _ _ _ _ _ _ _ _) as [[r w'] m'] eqn:E. unfold livePass. rewrite E.
    destruct Hiff as [Hok _]. destruct Hok as [-> _]; [|done]. split; by_compute.
  - specialize (Hiff ∅ ltac:(done) ltac:(done) ltac:(simpl; eauto) ltac:(done) config_acceptable ltac:(by_compute)).
    destruct (@ReconcilePeerConfig _ _ _ _ _ _ _ _ _ _ _ _) as [[r w'] m'] eqn:E. unfold livePass. rewrite E.
    destruct Hiff as [_ Hbad]. destruct Hbad as (_ & -> & _); [|done].
    intros [_ Hall]. apply Forall_cons in Hall as [Hall _]. vm_compute in Hall. discriminate Hall.
Defined.
End ProgressExamples.

Module ViewExamples.
Import EwmaExamples BackendControllerExamples.

#[program] Definition memoryBackends_reliable : ReliableBackends (gmap string entry) :=
  {| admitsName n := n ≠ ""; admitsStatus _ := True |}.
Next Obligation. intros n w b Hb _. simpl in *. rewrite memoryRecords_lookup in Hb. destruct (w !! n); by simplify_eq/=. Qed.
Next Obligation. intros n w Hn. simpl in *. rewrite memoryRecords_lookup in Hn. by destruct (w !! n). Qed.
Next Obligation.
  intros b w _ Hn. simpl in *. rewrite memoryRecords_lookup in Hn. destruct (w !! _); [done|].
  eexists _, _, _. split; [done|]. rewrite memoryRecords_lookup, lookup_insert_eq. done.
Qed.
Next Obligation.
  intros b w cur _ Hc Hv. simpl in *. rewrite memoryRecords_lookup in Hc.
  destruct (w !! _) as [e|]; simplify_eq/=. rewrite decide_True by done. eauto.
Qed.
Next Obligation. simpl. eauto. Qed.
Next Obligation. intros b w. simpl. case_match; eauto. Qed.
Next Obligation. simpl. eauto. Qed.

Lemma named_admitted w candidates :
  Forall (λ c, objectName c ≠ "") candidates →
  @admittedBy halving _ _ _ _ memoryBackends_reliable w candidates.
Proof.
  intros Hn policies _. unfold BuildAdvertisedBackends. apply Forall_fmap. eapply Forall_impl; [exact Hn|].
  intros c Hc. split; [|done]. simpl. by rewrite buildOne_name.
Qed.

Lemma view_pass_total_witness :
  ∃ w', @ReconcileBackends halving _ _ _ settled stored = (Ok (mkResult snapshotPollInterval), w') ∧
    records w' !! "gone" = None.
Proof.
  destruct (@view_pass_total halving _ _ _ _ memoryBackends_reliable settled stored
    [setDamping (Some (active (2000 * Second))) backend] stored) as (policies & w' & Hp & Hrun & _ & Hout).
  - apply memory_currentBackends.
  - apply settled_keeps.
  - reflexivity.
  - by_compute.
  - apply named_admitted. by_compute.
  - intros n b. simpl. rewrite memoryRecords_lookup. by intros (e & _ & ->)%fmap_Some.
  - exists w'. split; [exact Hrun|]. rewrite Hout; [by vm_compute|by_compute].
Defined.
End ViewExamples.
