(* ===== verification/Delivery.v ===== *)
(** * Delivery: the BGPBackendPolicy controller with the Istio driver

    The controller's convergence theorem asks of the driver and of the rendering that
    the objects have distinct keys.  Here those hypotheses are discharged for the
    driver the process uses ([Main.setupPolicy]) and stated of the snapshot and the
    policy instead; with an API server that answers ([Progress]), the pass succeeds and
    what it leaves in the cluster is a function of the candidates the policy selects. *)
From S2P Require Import Prelude GoStrings GoNet GoTime Api Pipeline Objects Reconcile Istio Kube PolicyController.
From S2P Require Import Progress.

Definition serviceHost (policy : BGPBackendPolicy) : string :=
  ServiceName policy +:+ "." +:+ om_Namespace (bp_ObjectMeta policy) +:+ ".svc.cluster.local".

Lemma istioLower_one policy candidates host objs :
  istioLower policy candidates host = Ok objs → ∃ dr, objs = [ODestinationRule dr].
Proof. unfold istioLower. intros H. inv_ok. eauto. Qed.

(** The rendered objects of distinct IPv4 candidates have distinct keys. *)
Lemma istio_keys_distinct policy candidates out :
  Forall v4Candidate candidates → NoDup ((λ c, (bc_Prefix c, bc_ClusterID c)) <$> candidates) →
  Render policy candidates = Ok out →
  NoDup (keyOf <$> OutputObjects out) ∧ Forall (λ o, typeName o ≠ "EndpointSlice") (out_DriverObjects out).
Proof.
  intros Hv4 Hnd Hren. pose proof (Render_slice_names_distinct policy candidates out Hv4 Hnd Hren) as Hn.
  apply Render_inv in Hren as (_ & _ & _ & (dr & Hdr)%istioLower_one).
  unfold OutputObjects. rewrite Hdr. split; [|by repeat constructor].
  rewrite !fmap_app. simpl. constructor.
  { intros Hin. apply elem_of_app in Hin as [Hin|Hin].
    - apply list_elem_of_fmap in Hin as (o & Hk & (s & -> & _)%list_elem_of_fmap). done.
    - apply list_elem_of_singleton in Hin. done. }
  apply NoDup_app. split; [|split; [|by repeat constructor; apply not_elem_of_nil]].
  - rewrite <-list_fmap_compose.
    apply (NoDup_fmap_1 (λ k : ObjectKey, k.2)). rewrite <-list_fmap_compose. exact Hn.
  - intros k (o & -> & (s & -> & _)%list_elem_of_fmap)%list_elem_of_fmap Hk.
    by apply list_elem_of_singleton in Hk.
Qed.

Section delivery.
Context {W : Type} `{HC : Client W} `{HL : !ClientLaws W} `{HN : SnapshotSource W}.

Definition stored (w : W) (o : Object) : Prop := ∃ o', objects w !! keyOf o = Some o' ∧ sameContent o' o.

(** What a policy and a snapshot call for: the policy's Service, the DestinationRule
    Istio's driver makes for its host, an EndpointSlice for every selected candidate, and
    no other EndpointSlice that the cluster attributes to the policy's Service. *)
Definition delivered (policy : BGPBackendPolicy) (candidates : list BackendCandidate) (w' : W) : Prop :=
  let selected := filter (selects (bps_Selector (bp_Spec policy))) candidates in
  stored w' (OService (renderService policy)) ∧
  (∃ dr, istioLower policy selected (serviceHost policy) = Ok [ODestinationRule dr] ∧
     stored w' (ODestinationRule dr)) ∧
  (∀ c, c ∈ selected → ∃ s, sliceFor policy c s ∧ stored w' (OEndpointSlice s)) ∧
  ∀ s, objects w' !! keyOf (OEndpointSlice s) = Some (OEndpointSlice s) →
    om_Namespace (es_ObjectMeta s) = om_Namespace (bp_ObjectMeta policy) →
    om_Labels (es_ObjectMeta s) !! ManagedByLabel = Some (om_Name (bp_ObjectMeta policy)) →
    om_Labels (es_ObjectMeta s) !! LabelServiceName = Some (ServiceName policy) →
    ∃ c s0, c ∈ selected ∧ sliceFor policy c s0 ∧ sameContent (OEndpointSlice s) (OEndpointSlice s0).

Lemma delivered_by_pass ns name w result w' policy candidates w1 :
  currentLists W → snapshotFrame → GetPolicy ns name w = Ok policy →
  SourceSnapshot w = (Ok candidates, w1) → Forall v4Candidate candidates →
  NoDup ((λ c, (bc_Prefix c, bc_ClusterID c)) <$> candidates) →
  ReconcilePolicy ns name w = (Ok result, w') →
  delivered policy candidates w'.
Proof.
  intros Hlists Hsnap Hget Hs Hv4 Hnd Hrun.
  destruct (ReconcilePolicy_ok ns name w result w' policy) as (_ & cands & w2 & out & Hs' & Hren & Hall & Hpruned);
    [done..| |done|].
  { intros cands w2 out Hs' Hren. rewrite Hs in Hs'. injection Hs' as <- <-.
    exact (istio_keys_distinct policy candidates out Hv4 Hnd Hren). }
  rewrite Hs in Hs'. injection Hs' as <- <-. pose proof (Render_inv _ _ _ Hren) as (_ & Hsvc & Hsl & Hdrv).
  destruct (istioLower_one _ _ _ _ Hdrv) as [dr Hdr]. rewrite Hdr in Hdrv.
  unfold OutputObjects in Hall. rewrite Hdr, Hsvc in Hall.
  apply Forall_cons in Hall as [Hsvc' [Hsls Hdrs]%Forall_app].
  rewrite Forall_fmap, Forall_forall in Hsls. unfold delivered.
  split; [done|]. split; [exists dr; split; [done|by apply Forall_cons in Hdrs as [? _]]|]. split.
  - intros c Hc. apply list_elem_of_lookup in Hc as [j Hj].
    destruct (Forall2_lookup_l _ _ _ _ _ Hsl Hj) as (s & Hj' & Hsf). exists s. split; [done|].
    apply Hsls. by eapply list_elem_of_lookup_2.
  - intros s Hst Hns Hown Hserv. pose proof (Hpruned s Hst Hns Hown Hserv) as Hin.
    apply list_elem_of_fmap in Hin as (s0 & Hname & Hs0).
    apply list_elem_of_lookup in Hs0 as [j Hj].
    destruct (Forall2_lookup_r _ _ _ _ _ Hsl Hj) as (c & Hj' & Hsf). exists c, s0.
    split; [by eapply list_elem_of_lookup_2|]. split; [done|].
    destruct (Hsls s0) as (o' & Ho' & Hsame); [by eapply list_elem_of_lookup_2|].
    replace (keyOf (OEndpointSlice s)) with (keyOf (OEndpointSlice s0)) in Hst; [by rewrite Hst in Ho'; injection Ho' as <-|].
    unfold keyOf, GetNamespace, GetName. simpl. rewrite Hname, Hns.
    destruct (sf_owned _ _ _ Hsf) as [_ Hns0]. unfold GetNamespace in Hns0. simpl in Hns0. by rewrite Hns0.
Qed.

(** A selector and a policy that can be evaluated at all. *)
Lemma render_evaluable policy candidates :
  Forall v4Candidate candidates →
  Forall (λ p, is_ok (ParseCIDR p) = true) (sel_Prefixes (bps_Selector (bp_Spec policy))) →
  tls_Mode (be_TLS (bps_Backend (bp_Spec policy))) = BackendTLSModeSimple ∨
  tls_Mode (be_TLS (bps_Backend (bp_Spec policy))) = BackendTLSModeOther "" →
  ∃ out, Render policy candidates = Ok out.
Proof.
  intros Hv4 Hsel Htls. rewrite Forall_forall in Hv4.
  assert (∀ c, c ∈ candidates → is_ok (ParseCIDR (bc_Prefix c)) = true) as Hp.
  { intros c Hc. destruct (Hv4 c Hc) as (b & n & Hb & ->). by rewrite ParseCIDR_cidr4. }
  apply Render_ok_iff. split_and!.
  - apply Forall_forall. intros c Hc _. right. unfold prefixWithinAny.
    specialize (Hp c Hc). destruct (ParseCIDR (bc_Prefix c)) as [[ip net]|]; [|done]. simpl.
    induction Hsel as [|p ps Hok _ IH]; [done|]. simpl.
    destruct (ParseCIDR p) as [[??]|]; [|done]. simpl. by case_match.
  - apply Forall_forall. intros c [_ Hc]%list_elem_of_filter. by apply Hp.
  - simpl. pose proof (istioLower_ok_iff policy
      (filter (selects (bps_Selector (bp_Spec policy))) candidates) (serviceHost policy)) as Hlow.
    unfold serviceHost in Hlow. destruct (istioLower _ _ _); [done|]. naive_solver.
Qed.

End delivery.

Module DeliveryExamples.
Import MemoryServer ReconcileExamples PolicyControllerExamples.

(** Objects need a name. *)
#[program] Definition memory_reliable : ReliableClient world := {| admits o := GetName o ≠ "" |}.
Next Obligation. intros v o Ho. by destruct o. Qed.
Next Obligation. intros k w o Ho Hv. simpl in *. rewrite Ho. by case_decide. Qed.
Next Obligation. intros k w Ho. simpl in *. by rewrite Ho. Qed.
Next Obligation. intros o w _ Ho. simpl in *. rewrite Ho. eauto. Qed.
Next Obligation. intros o w cur _ Ho Hv. simpl in *. rewrite Ho. case_decide; [eauto|done]. Qed.
Next Obligation. simpl. eauto. Qed.
Next Obligation. intros s w. simpl. case_match; eauto. Qed.
Next Obligation. simpl. eauto. Qed.
Next Obligation. intros o w r w' ns name Hr. simpl in Hr. by case_match; simplify_eq. Qed.
Next Obligation. intros o w r w' ns name Hr. simpl in Hr. by repeat case_match; simplify_eq. Qed.
Next Obligation. intros s w r w' ns name Hr. simpl in Hr. by case_match; simplify_eq. Qed.

Lemma constant_keeps : @snapshotKeepsPolicies world _ constant.
Proof. intros w r w' ns name [= _ <-]. done. Qed.

End DeliveryExamples.
