(* ===== verification/Loop.v ===== *)
(** * The loop: snapshot, report, store, remember

    The AdvertisedBackend controller takes a snapshot (internal/snapshot), writes it as
    records (internal/report through internal/controller), and the next snapshot reads
    those records back as its memory (internal/damp).  This file closes that loop over an
    abstract cluster: [sourceOf] is [snapshot.Source] reading the cluster the controller
    writes to, [memoryOf] what the stored records remember of a backend, and [system] the
    clusters that passes of the controller, successful or not, interleaved with anything
    else that happens in the cluster, can lead to.  The invariant theorem carries the
    transition system of [Stability] to the stored records of every such cluster. *)

From S2P Require Import Prelude GoStrings GoNet GoFloat GoTime Api Wire Pipeline Ingest Authorize.
From S2P Require Import Objects Reconcile Damp Ewma Report Stability Snapshot System.
From S2P Require Import PolicyController BackendController.
Local Open Scope Z_scope.

(** What [snapshot.Source] reads of a cluster, and the tracker it publishes to; [visit] is
    the order in which a run goes through the map of prior states. *)
Class PipelineWorld (W : Type) := {
  readerOf : W → KubeReader;
  ribOf : W → RIB;
  trackerOf : W → option RejectionTracker;
  withTracker : option RejectionTracker → W → W;
  visit : W → gmap string PriorState → list (string * PriorState);
}.

Section loop.
Context `{HP : Platform} `{HS : Sorter} {W : Type} `{HC : BackendClient W} `{HL : !BackendClientLaws W}.
Context `{HW : PipelineWorld W}.

#[local] Instance sourceOf : SnapshotSource W := {|
  SourceSnapshot w :=
    let '(r, t) := @Snapshot _ (readerOf w) (ribOf w) ewmaDamper (Now w) (visit w) (trackerOf w) in
    (r, withTracker t w)
|}.

(** The records are read through the same client they are written with, every entry of a
    map is visited once, and publishing rejection counts touches no record. *)
Class PipelineLaws : Prop := {
  reader_backends w labels : @ListAdvertisedBackends (readerOf w) labels = ListBackends labels w;
  visit_all w prior : visit w prior ≡ₚ map_to_list prior;
  tracker_records t w : records (withTracker t w) = records w;
  tracker_clock t w : Now w <= Now (withTracker t w);
}.
Context `{HPL : !PipelineLaws}.

(** What the stored record of a backend remembers. *)
Definition memoryOf (w : W) (k : string) : option PriorState :=
  records w !! k ≫= λ b, if decide (ownRecord b) then priorOfStatus (ab_Status b) else None.

(** The stability configuration a snapshot would use is [cfg]. *)
Definition steady (cfg : BGPStabilityConfigSpec) (w : W) : Prop :=
  ∀ sco, getOptional "get BGPStabilityConfig %q: %w" stabilityConfigName
           (@GetBGPStabilityConfig (readerOf w) stabilityConfigName) = Ok sco →
    from_option sc_Spec zeroStabilitySpec sco = cfg.

(** ** The memory a snapshot reads *)

Lemma prior_is_memory w items k :
  currentBackends W → ListBackends {[ ManagedByLabel := ManagedByValue ]} w = Ok items →
  PriorStateFromAdvertisedBackends items !! k = memoryOf w k.
Proof.
  intros Hcur Hlist. unfold memoryOf.
  assert (∀ b, b ∈ items ↔ records w !! om_Name (ab_ObjectMeta b) = Some b ∧ ownRecord b) as Hin.
  { intros b. rewrite (Hcur _ _ _ Hlist b), map_singleton_subseteq_l. done. }
  destruct (PriorStateFromAdvertisedBackends items !! k) as [p|] eqn:Hp.
  - apply PriorState_provenance in Hp as (b & [Hb Hown]%Hin & <- & Hps).
    rewrite Hb. simpl. by rewrite decide_True.
  - destruct (records w !! k) as [b|] eqn:Hb; [|done]. simpl. case_decide as Hown; [|done].
    destruct (priorOfStatus (ab_Status b)) as [p|] eqn:Hps; [|done].
    pose proof (records_named _ _ _ Hb) as Hname.
    destruct (PriorState_complete items b p) as [q Hq]; [|done|congruence].
    apply Hin. by rewrite Hname.
Qed.

(** The result of a snapshot as an evaluation of settled candidates against the memory. *)
Lemma source_inv cfg w out w1 :
  currentBackends W → steady cfg w → SourceSnapshot w = (Ok out, w1) →
  ∃ settled prior, Forall (λ c, bc_Damping c = None) settled ∧
    out = ewmaEvaluate (Now w) settled prior (visit w prior) cfg ∧
    (needsPriorState cfg = true → ∀ k, prior !! k = memoryOf w k) ∧
    (needsPriorState cfg = false → prior = ∅) ∧
    records w1 = records w ∧ Now w <= Now w1 ∧
    (∃ routes pcs authorized cm, @RIBSnapshot (ribOf w) = Ok routes ∧
       @ListBGPPeerConfigs (readerOf w) = Ok pcs ∧
       Authorize routes (allBindings pcs) = Ok authorized ∧ settled = normalizeSpec cm <$> authorized).
Proof.
  intros Hcur Hcfg Hs. simpl in Hs.
  destruct (@Snapshot _ (readerOf w) (ribOf w) ewmaDamper (Now w) (visit w) (trackerOf w))
    as [r t] eqn:Hsn. injection Hs as -> <-.
  destruct (@Snapshot_inv _ (readerOf w) (ribOf w) ewmaDamper (Now w) (visit w) (trackerOf w) out)
    as (routes & pcs & authorized & cm & prior & spec & Hr & Hp & Ha & Hout & (sco & Hsc & ->) & Hprior);
    [by rewrite Hsn|].
  rewrite (Hcfg _ Hsc) in *.
  exists (normalizeSpec cm <$> authorized), prior. split_and!; [|done| | | | |].
  - apply Forall_fmap, Forall_forall. done.
  - intros Hneed. destruct Hprior as [[? _]|(_ & items & Hi & ->)]; [congruence|].
    intros k. rewrite reader_backends in Hi. by apply prior_is_memory.
  - intros Hneed. by destruct Hprior as [[_ ->]|[? _]]; [|congruence].
  - apply tracker_records.
  - apply tracker_clock.
  - by exists routes, pcs, authorized, cm.
Qed.

(** ** The verdicts of a pass *)

Lemma reachable_any c c' cfg now st : reachable c cfg now st → reachable c' cfg now st.
Proof.
  induction 1 as [|now now' o st Hr IH Hle]; [constructor|].
  rewrite (tick_any c c'). by econstructor.
Qed.

(** The memory of a backend is filed under its name, stamped, and what a record keeps of a
    state its transition system can be in by now. *)
Definition sound (cfg : BGPStabilityConfigSpec) (now : Time) (k : string) (p : PriorState) : Prop :=
  objectName (prior_Candidate p) = k ∧ stamped (prior_Damping p) ∧
  ∃ c now' d, now' <= now ∧ reachable c cfg now' (Some d) ∧ prior_Damping p = persist d.

Definition soundMemory (cfg : BGPStabilityConfigSpec) (w : W) : Prop :=
  Second <= Now w ∧ ∀ k p, memoryOf w k = Some p → sound cfg (Now w) k p.

(** Every candidate of a snapshot is either a rejected route without a verdict, or has
    the verdict its transition system computes now. *)
Lemma verdict_reachable cfg w out w1 c :
  currentBackends W → steady cfg w → soundMemory cfg w → SourceSnapshot w = (Ok out, w1) → c ∈ out →
  bc_Damping c = None ∨
  ∃ d, bc_Rejected c = false ∧ bc_Damping c = Some d ∧ wfDamping (Now w) d ∧ stamped d ∧
    reachable c cfg (Now w) (Some d).
Proof.
  intros Hcur Hcfg [Hnow Hmem] Hs Hc.
  destruct (source_inv cfg w out w1 Hcur Hcfg Hs)
    as (settled & prior & Hsettled & -> & Hneed & Hskip & _).
  assert (∀ k p, prior !! k = Some p → sound cfg (Now w) k p) as Hprior.
  { intros k p Hp. destruct (needsPriorState cfg) eqn:Hn; [rewrite Hneed in Hp by done; by apply Hmem|].
    rewrite Hskip, lookup_empty in Hp by done. done. }
  rewrite ewmaEvaluate_eq, elem_of_app in Hc.
  destruct Hc as [(c0 & -> & Hc0)%list_elem_of_fmap|([k p] & Hkp & Hsyn)%list_elem_of_omap].
  - unfold evaluated. destruct (bc_Rejected c0) eqn:Hrej.
    { left. rewrite Forall_forall in Hsettled. by apply Hsettled. }
    right. set (m := prior !! BackendObjectName (bc_Prefix c0) (bc_ClusterID c0)).
    eexists. split_and!; [done|done|apply evaluatePresent_wf| |].
    { apply evaluatePresent_stamped; [done|]. intros q Hq. by apply Hprior in Hq as (_ & ? & _). }
    assert (∃ c now st, now <= Now w ∧ reachable c cfg now st ∧ prior_Damping <$> m = persist <$> st)
      as (c1 & now & st & Hle & Hr & Hm).
    { destruct m as [q|] eqn:Hq.
      - apply Hprior in Hq as (_ & _ & c1 & now & d & Hle & Hr & Hd). exists c1, now, (Some d).
        split_and!; [done..|]. simpl. by rewrite Hd.
      - exists c0, (Now w), None. split_and!; [done|constructor|done]. }
    destruct (tick_memory c1 cfg (Now w) st m Hm) as [<- _].
    by apply (reachable_any c1), (reach_tick c1 cfg now).
  - right. rewrite visit_all, elem_of_map_to_list in Hkp.
    destruct (Hprior _ _ Hkp) as (Hname & Hst & c1 & now & d0 & Hle & Hr & Hd0).
    unfold synthesized in Hsyn. case_decide; [done|]. simpl in Hsyn.
    destruct (evaluateAbsent_stamped _ _ _ _ _ Hnow Hst Hsyn) as (d & -> & Hstd & Hwf).
    exists d. split_and!; [|done..|].
    { destruct (needsPriorState cfg) eqn:Hn; [|rewrite Hskip, lookup_empty in Hkp by done; done].
      rewrite Hneed in Hkp by done. unfold memoryOf in Hkp.
      destruct (records w !! k) as [b|]; [|done]. simpl in Hkp. case_decide; [|done].
      apply priorOfStatus_candidate in Hkp. simpl. by rewrite Hkp. }
    assert (prior_Damping <$> Some p = persist <$> Some d0) as Hm by (simpl; by rewrite Hd0).
    destruct (tick_memory c1 cfg (Now w) (Some d0) (Some p) Hm) as [_ Htick].
    simpl in Htick. rewrite Hsyn in Htick. simpl in Htick.
    apply (reachable_any c1).
    replace (Some d) with (tick c1 cfg (Now w) Missed (Some d0)). by apply (reach_tick c1 cfg now).
Qed.

(** ** What one pass does to the memory *)

Notation nameOf d := (om_Name (ab_ObjectMeta d)).

(** The memory of [k] is what it was, is gone, or comes from a desired record [d] named [k]. *)
Definition movesTo (w w' : W) (k : string) (desired : list AdvertisedBackend) : Prop :=
  memoryOf w' k = memoryOf w k ∨ memoryOf w' k = None ∨
  ∃ d, d ∈ desired ∧ nameOf d = k ∧ memoryOf w' k = priorOfStatus (wireStatus (ab_Status d)).

Lemma memoryOf_records w w' k : records w' !! k = records w !! k → memoryOf w' k = memoryOf w k.
Proof. unfold memoryOf. by intros ->. Qed.

Lemma movesTo_trans w w1 w' k l l' :
  movesTo w w1 k l → movesTo w1 w' k l' → movesTo w w' k (l ++ l').
Proof.
  unfold movesTo. setoid_rewrite elem_of_app.
  intros [H1|[H1|(d & ? & ? & H1)]] [H2|[H2|(d' & ? & ? & H2)]]; rewrite ?H2, ?H1;
    naive_solver congruence.
Qed.

(** A status update that was applied. *)
Lemma wroteStatus_moves w w' k b desired :
  wroteStatus (records w) (records w') b → nameOf b = nameOf desired →
  priorOfStatus (wireStatus (ab_Status b)) = priorOfStatus (wireStatus (ab_Status desired)) →
  movesTo w w' k [desired].
Proof.
  intros (cur & b' & Hcur & _ & Hrec & Hst & Hlab) Hn Hp. unfold movesTo.
  destruct (decide (k = nameOf b)) as [->|Hk].
  2:{ left. apply memoryOf_records. rewrite Hrec. by rewrite lookup_insert_ne. }
  right. unfold memoryOf. rewrite Hrec, lookup_insert_eq. simpl.
  case_decide; [right|by left]. exists desired. rewrite Hst, Hp, Hn. set_solver.
Qed.

Lemma createdRecord_moves w w' k b : createdRecord (records w) (records w') b → movesTo w w' k [].
Proof.
  intros (Hnone & b' & Hrec & Hst & _). destruct (decide (k = nameOf b)) as [->|Hk].
  - right. left. unfold memoryOf. rewrite Hrec, lookup_insert_eq. simpl.
    case_decide; [|done]. by rewrite Hst.
  - left. apply memoryOf_records. rewrite Hrec. by rewrite lookup_insert_ne.
Qed.

Lemma updateStatus_moves b w r w' k desired :
  UpdateBackendStatus b w = (r, w') → nameOf b = nameOf desired →
  priorOfStatus (wireStatus (ab_Status b)) = priorOfStatus (wireStatus (ab_Status desired)) →
  movesTo w w' k [desired].
Proof.
  intros Hrun Hn Hp. destruct r as [[]|e].
  - eapply wroteStatus_moves; [by apply updateStatus_ok|done..].
  - apply updateStatus_err in Hrun as [Heq|Hw]; [left; apply memoryOf_records; by rewrite Heq|].
    by eapply wroteStatus_moves.
Qed.

Lemma applyBackend_moves desired w r w' k :
  applyBackend desired w = (r, w') → movesTo w w' k [desired] ∧ Now w <= Now w'.
Proof.
  unfold applyBackend. intros Hrun.
  destruct (GetBackend _ w) as [current|e] eqn:Hget.
  - apply getBackend_named in Hget as [Hn _].
    split; [|by eapply update_clock]. by eapply updateStatus_moves.
  - destruct e; try (simplify_eq; split; [by left|reflexivity]).
    destruct (CreateBackend _ w) as [[meta|e] w1] eqn:Hc; pose proof (create_clock _ _ _ _ Hc).
    + apply createBackend_ok in Hc as [Hn Hc]. apply (createdRecord_moves _ _ k) in Hc.
      pose proof (update_clock _ _ _ _ Hrun). split; [|lia].
      apply (movesTo_trans w w1 w' k [] [desired] Hc). by eapply updateStatus_moves.
    + simplify_eq. split; [|done]. apply createBackend_err in Hc as [Heq|Hc].
      * left. apply memoryOf_records. by rewrite Heq.
      * apply (movesTo_trans _ w' _ k [] [desired]); [by eapply createdRecord_moves|by left].
Qed.

Lemma applyBackends_moves desired names w r w' k :
  applyBackends desired names w = (r, w') → movesTo w w' k desired ∧ Now w <= Now w'.
Proof.
  revert names w. induction desired as [|d desired IH]; intros names w Hrun; simpl in Hrun.
  { simplify_eq. split; [by left|reflexivity]. }
  destruct (applyBackend d w) as [[[]|e] w1] eqn:Ha; apply (applyBackend_moves _ _ _ _ k) in Ha as [Hd Hc].
  - apply IH in Hrun as [Hrest Hc']. split; [|lia]. by apply (movesTo_trans w w1 w' k [d] desired).
  - simplify_eq. split; [|done]. apply (movesTo_trans w w' w' k [d] desired); [done|by left].
Qed.

Lemma deleteBackends_moves names items w r w' k :
  deleteBackends names items w = (r, w') → movesTo w w' k [] ∧ Now w <= Now w'.
Proof.
  revert w. induction items as [|b items IH]; intros w Hrun; simpl in Hrun.
  { simplify_eq. split; [by left|reflexivity]. }
  case_decide; [by apply IH|].
  destruct (DeleteBackend b w) as [d w1] eqn:Hd. pose proof (delete_clock _ _ _ _ Hd) as Hc.
  assert (movesTo w w1 k []) as H1.
  { destruct (decide (k = nameOf b)) as [->|Hk].
    - apply deleteBackend_any in Hd as [Heq|Hnone]; [left; by apply memoryOf_records|].
      right. left. unfold memoryOf. by rewrite Hnone.
    - left. apply memoryOf_records. by eapply deleteBackend_frame. }
  destruct d as [[]|[]]; try (simplify_eq; by split);
    (apply IH in Hrun as [H2 Hc']; split; [by apply (movesTo_trans w w1 w' k [] [])|lia]).
Qed.

(** However a pass ends, the memory of every backend is what it was, is gone, or comes
    from a candidate of the snapshot with its name. *)
Lemma pass_moves w r w' k :
  ReconcileBackends w = (r, w') →
  Now w <= Now w' ∧
  (memoryOf w' k = memoryOf w k ∨ memoryOf w' k = None ∨
   ∃ out w1 c policies, SourceSnapshot w = (Ok out, w1) ∧ c ∈ out ∧ objectName c = k ∧
     memoryOf w' k = priorOfStatus (wireStatus (ab_Status (buildOne c policies)))).
Proof.
  intros Hrun. unfold ReconcileBackends in Hrun.
  destruct (SourceSnapshot w) as [ro w1] eqn:Hs.
  assert (records w1 = records w ∧ Now w <= Now w1) as [Hrec Hc1].
  { simpl in Hs. destruct (Snapshot _ _ _) as [r0 t]. simplify_eq.
    split; [apply tracker_records|apply tracker_clock]. }
  assert (memoryOf w1 k = memoryOf w k) as Hm1 by (apply memoryOf_records; by rewrite Hrec).
  destruct ro as [out|e]; [|simplify_eq; split; [done|by left]].
  destruct (ListPolicies w1) as [policies|e]; [|simplify_eq; split; [done|by left]].
  destruct (applyBackends _ _ w1) as [ra w2] eqn:Ha.
  apply (applyBackends_moves _ _ _ _ _ k) in Ha as [Hmoves Hc2].
  assert (movesTo w1 w' k (BuildAdvertisedBackends out policies ++ []) ∧ Now w2 <= Now w') as [Hall Hc3].
  { destruct ra as [names|e]; [|simplify_eq; split; [by rewrite app_nil_r|done]].
    unfold pruneStaleBackends in Hrun.
    destruct (ListBackends _ w2) as [items|e]; [|simplify_eq; split; [by rewrite app_nil_r|done]].
    destruct (deleteBackends names items w2) as [rp w3] eqn:Hd.
    assert (w3 = w') as -> by by destruct rp; simplify_eq.
    apply (deleteBackends_moves _ _ _ _ _ k) in Hd as [Hdel Hc3]. split; [|done].
    by apply (movesTo_trans w1 w2). }
  split; [lia|]. destruct Hall as [->|[->|(d & Hd & Hn & ->)]]; [by left|right; by left|].
  right. right. rewrite app_nil_r in Hd. apply list_elem_of_fmap in Hd as (c & -> & Hc).
  exists out, w1, c, policies. rewrite buildOne_name in Hn. done.
Qed.

(** ** Every cluster the loop can lead to *)

(** Starting without records, passes of the controller with any outcome alternate with
    anything else that leaves the controller's records alone or removes them. *)
Inductive system (cfg : BGPStabilityConfigSpec) : W → Prop :=
| system_start w : Second <= Now w → (∀ k, memoryOf w k = None) → system cfg w
| system_pass w r w' :
    system cfg w → steady cfg w → ReconcileBackends w = (r, w') → system cfg w'
| system_env w w' :
    system cfg w → Now w <= Now w' →
    (∀ k, memoryOf w' k = memoryOf w k ∨ memoryOf w' k = None) → system cfg w'.

Lemma sound_later cfg now now' k p : sound cfg now k p → now <= now' → sound cfg now' k p.
Proof.
  intros (? & ? & c & t & d & ? & ? & ?) Hle. split_and!; [done..|].
  exists c, t, d. split_and!; [lia|done..].
Qed.

Lemma pass_sound cfg w r w' :
  currentBackends W → steady cfg w → soundMemory cfg w → ReconcileBackends w = (r, w') →
  soundMemory cfg w'.
Proof.
  intros Hcur Hcfg Hsound Hrun. pose proof Hsound as [Hnow Hmem]. split.
  { destruct (pass_moves w r w' "" Hrun) as [Hc _]. lia. }
  intros k p Hp. destruct (pass_moves w r w' k Hrun) as [Hc Hmoves].
  destruct Hmoves as [Heq|[Hnone|(out & w1 & c & policies & Hs & Hin & Hk & Heq)]].
  - rewrite Heq in Hp. by eapply sound_later; [apply Hmem|].
  - congruence.
  - rewrite Heq in Hp.
    destruct (verdict_reachable cfg w out w1 c Hcur Hcfg Hsound Hs Hin)
      as [Hnone|(d & Hrej & Hd & Hwf & Hst & Hr)].
    { by rewrite prior_of_unevaluated in Hp. }
    rewrite (prior_of_verdict (Now w) c d policies Hrej Hd Hwf Hst) in Hp. injection Hp as <-.
    split_and!; cbn [prior_Candidate prior_Damping];
      [by rewrite candidate_name_of_buildOne|by apply persist_stamped|].
    exists c, (Now w), d. done.
Qed.

Lemma system_soundMemory cfg w : currentBackends W → system cfg w → soundMemory cfg w.
Proof.
  intros Hcur. induction 1 as [w Hnow Hnone|w r w' _ IH Hcfg Hrun|w w' _ [Hnow IH] Hc Henv].
  - split; [done|]. intros k p Hp. by rewrite Hnone in Hp.
  - by eapply pass_sound.
  - split; [lia|]. intros k p Hp. destruct (Henv k) as [Heq|Hn]; [|congruence].
    rewrite Heq in Hp. by eapply sound_later; [apply IH|].
Qed.

(** C8 (Stored verdicts come from the transition system).  In every cluster that passes of
    the controller, failed and interrupted ones included, and other activity can lead to,
    whatever the stored record of a backend remembers is filed under the backend's own
    name and is what a record keeps of a verdict that [Stability]'s transition system
    reaches by then: the bounds proved there hold of the records in the cluster. *)
Theorem system_memory_reachable cfg w k p :
  currentBackends W → system cfg w → memoryOf w k = Some p →
  objectName (prior_Candidate p) = k ∧
  ∃ c now d, now <= Now w ∧ reachable c cfg now (Some d) ∧ prior_Damping p = persist d.
Proof.
  intros Hcur [_ Hmem]%system_soundMemory Hp; [|done].
  by destruct (Hmem k p Hp) as (? & _ & ?).
Qed.

(** ** A successful pass is a tick *)

Lemma source_keeps : snapshotKeeps.
Proof.
  intros w r w' Hs. simpl in Hs. destruct (Snapshot _ _ _) as [r0 t]. simplify_eq.
  split; [apply tracker_records|apply tracker_clock].
Qed.

Lemma priorOfStatus_stamped t old s :
  priorOfStatus (wireStatus (stampedStatus t old s)) = priorOfStatus (wireStatus s).
Proof. by destruct old. Qed.

(** C7 (A successful pass is a tick of the system).  When a pass succeeds over a snapshot
    of distinctly named backends, none of whose names is taken by someone else's record,
    and the list of the records it reads is current, then what the records remember
    afterwards of every backend is exactly [System.nextPrior] of what they remembered
    before, or of nothing when the stability configuration has neither a grace, nor a
    delay, nor dampening and the records are not read: snapshot, evaluation, report, the
    API server and the stored form compose to one step of every backend's memory. *)
Theorem pass_refines_nextPrior cfg w result w' :
  currentBackends W → steady cfg w →
  (∀ out w1, SourceSnapshot w = (Ok out, w1) → NoDup (objectName <$> out) ∧
     ∀ c b, c ∈ out → records w !! objectName c = Some b → ownRecord b) →
  ReconcileBackends w = (Ok result, w') →
  ∃ settled prior policies,
    (∃ routes pcs authorized cm, @RIBSnapshot (ribOf w) = Ok routes ∧
       @ListBGPPeerConfigs (readerOf w) = Ok pcs ∧
       Authorize routes (allBindings pcs) = Ok authorized ∧
       settled = normalizeSpec cm <$> authorized) ∧
    (∀ k, prior !! k = if needsPriorState cfg then memoryOf w k else None) ∧
    ∀ k, memoryOf w' k = nextPrior (Now w) settled prior (visit w prior) cfg policies !! k.
Proof.
  intros Hcur Hcfg Hout Hrun.
  apply ReconcileBackends_exact in Hrun as (_ & out & policies & w1 & Hs & _ & Hexact);
    [|done|apply source_keeps].
  destruct (Hout out w1 Hs) as [Hnd Hown]. destruct (Hexact Hnd) as [Hin Hnot].
  destruct (source_inv cfg w out w1 Hcur Hcfg Hs)
    as (settled & prior & _ & Heq & Hprior & Hskip & _ & _ & Hfrom).
  exists settled, prior, policies. split_and!; [done|by destruct (needsPriorState cfg); [apply Hprior|rewrite Hskip]|].
  intros k. unfold nextPrior. rewrite <- Heq.
  destruct (decide (k ∈ objectName <$> out)) as [Hk|Hk].
  - apply list_elem_of_fmap in Hk as (c & -> & Hc).
    destruct (Hin c Hc) as (b & t & Hb & _ & Hlab & Hnew & Hst).
    assert (ownRecord b) as Hb'.
    { destruct (records w !! objectName c) as [old|] eqn:Hold; [|by apply Hnew].
      unfold ownRecord. rewrite (Hlab old) by done. by eapply Hown. }
    unfold memoryOf. rewrite Hb. simpl. rewrite decide_True by done.
    rewrite Hst, priorOfStatus_stamped.
    rewrite PriorState_lookup by by rewrite names_built.
    rewrite <- (buildOne_name c policies).
    change (om_Name (ab_ObjectMeta (buildOne c policies)))
      with (om_Name (ab_ObjectMeta (wireBackend (buildOne c policies)))).
    rewrite (head_filter_unique (λ i, om_Name (ab_ObjectMeta i)) _ (wireBackend (buildOne c policies)));
      [done|by rewrite names_built|].
    by apply list_elem_of_fmap_2, (list_elem_of_fmap_2 (λ c, buildOne c policies)).
  - rewrite prior_of_missing by done. unfold memoryOf. rewrite Hnot by done.
    destruct (records w !! k) as [b|]; [|done]. simpl. case_decide as Ho; [done|]. simpl.
    by rewrite decide_False.
Qed.
End loop.

(** ** When [lastChange] moves *)

Lemma metaTimeOrNil_stored t :
  stamp t → wireTimePtr (metaTimeOrNil t) = wireTime <$> t.
Proof.
  intros Ht. pose proof (metaTimeOrNil_wire t Ht) as E. by destruct (wireTimePtr (metaTimeOrNil t)).
Qed.

Lemma metaTimeOrNil_id t : stamp t → metaTimeOrNil t = t.
Proof.
  destruct t as [t|]; [|done]. intros Ht. simpl. unfold metaTime. by rewrite IsZero_stamp by by apply Ht.
Qed.

Lemma wireSlice_id {A} (s : slice A) : s ≠ Some [] → wireSlice s = s.
Proof. by destruct s as [[|]|]. Qed.

(** The stamps of two consecutive verdicts, as the records of the two ticks have them. *)
Lemma stamps_agree `{Platform} c cfg now o d d' :
  stamped d → wfDamping (di_LastObservedAt d) d →
  tick c cfg now o (Some d) = Some d' → di_State d' = di_State d →
  (is_Some (di_WithdrawnAt d') ↔ is_Some (di_WithdrawnAt d)) →
  di_WithdrawnAt d' = wireTime <$> di_WithdrawnAt d ∧
  di_SuppressedSince d' = wireTime <$> di_SuppressedSince d ∧
  di_PendingSince d' = wireTime <$> di_PendingSince d.
Proof.
  intros Hst [_ Hwf] Ht Hstate Hw. pose proof (tick_wf c cfg now o _ _ Ht) as [_ Hwf'].
  destruct (tick_stamps c cfg now o d d' Ht) as (HW & HS & HP). split_and!.
  - destruct o; rewrite HW in Hw |- *.
    + destruct (di_WithdrawnAt d); [|done]. exfalso. by apply (is_Some_None (A := Time)), Hw.
    + destruct (di_WithdrawnAt d); [done|]. exfalso. by apply (is_Some_None (A := Time)), Hw.
  - rewrite Hstate in Hwf', HS. destruct (di_State d); try done.
    + destruct Hwf as (-> & _), Hwf' as (-> & _). done.
    + destruct Hwf as (-> & _), Hwf' as (-> & _). done.
    + destruct Hwf as ([t E] & _). rewrite HS, E by done. done.
    + destruct Hwf as (-> & _), Hwf' as (-> & _). done.
  - rewrite Hstate in Hwf', HP. destruct (di_State d); try done.
    + destruct Hwf as (_ & -> & _), Hwf' as (_ & -> & _). done.
    + destruct Hwf as (_ & -> & _), Hwf' as (_ & -> & _). done.
    + destruct Hwf as (_ & ->), Hwf' as (_ & ->). done.
    + destruct Hwf as (_ & [t E] & _). rewrite HP, E by done. done.
Qed.

(** An empty slice that is not nil is never what was stored: the wire form has none. *)
Lemma statusChanged_empty `{Platform, Sorter} c policies policies' first last d d' :
  bc_ASPath c = Some [] ∨ bc_LargeCommunities c = Some [] →
  statusChanged
    (wireStatus (withTimes first last (ab_Status (buildOne (setDamping (Some d) c) policies))))
    (ab_Status (buildOne (setDamping (Some d') c) policies')) = true.
Proof.
  intros He. unfold statusChanged. rewrite negb_true_iff, bool_decide_eq_false. intros Heq.
  apply (f_equal abs_Attributes) in Heq. revert Heq. unfold buildOne.
  destruct (stateAndReason _), (bindings (setDamping (Some d) c) policies), (stateAndReason _),
    (bindings (setDamping (Some d') c) policies').
  unfold comparable, wireStatus. simpl. destruct He as [-> | ->]; unfold wireAttributes; simpl; by intros [=].
Qed.

Lemma changed_iff_transition `{Platform, Sorter} c cfg policies first last now now' o d d' :
  bc_Rejected c = false → bc_ASPath c ≠ Some [] → bc_LargeCommunities c ≠ Some [] →
  stamped d → Second <= now' → reachable c cfg now (Some d) →
  tick c cfg now' o (Some d) = Some d' →
  statusChanged
    (wireStatus (withTimes first last (ab_Status (buildOne (setDamping (Some d) c) policies))))
    (ab_Status (buildOne (setDamping (Some d') c) policies)) = true ↔
  di_State d' ≠ di_State d ∨ ¬ (is_Some (di_WithdrawnAt d') ↔ is_Some (di_WithdrawnAt d)).
Proof.
  intros Hrej Hpath Hlc Hst Hnow Hr Ht.
  assert (∃ t0 o0 st0, tick c cfg t0 o0 st0 = Some d) as (t0 & o0 & st0 & Ht0) by (inversion Hr; eauto).
  pose proof (tick_wf _ _ _ _ _ _ Ht0) as Hwf. pose proof Hwf as [Hobs Hwfs].
  pose proof (tick_wf _ _ _ _ _ _ Ht) as [_ Hwfs'].
  destruct Hst as (Hl & HW & HS & HP). unfold statusChanged. rewrite negb_true_iff, bool_decide_eq_false.
  split.
  - intros Hne. destruct (decide (di_State d' = di_State d)) as [Hs|]; [right|by left].
    intros Hw. apply Hne. clear Hne.
    destruct (stamps_agree c cfg now' o d d') as (EW & ES & EP); [by split_and!|by rewrite Hobs|done..|].
    pose proof (tick_pending_reason _ _ _ _ _ _ Ht0) as Hp. pose proof (tick_pending_reason _ _ _ _ _ _ Ht) as Hp'.
    unfold buildOne. rewrite (bindings_verdict c d' d) by done.
    destruct (bindings (setDamping (Some d) c) policies) as [bound gen].
    unfold stateAndReason. cbn [bc_Rejected bc_Damping setDamping bc_Drain bc_Reason]. rewrite Hrej, Hs.
    rewrite Hs in Hp'.
    destruct (di_State d) eqn:Hd; try done; try (destruct (bc_Drain c)); unfold comparable, wireStatus; simpl;
      unfold wireAttributes; simpl;
      rewrite !metaTimeOrNil_stored, !metaTimeOrNil_id by (rewrite ?EW, ?ES, ?EP; auto using stamp_wire);
      rewrite EW, ES, EP, (wireSlice_id (bc_LargeCommunities c)) by done;
      (rewrite (wireSlice_id (asPathInt64 (bc_ASPath c))) by by destruct (bc_ASPath c) as [[|]|]);
      rewrite ?Hp, ?Hp' by done; done.
  - intros Hdiff Heq. unfold buildOne in Heq.
    destruct (bindings (setDamping (Some d) c) policies) as [b1 g1],
      (bindings (setDamping (Some d') c) policies) as [b2 g2].
    unfold stateAndReason in Heq. cbn [bc_Rejected bc_Damping setDamping bc_Drain bc_Reason] in Heq.
    rewrite Hrej in Heq. destruct Hdiff as [Hs|Hw].
    + apply (f_equal abs_State) in Heq.
      destruct (di_State d), (di_State d'); try done; simpl in Heq; destruct (bc_Drain c); done.
    + apply (f_equal (λ s, ss_WithdrawnAt (abs_Stability s))) in Heq.
      assert (wireTimePtr (metaTimeOrNil (di_WithdrawnAt d)) = metaTimeOrNil (di_WithdrawnAt d')) as E.
      { destruct (di_State d), (di_State d'); try done; simpl in Heq; destruct (bc_Drain c); done. }
      rewrite metaTimeOrNil_stored in E by done.
      destruct (tick_stamps c cfg now' o d d' Ht) as (EW & _ & _).
      rewrite metaTimeOrNil_id in E.
      2:{ rewrite EW. destruct o; [done|]. apply stamp_Some, stamp_default; [done|]. by apply stamp_wire. }
      apply Hw. rewrite <- E. by rewrite fmap_is_Some.
Qed.

(** C31 ([lastChange] moves exactly at transitions).  From one tick to the next, for an
    unchanged, unrejected route and unchanged policies, [statusChanged] between the stored
    record and the newly built one holds exactly when the damping state differs or the
    backend has gone missing or come back, or the route carries an empty slice that is not
    nil, as [decodeLargeCommunities] makes for an empty attribute: then it holds at every
    tick.  Neither decaying scores and counts, nor drifting reasons, nor the rounding of
    stored times ever moves [lastChange]. *)
Theorem statusChanged_iff_transition `{Platform, Sorter} c cfg policies first last now now' o d d' :
  bc_Rejected c = false → stamped d → Second <= now' → reachable c cfg now (Some d) →
  tick c cfg now' o (Some d) = Some d' →
  statusChanged
    (wireStatus (withTimes first last (ab_Status (buildOne (setDamping (Some d) c) policies))))
    (ab_Status (buildOne (setDamping (Some d') c) policies)) = true ↔
  (bc_ASPath c = Some [] ∨ bc_LargeCommunities c = Some []) ∨
  di_State d' ≠ di_State d ∨ ¬ (is_Some (di_WithdrawnAt d') ↔ is_Some (di_WithdrawnAt d)).
Proof.
  intros Hrej Hst Hnow Hr Ht.
  destruct (decide (bc_ASPath c = Some [] ∨ bc_LargeCommunities c = Some [])) as [He|Hne].
  { split; [by left|intros _; by apply statusChanged_empty]. }
  rewrite (changed_iff_transition c cfg policies first last now now' o d d'); [tauto|tauto..].
Qed.

(** ** Concrete instances *)

Module LoopExamples.
Import ReconcileExamples EwmaExamples StabilityExamples SnapshotExamples BackendControllerExamples.

(** The in-memory API server, with a peer config and a stability config in it, and a
    routing table that does not change. *)
#[local] Instance cluster : PipelineWorld world := {|
  readerOf w := {|
    ListBGPPeerConfigs := Ok [peerConfig];
    GetCommunityMap _ := Err NotFound;
    GetBGPStabilityConfig _ :=
      Ok (mkBGPStabilityConfig (mkObjectMeta "default" "" ∅ "") careful (mkBGPStabilityConfigStatus []));
    ListAdvertisedBackends labels := ListBackends labels w;
  |};
  ribOf _ := table;
  trackerOf _ := None;
  withTracker _ w := w;
  visit _ := map_to_list;
|}.
#[local] Instance cluster_laws : PipelineLaws.
Proof. split; intros; simpl; done || lia. Qed.
#[local] Existing Instances sourceOf halving.

Lemma cluster_steady w : steady careful w.
Proof. by intros sco [= <-]. Qed.

Definition firstPass : res Result * world := ReconcileBackends ∅.
Definition known : string := "198-51-100-4-32-east".
Definition recalled : PriorState := default (mkPriorState backend (active 0)) (memoryOf firstPass.2 known).

Lemma system_memory_reachable_witness : objectName (prior_Candidate recalled) = known.
Proof.
  apply (system_memory_reachable careful firstPass.2 known recalled).
  - apply memory_currentBackends.
  - apply (system_pass careful ∅ firstPass.1 firstPass.2); [|apply cluster_steady|apply surjective_pairing].
    apply system_start; done.
  - by vm_compute.
Defined.

Lemma firstPass_ok : firstPass.1 = Ok (mkResult snapshotPollInterval).
Proof. by vm_compute. Qed.
Lemma first_distinct :
  bool_decide (NoDup (match (SourceSnapshot (∅ : world)).1 with
                      | Ok out => objectName <$> out
                      | Err _ => []
                      end)) = true.
Proof. by vm_compute. Qed.

Lemma pass_refines_nextPrior_witness :
  ∃ settled policies, ∀ k,
    memoryOf firstPass.2 k
    = nextPrior (5000 * Second) settled ∅ (map_to_list ∅) careful policies !! k.
Proof.
  destruct (pass_refines_nextPrior careful ∅ (mkResult snapshotPollInterval) firstPass.2)
    as (settled & prior & policies & _ & Hprior & Hnext).
  - apply memory_currentBackends.
  - apply cluster_steady.
  - intros out w1 Hs. split; [|done].
    pose proof first_distinct as E. rewrite Hs in E. by apply bool_decide_eq_true in E.
  - rewrite <- firstPass_ok. apply surjective_pairing.
  - exists settled, policies. assert (prior = ∅) as -> by (apply map_eq; intros k; by rewrite Hprior).
    exact Hnext.
Defined.

(** Settling, then settled: the record changes; settled and still there: it does not. *)
Definition once : option DampingInfo := tick backend careful (100 * Second) Observed None.
Definition twice : option DampingInfo := tick backend careful (130 * Second) Observed once.
Definition verdict (st : option DampingInfo) : DampingInfo := default (active 0) st.

Lemma once_reachable : reachable backend careful (100 * Second) (Some (verdict once)).
Proof.
  assert (Some (verdict once) = once) as -> by by vm_compute.
  apply (reach_tick _ _ 0); [constructor|by vm_compute].
Qed.

Lemma statusChanged_iff_transition_witness :
  statusChanged
    (wireStatus (withTimes None None (ab_Status (buildOne (setDamping (Some (verdict once)) backend) [policy]))))
    (ab_Status (buildOne (setDamping (Some (verdict twice)) backend) [policy])) = true.
Proof.
  apply (statusChanged_iff_transition backend careful [policy] None None (100 * Second) (130 * Second)
    Observed (verdict once) (verdict twice)).
  - done.
  - unfold stamped, stamp. split_and!; simpl; intros; simplify_eq; done.
  - done.
  - apply once_reachable.
  - by vm_compute.
  - right. left. by vm_compute.
Defined.

(** A route with an empty communities attribute moves [lastChange] at every tick. *)
Example empty_communities_always_change c d d' :
  bc_LargeCommunities c = decodeLargeCommunities [] →
  statusChanged
    (wireStatus (withTimes None None (ab_Status (buildOne (setDamping (Some d) c) [policy]))))
    (ab_Status (buildOne (setDamping (Some d') c) [policy])) = true.
Proof. intros Hc. apply statusChanged_empty. by right. Qed.
End LoopExamples.
