(* ===== verification/Trust.v ===== *)
(** * Trust: what traffic can reach, over time

    The trust boundary end to end.  A [history] of a cluster is any sequence of passes of
    the view, with any outcome, and of other activity, with routes, bindings and the
    stability configuration changing at will; it keeps the cluster bindings that were in
    force at its passes.  Whatever such a history leads to, a candidate that a snapshot
    serves is vouched for by a binding: one in force, or, through hold-down and no longer
    than the grace, one that was.  Composed with the policy controller: so is every
    address in an EndpointSlice of a policy's Service. *)
From S2P Require Import Prelude GoStrings GoNet GoFloat GoTime Api Wire Pipeline Ingest Authorize.
From S2P Require Import Objects Reconcile Istio Damp Ewma Report Stability Snapshot System Kube.
From S2P Require Import PolicyController BackendController Delivery Loop.
Local Open Scope Z_scope.

(** One of the bindings allows the base address of the candidate, and names its cluster
    and locality. *)
Definition vouched (bindings : list ClusterBinding) (c : BackendCandidate) : Prop :=
  ∃ b ip network, b ∈ bindings ∧ ParseCIDR (bc_Prefix c) = Ok (ip, network) ∧ bindingCovers b ip ∧
    bc_ClusterID c = cb_ClusterID b ∧
    bc_Locality c = mkLocality (aloc_Region (cb_Locality b)) (aloc_Zone (cb_Locality b)).

Lemma vouched_mono bs bs' c : bs ⊆ bs' → vouched bs c → vouched bs' c.
Proof. intros Hsub (b & ip & n & Hb & ?). exists b, ip, n. split; [by apply Hsub|done]. Qed.

Lemma vouched_same bs c c' :
  bc_Prefix c' = bc_Prefix c → bc_ClusterID c' = bc_ClusterID c → bc_Locality c' = bc_Locality c →
  vouched bs c → vouched bs c'.
Proof. unfold vouched. by intros -> -> ->. Qed.

Lemma buildOne_route `{Platform, Sorter} c policies :
  let c' := candidateFromStatus (wireStatus (ab_Status (buildOne c policies))) in
  bc_Prefix c' = bc_Prefix c ∧ bc_ClusterID c' = bc_ClusterID c ∧ bc_Locality c' = bc_Locality c.
Proof.
  unfold buildOne. destruct (stateAndReason c), (bindings c policies). cbn.
  split_and!; [done..|]. by destruct (bc_Locality c).
Qed.

Section trust.
Context `{HP : Platform} `{HS : Sorter} {W : Type} `{HC : BackendClient W} `{HL : !BackendClientLaws W}.
Context `{HW : PipelineWorld W} `{HPL : !PipelineLaws}.
#[local] Existing Instance sourceOf.

(** What a snapshot reads of the peer configurations and of the stability configuration. *)
Definition inForce (w : W) : list ClusterBinding :=
  match @ListBGPPeerConfigs (readerOf w) with Ok pcs => allBindings pcs | Err _ => [] end.
Definition graceOf (w : W) : Duration :=
  match getOptional "get BGPStabilityConfig %q: %w" stabilityConfigName
          (@GetBGPStabilityConfig (readerOf w) stabilityConfigName) with
  | Ok sco => durationOrZero (scs_WithdrawalGrace (from_option sc_Spec zeroStabilitySpec sco))
  | Err _ => 0
  end.

(** Held down: first missed less than the grace ago. *)
Definition heldDown (w : W) (c : BackendCandidate) : Prop :=
  ∃ d t, bc_Damping c = Some d ∧ di_WithdrawnAt d = Some t ∧ Sub (Now w) t < graceOf w.

(** Every candidate of a snapshot is an authorized route of the table, without a verdict
    and rejected, or the memory of a record. *)
Lemma source_vouched w out w1 c :
  currentBackends W → SourceSnapshot w = (Ok out, w1) → c ∈ out →
  (bc_Rejected c = true ∧ bc_Damping c = None) ∨ vouched (inForce w) c ∨
  (heldDown w c ∧ ∃ k p, memoryOf w k = Some p ∧ c = setDamping (bc_Damping c) (prior_Candidate p)).
Proof.
  intros Hcur Hs Hc. simpl in Hs.
  destruct (@Snapshot _ (readerOf w) (ribOf w) ewmaDamper (Now w) (visit w) (trackerOf w)) as [r t] eqn:Hsn.
  injection Hs as -> <-.
  destruct (@Snapshot_inv _ (readerOf w) (ribOf w) ewmaDamper (Now w) (visit w) (trackerOf w) out)
    as (routes & pcs & authorized & cm & prior & spec & _ & Hpcs & Ha & -> & (sco & Hsc & Hspec) & Hprior);
    [by rewrite Hsn|].
  simpl in Hc. rewrite ewmaEvaluate_eq, elem_of_app in Hc.
  destruct Hc as [(c0 & -> & (r & -> & Hin)%list_elem_of_fmap)%list_elem_of_fmap|([k p] & Hkp & Hsyn)%list_elem_of_omap].
  - unfold evaluated. destruct (bc_Rejected (normalizeSpec cm r)) eqn:Hrej; [by left|]. right. left.
    simpl in Hrej. apply orb_false_iff in Hrej as [Hrej _]. apply list_elem_of_lookup in Hin as [i Hi].
    destruct (Authorize_admits _ _ _ _ _ Ha Hi Hrej)
      as (r0 & b & ip & n & pre & post & _ & Hpar & Hb & Hcov & _ & Hcl & Hloc & Hpre & _).
    exists b, ip, n. unfold inForce. rewrite Hpcs, Hb. simpl. rewrite Hpre. split_and!; [set_solver|done..].
  - right. right. rewrite visit_all, elem_of_map_to_list in Hkp. unfold synthesized in Hsyn.
    case_decide; [done|]. apply evaluateAbsent_held in Hsyn as [Heq Hheld]. split.
    + unfold heldDown, graceOf. rewrite Hsc. by rewrite <- Hspec.
    + exists k, p. split; [|done].
      destruct Hprior as [[_ ->]|(_ & items & Hi & ->)]; [by rewrite lookup_empty in Hkp|].
      rewrite reader_backends in Hi. by rewrite <- (prior_is_memory w items k Hcur Hi).
Qed.

(** ** Histories *)

Inductive history : list ClusterBinding → W → Prop :=
| history_start w : (∀ k, memoryOf w k = None) → history [] w
| history_pass bs w r w' :
    history bs w → ReconcileBackends w = (r, w') → history (bs ++ inForce w) w'
| history_env bs w w' :
    history bs w → (∀ k, memoryOf w' k = memoryOf w k ∨ memoryOf w' k = None) → history bs w'.

(** What a record remembers was vouched for when it was written. *)
Lemma history_memory bs w k p :
  currentBackends W → history bs w → memoryOf w k = Some p → vouched bs (prior_Candidate p).
Proof.
  intros Hcur Hh. revert k p. induction Hh as [w Hnone|bs w r w' _ IH Hrun|bs w w' _ IH Henv]; intros k p Hp.
  - by rewrite Hnone in Hp.
  - destruct (pass_moves w r w' k Hrun) as [_ [Heq|[Hno|(out & w1 & c & policies & Hs & Hc & _ & Heq)]]].
    + rewrite Heq in Hp. eapply vouched_mono; [|by eapply IH]. set_solver.
    + congruence.
    + rewrite Heq in Hp. pose proof (priorOfStatus_candidate _ _ Hp) as ->.
      destruct (buildOne_route c policies) as (? & ? & ?). apply (vouched_same _ c); [done..|].
      destruct (source_vouched w out w1 c Hcur Hs Hc) as [[_ Hd]|[Hv|(_ & k' & q & Hq & Hcq)]].
      * by rewrite prior_of_unevaluated in Hp.
      * eapply vouched_mono; [|exact Hv]. set_solver.
      * apply (vouched_same _ (prior_Candidate q)); [rewrite Hcq; done..|].
        eapply vouched_mono; [|by eapply IH]. set_solver.
  - destruct (Henv k) as [Heq|Hno]; [|congruence]. rewrite Heq in Hp. by eapply IH.
Qed.

Lemma source_served bs w out w1 c :
  currentBackends W → history bs w → SourceSnapshot w = (Ok out, w1) → c ∈ out → bc_Rejected c = false →
  vouched (inForce w) c ∨ heldDown w c ∧ vouched bs c.
Proof.
  intros Hcur Hh Hs Hc Hrej.
  destruct (source_vouched w out w1 c Hcur Hs Hc) as [[? _]|[Hv|(Hheld & k & p & Hp & Heq)]];
    [congruence|by left|right].
  split; [done|]. apply (vouched_same _ (prior_Candidate p)); [rewrite Heq; done..|].
  by eapply history_memory.
Qed.

(** C4 (Everything ever served is vouched for).  Whatever passes of the view, failed ones
    included, changes of routes, bindings and configuration, and other activity that does
    not forge records a cluster has been through, as long as lists of the records are
    current: each candidate that a snapshot of it serves has a base address that a binding
    in force allows, and has the cluster and locality of that binding; or it is held down,
    was first missed less than the withdrawal grace ago, and a binding that was in force
    at an earlier pass allowed its base address. *)
Theorem served_vouched bs w out w1 c :
  currentBackends W → history bs w → SourceSnapshot w = (Ok out, w1) → c ∈ out → bc_Rejected c = false →
  vouched (inForce w) c ∨ heldDown w c ∧ vouched bs c.
Proof. apply source_served. Qed.
End trust.

(** ** What the policy controller puts into the cluster *)

Section written.
Context {W : Type} `{HC : Client W} `{HL : !ClientLaws W} `{HN : SnapshotSource W}.

(** Whichever object of a key comes last is what is stored under it. *)
Lemma applyObjects_last policyName objs generated w names w' k :
  applyObjects policyName objs generated w = (Ok names, w') → k ∈ keyOf <$> objs →
  ∃ o o', o ∈ objs ∧ keyOf o = k ∧ objects w' !! k = Some o' ∧ sameContent o' o.
Proof.
  revert generated w. induction objs as [|o objs IH]; intros generated w Hrun Hk; [set_solver|]. simpl in Hrun.
  destruct (applyOwned policyName o w) as [[[]|e] w1] eqn:Happ; [|done].
  destruct (decide (k ∈ keyOf <$> objs)) as [Hin|Hn].
  - destruct (IH _ _ Hrun Hin) as (o1 & o' & Ho1 & ?). exists o1, o'. split; [by right|done].
  - assert (k = keyOf o) as -> by set_solver. apply applyOwned_ok in Happ as (o' & Ho' & Hsame).
    exists o, o'. split_and!; [by left|done| |done]. rewrite <- Ho'. by eapply applyObjects_other.
Qed.

(** A slice with the name of a rendered one has its key. *)
Lemma slice_key policy cands out s :
  Render policy cands = Ok out →
  om_Name (es_ObjectMeta s) ∈ (λ x, om_Name (es_ObjectMeta x)) <$> out_EndpointSlices out →
  om_Namespace (es_ObjectMeta s) = om_Namespace (bp_ObjectMeta policy) →
  keyOf (OEndpointSlice s) ∈ keyOf <$> OutputObjects out.
Proof.
  intros (_ & _ & Hsl & _)%Render_inv (x & Hx & Hxin)%list_elem_of_fmap Hns.
  assert (keyOf (OEndpointSlice s) = keyOf (OEndpointSlice x)) as ->.
  { apply list_elem_of_lookup in Hxin as [i Hi]. destruct (Forall2_lookup_r _ _ _ _ _ Hsl Hi) as (c & _ & Hsf).
    destruct (sf_owned _ _ _ Hsf) as [_ Hxns]. unfold GetNamespace in Hxns. simpl in Hxns.
    unfold keyOf, GetNamespace, GetName. simpl. by rewrite Hx, Hns, Hxns. }
  apply list_elem_of_fmap_2. unfold OutputObjects. apply elem_of_app. right. apply elem_of_app. left.
  by apply list_elem_of_fmap_2.
Qed.

(** The slices of a policy's Service after a successful pass are the rendered ones. *)
Lemma pass_slices ns name w result w' policy s :
  currentLists W → snapshotFrame → GetPolicy ns name w = Ok policy →
  ReconcilePolicy ns name w = (Ok result, w') →
  objects w' !! keyOf (OEndpointSlice s) = Some (OEndpointSlice s) →
  om_Namespace (es_ObjectMeta s) = om_Namespace (bp_ObjectMeta policy) →
  om_Labels (es_ObjectMeta s) !! ManagedByLabel = Some (om_Name (bp_ObjectMeta policy)) →
  om_Labels (es_ObjectMeta s) !! LabelServiceName = Some (ServiceName policy) →
  ∃ candidates w1 c s0, SourceSnapshot w = (Ok candidates, w1) ∧
    c ∈ filter (selects (bps_Selector (bp_Spec policy))) candidates ∧
    sliceFor policy c s0 ∧ sameContent (OEndpointSlice s) (OEndpointSlice s0).
Proof.
  intros Hlists Hsnap Hget Hrun Hst Hns Hown Hserv. unfold ReconcilePolicy in Hrun. rewrite Hget in Hrun.
  destruct (SourceSnapshot w) as [[cands|] w1] eqn:Hs; [|done].
  destruct (Render policy cands) as [out|e] eqn:Hren; [|done].
  destruct (applyObjects _ _ _ w1) as [[generated|e] w2] eqn:Ha; [|done].
  destruct (pruneStaleEndpointSlices _ _ _ w2) as [[[]|e] w3] eqn:Hp; [|done].
  destruct (UpdatePolicyStatus _ w3) as [[[]|e] w4] eqn:Hu; [|done].
  pose proof (λ k, applyObjects_last _ _ _ _ _ _ k Ha) as Hlast. clear Ha.
  apply status_frame in Hu. simplify_eq/=. rewrite Hu in Hst.
  pose proof (Render_inv _ _ _ Hren) as (_ & Hsvc & Hsl & (dr & Hdr)%istioLower_one). rewrite Hsvc in Hp.
  pose proof (prune_complete _ _ _ _ _ Hlists Hp s Hst Hns Hown Hserv) as Hname.
  pose proof (slice_key policy cands out s Hren Hname Hns) as Hkey.
  destruct (Hlast _ Hkey) as (o & o' & Ho & Hok & Hstored & Hsame).
  assert (objects w3 !! keyOf (OEndpointSlice s) = Some o') as Hst'.
  { eapply prune_frame; [by apply currentLists_stable|exact Hp|exact Hstored|].
    intros y Hy _. injection Hy as _ Hyn. unfold GetName in Hyn. simpl in Hyn. by rewrite <- Hyn. }
  rewrite Hst in Hst'. injection Hst' as <-. unfold OutputObjects in Ho. rewrite Hdr in Ho.
  apply elem_of_app in Ho as [->%list_elem_of_singleton|Ho]; [done|].
  apply elem_of_app in Ho as [(s0 & -> & Hs0)%list_elem_of_fmap| ->%list_elem_of_singleton]; [|done].
  apply list_elem_of_lookup in Hs0 as [i Hi]. destruct (Forall2_lookup_r _ _ _ _ _ Hsl Hi) as (c & Hci & Hsf).
  exists cands, w1, c, s0. split_and!; [done|by eapply list_elem_of_lookup_2|done|done].
Qed.
End written.

Section addresses.
Context `{HP : Platform} `{HS : Sorter} {V : Type} `{HC : BackendClient V} `{HL : !BackendClientLaws V}.
Context `{HW : PipelineWorld V} `{HPL : !PipelineLaws}.
Context {W : Type} `{HK : Client W} `{HKL : !ClientLaws W} `{HN : SnapshotSource W} (clusterOf : W → V).

(** The policy controller's snapshot is [snapshot.Source] reading the cluster, and writes
    none of the generated objects. *)
Definition readsCluster : Prop :=
  ∀ w r w', SourceSnapshot w = (r, w') →
    objects w' = objects w ∧ r = (@SourceSnapshot V sourceOf (clusterOf w)).1.

(** C5 (Traffic reaches only allowed addresses).  Whatever a cluster has been through, after
    a successful pass of the policy controller with the Istio driver in which the list for
    pruning is current, as are the lists of the records, every EndpointSlice in the
    policy's namespace that is labelled as the policy's and as its Service's has one
    endpoint, at the base address of a served candidate of the snapshot, which a cluster
    binding of the candidate's cluster allows: a binding in force, or, for a candidate held
    down for less than the withdrawal grace, one that was in force at an earlier pass. *)
Theorem slices_vouched bs ns name w result w' policy s :
  currentBackends V → history bs (clusterOf w) → readsCluster → currentLists W →
  GetPolicy ns name w = Ok policy → ReconcilePolicy ns name w = (Ok result, w') →
  objects w' !! keyOf (OEndpointSlice s) = Some (OEndpointSlice s) →
  om_Namespace (es_ObjectMeta s) = om_Namespace (bp_ObjectMeta policy) →
  om_Labels (es_ObjectMeta s) !! ManagedByLabel = Some (om_Name (bp_ObjectMeta policy)) →
  om_Labels (es_ObjectMeta s) !! LabelServiceName = Some (ServiceName policy) →
  ∃ out c b ip network e, (@SourceSnapshot V sourceOf (clusterOf w)).1 = Ok out ∧ c ∈ out ∧ bc_Rejected c = false ∧
    ParseCIDR (bc_Prefix c) = Ok (ip, network) ∧ es_Endpoints s = [e] ∧ ep_Addresses e = [IPString ip] ∧
    bindingCovers b ip ∧ bc_ClusterID c = cb_ClusterID b ∧
    (b ∈ inForce (clusterOf w) ∨ b ∈ bs ∧ heldDown (clusterOf w) c).
Proof.
  intros Hcur Hh Hreads Hlists Hget Hrun Hst Hns Hown Hserv.
  assert (snapshotFrame) as Hframe by (intros w0 r0 w0' H0; by apply Hreads in H0 as [? _]).
  destruct (pass_slices ns name w result w' policy s) as (cands & w1 & c & s0 & Hs & Hc & Hsf & Hsame); [done..|].
  apply Hreads in Hs as [_ Hs]. apply list_elem_of_filter in Hc as [Hsel Hc].
  assert (es_Endpoints s = es_Endpoints s0) as -> by (injection Hsame; by destruct s, s0).
  destruct (sf_endpoint _ _ _ Hsf) as (ip & n & e & Hpar & He & Hadr & _).
  destruct (@SourceSnapshot V sourceOf (clusterOf w)) as [r1 v1] eqn:Hv. simpl in Hs. subst r1.
  destruct (source_served _ _ _ _ c Hcur Hh Hv Hc (proj1 (proj1 Hsel))) as [(b & ip' & n' & Hb & Hpar' & Hcov & Hcl & _)
    |[Hheld (b & ip' & n' & Hb & Hpar' & Hcov & Hcl & _)]];
    rewrite Hpar in Hpar'; injection Hpar' as <- <-; exists cands, c, b, ip, n, e; split_and!; auto; apply Hsel.
Qed.
End addresses.

(** ** Concrete instances *)

Module TrustExamples.
Import ReconcileExamples EwmaExamples SnapshotExamples BackendControllerExamples.

(** A cluster in which, once its first record is written, the routes are withdrawn and the
    bindings removed. *)
Definition known : string := "198-51-100-4-32-east".
#[local] Instance revoking : PipelineWorld (gmap string entry) := {|
  readerOf w := {|
    ListBGPPeerConfigs := Ok (if decide (is_Some (w !! known)) then [] else [peerConfig]);
    GetCommunityMap _ := Err NotFound;
    GetBGPStabilityConfig _ :=
      Ok (mkBGPStabilityConfig (mkObjectMeta "default" "" ∅ "") graceful (mkBGPStabilityConfigStatus []));
    ListAdvertisedBackends labels := ListBackends labels w;
  |};
  ribOf w := if decide (is_Some (w !! known)) then {| RIBSnapshot := Ok [] |} else table;
  trackerOf _ := None;
  withTracker _ w := w;
  visit _ := map_to_list;
|}.
#[local] Instance revoking_laws : PipelineLaws.
Proof. split; intros; simpl; done || lia. Qed.
#[local] Existing Instances sourceOf halving.

Definition revoked : gmap string entry := (ReconcileBackends (∅ : gmap string entry)).2.
Lemma revoked_history : history (AuthorizeExamples.bindings) revoked.
Proof.
  assert (AuthorizeExamples.bindings = [] ++ inForce (∅ : gmap string entry)) as -> by by vm_compute.
  apply (history_pass [] ∅ (ReconcileBackends (∅ : gmap string entry)).1 revoked).
  - by apply history_start.
  - apply surjective_pairing.
Qed.
Lemma revoked_known : is_Some (revoked !! known).
Proof. by_compute. Qed.
Lemma revoked_inForce : inForce revoked = [].
Proof. unfold inForce. simpl. by rewrite decide_True by apply revoked_known. Qed.

(** The backends of the revoked bindings, in hold-down. *)
Definition seen (w : gmap string entry) : list BackendCandidate :=
  match (SourceSnapshot w).1 with Ok cs => cs | Err _ => [] end.
Lemma seen_ok w : is_ok (SourceSnapshot w).1 = true → SourceSnapshot w = (Ok (seen w), w).
Proof. unfold seen. simpl. by destruct (Snapshot _ _ _) as [[]]. Qed.
Definition kept : list BackendCandidate := seen revoked.
Lemma kept_ok : SourceSnapshot revoked = (Ok kept, revoked).
Proof. apply seen_ok. by vm_compute. Qed.
Lemma kept_served : (bc_ClusterID <$> kept, bc_Rejected <$> kept) = (["east"; "west"], [false; false]).
Proof. vm_compute. reflexivity. Qed.

Lemma served_vouched_witness : ∃ c, c ∈ kept ∧ heldDown revoked c ∧ vouched AuthorizeExamples.bindings c.
Proof.
  pose proof kept_served as E. destruct kept as [|c cs] eqn:Hk; [done|]. exists c. split; [by left|].
  destruct (served_vouched AuthorizeExamples.bindings revoked kept revoked c) as [(b & _ & _ & Hb & _)|?]; [..|done].
  - apply memory_currentBackends.
  - apply revoked_history.
  - apply kept_ok.
  - rewrite Hk. by left.
  - by injection E.
  - exfalso. rewrite revoked_inForce in Hb. exact (proj1 (elem_of_nil b) Hb).
Defined.

(** A policy that selects the east cluster, in a cluster with nothing else. *)
Definition eastPolicy : BGPBackendPolicy :=
  mkBGPBackendPolicy (bp_ObjectMeta policy)
    (mkBGPBackendPolicySpec (bps_TargetRef (bp_Spec policy)) (mkBackendSelector [] None ["east"])
       (bps_Backend (bp_Spec policy)) (bps_LoadBalancing (bp_Spec policy)) None None)
    (bp_Status policy).
#[local] Existing Instances MemoryServer.memoryClient MemoryServer.memoryLaws.
Definition empty : MemoryServer.world := MemoryServer.mkWorld ∅ {[ ("web", "shop") := eastPolicy ]}.
Definition readingOf (v : gmap string entry) : SnapshotSource MemoryServer.world :=
  {| SourceSnapshot w := ((SourceSnapshot v).1, w) |}.
Lemma readingOf_reads v : @readsCluster _ _ _ _ _ _ _ _ (readingOf v) (λ _, v).
Proof. intros w r w' Hs. injection Hs as <- <-. split; reflexivity. Qed.
#[local] Instance readingRevoked : SnapshotSource MemoryServer.world := readingOf revoked.

Definition served : res Result * MemoryServer.world := ReconcilePolicy "web" "shop" empty.
Lemma served_ok : served.1 = Ok (mkResult snapshotPollInterval).
Proof. by vm_compute. Qed.

Definition noSlice : EndpointSlice := mkEndpointSlice (mkTypeMeta "" "") (mkObjectMeta "" "" ∅ "") AddressTypeIPv4 [] [].
Definition sliceAt (w : MemoryServer.world) (k : ObjectKey) : option EndpointSlice :=
  match objects w !! k with Some (OEndpointSlice s) => Some s | _ => None end.
Lemma sliceAt_stored w k : is_Some (sliceAt w k) → objects w !! k = Some (OEndpointSlice (default noSlice (sliceAt w k))).
Proof. unfold sliceAt. destruct (objects w !! k) as [[]|]; by intros [? [=]]. Qed.

Definition eastKey : ObjectKey := ("EndpointSlice", "web", "shop-kreg-east-198-51-100-4-32").
Definition eastSlice : EndpointSlice := default noSlice (sliceAt served.2 eastKey).

Lemma slices_vouched_witness :
  ∃ b ip, b ∈ AuthorizeExamples.bindings ∧ bindingCovers b ip ∧ IPString ip = "198.51.100.4".
Proof.
  assert (keyOf (OEndpointSlice eastSlice) = eastKey) as Hkey by by_compute.
  destruct (slices_vouched (λ _, revoked) AuthorizeExamples.bindings "web" "shop" empty
    (mkResult snapshotPollInterval) served.2 eastPolicy eastSlice)
    as (_ & c & b & ip & _ & e & _ & _ & _ & _ & He & Hadr & Hcov & _ & Hb).
  - apply memory_currentBackends.
  - apply revoked_history.
  - apply readingOf_reads.
  - apply MemoryServer.memory_currentLists.
  - reflexivity.
  - apply result_of, served_ok.
  - rewrite Hkey. apply sliceAt_stored. by_compute.
  - by vm_compute.
  - by vm_compute.
  - by vm_compute.
  - exists b, ip. split; [|split; [exact Hcov|]].
    + destruct Hb as [Hb|[Hb _]]; [|exact Hb]. exfalso. rewrite revoked_inForce in Hb. exact (proj1 (elem_of_nil b) Hb).
    + assert (ep_Addresses <$> es_Endpoints eastSlice = [["198.51.100.4"]]) as Ha by by_compute.
      rewrite He in Ha. cbn in Ha. rewrite Hadr in Ha. injection Ha as Ha. exact Ha.
Defined.
End TrustExamples.
