(* ===== verification/DeepCopy.v ===== *)
(** * DeepCopy: api/v1alpha1/zz_generated.deepcopy.go

    Every type of api/v1alpha1 with its [DeepCopyInto], [DeepCopy] and, for the
    kinds and their lists, [DeepCopyObject], as controller-gen generated them, in
    the terms of [GoHeap]: one Go statement is one entry of a [body].  The types
    are read off the struct declarations ([t] and the name of the struct; a named
    string type is a string), the functions come after those they call.

    The metav1, corev1 and Gateway API types are not part of the sources: their
    layout and their own copy methods are the class [Imports], and [ImportsLaws]
    says of them what they document: the methods are deep copies, and the types
    that the generated code copies by assignment hold no references. *)
From S2P Require Import Prelude GoHeap.

Class Imports := {
  tTypeMeta : typ; tObjectMeta : typ; tListMeta : typ; tCondition : typ; tTime : typ; tDuration : typ;
  tLocalObjectReference : typ; tSecretKeySelector : typ; tLocalPolicyTargetReference : typ;
  ObjectMeta_DeepCopyInto : copier; ListMeta_DeepCopyInto : copier; Condition_DeepCopyInto : copier;
  SecretKeySelector_DeepCopyInto : copier; Time_DeepCopy : val → M val;
}.

Class ImportsLaws `{Imports} : Prop := {
  TypeMeta_plain : Plain tTypeMeta;
  Duration_plain : Plain tDuration;
  LocalObjectReference_plain : Plain tLocalObjectReference;
  LocalPolicyTargetReference_plain : Plain tLocalPolicyTargetReference;
  ObjectMeta_copies : Copies tObjectMeta ObjectMeta_DeepCopyInto;
  ListMeta_copies : Copies tListMeta ListMeta_DeepCopyInto;
  Condition_copies : Copies tCondition Condition_DeepCopyInto;
  SecretKeySelector_copies : Copies tSecretKeySelector SecretKeySelector_DeepCopyInto;
  Time_clones : Clones tTime Time_DeepCopy;
}.
#[export] Existing Instances TypeMeta_plain Duration_plain LocalObjectReference_plain
  LocalPolicyTargetReference_plain ObjectMeta_copies ListMeta_copies Condition_copies
  SecretKeySelector_copies Time_clones.

Section generated.
Context `{Imports}.

(** ** The types *)

Definition tActiveHealthConfig : typ := TyStruct
  [("Path", TyString); ("Interval", TyPtr tDuration); ("Timeout", TyPtr tDuration);
   ("UnhealthyThreshold", TyPtr (TyInt 32)); ("HealthyThreshold", TyPtr (TyInt 32))].
Definition tAdvertisedBackendSpec : typ := TyStruct
  [].
Definition tBackendAttributes : typ := TyStruct
  [("Weight", TyInt 32); ("Tier", TyString); ("Drain", TyBool); ("ServiceTag", TyPtr (TyInt 32));
   ("MED", TyInt 64); ("ASPath", TySlice (TyInt 64)); ("LargeCommunities", TySlice TyString)].
Definition tLocality : typ := TyStruct
  [("Region", TyString); ("Zone", TyString)].
Definition tStabilityStatus : typ := TyStruct
  [("FlapCount24h", TyInt 32); ("DampeningPenalty", TyInt 32); ("LastObservedAt", TyPtr tTime);
   ("WithdrawnAt", TyPtr tTime); ("SuppressedSince", TyPtr tTime); ("PendingSince", TyPtr tTime)].
Definition tAdvertisedBackendStatus : typ := TyStruct
  [("Prefix", TyString); ("ClusterID", TyString); ("Peer", TyString); ("Locality", tLocality);
   ("Attributes", tBackendAttributes); ("State", TyString); ("Reason", TyString);
   ("FirstSeen", TyPtr tTime); ("LastChange", TyPtr tTime); ("Stability", tStabilityStatus);
   ("BoundPolicies", TySlice TyString); ("GeneratedResources", TySlice TyString)].
Definition tAdvertisedBackend : typ := TyStruct
  [("TypeMeta", tTypeMeta); ("ObjectMeta", tObjectMeta); ("Spec", tAdvertisedBackendSpec);
   ("Status", tAdvertisedBackendStatus)].
Definition tAdvertisedBackendList : typ := TyStruct
  [("TypeMeta", tTypeMeta); ("ListMeta", tListMeta); ("Items", TySlice tAdvertisedBackend)].
Definition tBackendTLSConfig : typ := TyStruct
  [("Mode", TyString); ("SNI", TyString); ("CredentialRef", TyPtr tLocalObjectReference)].
Definition tBackendConfig : typ := TyStruct
  [("Port", TyInt 32); ("AppProtocol", TyPtr TyString); ("TLS", tBackendTLSConfig)].
Definition tBackendSelector : typ := TyStruct
  [("Prefixes", TySlice TyString); ("ServiceTag", TyPtr (TyInt 32)); ("ClusterIDs", TySlice TyString)].
Definition tLocalityLoadBalancingConfig : typ := TyStruct
  [("Preference", TySlice TyString); ("FailoverThreshold", TyPtr (TyInt 32))].
Definition tLoadBalancingConfig : typ := TyStruct
  [("Strategy", TyString); ("Locality", TyPtr tLocalityLoadBalancingConfig)].
Definition tOutlierDetectionConfig : typ := TyStruct
  [("Consecutive5xx", TyPtr (TyInt 32)); ("BaseEjectionTime", TyPtr tDuration);
   ("MaxEjectionPercent", TyPtr (TyInt 32))].
Definition tBGPBackendPolicySpec : typ := TyStruct
  [("TargetRef", tLocalPolicyTargetReference); ("Selector", tBackendSelector); ("Backend", tBackendConfig);
   ("LoadBalancing", tLoadBalancingConfig); ("ActiveHealth", TyPtr tActiveHealthConfig);
   ("OutlierDetection", TyPtr tOutlierDetectionConfig)].
Definition tBGPBackendPolicyStatus : typ := TyStruct
  [("Conditions", TySlice tCondition); ("ActiveBackends", TyInt 32); ("SuppressedBackends", TyInt 32);
   ("Generated", TySlice TyString)].
Definition tBGPBackendPolicy : typ := TyStruct
  [("TypeMeta", tTypeMeta); ("ObjectMeta", tObjectMeta); ("Spec", tBGPBackendPolicySpec);
   ("Status", tBGPBackendPolicyStatus)].
Definition tBGPBackendPolicyList : typ := TyStruct
  [("TypeMeta", tTypeMeta); ("ListMeta", tListMeta); ("Items", TySlice tBGPBackendPolicy)].
Definition tBGPGatewayClassConfigSpec : typ := TyStruct
  [("Foo", TyPtr TyString)].
Definition tBGPGatewayClassConfigStatus : typ := TyStruct
  [("Conditions", TySlice tCondition)].
Definition tBGPGatewayClassConfig : typ := TyStruct
  [("TypeMeta", tTypeMeta); ("ObjectMeta", tObjectMeta); ("Spec", tBGPGatewayClassConfigSpec);
   ("Status", tBGPGatewayClassConfigStatus)].
Definition tBGPGatewayClassConfigList : typ := TyStruct
  [("TypeMeta", tTypeMeta); ("ListMeta", tListMeta); ("Items", TySlice tBGPGatewayClassConfig)].
Definition tBGPPeerAuth : typ := TyStruct
  [("TCPMD5SecretRef", TyPtr tSecretKeySelector)].
Definition tBGPTimers : typ := TyStruct
  [("Hold", TyPtr tDuration); ("Keepalive", TyPtr tDuration)].
Definition tGracefulRestartConfig : typ := TyStruct
  [("Enabled", TyBool); ("StaleRoutesTime", TyPtr tDuration)].
Definition tBGPPeer : typ := TyStruct
  [("Name", TyString); ("Address", TyString); ("RemoteASN", TyInt 64); ("Auth", TyPtr tBGPPeerAuth);
   ("GracefulRestart", TyPtr tGracefulRestartConfig); ("Timers", TyPtr tBGPTimers)].
Definition tClusterBinding : typ := TyStruct
  [("ClusterID", TyString); ("AllowedPrefixes", TySlice TyString); ("MaxPrefixes", TyPtr (TyInt 32));
   ("Locality", tLocality)].
Definition tBGPPeerConfigSpec : typ := TyStruct
  [("LocalASN", TyInt 64); ("RouterID", TyString); ("ListenPort", TyPtr (TyInt 32)); ("Mode", TyString);
   ("Peers", TySlice tBGPPeer); ("ClusterBindings", TySlice tClusterBinding)].
Definition tPeerStatus : typ := TyStruct
  [("Name", TyString); ("SessionState", TyString); ("Uptime", TyPtr tDuration);
   ("PrefixesReceived", TyInt 32); ("PrefixesAccepted", TyInt 32); ("PrefixesRejected", TyInt 32)].
Definition tBGPPeerConfigStatus : typ := TyStruct
  [("Peers", TySlice tPeerStatus); ("Conditions", TySlice tCondition)].
Definition tBGPPeerConfig : typ := TyStruct
  [("TypeMeta", tTypeMeta); ("ObjectMeta", tObjectMeta); ("Spec", tBGPPeerConfigSpec);
   ("Status", tBGPPeerConfigStatus)].
Definition tBGPPeerConfigList : typ := TyStruct
  [("TypeMeta", tTypeMeta); ("ListMeta", tListMeta); ("Items", TySlice tBGPPeerConfig)].
Definition tDampeningConfig : typ := TyStruct
  [("Enabled", TyBool); ("HalfLife", TyPtr tDuration); ("SuppressThreshold", TyPtr (TyInt 32));
   ("ReuseThreshold", TyPtr (TyInt 32)); ("MaxSuppress", TyPtr tDuration)].
Definition tBGPStabilityConfigSpec : typ := TyStruct
  [("WithdrawalGrace", TyPtr tDuration); ("AdditionDelay", TyPtr tDuration);
   ("Dampening", TyPtr tDampeningConfig)].
Definition tBGPStabilityConfigStatus : typ := TyStruct
  [("Conditions", TySlice tCondition)].
Definition tBGPStabilityConfig : typ := TyStruct
  [("TypeMeta", tTypeMeta); ("ObjectMeta", tObjectMeta); ("Spec", tBGPStabilityConfigSpec);
   ("Status", tBGPStabilityConfigStatus)].
Definition tBGPStabilityConfigList : typ := TyStruct
  [("TypeMeta", tTypeMeta); ("ListMeta", tListMeta); ("Items", TySlice tBGPStabilityConfig)].
Definition tCommunityFallbacks : typ := TyStruct
  [("WeightFrom", TyString); ("PreferenceFrom", TyString); ("DefaultWeight", TyInt 32)].
Definition tCommunityFieldSet : typ := TyStruct
  [("Field", TyString); ("Value", TyPtr TyString); ("FromCommunityValue", TyBool)].
Definition tCommunityMatch : typ := TyStruct
  [("LargeCommunity", TyString)].
Definition tCommunityRule : typ := TyStruct
  [("Match", tCommunityMatch); ("Set", tCommunityFieldSet)].
Definition tCommunityMapSpec : typ := TyStruct
  [("Rules", TySlice tCommunityRule); ("Fallbacks", TyPtr tCommunityFallbacks);
   ("OnUnmappedCommunity", TyString)].
Definition tCommunityMapStatus : typ := TyStruct
  [("Conditions", TySlice tCondition)].
Definition tCommunityMap : typ := TyStruct
  [("TypeMeta", tTypeMeta); ("ObjectMeta", tObjectMeta); ("Spec", tCommunityMapSpec);
   ("Status", tCommunityMapStatus)].
Definition tCommunityMapList : typ := TyStruct
  [("TypeMeta", tTypeMeta); ("ListMeta", tListMeta); ("Items", TySlice tCommunityMap)].

(** ** The functions *)

Definition ActiveHealthConfig_DeepCopyInto : copier := body
  [on "Interval" (ifPtr tDuration assign); on "Timeout" (ifPtr tDuration assign);
   on "UnhealthyThreshold" (ifPtr (TyInt 32) assign); on "HealthyThreshold" (ifPtr (TyInt 32) assign)].
Definition ActiveHealthConfig_DeepCopy : val → M val :=
  cloneWith tActiveHealthConfig ActiveHealthConfig_DeepCopyInto.
Definition AdvertisedBackendSpec_DeepCopyInto : copier := body [].
Definition AdvertisedBackendSpec_DeepCopy : val → M val :=
  cloneWith tAdvertisedBackendSpec AdvertisedBackendSpec_DeepCopyInto.
Definition BackendAttributes_DeepCopyInto : copier := body
  [on "ServiceTag" (ifPtr (TyInt 32) assign); on "ASPath" (ifSlice (TyInt 64) assign);
   on "LargeCommunities" (ifSlice TyString assign)].
Definition BackendAttributes_DeepCopy : val → M val :=
  cloneWith tBackendAttributes BackendAttributes_DeepCopyInto.
Definition Locality_DeepCopyInto : copier := body [].
Definition Locality_DeepCopy : val → M val := cloneWith tLocality Locality_DeepCopyInto.
Definition StabilityStatus_DeepCopyInto : copier := body
  [on "LastObservedAt" (ifCall Time_DeepCopy); on "WithdrawnAt" (ifCall Time_DeepCopy);
   on "SuppressedSince" (ifCall Time_DeepCopy); on "PendingSince" (ifCall Time_DeepCopy)].
Definition StabilityStatus_DeepCopy : val → M val := cloneWith tStabilityStatus StabilityStatus_DeepCopyInto.
Definition AdvertisedBackendStatus_DeepCopyInto : copier := body
  [on "Locality" assign; on "Attributes" BackendAttributes_DeepCopyInto;
   on "FirstSeen" (ifCall Time_DeepCopy); on "LastChange" (ifCall Time_DeepCopy);
   on "Stability" StabilityStatus_DeepCopyInto; on "BoundPolicies" (ifSlice TyString assign);
   on "GeneratedResources" (ifSlice TyString assign)].
Definition AdvertisedBackendStatus_DeepCopy : val → M val :=
  cloneWith tAdvertisedBackendStatus AdvertisedBackendStatus_DeepCopyInto.
Definition AdvertisedBackend_DeepCopyInto : copier := body
  [on "TypeMeta" assign; on "ObjectMeta" ObjectMeta_DeepCopyInto; on "Spec" assign;
   on "Status" AdvertisedBackendStatus_DeepCopyInto].
Definition AdvertisedBackend_DeepCopy : val → M val :=
  cloneWith tAdvertisedBackend AdvertisedBackend_DeepCopyInto.
Definition AdvertisedBackend_DeepCopyObject : val → M (option (string * val)) :=
  objectWith "AdvertisedBackend" AdvertisedBackend_DeepCopy.
Definition AdvertisedBackendList_DeepCopyInto : copier := body
  [on "TypeMeta" assign; on "ListMeta" ListMeta_DeepCopyInto;
   on "Items" (ifSlice tAdvertisedBackend AdvertisedBackend_DeepCopyInto)].
Definition AdvertisedBackendList_DeepCopy : val → M val :=
  cloneWith tAdvertisedBackendList AdvertisedBackendList_DeepCopyInto.
Definition AdvertisedBackendList_DeepCopyObject : val → M (option (string * val)) :=
  objectWith "AdvertisedBackendList" AdvertisedBackendList_DeepCopy.
Definition BackendTLSConfig_DeepCopyInto : copier := body
  [on "CredentialRef" (ifPtr tLocalObjectReference assign)].
Definition BackendTLSConfig_DeepCopy : val → M val :=
  cloneWith tBackendTLSConfig BackendTLSConfig_DeepCopyInto.
Definition BackendConfig_DeepCopyInto : copier := body
  [on "AppProtocol" (ifPtr TyString assign); on "TLS" BackendTLSConfig_DeepCopyInto].
Definition BackendConfig_DeepCopy : val → M val := cloneWith tBackendConfig BackendConfig_DeepCopyInto.
Definition BackendSelector_DeepCopyInto : copier := body
  [on "Prefixes" (ifSlice TyString assign); on "ServiceTag" (ifPtr (TyInt 32) assign);
   on "ClusterIDs" (ifSlice TyString assign)].
Definition BackendSelector_DeepCopy : val → M val := cloneWith tBackendSelector BackendSelector_DeepCopyInto.
Definition LocalityLoadBalancingConfig_DeepCopyInto : copier := body
  [on "Preference" (ifSlice TyString assign); on "FailoverThreshold" (ifPtr (TyInt 32) assign)].
Definition LocalityLoadBalancingConfig_DeepCopy : val → M val :=
  cloneWith tLocalityLoadBalancingConfig LocalityLoadBalancingConfig_DeepCopyInto.
Definition LoadBalancingConfig_DeepCopyInto : copier := body
  [on "Locality" (ifPtr tLocalityLoadBalancingConfig LocalityLoadBalancingConfig_DeepCopyInto)].
Definition LoadBalancingConfig_DeepCopy : val → M val :=
  cloneWith tLoadBalancingConfig LoadBalancingConfig_DeepCopyInto.
Definition OutlierDetectionConfig_DeepCopyInto : copier := body
  [on "Consecutive5xx" (ifPtr (TyInt 32) assign); on "BaseEjectionTime" (ifPtr tDuration assign);
   on "MaxEjectionPercent" (ifPtr (TyInt 32) assign)].
Definition OutlierDetectionConfig_DeepCopy : val → M val :=
  cloneWith tOutlierDetectionConfig OutlierDetectionConfig_DeepCopyInto.
Definition BGPBackendPolicySpec_DeepCopyInto : copier := body
  [on "TargetRef" assign; on "Selector" BackendSelector_DeepCopyInto;
   on "Backend" BackendConfig_DeepCopyInto; on "LoadBalancing" LoadBalancingConfig_DeepCopyInto;
   on "ActiveHealth" (ifPtr tActiveHealthConfig ActiveHealthConfig_DeepCopyInto);
   on "OutlierDetection" (ifPtr tOutlierDetectionConfig OutlierDetectionConfig_DeepCopyInto)].
Definition BGPBackendPolicySpec_DeepCopy : val → M val :=
  cloneWith tBGPBackendPolicySpec BGPBackendPolicySpec_DeepCopyInto.
Definition BGPBackendPolicyStatus_DeepCopyInto : copier := body
  [on "Conditions" (ifSlice tCondition Condition_DeepCopyInto); on "Generated" (ifSlice TyString assign)].
Definition BGPBackendPolicyStatus_DeepCopy : val → M val :=
  cloneWith tBGPBackendPolicyStatus BGPBackendPolicyStatus_DeepCopyInto.
Definition BGPBackendPolicy_DeepCopyInto : copier := body
  [on "TypeMeta" assign; on "ObjectMeta" ObjectMeta_DeepCopyInto;
   on "Spec" BGPBackendPolicySpec_DeepCopyInto; on "Status" BGPBackendPolicyStatus_DeepCopyInto].
Definition BGPBackendPolicy_DeepCopy : val → M val :=
  cloneWith tBGPBackendPolicy BGPBackendPolicy_DeepCopyInto.
Definition BGPBackendPolicy_DeepCopyObject : val → M (option (string * val)) :=
  objectWith "BGPBackendPolicy" BGPBackendPolicy_DeepCopy.
Definition BGPBackendPolicyList_DeepCopyInto : copier := body
  [on "TypeMeta" assign; on "ListMeta" ListMeta_DeepCopyInto;
   on "Items" (ifSlice tBGPBackendPolicy BGPBackendPolicy_DeepCopyInto)].
Definition BGPBackendPolicyList_DeepCopy : val → M val :=
  cloneWith tBGPBackendPolicyList BGPBackendPolicyList_DeepCopyInto.
Definition BGPBackendPolicyList_DeepCopyObject : val → M (option (string * val)) :=
  objectWith "BGPBackendPolicyList" BGPBackendPolicyList_DeepCopy.
Definition BGPGatewayClassConfigSpec_DeepCopyInto : copier := body [on "Foo" (ifPtr TyString assign)].
Definition BGPGatewayClassConfigSpec_DeepCopy : val → M val :=
  cloneWith tBGPGatewayClassConfigSpec BGPGatewayClassConfigSpec_DeepCopyInto.
Definition BGPGatewayClassConfigStatus_DeepCopyInto : copier := body
  [on "Conditions" (ifSlice tCondition Condition_DeepCopyInto)].
Definition BGPGatewayClassConfigStatus_DeepCopy : val → M val :=
  cloneWith tBGPGatewayClassConfigStatus BGPGatewayClassConfigStatus_DeepCopyInto.
Definition BGPGatewayClassConfig_DeepCopyInto : copier := body
  [on "TypeMeta" assign; on "ObjectMeta" ObjectMeta_DeepCopyInto;
   on "Spec" BGPGatewayClassConfigSpec_DeepCopyInto; on "Status" BGPGatewayClassConfigStatus_DeepCopyInto].
Definition BGPGatewayClassConfig_DeepCopy : val → M val :=
  cloneWith tBGPGatewayClassConfig BGPGatewayClassConfig_DeepCopyInto.
Definition BGPGatewayClassConfig_DeepCopyObject : val → M (option (string * val)) :=
  objectWith "BGPGatewayClassConfig" BGPGatewayClassConfig_DeepCopy.
Definition BGPGatewayClassConfigList_DeepCopyInto : copier := body
  [on "TypeMeta" assign; on "ListMeta" ListMeta_DeepCopyInto;
   on "Items" (ifSlice tBGPGatewayClassConfig BGPGatewayClassConfig_DeepCopyInto)].
Definition BGPGatewayClassConfigList_DeepCopy : val → M val :=
  cloneWith tBGPGatewayClassConfigList BGPGatewayClassConfigList_DeepCopyInto.
Definition BGPGatewayClassConfigList_DeepCopyObject : val → M (option (string * val)) :=
  objectWith "BGPGatewayClassConfigList" BGPGatewayClassConfigList_DeepCopy.
Definition BGPPeerAuth_DeepCopyInto : copier := body
  [on "TCPMD5SecretRef" (ifPtr tSecretKeySelector SecretKeySelector_DeepCopyInto)].
Definition BGPPeerAuth_DeepCopy : val → M val := cloneWith tBGPPeerAuth BGPPeerAuth_DeepCopyInto.
Definition BGPTimers_DeepCopyInto : copier := body
  [on "Hold" (ifPtr tDuration assign); on "Keepalive" (ifPtr tDuration assign)].
Definition BGPTimers_DeepCopy : val → M val := cloneWith tBGPTimers BGPTimers_DeepCopyInto.
Definition GracefulRestartConfig_DeepCopyInto : copier := body
  [on "StaleRoutesTime" (ifPtr tDuration assign)].
Definition GracefulRestartConfig_DeepCopy : val → M val :=
  cloneWith tGracefulRestartConfig GracefulRestartConfig_DeepCopyInto.
Definition BGPPeer_DeepCopyInto : copier := body
  [on "Auth" (ifPtr tBGPPeerAuth BGPPeerAuth_DeepCopyInto);
   on "GracefulRestart" (ifPtr tGracefulRestartConfig GracefulRestartConfig_DeepCopyInto);
   on "Timers" (ifPtr tBGPTimers BGPTimers_DeepCopyInto)].
Definition BGPPeer_DeepCopy : val → M val := cloneWith tBGPPeer BGPPeer_DeepCopyInto.
Definition ClusterBinding_DeepCopyInto : copier := body
  [on "AllowedPrefixes" (ifSlice TyString assign); on "MaxPrefixes" (ifPtr (TyInt 32) assign);
   on "Locality" assign].
Definition ClusterBinding_DeepCopy : val → M val := cloneWith tClusterBinding ClusterBinding_DeepCopyInto.
Definition BGPPeerConfigSpec_DeepCopyInto : copier := body
  [on "ListenPort" (ifPtr (TyInt 32) assign); on "Peers" (ifSlice tBGPPeer BGPPeer_DeepCopyInto);
   on "ClusterBindings" (ifSlice tClusterBinding ClusterBinding_DeepCopyInto)].
Definition BGPPeerConfigSpec_DeepCopy : val → M val :=
  cloneWith tBGPPeerConfigSpec BGPPeerConfigSpec_DeepCopyInto.
Definition PeerStatus_DeepCopyInto : copier := body [on "Uptime" (ifPtr tDuration assign)].
Definition PeerStatus_DeepCopy : val → M val := cloneWith tPeerStatus PeerStatus_DeepCopyInto.
Definition BGPPeerConfigStatus_DeepCopyInto : copier := body
  [on "Peers" (ifSlice tPeerStatus PeerStatus_DeepCopyInto);
   on "Conditions" (ifSlice tCondition Condition_DeepCopyInto)].
Definition BGPPeerConfigStatus_DeepCopy : val → M val :=
  cloneWith tBGPPeerConfigStatus BGPPeerConfigStatus_DeepCopyInto.
Definition BGPPeerConfig_DeepCopyInto : copier := body
  [on "TypeMeta" assign; on "ObjectMeta" ObjectMeta_DeepCopyInto; on "Spec" BGPPeerConfigSpec_DeepCopyInto;
   on "Status" BGPPeerConfigStatus_DeepCopyInto].
Definition BGPPeerConfig_DeepCopy : val → M val := cloneWith tBGPPeerConfig BGPPeerConfig_DeepCopyInto.
Definition BGPPeerConfig_DeepCopyObject : val → M (option (string * val)) :=
  objectWith "BGPPeerConfig" BGPPeerConfig_DeepCopy.
Definition BGPPeerConfigList_DeepCopyInto : copier := body
  [on "TypeMeta" assign; on "ListMeta" ListMeta_DeepCopyInto;
   on "Items" (ifSlice tBGPPeerConfig BGPPeerConfig_DeepCopyInto)].
Definition BGPPeerConfigList_DeepCopy : val → M val :=
  cloneWith tBGPPeerConfigList BGPPeerConfigList_DeepCopyInto.
Definition BGPPeerConfigList_DeepCopyObject : val → M (option (string * val)) :=
  objectWith "BGPPeerConfigList" BGPPeerConfigList_DeepCopy.
Definition DampeningConfig_DeepCopyInto : copier := body
  [on "HalfLife" (ifPtr tDuration assign); on "SuppressThreshold" (ifPtr (TyInt 32) assign);
   on "ReuseThreshold" (ifPtr (TyInt 32) assign); on "MaxSuppress" (ifPtr tDuration assign)].
Definition DampeningConfig_DeepCopy : val → M val := cloneWith tDampeningConfig DampeningConfig_DeepCopyInto.
Definition BGPStabilityConfigSpec_DeepCopyInto : copier := body
  [on "WithdrawalGrace" (ifPtr tDuration assign); on "AdditionDelay" (ifPtr tDuration assign);
   on "Dampening" (ifPtr tDampeningConfig DampeningConfig_DeepCopyInto)].
Definition BGPStabilityConfigSpec_DeepCopy : val → M val :=
  cloneWith tBGPStabilityConfigSpec BGPStabilityConfigSpec_DeepCopyInto.
Definition BGPStabilityConfigStatus_DeepCopyInto : copier := body
  [on "Conditions" (ifSlice tCondition Condition_DeepCopyInto)].
Definition BGPStabilityConfigStatus_DeepCopy : val → M val :=
  cloneWith tBGPStabilityConfigStatus BGPStabilityConfigStatus_DeepCopyInto.
Definition BGPStabilityConfig_DeepCopyInto : copier := body
  [on "TypeMeta" assign; on "ObjectMeta" ObjectMeta_DeepCopyInto;
   on "Spec" BGPStabilityConfigSpec_DeepCopyInto; on "Status" BGPStabilityConfigStatus_DeepCopyInto].
Definition BGPStabilityConfig_DeepCopy : val → M val :=
  cloneWith tBGPStabilityConfig BGPStabilityConfig_DeepCopyInto.
Definition BGPStabilityConfig_DeepCopyObject : val → M (option (string * val)) :=
  objectWith "BGPStabilityConfig" BGPStabilityConfig_DeepCopy.
Definition BGPStabilityConfigList_DeepCopyInto : copier := body
  [on "TypeMeta" assign; on "ListMeta" ListMeta_DeepCopyInto;
   on "Items" (ifSlice tBGPStabilityConfig BGPStabilityConfig_DeepCopyInto)].
Definition BGPStabilityConfigList_DeepCopy : val → M val :=
  cloneWith tBGPStabilityConfigList BGPStabilityConfigList_DeepCopyInto.
Definition BGPStabilityConfigList_DeepCopyObject : val → M (option (string * val)) :=
  objectWith "BGPStabilityConfigList" BGPStabilityConfigList_DeepCopy.
Definition CommunityFallbacks_DeepCopyInto : copier := body [].
Definition CommunityFallbacks_DeepCopy : val → M val :=
  cloneWith tCommunityFallbacks CommunityFallbacks_DeepCopyInto.
Definition CommunityFieldSet_DeepCopyInto : copier := body [on "Value" (ifPtr TyString assign)].
Definition CommunityFieldSet_DeepCopy : val → M val :=
  cloneWith tCommunityFieldSet CommunityFieldSet_DeepCopyInto.
Definition CommunityMatch_DeepCopyInto : copier := body [].
Definition CommunityMatch_DeepCopy : val → M val := cloneWith tCommunityMatch CommunityMatch_DeepCopyInto.
Definition CommunityRule_DeepCopyInto : copier := body
  [on "Match" assign; on "Set" CommunityFieldSet_DeepCopyInto].
Definition CommunityRule_DeepCopy : val → M val := cloneWith tCommunityRule CommunityRule_DeepCopyInto.
Definition CommunityMapSpec_DeepCopyInto : copier := body
  [on "Rules" (ifSlice tCommunityRule CommunityRule_DeepCopyInto);
   on "Fallbacks" (ifPtr tCommunityFallbacks assign)].
Definition CommunityMapSpec_DeepCopy : val → M val :=
  cloneWith tCommunityMapSpec CommunityMapSpec_DeepCopyInto.
Definition CommunityMapStatus_DeepCopyInto : copier := body
  [on "Conditions" (ifSlice tCondition Condition_DeepCopyInto)].
Definition CommunityMapStatus_DeepCopy : val → M val :=
  cloneWith tCommunityMapStatus CommunityMapStatus_DeepCopyInto.
Definition CommunityMap_DeepCopyInto : copier := body
  [on "TypeMeta" assign; on "ObjectMeta" ObjectMeta_DeepCopyInto; on "Spec" CommunityMapSpec_DeepCopyInto;
   on "Status" CommunityMapStatus_DeepCopyInto].
Definition CommunityMap_DeepCopy : val → M val := cloneWith tCommunityMap CommunityMap_DeepCopyInto.
Definition CommunityMap_DeepCopyObject : val → M (option (string * val)) :=
  objectWith "CommunityMap" CommunityMap_DeepCopy.
Definition CommunityMapList_DeepCopyInto : copier := body
  [on "TypeMeta" assign; on "ListMeta" ListMeta_DeepCopyInto;
   on "Items" (ifSlice tCommunityMap CommunityMap_DeepCopyInto)].
Definition CommunityMapList_DeepCopy : val → M val :=
  cloneWith tCommunityMapList CommunityMapList_DeepCopyInto.
Definition CommunityMapList_DeepCopyObject : val → M (option (string * val)) :=
  objectWith "CommunityMapList" CommunityMapList_DeepCopy.

(** Every type with its two methods, and every kind with [DeepCopyObject]. *)
Definition copyMethods : list (string * typ * copier * (val → M val)) :=
  [("ActiveHealthConfig", tActiveHealthConfig, ActiveHealthConfig_DeepCopyInto, ActiveHealthConfig_DeepCopy);
   ("AdvertisedBackend", tAdvertisedBackend, AdvertisedBackend_DeepCopyInto, AdvertisedBackend_DeepCopy);
   ("AdvertisedBackendList", tAdvertisedBackendList, AdvertisedBackendList_DeepCopyInto, AdvertisedBackendList_DeepCopy);
   ("AdvertisedBackendSpec", tAdvertisedBackendSpec, AdvertisedBackendSpec_DeepCopyInto, AdvertisedBackendSpec_DeepCopy);
   ("AdvertisedBackendStatus", tAdvertisedBackendStatus, AdvertisedBackendStatus_DeepCopyInto, AdvertisedBackendStatus_DeepCopy);
   ("BGPBackendPolicy", tBGPBackendPolicy, BGPBackendPolicy_DeepCopyInto, BGPBackendPolicy_DeepCopy);
   ("BGPBackendPolicyList", tBGPBackendPolicyList, BGPBackendPolicyList_DeepCopyInto, BGPBackendPolicyList_DeepCopy);
   ("BGPBackendPolicySpec", tBGPBackendPolicySpec, BGPBackendPolicySpec_DeepCopyInto, BGPBackendPolicySpec_DeepCopy);
   ("BGPBackendPolicyStatus", tBGPBackendPolicyStatus, BGPBackendPolicyStatus_DeepCopyInto, BGPBackendPolicyStatus_DeepCopy);
   ("BGPGatewayClassConfig", tBGPGatewayClassConfig, BGPGatewayClassConfig_DeepCopyInto, BGPGatewayClassConfig_DeepCopy);
   ("BGPGatewayClassConfigList", tBGPGatewayClassConfigList, BGPGatewayClassConfigList_DeepCopyInto, BGPGatewayClassConfigList_DeepCopy);
   ("BGPGatewayClassConfigSpec", tBGPGatewayClassConfigSpec, BGPGatewayClassConfigSpec_DeepCopyInto, BGPGatewayClassConfigSpec_DeepCopy);
   ("BGPGatewayClassConfigStatus", tBGPGatewayClassConfigStatus, BGPGatewayClassConfigStatus_DeepCopyInto, BGPGatewayClassConfigStatus_DeepCopy);
   ("BGPPeer", tBGPPeer, BGPPeer_DeepCopyInto, BGPPeer_DeepCopy);
   ("BGPPeerAuth", tBGPPeerAuth, BGPPeerAuth_DeepCopyInto, BGPPeerAuth_DeepCopy);
   ("BGPPeerConfig", tBGPPeerConfig, BGPPeerConfig_DeepCopyInto, BGPPeerConfig_DeepCopy);
   ("BGPPeerConfigList", tBGPPeerConfigList, BGPPeerConfigList_DeepCopyInto, BGPPeerConfigList_DeepCopy);
   ("BGPPeerConfigSpec", tBGPPeerConfigSpec, BGPPeerConfigSpec_DeepCopyInto, BGPPeerConfigSpec_DeepCopy);
   ("BGPPeerConfigStatus", tBGPPeerConfigStatus, BGPPeerConfigStatus_DeepCopyInto, BGPPeerConfigStatus_DeepCopy);
   ("BGPStabilityConfig", tBGPStabilityConfig, BGPStabilityConfig_DeepCopyInto, BGPStabilityConfig_DeepCopy);
   ("BGPStabilityConfigList", tBGPStabilityConfigList, BGPStabilityConfigList_DeepCopyInto, BGPStabilityConfigList_DeepCopy);
   ("BGPStabilityConfigSpec", tBGPStabilityConfigSpec, BGPStabilityConfigSpec_DeepCopyInto, BGPStabilityConfigSpec_DeepCopy);
   ("BGPStabilityConfigStatus", tBGPStabilityConfigStatus, BGPStabilityConfigStatus_DeepCopyInto, BGPStabilityConfigStatus_DeepCopy);
   ("BGPTimers", tBGPTimers, BGPTimers_DeepCopyInto, BGPTimers_DeepCopy);
   ("BackendAttributes", tBackendAttributes, BackendAttributes_DeepCopyInto, BackendAttributes_DeepCopy);
   ("BackendConfig", tBackendConfig, BackendConfig_DeepCopyInto, BackendConfig_DeepCopy);
   ("BackendSelector", tBackendSelector, BackendSelector_DeepCopyInto, BackendSelector_DeepCopy);
   ("BackendTLSConfig", tBackendTLSConfig, BackendTLSConfig_DeepCopyInto, BackendTLSConfig_DeepCopy);
   ("ClusterBinding", tClusterBinding, ClusterBinding_DeepCopyInto, ClusterBinding_DeepCopy);
   ("CommunityFallbacks", tCommunityFallbacks, CommunityFallbacks_DeepCopyInto, CommunityFallbacks_DeepCopy);
   ("CommunityFieldSet", tCommunityFieldSet, CommunityFieldSet_DeepCopyInto, CommunityFieldSet_DeepCopy);
   ("CommunityMap", tCommunityMap, CommunityMap_DeepCopyInto, CommunityMap_DeepCopy);
   ("CommunityMapList", tCommunityMapList, CommunityMapList_DeepCopyInto, CommunityMapList_DeepCopy);
   ("CommunityMapSpec", tCommunityMapSpec, CommunityMapSpec_DeepCopyInto, CommunityMapSpec_DeepCopy);
   ("CommunityMapStatus", tCommunityMapStatus, CommunityMapStatus_DeepCopyInto, CommunityMapStatus_DeepCopy);
   ("CommunityMatch", tCommunityMatch, CommunityMatch_DeepCopyInto, CommunityMatch_DeepCopy);
   ("CommunityRule", tCommunityRule, CommunityRule_DeepCopyInto, CommunityRule_DeepCopy);
   ("DampeningConfig", tDampeningConfig, DampeningConfig_DeepCopyInto, DampeningConfig_DeepCopy);
   ("GracefulRestartConfig", tGracefulRestartConfig, GracefulRestartConfig_DeepCopyInto, GracefulRestartConfig_DeepCopy);
   ("LoadBalancingConfig", tLoadBalancingConfig, LoadBalancingConfig_DeepCopyInto, LoadBalancingConfig_DeepCopy);
   ("Locality", tLocality, Locality_DeepCopyInto, Locality_DeepCopy);
   ("LocalityLoadBalancingConfig", tLocalityLoadBalancingConfig, LocalityLoadBalancingConfig_DeepCopyInto, LocalityLoadBalancingConfig_DeepCopy);
   ("OutlierDetectionConfig", tOutlierDetectionConfig, OutlierDetectionConfig_DeepCopyInto, OutlierDetectionConfig_DeepCopy);
   ("PeerStatus", tPeerStatus, PeerStatus_DeepCopyInto, PeerStatus_DeepCopy);
   ("StabilityStatus", tStabilityStatus, StabilityStatus_DeepCopyInto, StabilityStatus_DeepCopy)].
Definition objectMethods : list (string * typ * (val → M (option (string * val)))) :=
  [("AdvertisedBackend", tAdvertisedBackend, AdvertisedBackend_DeepCopyObject);
   ("AdvertisedBackendList", tAdvertisedBackendList, AdvertisedBackendList_DeepCopyObject);
   ("BGPBackendPolicy", tBGPBackendPolicy, BGPBackendPolicy_DeepCopyObject);
   ("BGPBackendPolicyList", tBGPBackendPolicyList, BGPBackendPolicyList_DeepCopyObject);
   ("BGPGatewayClassConfig", tBGPGatewayClassConfig, BGPGatewayClassConfig_DeepCopyObject);
   ("BGPGatewayClassConfigList", tBGPGatewayClassConfigList, BGPGatewayClassConfigList_DeepCopyObject);
   ("BGPPeerConfig", tBGPPeerConfig, BGPPeerConfig_DeepCopyObject);
   ("BGPPeerConfigList", tBGPPeerConfigList, BGPPeerConfigList_DeepCopyObject);
   ("BGPStabilityConfig", tBGPStabilityConfig, BGPStabilityConfig_DeepCopyObject);
   ("BGPStabilityConfigList", tBGPStabilityConfigList, BGPStabilityConfigList_DeepCopyObject);
   ("CommunityMap", tCommunityMap, CommunityMap_DeepCopyObject);
   ("CommunityMapList", tCommunityMapList, CommunityMapList_DeepCopyObject)].

(** ** The contracts *)

Context `{!ImportsLaws}.

#[export] Instance ActiveHealthConfig_copies : Copies tActiveHealthConfig ActiveHealthConfig_DeepCopyInto.
Proof. generated. Qed.
#[export] Instance AdvertisedBackendSpec_copies : Copies tAdvertisedBackendSpec AdvertisedBackendSpec_DeepCopyInto.
Proof. generated. Qed.
#[export] Instance BackendAttributes_copies : Copies tBackendAttributes BackendAttributes_DeepCopyInto.
Proof. generated. Qed.
#[export] Instance Locality_copies : Copies tLocality Locality_DeepCopyInto.
Proof. generated. Qed.
#[export] Instance StabilityStatus_copies : Copies tStabilityStatus StabilityStatus_DeepCopyInto.
Proof. generated. Qed.
#[export] Instance AdvertisedBackendStatus_copies : Copies tAdvertisedBackendStatus AdvertisedBackendStatus_DeepCopyInto.
Proof. generated. Qed.
#[export] Instance AdvertisedBackend_copies : Copies tAdvertisedBackend AdvertisedBackend_DeepCopyInto.
Proof. generated. Qed.
#[export] Instance AdvertisedBackendList_copies : Copies tAdvertisedBackendList AdvertisedBackendList_DeepCopyInto.
Proof. generated. Qed.
#[export] Instance BackendTLSConfig_copies : Copies tBackendTLSConfig BackendTLSConfig_DeepCopyInto.
Proof. generated. Qed.
#[export] Instance BackendConfig_copies : Copies tBackendConfig BackendConfig_DeepCopyInto.
Proof. generated. Qed.
#[export] Instance BackendSelector_copies : Copies tBackendSelector BackendSelector_DeepCopyInto.
Proof. generated. Qed.
#[export] Instance LocalityLoadBalancingConfig_copies : Copies tLocalityLoadBalancingConfig LocalityLoadBalancingConfig_DeepCopyInto.
Proof. generated. Qed.
#[export] Instance LoadBalancingConfig_copies : Copies tLoadBalancingConfig LoadBalancingConfig_DeepCopyInto.
Proof. generated. Qed.
#[export] Instance OutlierDetectionConfig_copies : Copies tOutlierDetectionConfig OutlierDetectionConfig_DeepCopyInto.
Proof. generated. Qed.
#[export] Instance BGPBackendPolicySpec_copies : Copies tBGPBackendPolicySpec BGPBackendPolicySpec_DeepCopyInto.
Proof. generated. Qed.
#[export] Instance BGPBackendPolicyStatus_copies : Copies tBGPBackendPolicyStatus BGPBackendPolicyStatus_DeepCopyInto.
Proof. generated. Qed.
#[export] Instance BGPBackendPolicy_copies : Copies tBGPBackendPolicy BGPBackendPolicy_DeepCopyInto.
Proof. generated. Qed.
#[export] Instance BGPBackendPolicyList_copies : Copies tBGPBackendPolicyList BGPBackendPolicyList_DeepCopyInto.
Proof. generated. Qed.
#[export] Instance BGPGatewayClassConfigSpec_copies : Copies tBGPGatewayClassConfigSpec BGPGatewayClassConfigSpec_DeepCopyInto.
Proof. generated. Qed.
#[export] Instance BGPGatewayClassConfigStatus_copies : Copies tBGPGatewayClassConfigStatus BGPGatewayClassConfigStatus_DeepCopyInto.
Proof. generated. Qed.
#[export] Instance BGPGatewayClassConfig_copies : Copies tBGPGatewayClassConfig BGPGatewayClassConfig_DeepCopyInto.
Proof. generated. Qed.
#[export] Instance BGPGatewayClassConfigList_copies : Copies tBGPGatewayClassConfigList BGPGatewayClassConfigList_DeepCopyInto.
Proof. generated. Qed.
#[export] Instance BGPPeerAuth_copies : Copies tBGPPeerAuth BGPPeerAuth_DeepCopyInto.
Proof. generated. Qed.
#[export] Instance BGPTimers_copies : Copies tBGPTimers BGPTimers_DeepCopyInto.
Proof. generated. Qed.
#[export] Instance GracefulRestartConfig_copies : Copies tGracefulRestartConfig GracefulRestartConfig_DeepCopyInto.
Proof. generated. Qed.
#[export] Instance BGPPeer_copies : Copies tBGPPeer BGPPeer_DeepCopyInto.
Proof. generated. Qed.
#[export] Instance ClusterBinding_copies : Copies tClusterBinding ClusterBinding_DeepCopyInto.
Proof. generated. Qed.
#[export] Instance BGPPeerConfigSpec_copies : Copies tBGPPeerConfigSpec BGPPeerConfigSpec_DeepCopyInto.
Proof. generated. Qed.
#[export] Instance PeerStatus_copies : Copies tPeerStatus PeerStatus_DeepCopyInto.
Proof. generated. Qed.
#[export] Instance BGPPeerConfigStatus_copies : Copies tBGPPeerConfigStatus BGPPeerConfigStatus_DeepCopyInto.
Proof. generated. Qed.
#[export] Instance BGPPeerConfig_copies : Copies tBGPPeerConfig BGPPeerConfig_DeepCopyInto.
Proof. generated. Qed.
#[export] Instance BGPPeerConfigList_copies : Copies tBGPPeerConfigList BGPPeerConfigList_DeepCopyInto.
Proof. generated. Qed.
#[export] Instance DampeningConfig_copies : Copies tDampeningConfig DampeningConfig_DeepCopyInto.
Proof. generated. Qed.
#[export] Instance BGPStabilityConfigSpec_copies : Copies tBGPStabilityConfigSpec BGPStabilityConfigSpec_DeepCopyInto.
Proof. generated. Qed.
#[export] Instance BGPStabilityConfigStatus_copies : Copies tBGPStabilityConfigStatus BGPStabilityConfigStatus_DeepCopyInto.
Proof. generated. Qed.
#[export] Instance BGPStabilityConfig_copies : Copies tBGPStabilityConfig BGPStabilityConfig_DeepCopyInto.
Proof. generated. Qed.
#[export] Instance BGPStabilityConfigList_copies : Copies tBGPStabilityConfigList BGPStabilityConfigList_DeepCopyInto.
Proof. generated. Qed.
#[export] Instance CommunityFallbacks_copies : Copies tCommunityFallbacks CommunityFallbacks_DeepCopyInto.
Proof. generated. Qed.
#[export] Instance CommunityFieldSet_copies : Copies tCommunityFieldSet CommunityFieldSet_DeepCopyInto.
Proof. generated. Qed.
#[export] Instance CommunityMatch_copies : Copies tCommunityMatch CommunityMatch_DeepCopyInto.
Proof. generated. Qed.
#[export] Instance CommunityRule_copies : Copies tCommunityRule CommunityRule_DeepCopyInto.
Proof. generated. Qed.
#[export] Instance CommunityMapSpec_copies : Copies tCommunityMapSpec CommunityMapSpec_DeepCopyInto.
Proof. generated. Qed.
#[export] Instance CommunityMapStatus_copies : Copies tCommunityMapStatus CommunityMapStatus_DeepCopyInto.
Proof. generated. Qed.
#[export] Instance CommunityMap_copies : Copies tCommunityMap CommunityMap_DeepCopyInto.
Proof. generated. Qed.
#[export] Instance CommunityMapList_copies : Copies tCommunityMapList CommunityMapList_DeepCopyInto.
Proof. generated. Qed.

Lemma copyMethods_ok : Forall (λ '(_, T, into, g), Copies T into ∧ Clones T g) copyMethods.
Proof. repeat constructor; apply _. Qed.

Lemma objectMethods_ok : Forall (λ '(name, T, g), ∃ clone, g = objectWith name clone ∧ Clones T clone) objectMethods.
Proof. repeat constructor; eexists; (split; [reflexivity|apply _]). Qed.

End generated.

(** ** What the methods guarantee *)

(** C37 (Deep copies.)  Every generated [DeepCopy] returns, for a pointer to a
    well-typed value, a pointer to an equal value (nil for nil, and a nil slice for
    a nil slice); it changes no existing block, and everything the copy refers to is
    in new blocks. *)
Theorem DeepCopy_faithful `{ImportsLaws} name T into g h p t :
  (name, T, into, g) ∈ copyMethods → denote h (TyPtr T) p = Some t →
  ∃ h' p', g p h = Some (p', h') ∧ h ⊆ h' ∧ denote (h' ∖ h) (TyPtr T) p' = Some t.
Proof.
  intros Hin Ht. destruct (proj1 (Forall_forall _ _) copyMethods_ok _ Hin) as [_ Hc]. by apply Hc.
Qed.

(** (No sharing.)  After a [DeepCopyObject] of a kind or a list of it, the object
    keeps its value whatever is later written to the blocks of the copy, and the copy
    keeps it whatever is written to the blocks that existed before; the interface
    returned is nil exactly for a nil pointer. *)
Theorem DeepCopyObject_independent `{ImportsLaws} name T g h p t :
  (name, T, g) ∈ objectMethods → denote h (TyPtr T) p = Some t →
  ∃ h' r, g p h = Some (r, h') ∧ (r = None ↔ p = VNil) ∧
    (∀ later, (∀ b, b ∈ dom h → later !! b = h' !! b) → denote later (TyPtr T) p = Some t) ∧
    (∀ kind p' later, r = Some (kind, p') →
       (∀ b, b ∈ dom h' → b ∉ dom h → later !! b = h' !! b) →
       kind = name ∧ denote later (TyPtr T) p' = Some t).
Proof.
  intros Hin Ht. destruct (proj1 (Forall_forall _ _) objectMethods_ok _ Hin) as (clone & -> & Hc).
  destruct (objectWith_run T clone name h p t Hc Ht) as (h' & r & Hrun & Hsub & Hnil & Hr).
  exists h', r. split; [done|]. split; [done|]. split.
  - intros later Hl. by eapply old_kept.
  - intros kind p' later Hk Hl. destruct (Hr _ _ Hk) as [-> Hp]. split; [done|]. by eapply new_kept.
Qed.

(** ** Instances of the hypotheses *)

Module DeepCopyExamples.

(** A layout of the imported types, with a slice where the real ones have
    references, and copy methods for it. *)
Definition str (fs : list string) : typ := TyStruct ((λ f, (f, TyString)) <$> fs).
Definition tMeta : typ := TyStruct [("Name", TyString); ("Finalizers", TySlice TyString)].
Definition copyMeta : copier := body [on "Finalizers" (ifSlice TyString assign)].
Definition tSelector : typ := TyStruct [("Name", TyString); ("Key", TyString); ("Optional", TyPtr TyBool)].
Definition copySelector : copier := body [on "Optional" (ifPtr TyBool assign)].

#[local] Instance imports : Imports := {|
  tTypeMeta := str ["Kind"; "APIVersion"]; tObjectMeta := tMeta; tListMeta := str ["ResourceVersion"];
  tCondition := str ["Type"; "Status"]; tTime := TyInt 64; tDuration := TyInt 64;
  tLocalObjectReference := str ["Name"]; tSecretKeySelector := tSelector;
  tLocalPolicyTargetReference := str ["Group"; "Kind"; "Name"];
  ObjectMeta_DeepCopyInto := copyMeta; ListMeta_DeepCopyInto := assign; Condition_DeepCopyInto := assign;
  SecretKeySelector_DeepCopyInto := copySelector; Time_DeepCopy := cloneWith (TyInt 64) assign;
|}.
#[local] Instance imports_laws : ImportsLaws.
Proof. constructor; simpl; first [exact (eq_refl true) | generated | apply _]. Qed.

(** A record with a shared service tag and an AS path that is the tail of a longer
    array; block 9 is where a caller wants the copy. *)
Definition text (s : string) : val := VBase (BString s).
Definition attributes : val := VAgg
  [(Field "Weight", VBase (BInt 10)); (Field "Tier", text "primary"); (Field "Drain", VBase (BBool false));
   (Field "ServiceTag", VPtr (2%positive, [])); (Field "MED", VBase (BInt 0));
   (Field "ASPath", VSlice (3%positive, []) 1 2); (Field "LargeCommunities", VNil)].
Definition memory : heap := list_to_map
  [(1%positive, attributes); (2%positive, VBase (BInt 7));
   (3%positive, VAgg [(Index 0, VBase (BInt 1)); (Index 1, VBase (BInt 2)); (Index 2, VBase (BInt 3))]);
   (9%positive, zero tBackendAttributes)].
Definition meaning : option tree := denote memory (TyPtr tBackendAttributes) (VPtr (1%positive, [])).
Definition attributesMethods : string * typ * copier * (val → M val) :=
  ("BackendAttributes", tBackendAttributes, BackendAttributes_DeepCopyInto, BackendAttributes_DeepCopy).
Lemma attributes_listed : attributesMethods ∈ copyMethods.
Proof. repeat (first [apply list_elem_of_here | apply list_elem_of_further]). Qed.

Lemma DeepCopy_faithful_witness :
  ∃ h' p', BackendAttributes_DeepCopy (VPtr (1%positive, [])) memory = Some (p', h') ∧ memory ⊆ h' ∧
    denote (h' ∖ memory) (TyPtr tBackendAttributes) p' = Some (default TNil meaning).
Proof.
  apply (DeepCopy_faithful "BackendAttributes" tBackendAttributes BackendAttributes_DeepCopyInto
    BackendAttributes_DeepCopy memory _ (default TNil meaning)).
  - apply attributes_listed.
  - vm_compute. reflexivity.
Defined.

(** The copy of the AS path is a new array of two, at offset 0. *)
Example copied_path :
  (r ← BackendAttributes_DeepCopy (VPtr (1%positive, [])) memory;
   match r with (VPtr a, h') => load h' (a.>(Field "ASPath")) | _ => None end)
  = Some (VSlice (12%positive, []) 0 2).
Proof. vm_compute. reflexivity. Qed.

Definition gateway : heap := list_to_map
  [(1%positive, VAgg [(Field "TypeMeta", VAgg [(Field "Kind", text "k"); (Field "APIVersion", text "v")]);
     (Field "ObjectMeta", VAgg [(Field "Name", text "n"); (Field "Finalizers", VNil)]);
     (Field "Spec", VAgg [(Field "Foo", VPtr (2%positive, []))]);
     (Field "Status", VAgg [(Field "Conditions", VNil)])]);
   (2%positive, text "shared")].
Definition gatewayMeaning : tree := default TNil (denote gateway (TyPtr tBGPGatewayClassConfig) (VPtr (1%positive, []))).

(** Overwriting the shared field of the original leaves the copy alone. *)
Lemma DeepCopyObject_independent_witness :
  ∃ h' r, BGPGatewayClassConfig_DeepCopyObject (VPtr (1%positive, [])) gateway = Some (r, h') ∧
    ∀ kind p', r = Some (kind, p') →
      denote (<[2%positive := text "changed"]> h') (TyPtr tBGPGatewayClassConfig) p' = Some gatewayMeaning.
Proof.
  destruct (DeepCopyObject_independent "BGPGatewayClassConfig" tBGPGatewayClassConfig
    BGPGatewayClassConfig_DeepCopyObject gateway (VPtr (1%positive, [])) gatewayMeaning)
    as (h' & r & Hrun & _ & _ & Hcopy).
  - repeat (first [apply list_elem_of_here | apply list_elem_of_further]).
  - vm_compute. reflexivity.
  - exists h', r. split; [exact Hrun|]. intros kind p' Hr. refine (proj2 (Hcopy kind p' _ Hr _)).
    intros b _ Hb. apply lookup_insert_ne. intros <-. apply Hb. vm_compute. by eexists.
Defined.

End DeepCopyExamples.
