(* ===== verification/Main.v ===== *)
(** * Main: cmd/main.go and the [SetupWithManager] methods

    The entry point: the command line ([GoFlag]), the options it makes of it, the
    objects the process constructs once and shares, and the sequence of calls to
    controller-runtime, each of which can fail and then ends the process.

    A call into controller-runtime is an [action]; the environment says which of
    them fail (no action occurs twice, so one answer each is general), and the
    [trace] keeps the calls made, with their arguments.  Objects the code constructs
    with [&T{...}] are numbered in the order of construction, so that sharing an
    instance is visible. *)
From S2P Require Import Prelude GoStrings GoFlag.

(** ** The command line *)

(** The variables of [main] that flags write to. *)
Record Vars := mkVars {
  metricsAddr : string; probeAddr : string; enableLeaderElection : bool; secureMetrics : bool;
  webhookCertPath : string; webhookCertName : string; webhookCertKey : string;
  metricsCertPath : string; metricsCertName : string; metricsCertKey : string;
  enableHTTP2 : bool;
}.
Definition defaultVars : Vars := mkVars "0" ":8081" false true "" "tls.crt" "tls.key" "" "tls.crt" "tls.key" false.

Definition set_metricsAddr s v := mkVars s (probeAddr v) (enableLeaderElection v) (secureMetrics v) (webhookCertPath v)
  (webhookCertName v) (webhookCertKey v) (metricsCertPath v) (metricsCertName v) (metricsCertKey v) (enableHTTP2 v).
Definition set_probeAddr s v := mkVars (metricsAddr v) s (enableLeaderElection v) (secureMetrics v) (webhookCertPath v)
  (webhookCertName v) (webhookCertKey v) (metricsCertPath v) (metricsCertName v) (metricsCertKey v) (enableHTTP2 v).
Definition set_enableLeaderElection b v := mkVars (metricsAddr v) (probeAddr v) b (secureMetrics v) (webhookCertPath v)
  (webhookCertName v) (webhookCertKey v) (metricsCertPath v) (metricsCertName v) (metricsCertKey v) (enableHTTP2 v).
Definition set_secureMetrics b v := mkVars (metricsAddr v) (probeAddr v) (enableLeaderElection v) b (webhookCertPath v)
  (webhookCertName v) (webhookCertKey v) (metricsCertPath v) (metricsCertName v) (metricsCertKey v) (enableHTTP2 v).
Definition set_webhookCert path name key v := mkVars (metricsAddr v) (probeAddr v) (enableLeaderElection v)
  (secureMetrics v) path name key (metricsCertPath v) (metricsCertName v) (metricsCertKey v) (enableHTTP2 v).
Definition set_metricsCert path name key v := mkVars (metricsAddr v) (probeAddr v) (enableLeaderElection v)
  (secureMetrics v) (webhookCertPath v) (webhookCertName v) (webhookCertKey v) path name key (enableHTTP2 v).
Definition set_enableHTTP2 b v := mkVars (metricsAddr v) (probeAddr v) (enableLeaderElection v) (secureMetrics v)
  (webhookCertPath v) (webhookCertName v) (webhookCertKey v) (metricsCertPath v) (metricsCertName v) (metricsCertKey v) b.

(** The [flag.StringVar] and [flag.BoolVar] calls, in order. *)
Definition mainFlags : FlagSet Vars :=
  [StringVar "metrics-bind-address" set_metricsAddr;
   StringVar "health-probe-bind-address" set_probeAddr;
   BoolVar "leader-elect" set_enableLeaderElection;
   BoolVar "metrics-secure" set_secureMetrics;
   StringVar "webhook-cert-path" (λ s v, set_webhookCert s (webhookCertName v) (webhookCertKey v) v);
   StringVar "webhook-cert-name" (λ s v, set_webhookCert (webhookCertPath v) s (webhookCertKey v) v);
   StringVar "webhook-cert-key" (λ s v, set_webhookCert (webhookCertPath v) (webhookCertName v) s v);
   StringVar "metrics-cert-path" (λ s v, set_metricsCert s (metricsCertName v) (metricsCertKey v) v);
   StringVar "metrics-cert-name" (λ s v, set_metricsCert (metricsCertPath v) s (metricsCertKey v) v);
   StringVar "metrics-cert-key" (λ s v, set_metricsCert (metricsCertPath v) (metricsCertName v) s v);
   BoolVar "enable-http2" set_enableHTTP2].

(** [opts.BindFlags(flag.CommandLine)] and the flags that imported packages register
    on [flag.CommandLine]: any flags on a state of their own.  A name registered
    twice makes package [flag] panic, so the two sets of names are disjoint. *)
Class LibraryFlags (X : Type) := { libraryFlags : FlagSet X; libraryDefaults : X }.

Definition onFirst {A B} (f : Flag A) : Flag (A * B) :=
  mkFlag (flag_name f) (flag_isBool f) (λ s st, let* a := flag_set f s st.1 in Ok (a, st.2)).
Definition onSecond {A B} (f : Flag B) : Flag (A * B) :=
  mkFlag (flag_name f) (flag_isBool f) (λ s st, let* b := flag_set f s st.2 in Ok (st.1, b)).

(** [flag.CommandLine] *)
Definition commandLine {X} `{LibraryFlags X} : FlagSet (Vars * X) :=
  map onFirst mainFlags ++ map onSecond libraryFlags.

(** ** Options *)

(** A [tls.Config]: the protocols offered, and the rest of it. *)
Record tlsConfig := mkTLSConfig { NextProtos : list string; tls_rest : list (string * string) }.
Definition tlsOpt : Type := tlsConfig → tlsConfig.
Definition disableHTTP2 : tlsOpt := λ c, mkTLSConfig ["http/1.1"] (tls_rest c).
Definition tlsOpts (v : Vars) : list tlsOpt := if negb (enableHTTP2 v) then [disableHTTP2] else [].
(** How a server uses its options: in order, on its own configuration. *)
Definition applyTLSOpts (opts : list tlsOpt) (c : tlsConfig) : tlsConfig := foldl (λ c f, f c) c opts.

Record webhookOptions := mkWebhookOptions {
  wo_TLSOpts : list tlsOpt; wo_CertDir : string; wo_CertName : string; wo_KeyName : string;
}.
Definition webhookServerOptions (v : Vars) : webhookOptions :=
  if (0 <? String.length (webhookCertPath v))%nat then
    mkWebhookOptions (tlsOpts v) (webhookCertPath v) (webhookCertName v) (webhookCertKey v)
  else mkWebhookOptions (tlsOpts v) "" "" "".

Inductive filterProvider := WithAuthenticationAndAuthorization.
Record metricsOptions := mkMetricsOptions {
  mo_BindAddress : string; mo_SecureServing : bool; mo_TLSOpts : list tlsOpt;
  mo_FilterProvider : option filterProvider;
  mo_CertDir : string; mo_CertName : string; mo_KeyName : string;
}.
Definition metricsServerOptions (v : Vars) : metricsOptions :=
  let filter := if secureMetrics v then Some WithAuthenticationAndAuthorization else None in
  if (0 <? String.length (metricsCertPath v))%nat then
    mkMetricsOptions (metricsAddr v) (secureMetrics v) (tlsOpts v) filter
      (metricsCertPath v) (metricsCertName v) (metricsCertKey v)
  else mkMetricsOptions (metricsAddr v) (secureMetrics v) (tlsOpts v) filter "" "" "".

Record managerOptions := mkManagerOptions {
  opt_CacheDisableFor : list string; opt_Metrics : metricsOptions; opt_WebhookServer : webhookOptions;
  opt_HealthProbeBindAddress : string; opt_LeaderElection : bool; opt_LeaderElectionID : string;
}.
Definition ctrlOptions (v : Vars) : managerOptions :=
  mkManagerOptions ["Secret"] (metricsServerOptions v) (webhookServerOptions v)
    (probeAddr v) (enableLeaderElection v) "696132ec.twr.dev".

(** ** Controllers and what they watch *)

Record NamespacedName := mkNamespacedName { nn_Namespace : string; nn_Name : string }.
Definition Request : Type := NamespacedName.

Inductive eventType := CreateEvent | UpdateEvent | DeleteEvent | GenericEvent.
(** An event of a watched object, with its generation before and after an update. *)
Record event := mkEvent {
  ev_Kind : string; ev_Type : eventType; ev_Key : NamespacedName; ev_Old : Z; ev_New : Z;
}.

(** [predicate.GenerationChangedPredicate], as controller-runtime documents it. *)
Class Predicates := {
  GenerationChanged : event → bool;
  GenerationChanged_update ev :
    ev_Type ev = UpdateEvent → GenerationChanged ev = negb (ev_Old ev =? ev_New ev)%Z;
  GenerationChanged_other ev : ev_Type ev ≠ UpdateEvent → GenerationChanged ev = true;
}.

(** [handler.EnqueueRequestForObject], the handler of [For]. *)
Definition enqueueObject (ev : event) : list Request := [ev_Key ev].
Definition enqueueGlobalSweep (ev : event) : list Request := [mkNamespacedName "" ""].

Record watch := mkWatch { w_Kind : string; w_Handler : event → list Request; w_Predicate : event → bool }.

Inductive driver := IstioDriver.
Record BGPPeerConfigReconciler := mkPeerReconciler {
  pr_Namespace : string; pr_Manager : nat; pr_Tracker : option nat;
}.
Record BGPBackendPolicyReconciler := mkPolicyReconciler { br_Snapshot : nat; br_Driver : option driver }.
Record AdvertisedBackendReconciler := mkBackendReconciler { ar_Snapshot : nat }.
Inductive reconciler :=
| PeerReconciler (r : BGPPeerConfigReconciler)
| PolicyReconciler (r : BGPBackendPolicyReconciler)
| BackendReconciler (r : AdvertisedBackendReconciler).

(** What the builder is given: the watches, the name and the reconciler. *)
Record controller := mkController { ctl_Name : string; ctl_Watches : list watch; ctl_Reconciler : reconciler }.

Section setup.
Context `{Predicates}.

Definition setupPeer (r : BGPPeerConfigReconciler) : controller :=
  mkController "bgppeerconfig" [mkWatch "BGPPeerConfig" enqueueObject GenerationChanged] (PeerReconciler r).

Definition setupPolicy (r : BGPBackendPolicyReconciler) : controller :=
  let r := match br_Driver r with None => mkPolicyReconciler (br_Snapshot r) (Some IstioDriver) | Some _ => r end in
  mkController "bgpbackendpolicy" [mkWatch "BGPBackendPolicy" enqueueObject GenerationChanged] (PolicyReconciler r).

Definition setupBackend (r : AdvertisedBackendReconciler) : controller :=
  mkController "advertisedbackend"
    [mkWatch "BGPPeerConfig" enqueueObject GenerationChanged;
     mkWatch "BGPBackendPolicy" enqueueGlobalSweep GenerationChanged] (BackendReconciler r).

End setup.

(** The requests a controller's queue receives for an event. *)
Definition requestsOf (c : controller) (ev : event) : list Request :=
  ctl_Watches c ≫= λ w,
    if String.eqb (w_Kind w) (ev_Kind ev) && w_Predicate w ev then w_Handler w ev else [].

(** ** The process *)

Inductive damper := EwmaDamper.
(** The objects of the process that more than one component holds. *)
Inductive object :=
| IngestManager
| RejectionTracker
| Source (RIB : nat) (Damper : damper) (Tracker : nat).

Inductive action :=
| GetConfigOrDie
| NewManagerCall (o : managerOptions)
| ServeCall (ingestManager : nat)
| SetupWithManager (c : controller)
| AddHealthzCheck (name : string)
| AddReadyzCheck (name : string)
| Start.

Record process := mkProcess { trace : list action; objects : list object }.

(** What [main] does from here on, or the exit status of the process. *)
Definition P (A : Type) : Type := (action → option error) → process → (A + Z) * process.
#[export] Instance P_ret : MRet P := λ A a env p, (inl a, p).
#[export] Instance P_bind : MBind P := λ A B f m env p,
  match m env p with
  | (inl a, p) => f a env p
  | (inr code, p) => (inr code, p)
  end.

(** A call that ends the process with [os.Exit(1)] when it returns an error. *)
Definition orExit (a : action) : P unit := λ env p,
  let p := mkProcess (trace p ++ [a]) (objects p) in
  match env a with None => (inl tt, p) | Some _ => (inr 1%Z, p) end.
(** [go ...]: a call whose result nobody waits for. *)
Definition spawn (a : action) : P unit := λ env p, (inl tt, mkProcess (trace p ++ [a]) (objects p)).
Definition construct (o : object) : P nat := λ env p,
  (inl (length (objects p)), mkProcess (trace p) (objects p ++ [o])).
Definition osExit {A} (code : Z) : P A := λ env p, (inr code, p).

Definition isErrHelp (e : error) : bool :=
  match e with Opaque s => String.eqb s "flag: help requested" | _ => false end.

Section main.
Context {X : Type} `{LibraryFlags X} `{Predicates}.

(** [flag.Parse()] with [ExitOnError]. *)
Definition flagParse (args : list string) : P (Vars * X) :=
  match Parse commandLine args (defaultVars, libraryDefaults) with
  | Some (Ok (_, st)) => mret st
  | Some (Err e) => if isErrHelp e then osExit 0 else osExit 2
  | None => osExit 2
  end.

(** [main] from the construction of the ingest manager on. *)
Definition runManager (Getenv : string → string) : P unit :=
  ingestManager ← construct IngestManager;
  _ ← spawn (ServeCall ingestManager);
  rejectionTracker ← construct RejectionTracker;
  _ ← orExit (SetupWithManager (setupPeer
        (mkPeerReconciler (Getenv "POD_NAMESPACE") ingestManager (Some rejectionTracker))));
  snapshotSource ← construct (Source ingestManager EwmaDamper rejectionTracker);
  _ ← orExit (SetupWithManager (setupPolicy (mkPolicyReconciler snapshotSource None)));
  _ ← orExit (SetupWithManager (setupBackend (mkBackendReconciler snapshotSource)));
  _ ← orExit (AddHealthzCheck "healthz");
  _ ← orExit (AddReadyzCheck "readyz");
  orExit Start.

Definition main (args : list string) (Getenv : string → string) : P unit :=
  st ← flagParse args;
  let v := st.1 in
  _ ← orExit GetConfigOrDie;
  _ ← orExit (NewManagerCall (ctrlOptions v));
  runManager Getenv.

End main.

(** ** The command line, printed and parsed *)

Definition formatBool (b : bool) : string := if b then "true" else "false".

(** The arguments that spell out every flag. *)
Definition printVars (v : Vars) : list string :=
  [flagArg "metrics-bind-address" (metricsAddr v);
   flagArg "health-probe-bind-address" (probeAddr v);
   flagArg "leader-elect" (formatBool (enableLeaderElection v));
   flagArg "metrics-secure" (formatBool (secureMetrics v));
   flagArg "webhook-cert-path" (webhookCertPath v);
   flagArg "webhook-cert-name" (webhookCertName v);
   flagArg "webhook-cert-key" (webhookCertKey v);
   flagArg "metrics-cert-path" (metricsCertPath v);
   flagArg "metrics-cert-name" (metricsCertName v);
   flagArg "metrics-cert-key" (metricsCertKey v);
   flagArg "enable-http2" (formatBool (enableHTTP2 v))].

Section theorems.
Context {X : Type} `{HL : LibraryFlags X}.

Lemma ParseBool_format b : ParseBool (formatBool b) = Ok b.
Proof. by destruct b. Qed.

(** One step of the loop on a flag that is spelled out. *)
Lemma ParseLoop_flagArg {S} (formal : FlagSet S) fuel name value f args st st' :
  validName name = true → lookupFlag name formal = Some f → flag_set f value st = Ok st' →
  ParseLoop formal (Datatypes.S fuel) (flagArg name value :: args) st = ParseLoop formal fuel args st'.
Proof. intros. cbn [ParseLoop]. by erewrite parseOne_flagArg. Qed.

(** (Round trip.)  Whatever the values (empty, with spaces, dashes or equal signs
    in them), the command line that spells out all flags is parsed back to exactly
    those values, whatever flags the libraries add, and leaves those alone. *)
Theorem Parse_printVars v :
  Parse commandLine (printVars v) (defaultVars, libraryDefaults) = Some (Ok ([], (v, libraryDefaults))).
Proof.
  unfold Parse, printVars. cbn [length].
  do 11 (erewrite ParseLoop_flagArg;
    [|reflexivity|reflexivity|cbn; rewrite ?ParseBool_format; reflexivity]).
  by destruct v.
Qed.

Context `{HP : Predicates}.

(** ** The start-up sequence *)

(** The calls in order: the manager, the shared BGP server, the three controllers,
    the two probes, and the event loop. *)
Definition startup (v : Vars) (namespace : string) : list action :=
  [GetConfigOrDie; NewManagerCall (ctrlOptions v); ServeCall 0;
   SetupWithManager (setupPeer (mkPeerReconciler namespace 0 (Some 1)));
   SetupWithManager (setupPolicy (mkPolicyReconciler 2 None));
   SetupWithManager (setupBackend (mkBackendReconciler 2));
   AddHealthzCheck "healthz"; AddReadyzCheck "readyz"; Start].

Definition waited (a : action) : bool := match a with ServeCall _ => false | _ => true end.
Definition fails (env : action → option error) (a : action) : bool :=
  waited a && match env a with Some _ => true | None => false end.

(** The calls made: up to and including the first that fails. *)
Fixpoint failFast (env : action → option error) (calls : list action) : list action * bool :=
  match calls with
  | [] => ([], true)
  | a :: rest => if fails env a then ([a], false) else let '(made, ok) := failFast env rest in (a :: made, ok)
  end.

Definition exitStatus (r : unit + Z) : Z := match r with inl _ => 0 | inr code => code end.

(** C34 (Fail fast.)  The process ends with status 2 on a bad command line and 0 on
    a request for help, before it calls anything; otherwise it makes the calls of
    [startup] in order, stops with status 1 at the first that fails, and only returns
    from [main] (status 0) when the manager was started and stopped cleanly. *)
Theorem main_fails_fast args getenv env :
  let '(r, p) := main args getenv env (mkProcess [] []) in
  match Parse commandLine args (defaultVars, libraryDefaults) with
  | Some (Ok (_, st)) =>
      let '(made, ok) := failFast env (startup st.1 (getenv "POD_NAMESPACE")) in
      trace p = made ∧ exitStatus r = if ok then 0%Z else 1%Z
  | Some (Err e) => trace p = [] ∧ exitStatus r = if isErrHelp e then 0%Z else 2%Z
  | None => False
  end.
Proof.
  destruct (ParseLoop_enough commandLine (Datatypes.S (length args)) args (defaultVars, libraryDefaults))
    as [[r Hr] E]; [lia|]. rewrite E in Hr.
  unfold main, flagParse. rewrite Hr. destruct r as [[rest st]|e].
  2: { by destruct (isErrHelp e). }
  cbv [runManager mbind P_bind mret P_ret orExit spawn construct startup failFast fails waited andb trace objects app length].
  repeat match goal with |- context [match env ?a with _ => _ end] => destruct (env a); [by cbn|] end.
  done.
Qed.

Lemma main_trace args getenv env r p :
  main args getenv env (mkProcess [] []) = (r, p) →
  trace p ≠ [] → ∃ rest st,
    Parse commandLine args (defaultVars, libraryDefaults) = Some (Ok (rest, st)) ∧
    trace p `prefix_of` startup st.1 (getenv "POD_NAMESPACE") ∧
    objects p `prefix_of` [IngestManager; RejectionTracker; Source 0 EwmaDamper 1] ∧
    (Start ∈ trace p → length (objects p) = 3).
Proof.
  intros Hm Ht. unfold main, flagParse in Hm.
  destruct (Parse commandLine args _) as [[[rest st]|e]|].
  2: { by destruct (isErrHelp e); injection Hm as <- <-. }
  2: { by injection Hm as <- <-. }
  exists rest, st. split; [done|].
  cbv [runManager mbind P_bind mret P_ret orExit spawn construct trace objects app length] in Hm.
  repeat match type of Hm with
  | context [match env ?a with _ => _ end] =>
      destruct (env a); [injection Hm as <- <-; cbn;
        (split; [eexists; reflexivity|split; [eexists; reflexivity|set_solver]])|]
  end.
  injection Hm as <- <-. cbn. split; [by exists []|]. split; [by exists []|done].
Qed.

Definition served (a : action) : option nat := match a with ServeCall m => Some m | _ => None end.
Definition controllerOf (a : action) : option controller :=
  match a with SetupWithManager c => Some c | _ => None end.

(** (One of each.)  When the event loop starts, exactly one BGP session manager
    was constructed and is served once; the BGPPeerConfig controller drives that
    manager, and the snapshot source, which both other controllers hold, reads its
    RIB and reports rejections to the tracker the BGPPeerConfig controller reads;
    policies are lowered by the Istio driver. *)
Theorem main_shares args getenv env r p :
  main args getenv env (mkProcess [] []) = (r, p) → Start ∈ trace p →
  ∃ m t s, omap served (trace p) = [m] ∧
    objects p !! m = Some IngestManager ∧ objects p !! t = Some RejectionTracker ∧
    objects p !! s = Some (Source m EwmaDamper t) ∧
    (∀ j, objects p !! j = Some IngestManager → j = m) ∧
    ctl_Reconciler <$> omap controllerOf (trace p) =
      [PeerReconciler (mkPeerReconciler (getenv "POD_NAMESPACE") m (Some t));
       PolicyReconciler (mkPolicyReconciler s (Some IstioDriver));
       BackendReconciler (mkBackendReconciler s)].
Proof.
  intros Hm Hs. destruct (main_trace _ _ _ _ _ Hm) as (rest & st & _ & Htr & Hobj & Hlen).
  { intros E. rewrite E in Hs. by apply not_elem_of_nil in Hs. }
  assert (trace p = startup st.1 (getenv "POD_NAMESPACE")) as Etr.
  { destruct Htr as [l Hl]. destruct l as [|a l _] using rev_ind; [by rewrite app_nil_r in Hl|].
    exfalso. change (startup st.1 (getenv "POD_NAMESPACE"))
      with (removelast (startup st.1 (getenv "POD_NAMESPACE")) ++ [Start]) in Hl.
    rewrite app_assoc in Hl. apply app_inj_tail in Hl as [Hl _].
    assert (Start ∈ removelast (startup st.1 (getenv "POD_NAMESPACE"))) as Hin by (rewrite Hl; set_solver).
    cbn in Hin. rewrite !elem_of_cons, elem_of_nil in Hin. naive_solver. }
  assert (objects p = [IngestManager; RejectionTracker; Source 0 EwmaDamper 1]) as Eobj.
  { apply prefix_length_eq; [done|]. by rewrite Hlen. }
  exists 0, 1, 2. rewrite Etr, Eobj. repeat split.
  intros [|[|[|j]]]; by cbn.
Qed.

(** C35 (Hardening.)  Unless [--enable-http2] is given, both servers of the manager
    offer only HTTP/1.1, whatever their TLS configuration was, and otherwise it is
    left alone; metrics are served behind authentication and authorization exactly
    when they are served over HTTPS; a Secret is never cached. *)
Theorem main_hardens args getenv env r p o :
  main args getenv env (mkProcess [] []) = (r, p) → NewManagerCall o ∈ trace p →
  ∃ rest st, Parse commandLine args (defaultVars, libraryDefaults) = Some (Ok (rest, st)) ∧
    (∀ opts c, opts = wo_TLSOpts (opt_WebhookServer o) ∨ opts = mo_TLSOpts (opt_Metrics o) →
       applyTLSOpts opts c = if enableHTTP2 st.1 then c else mkTLSConfig ["http/1.1"] (tls_rest c)) ∧
    mo_SecureServing (opt_Metrics o) = secureMetrics st.1 ∧
    (mo_FilterProvider (opt_Metrics o) = Some WithAuthenticationAndAuthorization ↔
       mo_SecureServing (opt_Metrics o) = true) ∧
    "Secret" ∈ opt_CacheDisableFor o.
Proof.
  intros Hm Ho. destruct (main_trace _ _ _ _ _ Hm) as (rest & st & Hp & Htr & _ & _).
  { intros E. rewrite E in Ho. by apply not_elem_of_nil in Ho. }
  exists rest, st. split; [done|].
  assert (o = ctrlOptions st.1) as ->.
  { destruct Htr as [l Hl]. assert (NewManagerCall o ∈ startup st.1 (getenv "POD_NAMESPACE")) as Hin.
    { rewrite Hl. apply elem_of_app. by left. }
    unfold startup in Hin. rewrite !elem_of_cons, elem_of_nil in Hin. naive_solver. }
  cbn. unfold webhookServerOptions, metricsServerOptions, tlsOpts.
  repeat split; repeat case_match; cbn in *; try done; try set_solver; intros; naive_solver.
Qed.

(** ** What wakes a controller *)

(** An update that leaves the generation alone, such as any write of a status, wakes
    no controller; other events wake the controllers of the kind, and a policy wakes
    the view with the one request that stands for all. *)
Theorem requests_of_event r1 r2 r3 ev :
  let changed := match ev_Type ev with UpdateEvent => negb (ev_Old ev =? ev_New ev)%Z | _ => true end in
  requestsOf (setupPeer r1) ev =
    (if changed && String.eqb "BGPPeerConfig" (ev_Kind ev) then [ev_Key ev] else []) ∧
  requestsOf (setupPolicy r2) ev =
    (if changed && String.eqb "BGPBackendPolicy" (ev_Kind ev) then [ev_Key ev] else []) ∧
  requestsOf (setupBackend r3) ev =
    (if negb changed then []
     else if String.eqb "BGPPeerConfig" (ev_Kind ev) then [ev_Key ev]
     else if String.eqb "BGPBackendPolicy" (ev_Kind ev) then [mkNamespacedName "" ""] else []).
Proof.
  assert (GenerationChanged ev =
    match ev_Type ev with UpdateEvent => negb (ev_Old ev =? ev_New ev)%Z | _ => true end) as Hg.
  { destruct (ev_Type ev) eqn:E; [|by apply GenerationChanged_update|..];
      apply GenerationChanged_other; congruence. }
  unfold requestsOf, setupPolicy. cbn -[String.eqb]. rewrite <-Hg.
  destruct (String.eqb_spec "BGPPeerConfig" (ev_Kind ev)) as [Hk|Hk];
    destruct (String.eqb_spec "BGPBackendPolicy" (ev_Kind ev)) as [Hk'|Hk'];
    [by rewrite <-Hk in Hk'|destruct (GenerationChanged ev); by cbn..].
Qed.

End theorems.

Module MainExamples.

#[local] Instance noFlags : LibraryFlags unit := {| libraryFlags := []; libraryDefaults := tt |}.
Definition generationChanged (ev : event) : bool :=
  match ev_Type ev with UpdateEvent => negb (ev_Old ev =? ev_New ev)%Z | _ => true end.
#[local] Instance predicates : Predicates.
Proof.
  refine {| GenerationChanged := generationChanged |}; unfold generationChanged; intros ev.
  - by intros ->.
  - by destruct (ev_Type ev).
Defined.

Definition env (a : action) : option error := None.
Definition getenv (name : string) : string := if String.eqb name "POD_NAMESPACE" then "kreg-system" else "".
Definition run := main ["--leader-elect"; "--metrics-bind-address"; ":8443"] getenv env (mkProcess [] []).

Lemma started : Start ∈ trace run.2.
Proof. apply elem_of_app with (l1 := removelast (trace run.2)) (l2 := [Start]). right. by constructor. Qed.

Lemma main_shares_witness : ∃ m t s, omap served (trace run.2) = [m] ∧
  objects run.2 !! s = Some (Source m EwmaDamper t).
Proof.
  destruct (main_shares ["--leader-elect"; "--metrics-bind-address"; ":8443"] getenv env run.1 run.2)
    as (m & t & s & H1 & _ & _ & H2 & _).
  - apply surjective_pairing.
  - exact started.
  - by exists m, t, s.
Defined.

Definition options : managerOptions :=
  ctrlOptions (set_metricsAddr ":8443" (set_enableLeaderElection true defaultVars)).
Lemma main_hardens_witness : applyTLSOpts (mo_TLSOpts (opt_Metrics options)) (mkTLSConfig ["h2"] [])
  = mkTLSConfig ["http/1.1"] [].
Proof.
  destruct (main_hardens ["--leader-elect"; "--metrics-bind-address"; ":8443"] getenv env run.1 run.2 options)
    as (rest & st & Hp & Htls & _).
  - apply surjective_pairing.
  - apply list_elem_of_further, list_elem_of_here.
  - rewrite Htls by (by right). vm_compute in Hp. injection Hp as <- <-. reflexivity.
Defined.

Example bad_flag : (main ["--no-such-flag"] getenv env (mkProcess [] [])).1 = inr 2%Z.
Proof. reflexivity. Qed.
Example help : (main ["-h"] getenv env (mkProcess [] [])).1 = inr 0%Z.
Proof. reflexivity. Qed.
Example bad_bool : (main ["--leader-elect=maybe"] getenv env (mkProcess [] [])).1 = inr 2%Z.
Proof. reflexivity. Qed.

End MainExamples.
