(* ===== verification/Scheme.v ===== *)
(** * Scheme: the registration of the API types

    groupversion_info.go and the [init] function of each types file: which Go types
    the API machinery knows under which group, version and kind; and the [init] function
    of main.go, which builds the scheme of the process.  [runtime.Scheme] is the class
    [RuntimeScheme]; its laws say what [AddKnownTypes] documents. *)
From S2P Require Import Prelude GoStrings GoHeap DeepCopy.
From S2P Require Import Api Pipeline Objects Reconcile Istio Kube Delivery.

Record GroupVersion := mkGroupVersion { gv_Group : string; gv_Version : string }.
#[export] Instance GroupVersion_eq_dec : EqDecision GroupVersion.
Proof. solve_decision. Defined.
#[export] Instance GroupVersion_countable : Countable GroupVersion.
Proof.
  refine (inj_countable' (λ g, (gv_Group g, gv_Version g)) (λ p, mkGroupVersion p.1 p.2) _). by intros [].
Defined.

(** A scheme maps a group, version and kind to a Go type.  [AddKnownTypes] registers
    types under the names they have in Go, and panics when a kind is taken by another
    type ([None]); [AddToGroupVersion] registers the option and event types that every
    group has, under the group's own version and elsewhere. *)
Class RuntimeScheme (S : Type) := {
  recognized : S → gmap (GroupVersion * string) string;
  AddKnownTypes : GroupVersion → list string → S → option S;
  AddToGroupVersion : GroupVersion → S → option S;
}.

Section scheme.
Context {S : Type} `{RuntimeScheme S}.

Definition SchemeGroupVersion : GroupVersion := mkGroupVersion "kreg.twr.dev" "v1alpha1".

(** The [init] functions: each registers a kind and its list. *)
Definition initAdvertisedBackend : S → option S :=
  AddKnownTypes SchemeGroupVersion ["AdvertisedBackend"; "AdvertisedBackendList"].
Definition initBGPBackendPolicy : S → option S :=
  AddKnownTypes SchemeGroupVersion ["BGPBackendPolicy"; "BGPBackendPolicyList"].
Definition initBGPGatewayClassConfig : S → option S :=
  AddKnownTypes SchemeGroupVersion ["BGPGatewayClassConfig"; "BGPGatewayClassConfigList"].
Definition initBGPPeerConfig : S → option S :=
  AddKnownTypes SchemeGroupVersion ["BGPPeerConfig"; "BGPPeerConfigList"].
Definition initBGPStabilityConfig : S → option S :=
  AddKnownTypes SchemeGroupVersion ["BGPStabilityConfig"; "BGPStabilityConfigList"].
Definition initCommunityMap : S → option S :=
  AddKnownTypes SchemeGroupVersion ["CommunityMap"; "CommunityMapList"].

(** The functions [SchemeBuilder] holds once the package is initialized (the files
    in the order of their names), and [AddToScheme], which runs them. *)
Definition SchemeBuilder : list (S → option S) :=
  [AddToGroupVersion SchemeGroupVersion; initAdvertisedBackend; initBGPBackendPolicy;
   initBGPGatewayClassConfig; initBGPPeerConfig; initBGPStabilityConfig; initCommunityMap].
Definition AddToScheme (s : S) : option S := foldl (λ s f, s ≫= f) (Some s) SchemeBuilder.

(** The [init] function of main.go: the types of client-go, of Istio and of this API are
    added to a new scheme, and [utilruntime.Must] panics when one of them cannot be. *)
Definition init (clientgoAddToScheme istioAddToScheme : S → option S) (scheme : S) : option S :=
  scheme ← clientgoAddToScheme scheme;
  scheme ← istioAddToScheme scheme;
  AddToScheme scheme.

(** ** What a registration does *)

Notation types := (gmap (GroupVersion * string) string).

(** It can be made when no kind is taken by another type, and adds exactly its types. *)
Definition provides (ts : types) (f : S → option S) : Prop := ∀ s,
  (∀ k t, ts !! k = Some t → recognized s !! k = None ∨ recognized s !! k = Some t) →
  ∃ s', f s = Some s' ∧ recognized s' = ts ∪ recognized s.

Definition typesOf (gv : GroupVersion) (kinds : list string) : types :=
  list_to_map ((λ k, ((gv, k), k)) <$> kinds).

Lemma typesOf_lookup gv kinds gv' k t :
  typesOf gv kinds !! (gv', k) = Some t ↔ gv' = gv ∧ k ∈ kinds ∧ t = k.
Proof.
  unfold typesOf. split.
  - intros (k0 & [= -> -> ->] & Hk)%elem_of_list_to_map_2%list_elem_of_fmap. done.
  - intros (-> & Hk & ->). apply elem_of_list_to_map_1'.
    + by intros y (k0 & [= -> ->] & _)%list_elem_of_fmap.
    + by apply (list_elem_of_fmap_2 (λ k, ((gv, k), k))).
Qed.

Lemma typesOf_app gv k1 k2 : typesOf gv (k1 ++ k2) = typesOf gv k2 ∪ typesOf gv k1.
Proof.
  apply map_eq. intros [gv' k]. apply option_eq. intros t.
  rewrite lookup_union_Some_raw, !typesOf_lookup, elem_of_app, eq_None_not_Some. split.
  - intros (-> & Hk & ->). destruct (decide (k ∈ k2)) as [?|Hn]; [by left|right].
    split; [|naive_solver]. intros [t (_ & ? & _)%typesOf_lookup]. done.
  - naive_solver.
Qed.

(** The laws: [metaTypes] has the types every group of that version gets. *)
Class RuntimeSchemeLaws (metaTypes : GroupVersion → types) : Prop := {
  AddToGroupVersion_provides gv : provides (metaTypes gv) (AddToGroupVersion gv);
  AddKnownTypes_provides gv kinds : provides (typesOf gv kinds) (AddKnownTypes gv kinds);
}.

Lemma agree_l (A B : types) k t : map_agree A B → A !! k = Some t → (B ∪ A) !! k = Some t.
Proof.
  intros Hag Hk. destruct (B !! k) as [t'|] eqn:E; [|by rewrite lookup_union_r].
  rewrite (lookup_union_Some_l _ _ _ _ E). f_equal. symmetry. by eapply map_agree_spec.
Qed.

Lemma provides_bind (A B : types) f g :
  map_agree A B → provides A f → provides B g → provides (B ∪ A) (λ s, f s ≫= g).
Proof.
  intros Hag Hf Hg s Hs.
  destruct (Hf s) as (s1 & E1 & H1); [intros k t Hk; by apply Hs, agree_l|].
  destruct (Hg s1) as (s2 & E2 & H2).
  { intros k t Hk. rewrite H1. destruct (A !! k) as [t'|] eqn:E.
    - right. rewrite (lookup_union_Some_l _ _ _ _ E). f_equal. by eapply map_agree_spec.
    - rewrite lookup_union_r by done. apply Hs. by apply lookup_union_Some_l. }
  exists s2. rewrite E1. split; [done|]. by rewrite H2, H1, (assoc_L (∪)).
Qed.

Lemma agree_with_kinds (M : types) gv kinds :
  (∀ k, k ∈ kinds → M !! (gv, k) = None) → map_agree M (typesOf gv kinds).
Proof.
  intros Hn. apply map_agree_spec. intros [gv' k] x y Hx (-> & Hk & ->)%typesOf_lookup. by rewrite Hn in Hx.
Qed.

(** Kinds of the same group and version are added to those already there. *)
Lemma register_more (M : types) gv k1 k2 f g :
  (∀ k, k ∈ k1 ++ k2 → M !! (gv, k) = None) →
  provides (typesOf gv k1 ∪ M) f → provides (typesOf gv k2) g →
  provides (typesOf gv (k1 ++ k2) ∪ M) (λ s, f s ≫= g).
Proof.
  intros Hn Hf Hg. rewrite typesOf_app, <- (assoc_L (∪)). apply provides_bind; [|done..].
  apply map_agree_spec. intros [gv' k] x y Hx (-> & Hk & ->)%typesOf_lookup.
  apply lookup_union_Some_raw in Hx as [(_ & _ & ->)%typesOf_lookup|[_ Hx]]; [done|].
  by rewrite Hn in Hx by set_solver.
Qed.

Definition apiKinds : list string :=
  ["AdvertisedBackend"; "AdvertisedBackendList"; "BGPBackendPolicy"; "BGPBackendPolicyList";
   "BGPGatewayClassConfig"; "BGPGatewayClassConfigList"; "BGPPeerConfig"; "BGPPeerConfigList";
   "BGPStabilityConfig"; "BGPStabilityConfigList"; "CommunityMap"; "CommunityMapList"].
Definition apiTypes : types := typesOf SchemeGroupVersion apiKinds.

(** [AddToScheme] makes the API machinery recognize, beside what it did before, the
    kinds of this API, each as the Go type of its name, and the types every group has. *)
Theorem AddToScheme_registers metaTypes `{!RuntimeSchemeLaws metaTypes} :
  (∀ k, k ∈ apiKinds → metaTypes SchemeGroupVersion !! (SchemeGroupVersion, k) = None) →
  provides (apiTypes ∪ metaTypes SchemeGroupVersion) AddToScheme.
Proof.
  intros Hn. change AddToScheme with
    (λ s, (λ s, (λ s, (λ s, (λ s, (λ s, AddToGroupVersion SchemeGroupVersion s ≫= initAdvertisedBackend) s
      ≫= initBGPBackendPolicy) s ≫= initBGPGatewayClassConfig) s ≫= initBGPPeerConfig) s
      ≫= initBGPStabilityConfig) s ≫= initCommunityMap).
  unfold apiTypes. change apiKinds with
    (((((([] ++ ["AdvertisedBackend"; "AdvertisedBackendList"])
      ++ ["BGPBackendPolicy"; "BGPBackendPolicyList"])
      ++ ["BGPGatewayClassConfig"; "BGPGatewayClassConfigList"])
      ++ ["BGPPeerConfig"; "BGPPeerConfigList"])
      ++ ["BGPStabilityConfig"; "BGPStabilityConfigList"])
      ++ ["CommunityMap"; "CommunityMapList"]).
  repeat (apply register_more; [intros k Hk; apply Hn; vm_compute in Hk |- *; set_solver| |apply AddKnownTypes_provides]).
  unfold typesOf. simpl. rewrite (left_id_L ∅ _). apply AddToGroupVersion_provides.
Qed.

(** The group and version as [apiVersion] has them: the core group has no name. *)
Definition apiVersionText (gv : GroupVersion) : string :=
  if String.eqb (gv_Group gv) "" then gv_Version gv else gv_Group gv +:+ "/" +:+ gv_Version gv.
Definition typeMeta (o : Object) : TypeMeta :=
  match o with
  | OService s => svc_TypeMeta s
  | OEndpointSlice s => es_TypeMeta s
  | ODestinationRule d => dr_TypeMeta d
  end.
Definition known (s : S) (o : Object) : Prop :=
  ∃ gv, apiVersionText gv = tm_APIVersion (typeMeta o) ∧
    recognized s !! (gv, tm_Kind (typeMeta o)) = Some (typeName o).

Definition coreTypes : list (GroupVersion * string) :=
  [(mkGroupVersion "" "v1", "Service"); (mkGroupVersion "discovery.k8s.io" "v1", "EndpointSlice")].
Definition ruleType : GroupVersion * string := (mkGroupVersion "networking.istio.io" "v1", "DestinationRule").

(** The rendered objects have the type information of their kinds. *)
Lemma rendered_types policy candidates out :
  Render policy candidates = Ok out →
  Forall (λ o, ∃ k, k ∈ ruleType :: coreTypes ∧
    typeMeta o = mkTypeMeta (apiVersionText k.1) k.2 ∧ typeName o = k.2) (OutputObjects out).
Proof.
  unfold Render, renderEndpointSlices. intros Hr. inv_ok. unfold OutputObjects. simpl. constructor.
  { exists (mkGroupVersion "" "v1", "Service"). split; [set_solver|done]. }
  apply Forall_app. split.
  - apply Forall_fmap, Forall_forall. intros s Hs. unfold compose.
    exists (mkGroupVersion "discovery.k8s.io" "v1", "EndpointSlice"). split; [set_solver|].
    match goal with H : mapRes _ _ = Ok _ |- _ => apply mapRes_Ok in H; rename H into Hall end.
    apply list_elem_of_lookup in Hs as [i Hi]. destruct (Forall2_lookup_r _ _ _ _ _ Hall Hi) as (c & _ & Hc).
    unfold renderEndpointSlice in Hc. destruct (addressAndType (bc_Prefix c)) as [[a2 t2]|]; [|done]. by injection Hc as <-.
  - match goal with H : istioLower _ _ _ = Ok _ |- _ => unfold istioLower in H end. inv_ok.
    repeat constructor. exists ruleType. split; [set_solver|done].
Qed.

(** C36 (The scheme of the process).  Given packages of client-go and Istio, and types that
    every group gets, that agree with each other, have no kind of this API under its group
    and version, and have the kinds the policy controller generates, [init] does not panic,
    and the process starts with a scheme that knows every kind of this API and every object
    that a policy is rendered to. *)
Theorem process_scheme metaTypes `{!RuntimeSchemeLaws metaTypes} clientTypes istioTypes clientgo istio scheme :
  let meta := metaTypes SchemeGroupVersion in
  provides clientTypes clientgo → provides istioTypes istio → recognized scheme = ∅ →
  map_agree clientTypes istioTypes → map_agree (istioTypes ∪ clientTypes) meta →
  (∀ k, k ∈ apiKinds → (istioTypes ∪ clientTypes ∪ meta) !! (SchemeGroupVersion, k) = None) →
  Forall (λ k, clientTypes !! k = Some k.2) coreTypes → istioTypes !! ruleType = Some ruleType.2 →
  ∃ s, init clientgo istio scheme = Some s ∧
    (∀ k, k ∈ apiKinds → recognized s !! (SchemeGroupVersion, k) = Some k) ∧
    ∀ policy candidates out, Render policy candidates = Ok out → Forall (known s) (OutputObjects out).
Proof.
  intros meta Hc Hi Hempty Hci Hm Hown Hcore Hrule.
  assert (∀ k, k ∈ apiKinds → (istioTypes ∪ clientTypes) !! (SchemeGroupVersion, k) = None ∧
    meta !! (SchemeGroupVersion, k) = None) as Hown'.
  { intros k Hk. apply lookup_union_None. by apply Hown. }
  assert (map_agree (istioTypes ∪ clientTypes) (apiTypes ∪ meta)) as Hall.
  { apply map_agree_spec. intros k x y Hx [Hy|[_ Hy]]%lookup_union_Some_raw; [|by eapply map_agree_spec].
    destruct k as [gv k]. apply typesOf_lookup in Hy as (-> & Hk & ->). destruct (Hown' k Hk). congruence. }
  assert (provides ((apiTypes ∪ meta) ∪ (istioTypes ∪ clientTypes)) (init clientgo istio)) as Hinit.
  { change (init clientgo istio) with (λ s, clientgo s ≫= λ s, istio s ≫= AddToScheme).
    intros s Hs. destruct (provides_bind _ _ _ _ Hall (provides_bind _ _ _ _ Hci Hc Hi)
      (AddToScheme_registers metaTypes (λ k Hk, proj2 (Hown' k Hk))) s Hs) as (s' & E & Hs').
    exists s'. split; [|done]. rewrite <- E. simpl. by destruct (clientgo s). }
  destruct (Hinit scheme) as (s & Hs & Hrec); [rewrite Hempty; auto|]. rewrite Hempty, (right_id_L ∅ _) in Hrec.
  exists s. split; [done|]. split.
  { intros k Hk. rewrite Hrec. do 2 apply lookup_union_Some_l. by apply typesOf_lookup. }
  intros policy candidates out Hren%rendered_types. eapply Forall_impl; [exact Hren|].
  intros o (k & Hk & Hmeta & Hname). exists k.1. rewrite Hmeta. split; [done|]. simpl. rewrite Hname, Hrec.
  destruct k as [gv k]. apply (agree_l _ _ _ _ Hall).
  apply elem_of_cons in Hk as [[= -> ->]|Hk]; [by apply lookup_union_Some_l|].
  rewrite Forall_forall in Hcore. by apply (agree_l _ _ _ _ Hci), (Hcore (gv, k)).
Qed.
End scheme.

(** Every registered type is a [runtime.Object], and every [runtime.Object] of the
    package is registered. *)
Lemma apiKinds_objects `{Imports} : (λ m, m.1.1) <$> objectMethods = apiKinds.
Proof. reflexivity. Qed.

(** A scheme that satisfies the laws. *)
Module SchemeExamples.

Notation known := (gmap (GroupVersion * string) string).
Definition addTypes (types : known) (s : known) : option known :=
  if decide (map_Forall (λ k t, s !! k = None ∨ s !! k = Some t) types) then Some (types ∪ s) else None.
(** Events under the group's own version and the internal one, statuses in the core group. *)
Definition metaTypes (gv : GroupVersion) : known :=
  {[ (gv, "WatchEvent") := "WatchEvent";
     (mkGroupVersion (gv_Group gv) "__internal", "WatchEvent") := "InternalEvent";
     (mkGroupVersion "" "v1", "Status") := "Status" ]}.
#[local] Instance mapScheme : RuntimeScheme known :=
  {| recognized s := s; AddKnownTypes gv kinds := addTypes (typesOf gv kinds);
     AddToGroupVersion gv := addTypes (metaTypes gv) |}.

Lemma addTypes_provides types : provides types (addTypes types).
Proof. intros s Hs. unfold addTypes. rewrite decide_True by exact Hs. by eexists. Qed.
#[local] Instance mapScheme_laws : RuntimeSchemeLaws metaTypes.
Proof. split; intros; apply addTypes_provides. Qed.

Example registered :
  (AddToScheme (∅ : known) ≫= λ s, s !! (SchemeGroupVersion, "BGPPeerConfigList")) = Some "BGPPeerConfigList".
Proof. vm_compute. reflexivity. Qed.

(** Packages with the kinds that matter, one of which has the statuses too. *)
Definition clientgoTypes : known :=
  <[(mkGroupVersion "" "v1", "Status") := "Status"]> (list_to_map ((λ k, (k, k.2)) <$> coreTypes)).
Definition istioTypes : known := {[ ruleType := "DestinationRule" ]}.

Lemma process_scheme_witness :
  ∃ s : known, init (addTypes clientgoTypes) (addTypes istioTypes) ∅ = Some s ∧
    ∀ policy candidates out, Render policy candidates = Ok out → Forall (Scheme.known s) (OutputObjects out).
Proof.
  destruct (process_scheme metaTypes clientgoTypes istioTypes (addTypes clientgoTypes) (addTypes istioTypes) (∅ : known))
    as (s & Hs & _ & Hknown).
  - apply addTypes_provides.
  - apply addTypes_provides.
  - reflexivity.
  - by_compute.
  - by_compute.
  - apply Forall_forall. by_compute.
  - repeat constructor.
  - reflexivity.
  - exists s. split; [exact Hs|exact Hknown].
Defined.

End SchemeExamples.
