(* ===== verification/Queue.v ===== *)
(** * Queue: a controller over time

    What happens to a controller that [Main] registers is a timeline: events that reach
    it, passes of its [Reconcile], which end at some time with some result, and changes
    others make.  The queue and the workers are controller-runtime's and not modelled:
    [Dispatched] has what it documents of them, that a request is reconciled after an
    event, again after [RequeueAfter] and, after an error, again after a back-off, with a
    bound [latency] on how long a request that is due waits for a worker and is worked on.
    The theorems say how long a request can go unserved, and what holds by then. *)
From S2P Require Import Prelude GoStrings GoNet GoFloat GoTime GoFlag Api Wire Pipeline Ingest Authorize Objects Reconcile.
From S2P Require Import Damp Ewma Report Kube PolicyController PeerController BackendController Progress Main.
Local Open Scope Z_scope.

#[export] Instance NamespacedName_eq_dec : EqDecision NamespacedName.
Proof. solve_decision. Defined.
#[export] Instance NamespacedName_countable : Countable NamespacedName.
Proof.
  refine (inj_countable' (λ n, (nn_Namespace n, nn_Name n)) (λ p, mkNamespacedName p.1 p.2) _). by intros [].
Defined.

(** ** Timelines *)

Inductive action : Type :=
| Woken (ev : event)
| Passed (r : NamespacedName) (result : res Result)
| Changed.

(** Something that has happened by a time, with the world before and after it. *)
Record moment (W : Type) := mkMoment { mo_at : Time; mo_action : action; mo_before : W; mo_after : W }.
Arguments mkMoment {W} _ _ _ _.
Arguments mo_at {W} _.
Arguments mo_action {W} _.
Arguments mo_before {W} _.
Arguments mo_after {W} _.

(** In the order of time, each moment in the world the last one left. *)
Fixpoint chained {W} (l : list (moment W)) : Prop :=
  match l with
  | m :: (m' :: _) as rest => mo_at m <= mo_at m' ∧ mo_before m' = mo_after m ∧ chained rest
  | _ => True
  end.

Lemma chained_next {W} (l : list (moment W)) i m m' :
  chained l → l !! i = Some m → l !! S i = Some m' → mo_at m <= mo_at m' ∧ mo_before m' = mo_after m.
Proof.
  revert i. induction l as [|x l IH]; intros i Hl Hm Hm'; [done|].
  destruct l as [|y l]; [by destruct i|]. destruct Hl as (? & ? & Hl).
  destruct i as [|i]; [by simplify_eq/=|]. by apply (IH i).
Qed.

Lemma chained_times {W} (l : list (moment W)) i j m m' :
  chained l → (i ≤ j)%nat → l !! i = Some m → l !! j = Some m' → mo_at m <= mo_at m'.
Proof.
  intros Hl Hij Hm. revert m'. induction Hij as [|j Hij IH]; intros m' Hm'; [by simplify_eq|].
  destruct (lookup_lt_is_Some_2 l j) as [x Hx]; [apply lookup_lt_Some in Hm'; lia|].
  pose proof (IH x Hx). destruct (chained_next l j x m' Hl Hx Hm'). lia.
Qed.

Section timeline.
Context {W : Type} (c : controller) (Reconcile : NamespacedName → W → res Result * W).
(** What else happens to the world. *)
Context (environment : W → W → Prop).

Definition faithful (m : moment W) : Prop :=
  match mo_action m with
  | Woken _ => mo_after m = mo_before m
  | Passed r result => Reconcile r (mo_before m) = (result, mo_after m)
  | Changed => environment (mo_before m) (mo_after m)
  end.
Definition passOver (r : NamespacedName) (m : moment W) : Prop := ∃ result, mo_action m = Passed r result.

(** A pass over [r] after moment [i], by [deadline]. *)
Definition passBy (l : list (moment W)) (i : nat) (r : NamespacedName) (deadline : Time) : Prop :=
  ∃ j m, (i < j)%nat ∧ l !! j = Some m ∧ passOver r m ∧ mo_at m <= deadline.

Context (latency maxBackoff : Z) (horizon : Time).

(** What controller-runtime does, up to [horizon]. *)
Record Dispatched (l : list (moment W)) : Prop := {
  dispatched_faithful : Forall faithful l;
  dispatched_chained : chained l;
  dispatched_until : Forall (λ m, mo_at m <= horizon) l;
  dispatched_event i m ev r :
    l !! i = Some m → mo_action m = Woken ev → r ∈ requestsOf c ev → mo_at m + latency <= horizon →
    passBy l i r (mo_at m + latency);
  dispatched_requeue i m r res :
    l !! i = Some m → mo_action m = Passed r (Ok res) → 0 < res_RequeueAfter res →
    mo_at m + res_RequeueAfter res + latency <= horizon →
    passBy l i r (mo_at m + res_RequeueAfter res + latency);
  dispatched_retry i m r e :
    l !! i = Some m → mo_action m = Passed r (Err e) → mo_at m + maxBackoff + latency <= horizon →
    passBy l i r (mo_at m + maxBackoff + latency);
}.

(** A pass over [r] in [w] that succeeds asks for another one within [interval]. *)
Definition recurs (interval : Z) (r : NamespacedName) (w : W) : Prop :=
  ∀ res w', Reconcile r w = (Ok res, w') → 0 < res_RequeueAfter res <= interval.

(** From moment [i] on, [P] holds whenever something happens. *)
Definition holdsFrom (l : list (moment W)) (i : nat) (P : W → Prop) : Prop :=
  ∀ j m, (i ≤ j)%nat → l !! j = Some m → P (mo_before m).

Context (l : list (moment W)) (Hl : Dispatched l).

Lemma pass_recurs interval r i m :
  l !! i = Some m → passOver r m → recurs interval r (mo_before m) →
  mo_at m + Z.max interval maxBackoff + latency <= horizon →
  passBy l i r (mo_at m + Z.max interval maxBackoff + latency).
Proof.
  intros Hm [result Hp] Hrec Hh.
  assert (faithful m) as Hf by (eapply Forall_lookup_1; [apply Hl|done]).
  unfold faithful in Hf. rewrite Hp in Hf. destruct result as [res|e].
  - specialize (Hrec _ _ Hf). destruct (dispatched_requeue _ Hl i m r res Hm Hp) as (j & m' & ? & ? & ? & ?); [lia..|].
    exists j, m'. split_and!; [done..|lia].
  - destruct (dispatched_retry _ Hl i m r e Hm Hp) as (j & m' & ? & ? & ? & ?); [lia|].
    exists j, m'. split_and!; [done..|lia].
Qed.

(** Once served, a request whose passes recur is served again within the bound from any
    later time on. *)
Lemma served_again interval r i m t :
  holdsFrom l i (recurs interval r) → l !! i = Some m → passOver r m → mo_at m <= t →
  t + Z.max interval maxBackoff + latency <= horizon →
  ∃ j m', (i < j)%nat ∧ l !! j = Some m' ∧ passOver r m' ∧
    t < mo_at m' <= t + Z.max interval maxBackoff + latency.
Proof.
  remember (length l - i)%nat as n eqn:Hn. revert i m Hn.
  induction n as [n IH] using lt_wf_ind. intros i m Hn Hrec Hm Hp Ht Hh.
  destruct (pass_recurs interval r i m Hm Hp) as (j & m' & Hij & Hm' & Hp' & Hle); [by eapply Hrec|lia|].
  destruct (Z_lt_le_dec t (mo_at m')) as [Hlt|Hge]; [exists j, m'; split_and!; done || lia|].
  destruct (IH (length l - j)%nat) with (i := j) (m := m') as (k & m2 & ? & ? & ? & ?); try done.
  - apply lookup_lt_Some in Hm', Hm. lia.
  - intros k x Hk. apply Hrec. lia.
  - exists k, m2. split_and!; done || lia.
Qed.

(** So is a request that an event made. *)
Lemma served_within interval r i m ev t :
  0 <= interval → holdsFrom l i (recurs interval r) →
  l !! i = Some m → mo_action m = Woken ev → r ∈ requestsOf c ev → mo_at m <= t →
  t + Z.max interval maxBackoff + latency <= horizon →
  ∃ j m', (i < j)%nat ∧ l !! j = Some m' ∧ passOver r m' ∧
    t < mo_at m' <= t + Z.max interval maxBackoff + latency.
Proof.
  intros Hi Hrec Hm Hev Hr Ht Hh.
  destruct (dispatched_event _ Hl i m ev r Hm Hev Hr) as (j & m' & Hij & Hm' & Hp & Hle); [lia|].
  destruct (Z_lt_le_dec t (mo_at m')) as [Hlt|Hge]; [exists j, m'; split_and!; done || lia|].
  destruct (served_again interval r j m' t) as (k & m2 & ? & ? & ? & ?); try done.
  - intros k x Hk. apply Hrec. lia.
  - exists k, m2. split_and!; done || lia.
Qed.

(** What a pass over [r] establishes and everything else keeps, holds for good. *)
Lemma kept_from (P D : W → Prop) r i j m m' :
  holdsFrom l i P → (i ≤ j)%nat → l !! i = Some m → l !! j = Some m' → passOver r m →
  (∀ r' w res w', P w → r' = r ∨ D w → Reconcile r' w = (res, w') → D w') →
  (∀ w w', P w → D w → environment w w' → D w') → D (mo_after m').
Proof.
  intros HP Hij Hm Hm' [result Hp] Hpass Henv. revert m' Hm'.
  induction Hij as [|j Hij IH]; intros m' Hm'.
  all: assert (faithful m') as Hf by (eapply Forall_lookup_1; [apply Hl|done]); unfold faithful in Hf.
  - simplify_eq. rewrite Hp in Hf. eapply Hpass; [by eapply HP|by left|done].
  - destruct (lookup_lt_is_Some_2 l j) as [x Hx]; [apply lookup_lt_Some in Hm'; lia|].
    specialize (IH x Hx). destruct (chained_next l j x m' (dispatched_chained _ Hl) Hx Hm') as [_ Hw].
    rewrite <- Hw in IH. assert (P (mo_before m')) as HP' by (eapply (HP (S j)); [lia|done]).
    destruct (mo_action m') as [ev|r' res|]; [by rewrite Hf|eapply Hpass; eauto|eauto].
Qed.

(** The two together: what holds once [P] has held for longer than the bound. *)
Lemma established_within (P D : W → Prop) interval r ev i m i1 m1 k m' :
  0 <= interval → holdsFrom l i (recurs interval r) →
  l !! i = Some m → mo_action m = Woken ev → r ∈ requestsOf c ev →
  (i ≤ i1)%nat → l !! i1 = Some m1 → holdsFrom l i1 P →
  (∀ r' w res w', P w → r' = r ∨ D w → Reconcile r' w = (res, w') → D w') →
  (∀ w w', P w → D w → environment w w' → D w') →
  l !! k = Some m' → mo_at m1 + Z.max interval maxBackoff + latency < mo_at m' → D (mo_after m').
Proof.
  intros H0 Hrec Hm Hev Hr Hi1 Hm1 HP Hpass Henv Hk Hlt.
  pose proof (dispatched_chained _ Hl) as Hc.
  assert (mo_at m' <= horizon) as Hh by exact (Forall_lookup_1 _ _ _ _ (dispatched_until _ Hl) Hk).
  pose proof (chained_times l i i1 m m1 Hc Hi1 Hm Hm1) as Ht.
  destruct (served_within interval r i m ev (mo_at m1) H0 Hrec Hm Hev Hr Ht) as (j & x & _ & Hx & Hp & Hlo & Hhi); [lia|].
  assert (i1 ≤ j)%nat as Hj.
  { destruct (le_lt_dec i1 j) as [|Hn]; [done|]. pose proof (chained_times l j i1 x m1 Hc ltac:(lia) Hx Hm1). lia. }
  assert (j ≤ k)%nat as Hjk.
  { destruct (le_lt_dec j k) as [|Hn]; [done|]. pose proof (chained_times l k j m' x Hc ltac:(lia) Hk Hx). lia. }
  eapply (kept_from P D r j k x m'); eauto. intros y z Hy. apply HP. lia.
Qed.
End timeline.

(** ** The policy controller *)

Section policies.
Context {W : Type} `{HC : Client W} `{HN : SnapshotSource W} `{HD : Driver} `{HP : Predicates}.
Context (environment : W → W → Prop) (latency maxBackoff : Z) (horizon : Time).

Definition policyReconcile (r : NamespacedName) (w : W) : res Result * W :=
  ReconcilePolicy (nn_Namespace r) (nn_Name r) w.
Definition policyExists (r : NamespacedName) (w : W) : Prop :=
  GetPolicy (nn_Namespace r) (nn_Name r) w ≠ Err NotFound.

Lemma policy_recurs r w : policyExists r w → recurs policyReconcile snapshotPollInterval r w.
Proof.
  intros Hex res w' Hrun. apply ReconcilePolicy_result in Hrun as [-> |[_ Hgone]]; [|done]. by vm_compute.
Qed.

Lemma created_request rec ev :
  ev_Kind ev = "BGPBackendPolicy" → ev_Type ev = CreateEvent → requestsOf (setupPolicy rec) ev = [ev_Key ev].
Proof.
  intros Hk Ht.
  destruct (requests_of_event (mkPeerReconciler "" 0 None) rec (mkBackendReconciler 0) ev) as (_ & Hreq & _).
  by rewrite Hreq, Ht, Hk.
Qed.

(** C19 (Policies are polled).  Let controller-runtime reconcile a request after an event,
    after [RequeueAfter] and after a back-off of at most [maxBackoff], each within
    [latency].  From the event that creates a policy on, as long as the policy exists and
    whatever other events, passes and changes interleave and whether or not its passes
    succeed: after any time [t] a pass over it ends by [t], the polling interval or the
    longest back-off, whichever is longer, and the latency together. *)
Theorem policies_polled rec l i m ev t :
  let bound := Z.max snapshotPollInterval maxBackoff + latency in
  Dispatched (setupPolicy rec) policyReconcile environment latency maxBackoff horizon l →
  l !! i = Some m → mo_action m = Woken ev → ev_Kind ev = "BGPBackendPolicy" → ev_Type ev = CreateEvent →
  holdsFrom l i (policyExists (ev_Key ev)) →
  mo_at m <= t → t + bound <= horizon →
  ∃ j m', (i < j)%nat ∧ l !! j = Some m' ∧ passOver (ev_Key ev) m' ∧ t < mo_at m' <= t + bound.
Proof.
  intros bound Hl Hm Hev Hk Ht Hex Hle Hh. subst bound.
  destruct (served_within _ _ _ _ _ _ l Hl snapshotPollInterval (ev_Key ev) i m ev t)
    as (j & m' & ? & ? & ? & ?); [done| |done|done| |done|lia|].
  - intros j x Hj Hx. by apply policy_recurs, (Hex j).
  - rewrite created_request by done. set_solver.
  - exists j, m'. split_and!; done || lia.
Qed.
End policies.

(** ** The view controller *)

Section view.
Context `{HPf : Platform} `{HS : Sorter} {W : Type} `{HC : BackendClient W} `{HN : SnapshotSource W} `{HP : Predicates}.
Context (environment : W → W → Prop) (latency maxBackoff : Z) (horizon : Time).

Definition viewReconcile (_ : NamespacedName) (w : W) : res Result * W := ReconcileBackends w.

Lemma view_recurs r w : recurs viewReconcile snapshotPollInterval r w.
Proof.
  intros res w'. unfold viewReconcile, ReconcileBackends. intros Hrun.
  repeat (case_match; simplify_eq/=); by vm_compute.
Qed.

(** (The view is polled for good).  Every event of a peer configuration or a policy that
    wakes the view controller, the deletion of the object included, starts polling that
    never ends: whatever happens, after any time [t] a pass for its request ends by [t],
    the polling interval or the longest back-off, and the latency together.  Peer
    configurations with distinct names poll separately, though a pass rebuilds the whole
    view whichever request it serves. *)
Theorem view_polls_for_good rec l i m ev r t :
  let bound := Z.max snapshotPollInterval maxBackoff + latency in
  Dispatched (setupBackend rec) viewReconcile environment latency maxBackoff horizon l →
  l !! i = Some m → mo_action m = Woken ev → r ∈ requestsOf (setupBackend rec) ev →
  mo_at m <= t → t + bound <= horizon →
  ∃ j m', (i < j)%nat ∧ l !! j = Some m' ∧ passOver r m' ∧ t < mo_at m' <= t + bound.
Proof.
  intros bound Hl Hm Hev Hr Hle Hh. subst bound.
  destruct (served_within _ _ _ _ _ _ l Hl snapshotPollInterval r i m ev t)
    as (j & m' & ? & ? & ? & ?); [done| |done|done|done|done|lia|].
  - intros j x _ _. apply view_recurs.
  - exists j, m'. split_and!; done || lia.
Qed.

Context `{HL : !BackendClientLaws W} `{HR : !ReliableBackends W}.

(** The snapshot has distinct backends with these names, whose records the API server
    takes, none of them taken by a record of others; stored records have a version. *)
Definition steady (names : list string) (w : W) : Prop :=
  (∃ candidates w1, SourceSnapshot w = (Ok candidates, w1) ∧ objectName <$> candidates = names ∧
     admittedBy w1 candidates) ∧
  (∀ n, recordVersioned w n) ∧
  ∀ n b, n ∈ names → records w !! n = Some b → ownRecord b.
(** The controller's records are exactly those of the backends named. *)
Definition showing (names : list string) (w : W) : Prop :=
  ∀ n, (∃ b, records w !! n = Some b ∧ ownRecord b) ↔ n ∈ names.

Lemma view_pass_shows names w res w' :
  currentBackends W → snapshotKeeps → NoDup names → steady names w →
  ReconcileBackends w = (res, w') → showing names w'.
Proof.
  intros Hlists Hsnap Hnd ((cands & w1 & Hs & Hnames & Hadm) & Hver & Hown) Hrun. subst names.
  destruct (view_pass_succeeds w cands w1 Hsnap Hs Hnd Hadm Hver) as [w'' Hok]. rewrite Hok in Hrun.
  injection Hrun as <- <-.
  destruct (ReconcileBackends_exact _ _ _ Hlists Hsnap Hok) as (_ & cands' & policies & w2 & Hs' & _ & Hall).
  rewrite Hs in Hs'. injection Hs' as <- <-. destruct (Hall Hnd) as [Hin Hout]. intros n. split.
  - intros (b & Hb & Hob). destruct (decide (n ∈ objectName <$> cands)) as [|Hn]; [done|].
    rewrite Hout in Hb by done. destruct (records w !! n) as [b0|]; [|done]. simpl in Hb.
    case_decide; by simplify_eq.
  - intros (c & -> & Hc)%list_elem_of_fmap. destruct (Hin c Hc) as (b & t & Hb & _ & Hlab & Hnew & _).
    exists b. split; [done|]. destruct (records w !! objectName c) as [old|] eqn:Hold; [|by apply Hnew].
    unfold ownRecord. rewrite (Hlab old eq_refl). eapply Hown; [|exact Hold]. by apply list_elem_of_fmap_2.
Qed.

End view.

Module QueueExamples.
Import MemoryServer ReconcileExamples PolicyControllerExamples MainExamples.
#[local] Existing Instance predicates.
#[local] Existing Instance constant.
#[local] Existing Instance noDriver.

Definition key : NamespacedName := mkNamespacedName "web" "shop".
Definition born : event := mkEvent "BGPBackendPolicy" CreateEvent key 0 1.
Definition nothing {W} : W → W → Prop := eq.

(** An event, two passes that each ask for another after the polling interval, and a last
    moment some time later. *)
Definition story {W} (ev : event) (w0 w1 w2 : W) : list (moment W) :=
  let again := Ok (mkResult snapshotPollInterval) in
  [mkMoment 0 (Woken ev) w0 w0; mkMoment (1 * Second) (Passed (ev_Key ev) again) w0 w1;
   mkMoment (32 * Second) (Passed (ev_Key ev) again) w1 w2; mkMoment (40 * Second) Changed w2 w2].

Lemma story_dispatched {W} c (Reconcile : NamespacedName → W → res Result * W) ev w0 w1 w2 :
  requestsOf c ev = [ev_Key ev] →
  Reconcile (ev_Key ev) w0 = (Ok (mkResult snapshotPollInterval), w1) →
  Reconcile (ev_Key ev) w1 = (Ok (mkResult snapshotPollInterval), w2) →
  Dispatched c Reconcile nothing (5 * Second) (5 * Second) (40 * Second) (story ev w0 w1 w2).
Proof.
  intros Hreq H1 H2. split.
  - by repeat constructor.
  - by split_and!.
  - by repeat constructor.
  - intros [|[|[|[|i]]]] m ev' r Hm Ha Hr _; simplify_eq/=. rewrite Hreq in Hr.
    apply list_elem_of_singleton in Hr as ->. exists 1%nat. eexists.
    split_and!; [lia|reflexivity|by eexists|done].
  - intros [|[|[|[|i]]]] m r res Hm Ha _ Hh; simplify_eq/=; [|done].
    exists 2%nat. eexists. split_and!; [lia|reflexivity|by eexists|done].
  - intros [|[|[|[|i]]]] m r e Hm Ha; simplify_eq/=.
Qed.

Lemma exists_ok w : is_ok (GetPolicy "web" "shop" w) = true → policyExists key w.
Proof. intros Hok Hn. change (GetPolicy "web" "shop" w = Err NotFound) in Hn. by rewrite Hn in Hok. Qed.

Definition later : world := (ReconcilePolicy "web" "shop" after).2.
Lemma later_ok : policyReconcile key after = (Ok (mkResult snapshotPollInterval), later).
Proof. apply (result_of (ReconcilePolicy "web" "shop" after)). by vm_compute. Qed.
Lemma after_ok : policyReconcile key before = (Ok (mkResult snapshotPollInterval), after).
Proof. apply (result_of (ReconcilePolicy "web" "shop" before)). by vm_compute. Qed.
Lemma policies_polled_witness :
  ∃ j m', (0 < j)%nat ∧ story born before after later !! j = Some m' ∧ passOver key m' ∧
    2 * Second < mo_at m' <= 2 * Second + (Z.max snapshotPollInterval (5 * Second) + 5 * Second).
Proof.
  refine (policies_polled nothing (5 * Second) (5 * Second) (40 * Second) (mkPolicyReconciler 0 None)
    (story born before after later) 0 _ born (2 * Second) _ eq_refl eq_refl eq_refl eq_refl _ _ _).
  - apply story_dispatched; [reflexivity|exact after_ok|exact later_ok].
  - intros [|[|[|[|j]]]] m _ Hm; simplify_eq/=; apply exists_ok; by vm_compute.
  - done.
  - done.
Defined.
End QueueExamples.

Module ViewQueueExamples.
Import QueueExamples EwmaExamples BackendControllerExamples MainExamples.
#[local] Existing Instance predicates.

Definition again : world := (@ReconcileBackends halving _ _ _ settled pass.2).2.
Lemma again_ok : (@ReconcileBackends halving _ _ _ settled pass.2).1 = Ok (mkResult snapshotPollInterval).
Proof. by vm_compute. Qed.

(** The deletion of a peer configuration wakes the view, for good. *)
Definition gone : event := mkEvent "BGPPeerConfig" DeleteEvent (mkNamespacedName "" "edge") 1 1.
Definition viewStory : list (moment world) := story gone stored pass.2 again.
Lemma viewStory_dispatched :
  Dispatched (setupBackend (mkBackendReconciler 0)) (@viewReconcile halving _ _ _ settled)
    nothing (5 * Second) (5 * Second) (40 * Second) viewStory.
Proof. apply story_dispatched; [reflexivity|apply result_of, pass_ok|apply result_of, again_ok]. Qed.

Lemma view_polls_for_good_witness :
  ∃ j m', (0 < j)%nat ∧ viewStory !! j = Some m' ∧ passOver (ev_Key gone) m' ∧
    2 * Second < mo_at m' <= 2 * Second + (Z.max snapshotPollInterval (5 * Second) + 5 * Second).
Proof.
  refine (@view_polls_for_good halving _ _ _ settled _ nothing (5 * Second) (5 * Second) (40 * Second)
    (mkBackendReconciler 0) viewStory 0 _ gone (ev_Key gone) (2 * Second) viewStory_dispatched
    eq_refl eq_refl _ _ _).
  - by left.
  - done.
  - done.
Defined.

Lemma steady_own w :
  en_Labels <$> w !! name = Some own → @steady halving _ _ _ settled _ ViewExamples.memoryBackends_reliable [name] w.
Proof.
  intros (e & Hw & He)%fmap_Some. split_and!.
  - eexists _, _. split_and!; [reflexivity|by vm_compute|]. apply ViewExamples.named_admitted. by_compute.
  - intros n b. simpl. rewrite memoryRecords_lookup. by intros (e' & _ & ->)%fmap_Some.
  - intros n b ->%list_elem_of_singleton. simpl. rewrite memoryRecords_lookup, Hw. intros [= <-].
    unfold ownRecord. simpl. by rewrite <- He.
Qed.

End ViewQueueExamples.
