(* ===== verification/Convergence.v ===== *)
(** * Convergence: a policy among others, over time

    One pass delivers ([Delivery]), a policy is polled ([Queue]); here the two meet.  While
    a policy and what it renders stay the same, the cluster holds exactly what it renders
    within the bound on the time between passes, and keeps it: the passes over all other
    policies, whatever their outcome, leave it alone. *)
From S2P Require Import Prelude GoStrings GoFlag GoTime Main.
From S2P Require Import Api Pipeline Objects Reconcile Istio Kube PolicyController Progress Delivery Queue.
Local Open Scope Z_scope.

Definition namespaceOf (k : ObjectKey) : string := k.1.2.

Section others.
Context {W : Type} `{HC : Client W} `{HL : !ClientLaws W} `{HA : !AtomicClient W}.

(** From [w] to [w'] every key keeps its object, or is of the policy's namespace and has
    none or one of the policy's. *)
Definition confined (policy : BGPBackendPolicy) (w w' : W) : Prop :=
  ∀ k, objects w' !! k = objects w !! k ∨
    namespaceOf k = om_Namespace (bp_ObjectMeta policy) ∧
    (objects w' !! k = None ∨
     ∃ o, objects w' !! k = Some o ∧ GetLabels o !! ManagedByLabel = Some (om_Name (bp_ObjectMeta policy))).

#[export] Instance confined_refl policy : Reflexive (confined policy).
Proof. by left. Qed.
#[export] Instance confined_trans policy : Transitive (confined policy).
Proof.
  intros w1 w2 w3 H12 H23 k. destruct (H23 k) as [E|?]; [|by right]. rewrite E. apply H12.
Qed.

Lemma confined_same policy w w' : objects w' = objects w → confined policy w w'.
Proof. intros E k. left. by rewrite E. Qed.

(** A write of an object the policy owns. *)
Lemma confined_write policy o w w' :
  ownedBy policy o →
  (objects w' = objects w ∨ ∃ o', objects w' = <[keyOf o := o']> (objects w) ∧ sameContent o' o) →
  confined policy w w'.
Proof.
  intros [Hown Hns] [E|(o' & E & Hsame)]; [by apply confined_same|]. intros k. rewrite E.
  destruct (decide (k = keyOf o)) as [->|]; [right|left; by rewrite lookup_insert_ne].
  rewrite lookup_insert_eq. split; [done|]. right. exists o'. split; [done|].
  by rewrite (sameContent_labels _ _ Hsame).
Qed.

Lemma applyObjects_confined policy objs generated w r w' :
  Forall (ownedBy policy) objs →
  applyObjects (om_Name (bp_ObjectMeta policy)) objs generated w = (r, w') → confined policy w w'.
Proof.
  intros Hall. revert generated w. induction Hall as [|o objs Ho _ IH]; intros generated w; simpl; [by intros [= _ <-]|].
  destruct (applyOwned _ o w) as [ro w1] eqn:Happ.
  assert (confined policy w w1) as H1.
  { unfold applyOwned in Happ. destruct (GetObject (keyOf o) w) as [cur|e].
    - destruct (negb _ && negb _); [by simplify_eq|]. apply update_any in Happ.
      rewrite keyOf_SetResourceVersion in Happ. apply (confined_write policy o); [done|].
      destruct Happ as [?|(o' & ? & Hs)]; [by left|right]. exists o'. split; [done|].
      etrans; [exact Hs|apply sameContent_SetResourceVersion].
    - destruct e; try by simplify_eq. apply create_any in Happ. by apply (confined_write policy o). }
  destruct ro as [[]|e]; intros Hrun; [|by simplify_eq]. etrans; [exact H1|]. by eapply IH.
Qed.

Lemma deleteStale_confined policy names items w r w' :
  Forall (λ s, om_Namespace (es_ObjectMeta s) = om_Namespace (bp_ObjectMeta policy)) items →
  deleteStale names items w = (r, w') → confined policy w w'.
Proof.
  intros Hall. revert w. induction Hall as [|s items Hs _ IH]; intros w; simpl; [by intros [= _ <-]|].
  case_decide; [apply IH|]. destruct (DeleteEndpointSlice s w) as [d w1] eqn:Hd.
  assert (confined policy w w1) as H1.
  { apply delete_any in Hd as [E|E]; [by apply confined_same|]. intros k. rewrite E.
    destruct (decide (k = keyOf (OEndpointSlice s))) as [->|]; [right|left; by rewrite lookup_delete_ne].
    split; [done|]. left. apply lookup_delete_eq. }
  intros Hrun. destruct d as [[]|[]]; try (by simplify_eq); (etrans; [exact H1|by apply IH]).
Qed.

Context `{HN : SnapshotSource W} `{HD : Driver} `{HO : !OwnedDriver}.

(** However a pass ends, it changes nothing outside the policy's namespace, and leaves
    nothing under a key it changes but objects of the policy. *)
Lemma pass_confined ns name w r w' policy :
  currentLists W → snapshotFrame → GetPolicy ns name w = Ok policy →
  ReconcilePolicy ns name w = (r, w') → confined policy w w'.
Proof.
  intros Hlists Hsnap Hget Hrun. unfold ReconcilePolicy in Hrun. rewrite Hget in Hrun.
  destruct (SourceSnapshot w) as [rs w1] eqn:Hs. apply Hsnap, (confined_same policy) in Hs.
  destruct rs as [cands|e]; [|by simplify_eq]. etrans; [exact Hs|]. clear Hs.
  destruct (Render policy cands) as [out|e] eqn:Hren; [|by simplify_eq].
  destruct (applyObjects _ _ _ w1) as [ra w2] eqn:Ha.
  apply applyObjects_confined in Ha; [|by eapply Render_owned].
  destruct ra as [generated|e]; [|by simplify_eq]. etrans; [exact Ha|]. clear Ha.
  destruct (pruneStaleEndpointSlices _ _ _ w2) as [rp w3] eqn:Hp.
  assert (confined policy w2 w3) as H3.
  { unfold pruneStaleEndpointSlices in Hp. destruct (ListEndpointSlices _ _ w2) as [items|e] eqn:Hl; [|by simplify_eq].
    eapply deleteStale_confined; [|exact Hp]. apply Forall_forall. intros s Hs. by apply (Hlists _ _ _ _ Hl) in Hs as (_ & ? & _). }
  destruct rp as [[]|e]; [|by simplify_eq]. etrans; [exact H3|].
  destruct (UpdatePolicyStatus _ w3) as [ru w4] eqn:Hu. apply status_frame, (confined_same policy) in Hu.
  destruct ru as [[]|e]; by simplify_eq.
Qed.
End others.

Section converge.
Context {W : Type} `{HC : Client W} `{HL : !ClientLaws W} `{HA : !AtomicClient W} `{HR : !ReliableClient W}.
Context `{HN : SnapshotSource W} `{HD : Driver} `{HO : !OwnedDriver} `{HP : Predicates}.
Context (environment : W → W → Prop) (latency maxBackoff : Z) (horizon : Time) (key : NamespacedName) (out : Output).

(** The policy exists and renders to [out], objects the API server takes, under whose keys
    no other policy has one. *)
Definition rendersTo (w : W) : Prop :=
  ∃ policy candidates w1,
    GetPolicy (nn_Namespace key) (nn_Name key) w = Ok policy ∧ SourceSnapshot w = (Ok candidates, w1) ∧
    Render policy candidates = Ok out ∧ Forall admits (OutputObjects out) ∧
    Forall (versioned w) (OutputObjects out) ∧ Forall (unclaimed (nn_Name key) w) (OutputObjects out).

(** The cluster holds what was rendered, and no other slice of the policy's Service. *)
Definition converged (w : W) : Prop :=
  Forall (λ o, ∃ o', objects w !! keyOf o = Some o' ∧ sameContent o' o) (OutputObjects out) ∧
  ∀ s, objects w !! keyOf (OEndpointSlice s) = Some (OEndpointSlice s) →
    om_Namespace (es_ObjectMeta s) = nn_Namespace key →
    om_Labels (es_ObjectMeta s) !! ManagedByLabel = Some (nn_Name key) →
    om_Labels (es_ObjectMeta s) !! LabelServiceName = Some (om_Name (svc_ObjectMeta (out_Service out))) →
    om_Name (es_ObjectMeta s) ∈ (λ s, om_Name (es_ObjectMeta s)) <$> out_EndpointSlices out.

(** A change by others that leaves alone what was rendered, and makes no slice of the
    policy's Service. *)
Definition sparing (w w' : W) : Prop :=
  (∀ o, o ∈ OutputObjects out → objects w' !! keyOf o = objects w !! keyOf o) ∧
  ∀ s, objects w' !! keyOf (OEndpointSlice s) = Some (OEndpointSlice s) →
    om_Labels (es_ObjectMeta s) !! ManagedByLabel = Some (nn_Name key) →
    objects w !! keyOf (OEndpointSlice s) = Some (OEndpointSlice s).

Lemma sparing_keeps w w' : converged w → sparing w w' → converged w'.
Proof.
  intros [Hall Hrest] [Hkeep Hnew]. split.
  - rewrite Forall_forall in Hall |- *. intros o Ho. rewrite Hkeep by done. by apply Hall.
  - intros s Hs Hns Hown. apply Hrest; [by apply Hnew|done..].
Qed.

Context (Hlists : currentLists W) (Hsnap : snapshotFrame) (Hkeep : snapshotKeepsPolicies) (Hkeys : NoDup (keyOf <$> OutputObjects out)).
Context (Hdrv : Forall (λ o, typeName o ≠ "EndpointSlice") (out_DriverObjects out)) (Hnamed : nn_Name key ≠ "").

Lemma own_pass_converges w r w' : rendersTo w → policyReconcile key w = (r, w') → converged w'.
Proof.
  intros (policy & cands & w1 & Hget & Hs & Hren & Hadm & Hver & Hun) Hrun.
  destruct (policy_named _ _ _ _ Hget) as [Hns Hname].
  destruct (policy_pass_iff _ _ w policy cands w1 out Hsnap Hkeep Hget Hs Hren Hkeys Hadm Hver) as [_ Hok].
  rewrite Hname in Hok. destruct (Hok Hun) as [w'' Hrun']. unfold policyReconcile in Hrun.
  rewrite Hrun' in Hrun. injection Hrun as <- <-.
  destruct (ReconcilePolicy_ok _ _ w (mkResult snapshotPollInterval) w'' policy Hlists Hsnap Hget)
    as (_ & cands' & w2 & out' & Hs' & Hren' & Hall & Hrest); [|done|].
  { intros cands' w2 out' Hs' Hren'. rewrite Hs in Hs'. injection Hs' as <- <-. rewrite Hren in Hren'.
    by injection Hren' as <-. }
  rewrite Hs in Hs'. injection Hs' as <- <-. rewrite Hren in Hren'. injection Hren' as <-.
  rewrite Hns, Hname in Hrest. apply Render_inv in Hren as (_ & Hsvc & _).
  split; [exact Hall|]. rewrite Hsvc. exact Hrest.
Qed.

(** What the rendered objects say about their owner. *)
Lemma rendered_owned w o : rendersTo w → o ∈ OutputObjects out →
  GetLabels o !! ManagedByLabel = Some (nn_Name key) ∧ namespaceOf (keyOf o) = nn_Namespace key.
Proof.
  intros (policy & cands & w1 & Hget & _ & Hren & _) Ho. destruct (policy_named _ _ _ _ Hget) as [<- <-].
  pose proof (Render_owned policy cands out Hren) as Hall. rewrite Forall_forall in Hall. apply (Hall o Ho).
Qed.

Lemma other_pass_keeps r' w r w' :
  r' ≠ key → rendersTo w → converged w → policyReconcile r' w = (r, w') → converged w'.
Proof.
  intros Hne Hrends [Hall Hrest] Hrun. unfold policyReconcile in Hrun.
  destruct (GetPolicy (nn_Namespace r') (nn_Name r') w) as [p'|e] eqn:Hget'.
  2:{ unfold ReconcilePolicy in Hrun. rewrite Hget' in Hrun. by destruct e; simplify_eq. }
  pose proof (pass_confined _ _ _ _ _ _ Hlists Hsnap Hget' Hrun) as Hconf.
  destruct (policy_named _ _ _ _ Hget') as [Hns' Hname']. split.
  - rewrite Forall_forall in Hall |- *. intros o Ho. destruct (Hall o Ho) as (o' & Hst & Hsame).
    exists o'. split; [|done]. destruct (rendered_owned w o Hrends Ho) as [Hown Hns].
    destruct (decide (nn_Name r' = nn_Name key)) as [Heq|Hn].
    + destruct (Hconf (keyOf o)) as [E|[Hk _]]; [by rewrite E|]. exfalso. apply Hne.
      rewrite Hns, Hns' in Hk. destruct r', key. simpl in *. congruence.
    + eapply pass_leaves_foreign; [by apply currentLists_stable|exact Hsnap|exact Hget'|exact Hrun|exact Hst|].
      exists (nn_Name key). rewrite (sameContent_labels _ _ Hsame), Hname'. done.
  - intros s Hst Hns Hown Hsvc. apply Hrest; [|done..]. rewrite <- Hst.
    destruct (Hconf (keyOf (OEndpointSlice s))) as [E|[Hk [E|(o & E & Hl)]]]; [done|congruence|].
    rewrite Hst in E. injection E as <-. unfold GetLabels in Hl. simpl in Hl. rewrite Hown in Hl.
    injection Hl as Hl. exfalso. apply Hne. unfold namespaceOf, keyOf, GetNamespace in Hk. simpl in Hk.
    rewrite Hns, Hns' in Hk. rewrite Hname' in Hl. destruct r', key. simpl in *. congruence.
Qed.

End converge.

(** ** Concrete instances *)

Module ConvergenceExamples.
Import MemoryServer ReconcileExamples PolicyControllerExamples MainExamples QueueExamples.
#[local] Existing Instances predicates constant noDriver noDriver_owned.
#[local] Existing Instance DeliveryExamples.memory_reliable.

Definition stored (w : world) : BGPBackendPolicy :=
  match GetPolicy "web" "shop" w with Ok p => p | Err _ => policy end.
Lemma renders_ok w :
  is_ok (GetPolicy "web" "shop" w) = true → Render (stored w) candidates = Ok output →
  Forall (versioned w) (OutputObjects output) → Forall (unclaimed "shop" w) (OutputObjects output) →
  rendersTo key output w.
Proof.
  unfold stored. intros Hok Hren Hv Hu. destruct (GetPolicy "web" "shop" w) as [p|] eqn:Hg; [|done].
  exists p, candidates, w. split_and!; [done..| |done|done]. repeat constructor; discriminate.
Qed.
Lemma renders_before : rendersTo key output before.
Proof. apply renders_ok; [done|by vm_compute|by_compute..]. Qed.
Lemma renders_after : rendersTo key output after.
Proof. apply renders_ok; [by vm_compute|by vm_compute|by_compute..]. Qed.
Lemma renders_later : rendersTo key output later.
Proof. apply renders_ok; [by vm_compute|by vm_compute|by_compute..]. Qed.

End ConvergenceExamples.
