(* ===== verification/TestUtils.v ===== *)
(** * TestUtils: test/utils/utils.go

    The helpers of the end-to-end tests.  They run commands, read and write files and log
    to Ginkgo's writer; the operating system is the class [OS], a state that the calls
    thread.  Writes to a [bytes.Buffer] do not fail, so that the branches for it are
    unreachable and not written out. *)
From S2P Require Import Prelude GoStrings.
Local Open Scope Z_scope.

(** ** [strings] and [bufio], as far as they are used *)

Definition LF : ascii := "010"%char.
Definition CR : ascii := "013"%char.
Definition newline : string := String LF "".

Fixpoint strTake (n : nat) (s : string) : string :=
  match n, s with S n, String a s => String a (strTake n s) | _, _ => "" end.
Fixpoint strDrop (n : nat) (s : string) : string :=
  match n, s with S n, String _ s => strDrop n s | _, _ => s end.

(** [strings.Index], with [None] for -1. *)
Fixpoint Index (s t : string) : option nat :=
  if String.prefix t s then Some 0%nat
  else match s with "" => None | String _ s => S <$> Index s t end.
Definition Contains (s t : string) : bool := bool_decide (is_Some (Index s t)).

Definition TrimPrefix (s p : string) : string :=
  if String.prefix p s then strDrop (String.length p) s else s.

(** [strings.Split] and [strings.SplitSeq] at one byte. *)
Fixpoint splitByte (c : ascii) (s : string) : list string :=
  match s with
  | "" => [""]
  | String a s =>
      if Ascii.eqb a c then "" :: splitByte c s
      else match splitByte c s with [] => [] | p :: ps => String a p :: ps end
  end.

(** [strings.ReplaceAll] for a text [old] that is not empty: after a match its bytes are
    skipped. *)
Fixpoint replaceLoop (old new : string) (skip : nat) (s : string) : string :=
  match s with
  | "" => ""
  | String a s' =>
      match skip with
      | S skip => replaceLoop old new skip s'
      | O => if String.prefix old s then new +:+ replaceLoop old new (String.length old - 1) s'
             else String a (replaceLoop old new 0 s')
      end
  end.
Definition ReplaceAll (s old new : string) : string := replaceLoop old new 0 s.

(** A [bufio.Scanner] with the default [ScanLines] over a text: [Scan] gives the next line
    without its line break, and what is left.  The buffer holds [MaxScanTokenSize] bytes; a
    line that fills it without a line break ends the scan. *)
Definition MaxScanTokenSize : nat := Nat.mul 64 1024.
Fixpoint dropCR (s : string) : string :=
  match s with
  | "" => ""
  | String a "" => if Ascii.eqb a CR then "" else s
  | String a s => String a (dropCR s)
  end.
Definition Scan (s : string) : option (string * string) :=
  match s with
  | "" => None
  | _ => let '(line, rest) := default (s, "") (cut LF s) in
         if (String.length line <? MaxScanTokenSize)%nat then Some (dropCR line, rest) else None
  end.

(** ** The operating system *)

Record Cmd := mkCmd { cmd_Args : list string; cmd_Dir : string; cmd_Env : list string }.
(** [exec.Command(name, arg...)] *)
Definition Command (name : string) (arg : list string) : Cmd := mkCmd (name :: arg) "" [].

(** An argument of a log line. *)
Inductive logArg := LogString (s : string) | LogError (e : error).

Class OS (W : Type) := {
  Getwd : W → string * option error;
  Chdir : string → W → option error * W;
  Environ : W → list string;
  LookupEnv : string → W → option string;
  ReadFile : string → W → res string;
  WriteFile : string → string → Z → W → option error * W;
  CombinedOutput : Cmd → W → (string * option error) * W;
  GinkgoWriter : string → list logArg → W → W;
}.

Definition certmanagerVersion : string := "v1.20.2".
(** [fmt.Sprintf(certmanagerURLTmpl, version)] *)
Definition certmanagerURL (version : string) : string :=
  "https://github.com/cert-manager/cert-manager/releases/download/" +:+ version +:+ "/cert-manager.yaml".
Definition defaultKindBinary : string := "kind".
Definition defaultKindCluster : string := "kind".

Section utils.
Context {W : Type} `{HO : OS W}.

Definition warnError (err : error) (w : W) : W := GinkgoWriter "warning: %v\n" [LogError err] w.

Definition GetProjectDir (w : W) : string * option error :=
  match Getwd w with
  | (wd, Some e) => (wd, Some (Wrapf "failed to get current working directory: %w" [] e))
  | (wd, None) => (ReplaceAll wd "/test/e2e" "", None)
  end.

Definition Run (cmd : Cmd) (w : W) : (string * option error) * W :=
  let dir := (GetProjectDir w).1 in
  let '(err, w) := Chdir dir w in
  let w := match err with Some e => GinkgoWriter "chdir dir: %q\n" [LogError e] w | None => w end in
  let cmd := mkCmd (cmd_Args cmd) dir (Environ w ++ ["GO111MODULE=on"]) in
  let command := join " " (cmd_Args cmd) in
  let w := GinkgoWriter "running: %q\n" [LogString command] w in
  let '(output, err, w) := CombinedOutput cmd w in
  match err with
  | Some e => (output, Some (Wrapf "%q failed with error %q: %w" [command; output] e), w)
  | None => (output, None, w)
  end.

(** [if _, err := Run(cmd); err != nil { warnError(err) }] *)
Definition runOrWarn (cmd : Cmd) (w : W) : W :=
  match Run cmd w with
  | (_, Some e, w) => warnError e w
  | (_, None, w) => w
  end.

Definition kubeSystemLeases : list string :=
  ["cert-manager-cainjector-leader-election"; "cert-manager-controller"].

Definition UninstallCertManager (w : W) : W :=
  let w := runOrWarn (Command "kubectl" ["delete"; "-f"; certmanagerURL certmanagerVersion]) w in
  foldl (λ w lease, runOrWarn (Command "kubectl" ["delete"; "lease"; lease;
    "-n"; "kube-system"; "--ignore-not-found"; "--force"; "--grace-period=0"]) w) w kubeSystemLeases.

Definition InstallCertManager (w : W) : option error * W :=
  match Run (Command "kubectl" ["apply"; "-f"; certmanagerURL certmanagerVersion]) w with
  | (_, Some e, w) => (Some e, w)
  | (_, None, w) =>
      let '(_, err, w) := Run (Command "kubectl" ["wait"; "deployment.apps/cert-manager-webhook";
        "--for"; "condition=Available"; "--namespace"; "cert-manager"; "--timeout"; "5m"]) w in
      (err, w)
  end.

Definition GetNonEmptyLines (output : string) : list string :=
  filter (λ element, element ≠ "") (splitByte LF output).

Definition certManagerCRDs : list string :=
  ["certificates.cert-manager.io"; "issuers.cert-manager.io"; "clusterissuers.cert-manager.io";
   "certificaterequests.cert-manager.io"; "orders.acme.cert-manager.io"; "challenges.acme.cert-manager.io"].

Definition IsCertManagerCRDsInstalled (w : W) : bool * W :=
  match Run (Command "kubectl" ["get"; "crds"]) w with
  | (_, Some _, w) => (false, w)
  | (output, None, w) =>
      let crdList := GetNonEmptyLines output in
      (existsb (λ crd, existsb (λ line, Contains line crd) crdList) certManagerCRDs, w)
  end.

Definition LoadImageToKindClusterWithName (name : string) (w : W) : option error * W :=
  let cluster := default defaultKindCluster (LookupEnv "KIND_CLUSTER" w) in
  let kindOptions := ["load"; "docker-image"; name; "--name"; cluster] in
  let kindBinary := default defaultKindBinary (LookupEnv "KIND" w) in
  let '(_, err, w) := Run (Command kindBinary kindOptions) w in
  (err, w).

(** The loop over the lines of the target: [text] is the line just scanned, [rest] what
    the scanner has left. *)
Fixpoint uncommentLoop (fuel : nat) (prefix text rest out : string) : option string :=
  match fuel with
  | O => None
  | S fuel =>
      let out := out +:+ TrimPrefix text prefix in
      match Scan rest with
      | None => Some out
      | Some (text, rest) => uncommentLoop fuel prefix text rest (out +:+ newline)
      end
  end.

(** [None] when the loop runs out of fuel, of which there is always enough. *)
Definition UncommentCode (filename target prefix : string) (w : W) : option (option error * W) :=
  match ReadFile filename w with
  | Err e => Some (Some (Wrapf "failed to read file %q: %w" [filename] e), w)
  | Ok content =>
      match Index content target with
      | None => Some (Some (Errorf "unable to find the code %q to be uncommented" [target]), w)
      | Some idx =>
          match Scan target with
          | None => Some (None, w)
          | Some (text, rest) =>
              match uncommentLoop (S (String.length target)) prefix text rest (strTake idx content) with
              | None => None
              | Some out =>
                  let out := out +:+ strDrop (idx + String.length target) content in
                  Some match WriteFile filename out 420 w with
                       | (Some e, w) => (Some (Wrapf "failed to write file %q: %w" [filename] e), w)
                       | (None, w) => (None, w)
                       end
              end
          end
      end
  end.
End utils.

(** ** Searching and splitting *)

Lemma prefix_cons a p b s :
  String.prefix (String a p) (String b s) = if ascii_dec a b then String.prefix p s else false.
Proof. reflexivity. Qed.
Lemma prefix_spec p s : String.prefix p s = true ↔ ∃ r, s = p +:+ r.
Proof.
  revert s. induction p as [|a p IH]; intros s; simpl; [split; [by exists s|by destruct s]|].
  destruct s as [|b s]; [split; [done|by intros [??]]|].
  rewrite prefix_cons. destruct (ascii_dec a b) as [->|Hne].
  - rewrite IH. split; intros [r Hr]; exists r; rewrite ?app_String in *; [by subst|by injection Hr].
  - split; [done|]. intros [r [= ? _]]. done.
Qed.

Lemma strDrop_app p s : strDrop (String.length p) (p +:+ s) = s.
Proof. induction p as [|a p IH]; [by destruct s|]. by rewrite app_String. Qed.
Lemma strTake_app p s : strTake (String.length p) (p +:+ s) = p.
Proof. induction p as [|a p IH]; [by destruct s|]. rewrite app_String. simpl. by rewrite IH. Qed.
Lemma str_length_app s t : String.length (s +:+ t) = (String.length s + String.length t)%nat.
Proof. induction s as [|a s IH]; [done|]. rewrite app_String. simpl. by rewrite IH. Qed.

Lemma TrimPrefix_app p s : TrimPrefix (p +:+ s) p = s.
Proof.
  unfold TrimPrefix. destruct (String.prefix p (p +:+ s)) eqn:E; [apply strDrop_app|].
  assert (String.prefix p (p +:+ s) = true) by (apply prefix_spec; eauto). congruence.
Qed.

Lemma Index_unfold s t :
  Index s t = if String.prefix t s then Some 0%nat
              else match s with "" => None | String _ s => S <$> Index s t end.
Proof. by destruct s. Qed.

(** [Index] finds the first occurrence. *)
Lemma Index_Some s t n :
  Index s t = Some n ↔
  ∃ a b, s = a +:+ t +:+ b ∧ String.length a = n ∧
    ∀ a' b', s = a' +:+ t +:+ b' → (n <= String.length a')%nat.
Proof.
  revert n. induction s as [|c s IH]; intros n; rewrite Index_unfold;
    destruct (String.prefix t _) eqn:Hp.
  1,3: apply prefix_spec in Hp as [r Hr]; split;
    [intros [= <-]; exists "", r; split_and!; [done|done|lia]
    |intros (a & b & _ & _ & Hmin); specialize (Hmin "" r Hr); f_equal; simpl in Hmin; lia].
  all: assert (∀ b, _ = "" +:+ t +:+ b → False) as Hno
    by (intros b Hb; rewrite (proj2 (prefix_spec t _)) in Hp by (by exists b); done).
  - split; [done|]. intros ([|x a] & b & Hs & _); [by edestruct Hno|done].
  - rewrite fmap_Some. split.
    + intros (m & Hm & ->). apply IH in Hm as (a & b & -> & <- & Hmin).
      exists (String c a), b. split_and!; [done|done|]. intros [|x a'] b' Hs; [by edestruct Hno|].
      rewrite app_String in Hs. injection Hs as _ Hs. specialize (Hmin _ _ Hs). simpl. lia.
    + intros ([|x a] & b & Hs & <- & Hmin); [by edestruct Hno|].
      rewrite app_String in Hs. injection Hs as -> Hs. exists (String.length a).
      split; [|done]. apply IH. exists a, b. split_and!; [done|done|]. intros a' b' ->.
      specialize (Hmin (String x a') b' eq_refl). simpl in Hmin. lia.
Qed.

Lemma Index_app s t n : Index s t = Some n →
  s = strTake n s +:+ t +:+ strDrop (n + String.length t) s.
Proof.
  intros (a & b & -> & <- & _)%Index_Some. rewrite strTake_app, <- str_length_app, <- str_app_assoc, strDrop_app.
  by rewrite str_app_assoc.
Qed.

Lemma Contains_iff s t : Contains s t = true ↔ ∃ a b, s = a +:+ t +:+ b.
Proof.
  unfold Contains. rewrite bool_decide_eq_true. split.
  - intros [n (a & b & -> & _)%Index_Some]. eauto.
  - revert t. induction s as [|c s IH]; intros t (a & b & Hs); rewrite Index_unfold;
      destruct (String.prefix t _) eqn:Hp; [done| |done|].
    all: destruct a as [|x a]; [rewrite (proj2 (prefix_spec t _)) in Hp by (by exists b); done|].
    + done.
    + apply fmap_is_Some, IH. rewrite app_String in Hs. injection Hs as _ ->. eauto.
Qed.

Lemma splitByte_cut c s :
  splitByte c s = match cut c s with Some (l, r) => l :: splitByte c r | None => [s] end.
Proof.
  induction s as [|a s IH]; [done|]. simpl. destruct (Ascii.eqb a c); [done|]. rewrite IH.
  by destruct (cut c s) as [[l r]|].
Qed.

(** Splitting loses nothing, and no part has the separator. *)
Lemma splitByte_spec c s :
  join (String c "") (splitByte c s) = s ∧ splitByte c s ≠ [] ∧
  Forall (λ p, containsByte c p = false) (splitByte c s).
Proof.
  induction s as [|a s (Hj & Hne & Hall)]; [split_and!; [done|done|by repeat constructor]|]. simpl.
  destruct (Ascii.eqb a c) eqn:Ha.
  - apply Ascii.eqb_eq in Ha as ->. split_and!; [|done|by constructor].
    destruct (splitByte c s) as [|p ps] eqn:E; [done|].
    change (join (String c "") ("" :: p :: ps)) with (String c (join (String c "") (p :: ps))). by rewrite Hj.
  - destruct (splitByte c s) as [|p ps]; [done|]. split_and!; [|done|].
    + rewrite <- Hj. destruct ps; simpl; by rewrite ?app_String.
    + apply Forall_cons in Hall as [Hp Hps]. constructor; [|done]. simpl. by rewrite Ha.
Qed.

Lemma splitByte_join c ps :
  ps ≠ [] → Forall (λ p, containsByte c p = false) ps → splitByte c (join (String c "") ps) = ps.
Proof.
  intros Hne Hall. induction Hall as [|p ps Hp Hall IH]; [done|]. rewrite splitByte_cut.
  destruct ps as [|q ps]; simpl.
  - by rewrite (proj2 (cut_None c p)).
  - rewrite app_String, app_empty_l. rewrite cut_app by done. f_equal. by apply IH.
Qed.

(** A text without the separator occurs in one of the parts when it occurs at all. *)
Lemma splitByte_infix c a t b :
  containsByte c t = false → ∃ p, p ∈ splitByte c (a +:+ t +:+ b) ∧ Contains p t = true.
Proof.
  intros Ht. induction a as [|x a (p & Hp & Hc)].
  - rewrite app_empty_l. assert (∃ p ps, splitByte c (t +:+ b) = (t +:+ p) :: ps) as (p & ps & ->).
    { induction t as [|y t IH]; simpl in Ht.
      - destruct (splitByte_spec c b) as (_ & Hne & _). rewrite app_empty_l.
        destruct (splitByte c b) as [|p ps]; [done|]. by exists p, ps.
      - apply orb_false_iff in Ht as [Hy Ht]. destruct (IH Ht) as (p & ps & E). exists p, ps.
        rewrite !app_String. simpl. by rewrite Hy, E. }
    exists (t +:+ p). split; [by left|]. apply Contains_iff. by exists "", p.
  - rewrite app_String. simpl. destruct (Ascii.eqb x c); [exists p; split; [by right|done]|].
    destruct (splitByte c (a +:+ t +:+ b)) as [|q qs]; [by apply elem_of_nil in Hp|].
    apply elem_of_cons in Hp as [->|Hp]; [|exists p; split; [by right|done]].
    exists (String x q). split; [by left|]. apply Contains_iff in Hc as (u & v & ->).
    apply Contains_iff. by exists (String x u), v.
Qed.

Lemma splitByte_elem c s p : p ∈ splitByte c s → ∃ a b, s = a +:+ p +:+ b.
Proof.
  revert p. induction s as [|x s IH]; intros p; simpl.
  - intros ->%list_elem_of_singleton. by exists "", "".
  - destruct (Ascii.eqb x c).
    + intros [->|(a & b & ->)%IH]%elem_of_cons; [by exists "", (String x s)|by exists (String x a), b].
    + destruct (splitByte_spec c s) as (_ & Hne & _).
      destruct (splitByte c s) as [|q qs] eqn:E; [done|].
      intros [->|Hp]%elem_of_cons; [|destruct (IH p) as (a & b & ->); [by right|by exists (String x a), b]].
      assert (s = join (String c "") (q :: qs)) as -> by by rewrite <- E; destruct (splitByte_spec c s).
      destruct qs as [|q' qs]; [exists "", ""|exists "", (String c "" +:+ join (String c "") (q' :: qs))];
        by rewrite ?app_empty_r.
Qed.

(** ** What the scanner reads *)

(** The lines of a text; a line break at its end does not start another line. *)
Definition textLines (s : string) : list string :=
  let parts := splitByte LF s in
  if decide (last parts = Some "") then take (length parts - 1) parts else parts.

Lemma textLines_cut s :
  textLines s = match s with
                | "" => []
                | _ => match cut LF s with Some (l, r) => l :: textLines r | None => [s] end
                end.
Proof.
  destruct s as [|a s]; [done|]. unfold textLines. rewrite splitByte_cut.
  destruct (cut LF (String a s)) as [[l r]|]; [|done].
  destruct (splitByte_spec LF r) as (_ & Hne & _). destruct (splitByte LF r) as [|p ps]; [done|].
  rewrite last_cons_cons. case_decide; [|done]. simpl. by rewrite Nat.sub_0_r.
Qed.

(** The lines up to the first one that does not fit the buffer. *)
Fixpoint fitting (ls : list string) : list string :=
  match ls with
  | [] => []
  | l :: ls => if (String.length l <? MaxScanTokenSize)%nat then l :: fitting ls else []
  end.
Definition scanned (s : string) : list string := dropCR <$> fitting (textLines s).

Lemma scanned_Scan s :
  scanned s = match Scan s with Some (text, rest) => text :: scanned rest | None => [] end.
Proof.
  unfold scanned. rewrite textLines_cut. unfold Scan. destruct s as [|a s]; [done|].
  destruct (cut LF (String a s)) as [[l r]|]; cbn [from_option id fitting];
    destruct (String.length _ <? MaxScanTokenSize)%nat; reflexivity.
Qed.

Lemma Scan_shorter s text rest : Scan s = Some (text, rest) → (String.length rest < String.length s)%nat.
Proof.
  unfold Scan. destruct s as [|a s]; [done|]. destruct (cut LF (String a s)) as [[l r]|] eqn:Hc; cbn [from_option id].
  - case_match; [|done]. intros [= _ <-]. apply cut_Some in Hc as [-> _]. rewrite str_length_app. simpl. lia.
  - case_match; [|done]. intros [= _ <-]. simpl. lia.
Qed.

(** With fuel for the text that is left, the loop writes every line it scans. *)
Lemma uncommentLoop_spec fuel prefix text rest out :
  (String.length rest < fuel)%nat →
  uncommentLoop fuel prefix text rest out =
  Some (out +:+ join newline ((λ l, TrimPrefix l prefix) <$> text :: scanned rest)).
Proof.
  revert text rest out. induction fuel as [|fuel IH]; intros text rest out Hf; [lia|]. simpl.
  rewrite (scanned_Scan rest). destruct (Scan rest) as [[text' rest']|] eqn:Hs; [|done].
  apply Scan_shorter in Hs. rewrite IH by lia. by rewrite !str_app_assoc.
Qed.

Lemma dropCR_id s : containsByte CR s = false → dropCR s = s.
Proof.
  induction s as [|a s IH]; simpl; [done|]. intros [Ha Hs]%orb_false_iff. rewrite IH by done.
  destruct s; [by rewrite Ha|done].
Qed.

Lemma fitting_id ls : Forall (λ l, (String.length l < MaxScanTokenSize)%nat) ls → fitting ls = ls.
Proof.
  induction 1 as [|l ls Hl _ IH]; cbn [fitting]; [done|]. rewrite (proj2 (Nat.ltb_lt _ _)) by done. by rewrite IH.
Qed.

(** A line break at the end of a text makes no difference to its lines, unless the last of
    them is empty. *)
Lemma textLines_join ps (nl : bool) :
  ps ≠ [] → Forall (λ p, p ≠ "" ∧ containsByte LF p = false) ps →
  textLines (join newline ps +:+ (if nl then newline else "")) = ps.
Proof.
  intros Hne Hall.
  assert (Forall (λ p, containsByte LF p = false) ps) as HLF by (eapply Forall_impl; [done|naive_solver]).
  unfold textLines, newline. destruct nl.
  - assert (join (String LF "") ps +:+ String LF "" = join (String LF "") (ps ++ [""])) as ->.
    { clear Hall HLF. induction ps as [|p [|q ps] IH]; [done|done|].
      change (join (String LF "") (p :: q :: ps)) with (p +:+ String LF "" +:+ join (String LF "") (q :: ps)).
      rewrite !str_app_assoc, IH by done. done. }
    rewrite splitByte_join; [|by destruct ps|apply Forall_app; split; [done|by repeat constructor]].
    rewrite last_snoc, decide_True by done. rewrite length_app. simpl.
    by rewrite Nat.add_sub, take_app_length.
  - rewrite app_empty_r, splitByte_join by done. rewrite decide_False; [done|].
    intros [ps' ->]%last_Some. apply Forall_app in Hall as [_ [[? _] _]%Forall_cons]. done.
Qed.

Lemma containsByte_part c sep ps p :
  p ∈ ps → containsByte c (join sep ps) = false → containsByte c p = false.
Proof.
  induction ps as [|q ps IH]; [set_solver|]. intros Hp Hj. destruct ps as [|q' ps].
  - apply list_elem_of_singleton in Hp as ->. done.
  - cbn [join] in Hj. rewrite !containsByte_app, !orb_false_iff in Hj. destruct Hj as (Hq & _ & Hj).
    apply elem_of_cons in Hp as [->|Hp]; [done|by apply IH].
Qed.

(** [code] with [prefix] in front of each of its lines. *)
Definition commentOut (prefix code : string) : string :=
  join newline ((λ l, prefix +:+ l) <$> splitByte LF code).

Lemma scanned_comment prefix code (nl : bool) :
  prefix ≠ "" → containsByte LF prefix = false → containsByte CR (prefix +:+ code) = false →
  Forall (λ l, (String.length (prefix +:+ l) < MaxScanTokenSize)%nat) (splitByte LF code) →
  scanned (commentOut prefix code +:+ (if nl then newline else "")) = (λ l, prefix +:+ l) <$> splitByte LF code.
Proof.
  intros Hne HLF HCR Hfit. destruct (splitByte_spec LF code) as (Hj & Hnil & Hall).
  rewrite containsByte_app, orb_false_iff in HCR. destruct HCR as [HCp HCR].
  unfold scanned, commentOut. rewrite textLines_join.
  - rewrite fitting_id by by apply Forall_fmap. rewrite <- list_fmap_compose.
    apply list_fmap_ext. intros i l Hl%list_elem_of_lookup_2. apply dropCR_id.
    rewrite containsByte_app, HCp. eapply containsByte_part; [done|]. by rewrite Hj.
  - by destruct (splitByte LF code).
  - apply Forall_fmap. eapply Forall_impl; [exact Hall|]. intros l Hl. simpl.
    rewrite containsByte_app, HLF, Hl. split; [|done]. by destruct prefix.
Qed.

(** ** What the helpers do *)

Section specs.
Context {W : Type} `{HO : OS W}.

Lemma UncommentCode_eq filename target prefix (w : W) :
  UncommentCode filename target prefix w =
  Some match ReadFile filename w with
       | Err e => (Some (Wrapf "failed to read file %q: %w" [filename] e), w)
       | Ok content =>
           match Index content target with
           | None => (Some (Errorf "unable to find the code %q to be uncommented" [target]), w)
           | Some idx =>
               let uncommented := (λ l, TrimPrefix l prefix) <$> scanned target in
               match uncommented with
               | [] => (None, w)
               | _ =>
                   let '(err, w) := WriteFile filename (strTake idx content +:+ join newline uncommented
                     +:+ strDrop (idx + String.length target) content) 420 w in
                   (Wrapf "failed to write file %q: %w" [filename] <$> err, w)
               end
           end
       end.
Proof.
  unfold UncommentCode. destruct (ReadFile filename w) as [content|]; [|done].
  destruct (Index content target) as [idx|]; [|done]. rewrite (scanned_Scan target).
  destruct (Scan target) as [[text rest]|] eqn:Hs; [|done]. apply Scan_shorter in Hs.
  rewrite uncommentLoop_spec by lia. cbv zeta. rewrite fmap_cons, str_app_assoc.
  by destruct (WriteFile _ _ _ w) as [[e|] w'].
Qed.

(** C40 (Uncommenting ends).  On every file and for every target and prefix [UncommentCode]
    returns.  It replaces the first occurrence of the target by the lines the scanner finds
    in it, without the prefix, joined by line breaks, and writes nothing when the file
    cannot be read, does not contain the target, or the scanner finds no line in it. *)
Theorem UncommentCode_spec filename target prefix (w : W) :
  UncommentCode filename target prefix w =
  Some match ReadFile filename w with
       | Err e => (Some (Wrapf "failed to read file %q: %w" [filename] e), w)
       | Ok content =>
           match Index content target with
           | None => (Some (Errorf "unable to find the code %q to be uncommented" [target]), w)
           | Some idx =>
               let uncommented := (λ l, TrimPrefix l prefix) <$> scanned target in
               match uncommented with
               | [] => (None, w)
               | _ =>
                   let '(err, w) := WriteFile filename (strTake idx content +:+ join newline uncommented
                     +:+ strDrop (idx + String.length target) content) 420 w in
                   (Wrapf "failed to write file %q: %w" [filename] <$> err, w)
               end
           end
       end.
Proof. apply UncommentCode_eq. Qed.

Lemma GetNonEmptyLines_Contains output t :
  t ≠ "" → containsByte LF t = false →
  existsb (λ line, Contains line t) (GetNonEmptyLines output) = Contains output t.
Proof.
  intros Hne Ht. apply eq_true_iff_eq. rewrite existsb_exists, Contains_iff. split.
  - intros (line & Hl & (a & b & ->)%Contains_iff). apply list_elem_of_In in Hl.
    apply list_elem_of_filter in Hl as [_ (a' & b' & ->)%splitByte_elem].
    exists (a' +:+ a), (b +:+ b'). by rewrite !str_app_assoc.
  - intros (a & b & ->). destruct (splitByte_infix LF a t b Ht) as (p & Hp & Hc). exists p. split; [|done].
    apply list_elem_of_In, list_elem_of_filter. split; [|done]. intros ->.
    apply Contains_iff in Hc as ([|] & ? & Hc); [|done]. by destruct t.
Qed.

(** The check for cert-manager finds it exactly when the command succeeds and its output
    has the name of one of the CRDs anywhere. *)
Theorem IsCertManagerCRDsInstalled_spec (w : W) :
  IsCertManagerCRDsInstalled w =
  let '(output, err, w') := Run (Command "kubectl" ["get"; "crds"]) w in
  (bool_decide (err = None) && existsb (Contains output) certManagerCRDs, w').
Proof.
  unfold IsCertManagerCRDsInstalled. destruct (Run _ w) as [[output [e|]] w']; [done|].
  cbn [existsb certManagerCRDs]. by rewrite !GetNonEmptyLines_Contains.
Qed.

(** C39 (Uncommenting restores the code).  When the first occurrence of the target is code
    that was commented out with the prefix, its lines fitting the scanner's buffer and
    free of carriage returns, [UncommentCode] writes the file with that code as it was
    before and everything around it unchanged.  A line break at the end of the target is
    replaced with it and not written back. *)
Theorem UncommentCode_restores filename prefix code before after (nl : bool) (w : W) :
  let target := commentOut prefix code +:+ (if nl then newline else "") in
  prefix ≠ "" → containsByte LF prefix = false → containsByte CR (prefix +:+ code) = false →
  Forall (λ l, (String.length (prefix +:+ l) < MaxScanTokenSize)%nat) (splitByte LF code) →
  ReadFile filename w = Ok (before +:+ target +:+ after) →
  (∀ a b, before +:+ target +:+ after = a +:+ target +:+ b → (String.length before <= String.length a)%nat) →
  UncommentCode filename target prefix w =
  Some (let '(err, w') := WriteFile filename (before +:+ code +:+ after) 420 w in
        (Wrapf "failed to write file %q: %w" [filename] <$> err, w')).
Proof.
  intros target Hne HLF HCR Hfit Hread Hfirst. rewrite UncommentCode_eq, Hread.
  assert (Index (before +:+ target +:+ after) target = Some (String.length before)) as ->
    by (apply Index_Some; eauto).
  assert (scanned target = (λ l, prefix +:+ l) <$> splitByte LF code) as -> by by apply scanned_comment.
  rewrite <- list_fmap_compose, (list_fmap_ext _ id), list_fmap_id by (intros; apply TrimPrefix_app).
  destruct (splitByte_spec LF code) as (Hj & Hnil & _). fold newline in Hj. cbv zeta.
  rewrite Hj, strTake_app, <- str_length_app, <- (str_app_assoc before target after), strDrop_app.
  by destruct (splitByte LF code).
Qed.
End specs.

Module TestUtilsExamples.

(** A machine with files, whose commands succeed, and a log. *)
Record machine := mkMachine { files : gmap string string; wd : string; ran : list Cmd }.
#[export] Instance machineOS : OS machine := {|
  Getwd m := (wd m, None);
  Chdir d m := (None, mkMachine (files m) d (ran m));
  Environ m := ["PATH=/bin"];
  LookupEnv n m := if String.eqb n "KIND" then Some "/opt/kind" else None;
  ReadFile f m := match files m !! f with Some c => Ok c | None => Err (Opaque "no such file") end;
  WriteFile f c _ m := (None, mkMachine (<[f := c]> (files m)) (wd m) (ran m));
  CombinedOutput c m := ("issuers.cert-manager.io" +:+ newline, None, mkMachine (files m) (wd m) (ran m ++ [c]));
  GinkgoWriter _ _ m := m;
|}.

Definition code : string := "- ../webhook" +:+ newline +:+ "- ../certmanager".
Definition kustomization : string :=
  "resources:" +:+ newline +:+ "#- ../webhook" +:+ newline +:+ "#- ../certmanager" +:+ newline +:+ "patches:".
Definition host : machine := mkMachine {[ "kustomization.yaml" := kustomization ]} "/src/kreg/test/e2e" [].

Lemma UncommentCode_restores_witness :
  UncommentCode "kustomization.yaml" (commentOut "#" code) "#" host =
  Some (None, mkMachine {[ "kustomization.yaml" :=
    "resources:" +:+ newline +:+ code +:+ newline +:+ "patches:" ]} "/src/kreg/test/e2e" []).
Proof.
  pose proof (UncommentCode_restores "kustomization.yaml" "#" code ("resources:" +:+ newline) (newline +:+ "patches:")
    false host) as Hok. cbv zeta in Hok. rewrite app_empty_r in Hok. rewrite Hok; clear Hok.
  - vm_compute. reflexivity.
  - done.
  - reflexivity.
  - reflexivity.
  - do 2 (apply Forall_cons; split; [apply Nat.ltb_lt; by vm_compute|]). apply Forall_nil. exact I.
  - reflexivity.
  - intros a b Hab. apply Nat.nlt_ge. intros Hlt.
    assert (Index kustomization (commentOut "#" code) = Some 11%nat) as (_ & _ & _ & _ & Hmin)%Index_Some
      by by vm_compute.
    specialize (Hmin a b Hab). simpl in Hlt. lia.
Defined.

Example run_in_project : ran (Run (Command "kubectl" ["get"; "pods"]) host).2 =
  [mkCmd ["kubectl"; "get"; "pods"] "/src/kreg" ["PATH=/bin"; "GO111MODULE=on"]].
Proof. reflexivity. Qed.
Example crds_found : (IsCertManagerCRDsInstalled host).1 = true.
Proof. reflexivity. Qed.
Example kind_from_env : cmd_Args <$> ran (LoadImageToKindClusterWithName "kreg:dev" host).2 =
  [["/opt/kind"; "load"; "docker-image"; "kreg:dev"; "--name"; "kind"]].
Proof. reflexivity. Qed.
End TestUtilsExamples.
